(** * scripts/add_images.py: a shallow embedding and its properties

    Python text ([str]) is a list of Unicode code points; a code point is a
    number in [N].  Indices that Python returns as [-1] for "not found" are
    [option nat] here, [None] standing for [-1].  Everything the script
    takes from the Python standard library and from the outside world
    (case mapping, percent-decoding, replacement templates of [re.sub],
    the HTML tokenizer, the converter process, directory listings) is a
    field of [PyRuntime] or of [Env]; the code of the script itself is
    written out.  Files are read and written as on a POSIX system, where
    text mode turns every line ending into a line feed on reading and
    writes a line feed as it is. *)

From Stdlib Require Import Strings.String Strings.Ascii.
From Stdlib Require Import Numbers.DecimalString Numbers.DecimalNat.
From Stdlib Require Import List Arith NArith ZArith Bool Lia.
From Stdlib Require Import Sorting.Permutation Sorting.Sorted.
Import ListNotations.

Set Implicit Arguments.

(* ------------------------------------------------------------------ *)
(** ** Text *)

Definition char := N.
Definition str := list char.

(** A literal of the source, character by character. *)
Definition py (s : string) : str :=
  map N_of_ascii (list_ascii_of_string s).

(** A literal in which a backquote stands for the double quote. *)
Definition pyq (s : string) : str :=
  map (fun c => if (c =? 96)%N then 34%N else c) (py s).

(** The double quote, which the literals below splice in by hand. *)
Definition dq : char := 34%N.
Definition backslash : char := 92%N.
Definition percent : char := 37%N.
Definition slash : char := 47%N.
Definition dot : char := 46%N.
Definition newline : char := 10%N.
Definition carriage_return : char := 13%N.

Definition str_eq_dec : forall a b : str, {a = b} + {a <> b} :=
  list_eq_dec N.eq_dec.

(** [s.startswith(p)] *)
Fixpoint startswith (p s : str) : bool :=
  match p, s with
  | [], _ => true
  | x :: p', y :: s' => N.eqb x y && startswith p' s'
  | _ :: _, [] => false
  end.

(** [find_at sub s pos]: [s] is the text from absolute index [pos] on;
    the lowest index of an occurrence of [sub], if there is one. *)
Fixpoint find_at (sub s : str) (pos : nat) : option nat :=
  if startswith sub s then Some pos
  else match s with
       | [] => None
       | _ :: s' => find_at sub s' (S pos)
       end.

(** [s.find(sub, start)] for [0 <= start]. *)
Definition find (sub s : str) (start : nat) : option nat :=
  if start <=? length s then find_at sub (skipn start s) start else None.

(** [rfind_at sub s pos]: the highest index of an occurrence of [sub] in
    [s], the text from absolute index [pos] on. *)
Fixpoint rfind_at (sub s : str) (pos : nat) : option nat :=
  match s with
  | [] => if startswith sub [] then Some pos else None
  | _ :: s' =>
      match rfind_at sub s' (S pos) with
      | Some i => Some i
      | None => if startswith sub s then Some pos else None
      end
  end.

(** [s.rfind(sub, start, stop)] for [0 <= start], [0 <= stop]: the
    occurrence lies wholly inside [s[start:stop]]. *)
Definition rfind (sub s : str) (start stop : nat) : option nat :=
  if start <=? Nat.min stop (length s)
  then rfind_at sub (skipn start (firstn stop s)) start
  else None.

(** [sub in s] *)
Definition contains (sub s : str) : bool :=
  match find sub s 0 with Some _ => true | None => false end.

(** [s[:i]] and [s[i:]] for [0 <= i]. *)
Definition upto (i : nat) (s : str) : str := firstn i s.
Definition from (i : nat) (s : str) : str := skipn i s.

(** A surrogate code point.  A text holds one where it comes from a file
    name that is not valid UTF-8 ([os.fsdecode] with [surrogateescape]),
    as the slug of a reader page may; it is the one thing that the
    [utf-8] codec refuses to encode. *)
Definition is_surrogate (c : char) : bool :=
  ((55296 <=? c) && (c <=? 57343))%N.

(** [s.encode('utf-8')] does not raise. *)
Definition encodable (s : str) : bool :=
  forallb (fun c => negb (is_surrogate c)) s.

(** [s.encode('utf-8')] for an encodable text. *)
Definition utf8_char (c : char) : list N :=
  (if c <? 128 then [c]
   else if c <? 2048 then
     [N.lor 192 (N.shiftr c 6); N.lor 128 (N.land c 63)]
   else if c <? 65536 then
     [N.lor 224 (N.shiftr c 12);
      N.lor 128 (N.land (N.shiftr c 6) 63);
      N.lor 128 (N.land c 63)]
   else
     [N.lor 240 (N.shiftr c 18);
      N.lor 128 (N.land (N.shiftr c 12) 63);
      N.lor 128 (N.land (N.shiftr c 6) 63);
      N.lor 128 (N.land c 63)])%N.

Definition utf8_encode (s : str) : list N := flat_map utf8_char s.

(** [len(s.encode('utf-8'))] *)
Definition utf8_len (s : str) : nat := length (utf8_encode s).

(** What text mode makes of the line endings on reading: [\r\n] and a
    lone [\r] become [\n]. *)
Fixpoint universal_newlines (s : str) : str :=
  match s with
  | [] => []
  | c :: s' =>
      if (c =? carriage_return)%N then
        match s' with
        | c' :: s'' =>
            if (c' =? newline)%N then newline :: universal_newlines s''
            else newline :: universal_newlines s'
        | [] => [newline]
        end
      else c :: universal_newlines s'
  end.

(* ------------------------------------------------------------------ *)
(** ** Page Patcher: locating the splice region *)

(** [open_tag = '<div class="reader-content">'] *)
Definition open_tag : str :=
  py "<div class=" ++ dq :: py "reader-content" ++ dq :: py ">".

(** ['<a class="file-link-btn"'] *)
Definition file_link_anchor : str :=
  py "<a class=" ++ dq :: py "file-link-btn" ++ [dq].

Definition close_div : str := py "</div>".

(** ['<!-- lo-images -->'] *)
Definition lo_marker : str := py "<!-- lo-images -->".

(** Lines 330-335: [close_idx] before the fallback. *)
Definition anchored_close (page_content : str) (content_start : nat)
  : option nat :=
  match find file_link_anchor page_content content_start with
  | Some file_link_idx =>
      rfind close_div page_content content_start file_link_idx
  | None => None
  end.

(** Lines 330-339: the index of the closing tag, given [content_start]. *)
Definition locate_close (page_content : str) (content_start : nat)
  : option nat :=
  match anchored_close page_content content_start with
  | Some close_idx => Some close_idx
  | None => find close_div page_content content_start
  end.

Inductive warning :=
| WarnNoContainer   (* Could not find reader-content div *)
| WarnNoClose.      (* Could not find closing </div> *)

(** Lines 321-349: either the new page content or the warning printed. *)
Definition splice (page_content new_body : str) : warning + str :=
  match find open_tag page_content 0 with
  | None => inl WarnNoContainer
  | Some open_idx =>
      let content_start := open_idx + length open_tag in
      match locate_close page_content content_start with
      | None => inl WarnNoClose
      | Some close_idx =>
          inr (upto content_start page_content
               ++ (newline :: lo_marker ++ newline :: new_body ++ [newline])
               ++ from close_idx page_content)
      end
  end.

(* ------------------------------------------------------------------ *)
(** ** Dictionaries and directories

    A Python [dict] keeps its keys in insertion order and assigning to a
    key that is present keeps the key's place; a directory is listed the
    same way here. *)

Section Assoc.
Variables K V : Type.
Variable K_eq_dec : forall a b : K, {a = b} + {a <> b}.

Fixpoint lookup (k : K) (d : list (K * V)) : option V :=
  match d with
  | [] => None
  | (k', v) :: d' => if K_eq_dec k k' then Some v else lookup k d'
  end.

(** [d[k] = v] *)
Fixpoint assign (k : K) (v : V) (d : list (K * V)) : list (K * V) :=
  match d with
  | [] => [(k, v)]
  | (k', v') :: d' =>
      if K_eq_dec k k' then (k, v) :: d' else (k', v') :: assign k v d'
  end.

Fixpoint remove_key (k : K) (d : list (K * V)) : list (K * V) :=
  match d with
  | [] => []
  | (k', v') :: d' =>
      if K_eq_dec k k' then remove_key k d' else (k', v') :: remove_key k d'
  end.

Definition keys (d : list (K * V)) : list K := map fst d.
Definition values (d : list (K * V)) : list V := map snd d.
End Assoc.

(* ------------------------------------------------------------------ *)
(** ** The file system the script sees

    A file is its bytes on disk together with what Python's decoder makes
    of them: the text that [read_text(encoding='utf-8', errors='replace')]
    gives (decoded, the line endings translated) and whether strict UTF-8
    decoding succeeds, in which case [read_text(encoding='utf-8')] gives
    the same text.  A reader page is [ARCHIVE_ROOT/<theme>/read/<page>],
    named by the pair; a converter output file is named by its temporary
    directory and its file name; the image directory of a page is
    [ARCHIVE_ROOT/<theme>/read/img/<slug>]; the profile directory of a
    worker is [/tmp/lo_profile_<worker_id>]. *)

Record file := mkFile {
  f_bytes : list N;
  f_text : str;
  f_strict : bool
}.

(** [stat().st_size] *)
Definition f_size (f : file) : nat := length (f_bytes f).

(** What [write_text(s, encoding='utf-8')] leaves on disk when [s] can be
    encoded: the bytes of [s], which are read back with the line endings
    translated. *)
Definition text_file (s : str) : file :=
  mkFile (utf8_encode s) (universal_newlines s) true.

(** What opening a file for writing leaves before anything is written. *)
Definition empty_file : file := mkFile [] [] true.

Definition rpath := (str * str)%type.       (* theme directory, page file *)
Definition tpath := (str * str)%type.       (* temporary directory, file *)

Definition rpath_eq_dec : forall a b : rpath, {a = b} + {a <> b}.
Proof. decide equality; apply str_eq_dec. Defined.

Record report_row := mkRow {
  row_updated : nat;
  row_images : nat;
  row_before : nat;
  row_after : nat
}.

Record report_file := mkFileRow {
  rf_theme : str;
  rf_source : str;
  rf_reader : str;
  rf_num_images : nat
}.

(** [image_report.json], field by field (the time stamp left out). *)
Record report := mkReport {
  rep_dry_run : bool;
  rep_themes : list (str * report_row);
  rep_totals : report_row;
  rep_errors : nat;
  rep_skipped_no_images : nat;
  rep_files : list report_file
}.

Record World := mkWorld {
  pages : list (rpath * file);                 (* reader pages *)
  sources : str -> str -> bool;                (* <theme>/files/<name> exists *)
  tmpdirs : list (str * list (str * file));    (* live temporary dirs *)
  imgdirs : list (rpath * list (str * file));  (* (theme, slug) image dirs *)
  report_json : option report;
  stdout : list (warning * rpath);             (* the WARNING lines *)
  profiles : list Z                            (* workers with a profile dir *)
}.

Inductive exn := Exception (cls : string) (msg : str).

(** [str(e)] *)
Definition exn_str (e : exn) : str := let (_, m) := e in m.

(* ------------------------------------------------------------------ *)
(** ** Effects: state and exceptions *)

Inductive res (A : Type) :=
| Ok (a : A) (w : World)
| Raised (e : exn) (w : World).
Arguments Raised {A} e w.

Definition M (A : Type) := World -> res A.

Definition ret {A} (a : A) : M A := fun w => Ok a w.
Definition raise {A} (e : exn) : M A := fun w => Raised e w.
Definition bind {A B} (m : M A) (k : A -> M B) : M B :=
  fun w => match m w with
           | Ok a w' => k a w'
           | Raised e w' => Raised e w'
           end.
Definition get_world : M World := fun w => Ok w w.

Notation "x <- m ;; k" := (bind m (fun x => k))
  (at level 61, m at next level, right associativity).
Notation "m ;;; k" := (bind m (fun _ => k))
  (at level 61, right associativity).

Definition world_of {A} (r : res A) : World :=
  match r with Ok _ w => w | Raised _ w => w end.

(* ------------------------------------------------------------------ *)
(** ** Conversion results *)

(** The result dict of [convert_one]; a key that the code sets only on
    some paths is an [option]. *)
Record conv_result := mkResult {
  r_theme : str;
  r_source : str;
  r_reader : rpath;
  r_reader_slug : str;
  r_images : list str;
  r_error : option str;
  r_skipped : bool;
  r_body_html : option str;
  r_image_files : option (list (tpath * str));
  r_num_images : option nat;
  r_tmpdir : option str
}.

(** [result.get('image_files', [])] *)
Definition get_image_files (r : conv_result) : list (tpath * str) :=
  match r_image_files r with Some l => l | None => [] end.

(** [result.get('num_images', 0)] *)
Definition get_num_images (r : conv_result) : nat :=
  match r_num_images r with Some n => n | None => 0 end.

(* ------------------------------------------------------------------ *)
(** ** File operations *)

Definition FileNotFoundError : exn := Exception "FileNotFoundError" [].
Definition UnicodeDecodeError : exn := Exception "UnicodeDecodeError" [].
Definition UnicodeEncodeError : exn := Exception "UnicodeEncodeError" [].
Definition KeyError (k : string) : exn := Exception "KeyError" (py k).

(** [reader_path.stat().st_size] *)
Definition stat_page (p : rpath) : M nat := fun w =>
  match lookup rpath_eq_dec p (pages w) with
  | Some f => Ok (f_size f) w
  | None => Raised FileNotFoundError w
  end.

(** [reader_path.read_text(encoding='utf-8')] *)
Definition read_page_strict (p : rpath) : M str := fun w =>
  match lookup rpath_eq_dec p (pages w) with
  | Some f => if f_strict f then Ok (f_text f) w
              else Raised UnicodeDecodeError w
  | None => Raised FileNotFoundError w
  end.

(** The world with the file [f] at [p]. *)
Definition set_page (p : rpath) (f : file) (w : World) : World :=
  mkWorld (assign rpath_eq_dec p f (pages w))
          (sources w) (tmpdirs w) (imgdirs w)
          (report_json w) (stdout w) (profiles w).

(** [reader_path.write_text(s, encoding='utf-8')]: the file is opened for
    writing, which empties it, and then [s] is encoded and written; when
    [s] cannot be encoded the call raises and the file stays empty. *)
Definition write_page (p : rpath) (s : str) : M unit := fun w =>
  if encodable s then Ok tt (set_page p (text_file s) w)
  else Raised UnicodeEncodeError (set_page p empty_file w).

(** [len(s.encode('utf-8'))] *)
Definition encoded_len (s : str) : M nat := fun w =>
  if encodable s then Ok (utf8_len s) w else Raised UnicodeEncodeError w.

Definition tmp_file (f : tpath) (w : World) : option file :=
  match lookup str_eq_dec (fst f) (tmpdirs w) with
  | Some d => lookup str_eq_dec (snd f) d
  | None => None
  end.

(** [f.stat().st_size] for a converter output file *)
Definition stat_tmp (f : tpath) : M nat := fun w =>
  match tmp_file f w with
  | Some x => Ok (f_size x) w
  | None => Raised FileNotFoundError w
  end.

(** [img_dir.mkdir(parents=True, exist_ok=True)] *)
Definition mkdir_img (d : rpath) : M unit := fun w =>
  match lookup rpath_eq_dec d (imgdirs w) with
  | Some _ => Ok tt w
  | None => Ok tt (mkWorld (pages w) (sources w) (tmpdirs w)
                           (imgdirs w ++ [(d, [])])
                           (report_json w) (stdout w) (profiles w))
  end.

(** [print(f'  WARNING: ...')] *)
Definition warn (x : warning) (p : rpath) : M unit := fun w =>
  Ok tt (mkWorld (pages w) (sources w) (tmpdirs w) (imgdirs w)
                 (report_json w) (stdout w ++ [(x, p)]) (profiles w)).

(** [shutil.rmtree(tmpdir, ignore_errors=True)] *)
Definition rmtree (d : str) : M unit := fun w =>
  Ok tt (mkWorld (pages w) (sources w)
                 (remove_key str_eq_dec d (tmpdirs w)) (imgdirs w)
                 (report_json w) (stdout w) (profiles w)).

Section Patcher.
(** The outside world may make a copy fail (a full disk, a permission):
    [copy_error src img_dir name] is the exception it then raises. *)
Variable copy_error : tpath -> rpath -> str -> option exn.

(** [shutil.copy2(str(src_file), str(dst))], then [dst.stat().st_size] *)
Definition copy2 (src : tpath) (d : rpath) (name : str) : M nat := fun w =>
  match tmp_file src w with
  | None => Raised FileNotFoundError w
  | Some x =>
      match copy_error src d name with
      | Some e => Raised e w
      | None =>
          match lookup rpath_eq_dec d (imgdirs w) with
          | None => Raised FileNotFoundError w
          | Some files =>
              Ok (f_size x)
                 (mkWorld (pages w) (sources w) (tmpdirs w)
                          (assign rpath_eq_dec d
                             (assign str_eq_dec name x files) (imgdirs w))
                          (report_json w) (stdout w) (profiles w))
          end
      end
  end.

(** The copy loop of lines 355-359, returning [total_img_size]. *)
Fixpoint copy_images (l : list (tpath * str)) (d : rpath) (total : nat)
  : M nat :=
  match l with
  | [] => ret total
  | (src_file, new_name) :: l' =>
      n <- copy2 src_file d new_name ;;
      copy_images l' d (total + n)
  end.

(** [sum(f.stat().st_size for f, _ in ...)] *)
Fixpoint sum_sizes (l : list (tpath * str)) : M nat :=
  match l with
  | [] => ret 0
  | (f, _) :: l' =>
      n <- stat_tmp f ;;
      m <- sum_sizes l' ;;
      ret (n + m)
  end.

Definition update_reader_page (result : conv_result) (dry_run : bool)
  : M (nat * nat) :=
  let reader_path := r_reader result in
  let reader_slug := r_reader_slug result in
  let theme_dir := fst reader_path in
  before_size <- stat_page reader_path ;;
  if dry_run then
    body_size <-
      encoded_len (match r_body_html result with
                   | Some b => b
                   | None => []
                   end) ;;
    img_size <- sum_sizes (get_image_files result) ;;
    ret (before_size, before_size + body_size + img_size)
  else
    page_content <- read_page_strict reader_path ;;
    match r_body_html result with
    | None => raise (KeyError "body_html")
    | Some new_body =>
        match splice page_content new_body with
        | inl x =>
            warn x reader_path ;;;
            ret (before_size, before_size)
        | inr new_content =>
            let img_dir := (theme_dir, reader_slug) in
            mkdir_img img_dir ;;;
            total_img_size <- copy_images (get_image_files result) img_dir 0 ;;
            write_page reader_path new_content ;;;
            after <- stat_page reader_path ;;
            ret (before_size, after + total_img_size)
        end
    end.
End Patcher.

(* ------------------------------------------------------------------ *)
(** ** Characters and ordering *)

(** Python's white space ([str.isspace], [\s] of [re] on [str]). *)
Definition isspace (c : char) : bool :=
  ((9 <=? c) && (c <=? 13) || (28 <=? c) && (c <=? 32)
   || (c =? 133) || (c =? 160) || (c =? 5760)
   || (8192 <=? c) && (c <=? 8202)
   || (c =? 8232) || (c =? 8233) || (c =? 8239) || (c =? 8287)
   || (c =? 12288))%N.

Definition is_ascii (c : char) : bool := (c <? 128)%N.
Definition is_ascii_lower (c : char) : bool := ((97 <=? c) && (c <=? 122))%N.
Definition is_ascii_upper (c : char) : bool := ((65 <=? c) && (c <=? 90))%N.

(** [str.lower] on one ASCII character. *)
Definition ascii_lower (c : char) : char :=
  if is_ascii_upper c then (c + 32)%N else c.

(** A literal character [p] of a pattern compiled with [re.IGNORECASE]
    against the character [c] of the text: [c] matches when its simple
    lower case is the lower case of [p] or one of the fixes [re] keeps for
    it ([i] and dotless i, [s] and long s); the capital I with dot and the
    Kelvin sign have [i] and [k] as lower case.  [p] is a character of the
    patterns below: an ASCII letter or punctuation. *)
Definition ci_eq (p c : char) : bool :=
  let lo := ascii_lower p in
  ((c =? lo) || (is_ascii_lower lo && (c =? lo - 32))
   || ((lo =? 105) && ((c =? 304) || (c =? 305)))
   || ((lo =? 107) && (c =? 8490))
   || ((lo =? 115) && (c =? 383)))%N.

(** [a < b] on [str]: by code point, a proper prefix first. *)
Fixpoint str_ltb (a b : str) : bool :=
  match a, b with
  | _, [] => false
  | [], _ :: _ => true
  | x :: a', y :: b' =>
      if (x <? y)%N then true
      else if (y <? x)%N then false
      else str_ltb a' b'
  end.

(** [a < b] on pairs of [str], as Python compares tuples. *)
Definition pair_ltb (a b : str * str) : bool :=
  if str_eq_dec (fst a) (fst b) then str_ltb (snd a) (snd b)
  else str_ltb (fst a) (fst b).

Section Sorting.
Variables A B : Type.
Variable key : A -> B.
Variable ltb : B -> B -> bool.

(** [x] goes behind every element that is not greater: the sort is
    stable, as [sorted] is. *)
Fixpoint insert_sorted (x : A) (l : list A) : list A :=
  match l with
  | [] => [x]
  | y :: l' =>
      if ltb (key x) (key y) then x :: l else y :: insert_sorted x l'
  end.

(** [sorted(l, key=key)] *)
Definition sorted (l : list A) : list A :=
  fold_left (fun acc x => insert_sorted x acc) l [].
End Sorting.

Definition sorted_str (l : list str) : list str :=
  sorted (fun x => x) str_ltb l.

(* ------------------------------------------------------------------ *)
(** ** Paths *)

(** [s.split(c)] *)
Fixpoint split_on (c : char) (s : str) : list str :=
  match s with
  | [] => [[]]
  | x :: s' =>
      match split_on c s' with
      | [] => [[]]
      | part :: parts =>
          if (x =? c)%N then [] :: part :: parts
          else (x :: part) :: parts
      end
  end.

(** [PurePosixPath(p).name] of a relative path: the last component, empty
    components and ['.'] dropped. *)
Definition path_name (p : str) : str :=
  last (filter (fun part =>
                  negb (if str_eq_dec part [] then true
                        else if str_eq_dec part [dot] then true else false))
               (split_on slash p)) [].

(** The index that [name.rfind('.')] gives. *)
Definition last_dot (name : str) : option nat :=
  rfind [dot] name 0 (length name).

(** [PurePath.suffix]: [name[i:]] when [0 < i < len(name) - 1]. *)
Definition name_suffix (name : str) : str :=
  match last_dot name with
  | Some i => if (0 <? i) && (S i <? length name) then from i name else []
  | None => []
  end.

(** [PurePath.stem] *)
Definition name_stem (name : str) : str :=
  match last_dot name with
  | Some i => if (0 <? i) && (S i <? length name) then upto i name else name
  | None => name
  end.

(** [Path(p).suffix] *)
Definition path_suffix (p : str) : str := name_suffix (path_name p).

(** [os.path.basename(p)]: [p[p.rfind('/') + 1:]] *)
Definition basename (p : str) : str :=
  match rfind [slash] p 0 (length p) with
  | Some i => from (S i) p
  | None => p
  end.

(** [s.strip()] *)
Fixpoint lstrip (s : str) : str :=
  match s with
  | c :: s' => if isspace c then lstrip s' else s
  | [] => []
  end.

Definition strip (s : str) : str := rev (lstrip (rev (lstrip s))).

(** [s.endswith(p)] *)
Definition endswith (p s : str) : bool := startswith (rev p) (rev s).

(* ------------------------------------------------------------------ *)
(** ** Regular expressions

    The patterns of the script, matched the way [re] matches them: a
    backtracking search that tries the alternatives of a choice from left
    to right, lets a greedy star take an iteration before it tries to go
    on and a lazy star go on before it takes one, and keeps the first
    match found.  Every pattern of the script has at most one capturing
    group and none matches the empty string.  Where a comment quotes a
    pattern, Q stands for the double quote and a blank is put between a
    star and a closing parenthesis. *)

Inductive re :=
| Eps
| Chr (p : char -> bool)
| Seq (a b : re)
| Alt (a b : re)
| Star (a : re)
| LazyStar (a : re)
| Group (a : re).

Definition Plus (a : re) : re := Seq a (Star a).
Definition Opt (a : re) : re := Alt a Eps.

(** A literal, and a literal under [re.IGNORECASE]. *)
Fixpoint Lit (s : str) : re :=
  match s with
  | [] => Eps
  | c :: s' => Seq (Chr (N.eqb c)) (Lit s')
  end.

Fixpoint LitI (s : str) : re :=
  match s with
  | [] => Eps
  | c :: s' => Seq (Chr (ci_eq c)) (LitI s')
  end.

Definition Space : re := Chr isspace.
Definition Any : re := Chr (fun _ => true).
Definition NoneOf (s : str) : re :=
  Chr (fun c => negb (existsb (N.eqb c) s)).

Definition capture := option str.

(** [rmatch r s g k]: match [r] at the head of [s], then go on with [k] on
    what is left; [g] is group 1 so far. *)
Fixpoint rmatch (r : re) (s : str) (g : capture)
    (k : str -> capture -> option (str * capture)) {struct r}
  : option (str * capture) :=
  match r with
  | Eps => k s g
  | Chr p =>
      match s with
      | c :: s' => if p c then k s' g else None
      | [] => None
      end
  | Seq a b => rmatch a s g (fun s' g' => rmatch b s' g' k)
  | Alt a b =>
      match rmatch a s g k with
      | Some x => Some x
      | None => rmatch b s g k
      end
  | Group a =>
      rmatch a s g
        (fun s' _ => k s' (Some (firstn (length s - length s') s)))
  | Star a =>
      (fix loop (fuel : nat) (s : str) (g : capture) {struct fuel} :=
         match fuel with
         | 0 => k s g
         | S fuel' =>
             match rmatch a s g
                     (fun s' g' =>
                        if length s' <? length s then loop fuel' s' g'
                        else None) with
             | Some x => Some x
             | None => k s g
             end
         end) (length s) s g
  | LazyStar a =>
      (fix loop (fuel : nat) (s : str) (g : capture) {struct fuel} :=
         match fuel with
         | 0 => k s g
         | S fuel' =>
             match k s g with
             | Some x => Some x
             | None =>
                 rmatch a s g
                   (fun s' g' =>
                      if length s' <? length s then loop fuel' s' g'
                      else None)
             end
         end) (length s) s g
  end.

(** A match object: where it starts, [group(0)], [group(1)], the rest. *)
Record rmatched := mkMatch {
  m_start : nat;
  m_group0 : str;
  m_group1 : capture;
  m_rest : str
}.

Definition match_here (r : re) (s : str) (pos : nat) : option rmatched :=
  match rmatch r s None (fun s' g => Some (s', g)) with
  | Some (s', g) => Some (mkMatch pos (firstn (length s - length s') s) g s')
  | None => None
  end.

(** [re.search(r, s)] *)
Fixpoint search_at (r : re) (s : str) (pos : nat) : option rmatched :=
  match match_here r s pos with
  | Some m => Some m
  | None =>
      match s with
      | [] => None
      | _ :: s' => search_at r s' (S pos)
      end
  end.

Definition re_search (r : re) (s : str) : option rmatched :=
  search_at r s 0.

(** [re.sub(r, repl, s)] with a callable [repl], which may raise. *)
Fixpoint sub_loop (r : re) (repl : rmatched -> exn + str)
    (fuel : nat) (s : str) (pos : nat) : exn + str :=
  match fuel with
  | 0 => inr s
  | S fuel' =>
      match match_here r s pos with
      | Some m =>
          if length (m_rest m) <? length s then
            match repl m with
            | inl e => inl e
            | inr t =>
                match sub_loop r repl fuel' (m_rest m)
                        (pos + length (m_group0 m)) with
                | inl e => inl e
                | inr out => inr (t ++ out)
                end
            end
          else
            match s with
            | [] => inr []
            | c :: s' =>
                match sub_loop r repl fuel' s' (S pos) with
                | inl e => inl e
                | inr out => inr (c :: out)
                end
            end
      | None =>
          match s with
          | [] => inr []
          | c :: s' =>
              match sub_loop r repl fuel' s' (S pos) with
              | inl e => inl e
              | inr out => inr (c :: out)
              end
          end
      end
  end.

Definition re_sub_with (r : re) (repl : rmatched -> exn + str) (s : str)
  : exn + str :=
  sub_loop r repl (S (length s)) s 0.

(** [re.sub(r, '', s)] *)
Definition re_delete (r : re) (s : str) : str :=
  match re_sub_with r (fun _ => inr []) s with
  | inr out => out
  | inl _ => s
  end.

(* ------------------------------------------------------------------ *)
(** ** What the script takes from the Python library *)

Inductive html_event :=
| StartTag (tag : str) (attrs : list (str * option str))
| EndTag (tag : str)
| StartEndTag (tag : str) (attrs : list (str * option str))
| Data (data : str)
| EntityRef (name : str)
| CharRef (name : str)
| Comment (data : str)
| OtherEvent.  (* declarations and processing instructions *)

(** [x in l] for a tuple or list of strings *)
Definition in_strs (x : str) (l : list str) : bool :=
  if in_dec str_eq_dec x l then true else false.

Definition no_char (c : char) (s : str) : bool :=
  negb (existsb (N.eqb c) s).

Class PyRuntime := {
  (** [str.lower] *)
  str_lower : str -> str;
  str_lower_ascii :
    forall s, forallb is_ascii s = true -> str_lower s = map ascii_lower s;
  (** [urllib.parse.unquote], which returns a string without [%] as it
      is *)
  unquote : str -> str;
  unquote_plain : forall s, no_char percent s = true -> unquote s = s;
  (** The replacement template of [re.sub]: an error of [re], or the
      function from the matched text to its replacement; a template
      without a backslash is taken literally. *)
  compile_template : str -> exn + (str -> str);
  compile_template_plain :
    forall t, no_char backslash t = true ->
    exists f, compile_template t = inr f /\ forall m, f m = t;
  (** The handler calls that [HTMLParser(convert_charrefs=False).feed]
      makes, in order, or the exception it raises (an [AssertionError] on
      a marked section it does not know); none for the empty text. *)
  html_feed : str -> exn + list html_event;
  html_feed_empty : html_feed [] = inr []
}.

(* ------------------------------------------------------------------ *)
(** ** Markup Transformer *)

(** [sep.join(parts)] *)
Fixpoint join (sep : str) (parts : list str) : str :=
  match parts with
  | [] => []
  | [p] => p
  | p :: ps => p ++ sep ++ join sep ps
  end.

(** [TagStripper._rebuild_tag] *)
Definition _rebuild_tag (tag : str) (attrs : list (str * option str))
    (self_closing : bool) : str :=
  let parts :=
    tag :: map (fun kv =>
                  match snd kv with
                  | None => fst kv
                  | Some v => fst kv ++ py "=" ++ dq :: v ++ [dq]
                  end) attrs in
  let close := if self_closing then py " /" else [] in
  py "<" ++ join (py " ") parts ++ close ++ py ">".

Section Transformer.
Context {RT : PyRuntime}.

(** What one handler call of [TagStripper] appends to [self.result]. *)
Definition TagStripper_handle (strip_tags : list str) (ev : html_event)
  : list str :=
  match ev with
  | StartTag tag attrs =>
      if in_strs (str_lower tag) strip_tags then []
      else [_rebuild_tag tag attrs false]
  | EndTag tag =>
      if in_strs (str_lower tag) strip_tags then []
      else [py "</" ++ tag ++ py ">"]
  | StartEndTag tag attrs =>
      if in_strs (str_lower tag) strip_tags then []
      else [_rebuild_tag tag attrs true]
  | Data data => [data]
  | EntityRef name => [py "&" ++ name ++ py ";"]
  | CharRef name => [py "&#" ++ name ++ py ";"]
  | Comment data => [py "<!--" ++ data ++ py "-->"]
  | OtherEvent => []
  end.

Definition strip_tags (html_str : str) (tags : list str) : exn + str :=
  let strip := map str_lower tags in
  match html_feed html_str with
  | inl e => inl e
  | inr events => inr (concat (flat_map (TagStripper_handle strip) events))
  end.

(** [\s+class=Q(western|cjk|ctl)Q], writing Q for the double quote *)
Definition re_class : re :=
  Seq (Plus Space)
    (Seq (Lit (py "class=" ++ [dq]))
       (Seq (Group (Alt (Lit (py "western"))
                      (Alt (Lit (py "cjk")) (Lit (py "ctl")))))
          (Lit [dq]))).

(** [font-size\s*:\s*[^;Q}]+;?\s*] *)
Definition re_font_size : re :=
  Seq (Lit (py "font-size"))
    (Seq (Star Space)
       (Seq (Lit (py ":"))
          (Seq (Star Space)
             (Seq (Plus (NoneOf (py ";" ++ dq :: py "}")))
                (Seq (Opt (Lit (py ";"))) (Star Space)))))).

(** [\s+style=Q\s*Q] *)
Definition re_empty_style : re :=
  Seq (Plus Space)
    (Seq (Lit (py "style=" ++ [dq])) (Seq (Star Space) (Lit [dq]))).

(** [<div[^>]*column-count[^>]*>] with [re.IGNORECASE] *)
Definition re_column_div : re :=
  Seq (LitI (py "<div"))
    (Seq (Star (NoneOf (py ">")))
       (Seq (LitI (py "column-count"))
          (Seq (Star (NoneOf (py ">"))) (LitI (py ">"))))).

(** [<img\s+([^>]* )/?>] with [re.IGNORECASE] *)
Definition re_img : re :=
  Seq (LitI (py "<img"))
    (Seq (Plus Space)
       (Seq (Group (Star (NoneOf (py ">"))))
          (Seq (Opt (LitI (py "/"))) (LitI (py ">"))))).

(** [src=Q([^Q]* )Q] *)
Definition re_src_value : re :=
  Seq (Lit (py "src=" ++ [dq]))
    (Seq (Group (Star (NoneOf [dq]))) (Lit [dq])).

(** [\s+(width|height|border|name)=Q[^Q]*Q] *)
Definition re_presentational : re :=
  Seq (Plus Space)
    (Seq (Group (Alt (Lit (py "width"))
                   (Alt (Lit (py "height"))
                      (Alt (Lit (py "border")) (Lit (py "name"))))))
       (Seq (Lit (py "=" ++ [dq]))
          (Seq (Star (NoneOf [dq])) (Lit [dq])))).

(** [src=Q[^Q]*Q] *)
Definition re_src : re :=
  Seq (Lit (py "src=" ++ [dq]))
    (Seq (Star (NoneOf [dq])) (Lit [dq])).

(** [re.sub(r, template, s)] with a replacement string. *)
Definition re_sub_template (r : re) (template : str) (s : str)
  : exn + str :=
  match compile_template template with
  | inl e => inl e
  | inr f => re_sub_with r (fun m => inr (f (m_group0 m))) s
  end.

(** [f'{i:03d}'] *)
Definition fmt_03d (i : nat) : str :=
  let d := py (NilEmpty.string_of_uint (Nat.to_uint i)) in
  repeat 48%N (3 - length d) ++ d.

(** Lines 124-129, the loop from index [i] on. *)
Fixpoint number_images (i : nat) (sorted_images : list str)
    (img_map : list (str * str)) : list (str * str) :=
  match sorted_images with
  | [] => img_map
  | orig_name :: rest =>
      let ext :=
        match path_suffix orig_name with
        | [] => py ".png"
        | e => e
        end in
      let new_name := py "img" ++ fmt_03d i ++ ext in
      number_images (S i) rest (assign str_eq_dec orig_name new_name img_map)
  end.

Definition build_img_map (image_files : list str) : list (str * str) :=
  number_images 1 (sorted_str image_files) [].

Definition rewrite_img (img_map : list (str * str)) (reader_slug : str)
    (m : rmatched) : exn + str :=
  let tag_content := match m_group1 m with Some g => g | None => [] end in
  match re_search re_src_value tag_content with
  | None => inr (m_group0 m)
  | Some src_match =>
      let src_basename :=
        basename (unquote (match m_group1 src_match with
                           | Some g => g
                           | None => []
                           end)) in
      match lookup str_eq_dec src_basename img_map with
      | None => inr (m_group0 m)
      | Some renamed =>
          let new_src := py "img/" ++ reader_slug ++ py "/" ++ renamed in
          let cleaned := re_delete re_presentational tag_content in
          match re_sub_template re_src
                  (py "src=" ++ dq :: new_src ++ [dq]) cleaned with
          | inl e => inl e
          | inr cleaned' => inr (py "<img " ++ strip cleaned' ++ py ">")
          end
      end
  end.

(** Line 154 *)
Definition rewrite_images (img_map : list (str * str)) (reader_slug : str)
    (html : str) : exn + str :=
  re_sub_with re_img (rewrite_img img_map reader_slug) html.

Definition clean_lo_html (body_html : str) (image_files : list str)
    (reader_slug : str) : exn + (str * list (str * str)) :=
  match strip_tags body_html [py "font"] with
  | inl e => inl e
  | inr result =>
      let result := re_delete re_class result in
      let result := re_delete re_font_size result in
      let result := re_delete re_empty_style result in
      let result := re_delete re_column_div result in
      let img_map := build_img_map image_files in
      match rewrite_images img_map reader_slug result with
      | inl e => inl e
      | inr result => inr (result, img_map)
      end
  end.

(** [<body[^>]*>(.*?)</body>] with [re.DOTALL | re.IGNORECASE] *)
Definition re_body : re :=
  Seq (LitI (py "<body"))
    (Seq (Star (NoneOf (py ">")))
       (Seq (LitI (py ">"))
          (Seq (Group (LazyStar Any)) (LitI (py "</body>"))))).

(** [extract_lo_body], on the text read from the converter's output. *)
Definition extract_lo_body (content : str) : str :=
  match re_search re_body content with
  | Some m => strip (match m_group1 m with Some g => g | None => [] end)
  | None => content
  end.
End Transformer.

(* ------------------------------------------------------------------ *)
(** ** Conversion Job Runner *)

(** One entry of the work list: the arguments of [convert_one]
    ([source_path] is [ARCHIVE_ROOT/<theme>/files/<source>]). *)
Record work_item := mkWork {
  wk_theme : str;
  wk_source : str;
  wk_reader : rpath;
  wk_worker_id : Z;
  wk_index : nat;
  wk_total : nat
}.

(** What the outside world does inside the [try] block up to the return
    of [subprocess.run]: [os.makedirs] raises and there is no profile
    directory; or the profile directory is there and the call of the
    converter times out, or raises another exception, or the converter
    exits, leaving files in the output directory (listed in the order
    the directory enumerates them). *)
Inductive lo_outcome :=
| LoNoProfile (e : exn)
| LoTimeout
| LoRaise (e : exn)
| LoExit (returncode : Z) (stderr : str) (outdir : list (str * file)).

Record Env := mkEnv {
  (** [tempfile.mkdtemp]: a directory that does not exist yet. *)
  mkdtemp : Z -> list str -> str;
  mkdtemp_fresh : forall worker_id live, ~ In (mkdtemp worker_id live) live;
  (** The converter run on [ARCHIVE_ROOT/<theme>/files/<source>]. *)
  soffice : work_item -> lo_outcome;
  (** The order in which the futures complete. *)
  as_completed : list work_item -> list work_item;
  as_completed_perm : forall l, Permutation l (as_completed l);
  (** A copy that the outside world makes fail. *)
  copy_error : tpath -> rpath -> str -> option exn
}.

Definition TIMEOUT_SECONDS : nat := 60.

Definition IMAGE_SUFFIXES : list str :=
  [py ".png"; py ".jpg"; py ".jpeg"; py ".gif"; py ".bmp"; py ".tiff";
   py ".tif"; py ".svg"; py ".wmf"; py ".emf"].

(** [tempfile.mkdtemp(...)] *)
Definition make_tmpdir (E : Env) (worker_id : Z) : M str := fun w =>
  let d := mkdtemp E worker_id (keys (tmpdirs w)) in
  Ok d (mkWorld (pages w) (sources w) (tmpdirs w ++ [(d, [])]) (imgdirs w)
                (report_json w) (stdout w) (profiles w)).

(** [os.makedirs(profile_dir, exist_ok=True)] *)
Definition make_profile (worker_id : Z) : M unit := fun w =>
  Ok tt (mkWorld (pages w) (sources w) (tmpdirs w) (imgdirs w)
                 (report_json w) (stdout w)
                 (if in_dec Z.eq_dec worker_id (profiles w) then profiles w
                  else profiles w ++ [worker_id])).

(** The converter writing its output into [tmpdir]. *)
Definition fill_tmpdir (d : str) (files : list (str * file)) : M unit :=
  fun w =>
    Ok tt (mkWorld (pages w) (sources w)
                   (assign str_eq_dec d files (tmpdirs w)) (imgdirs w)
                   (report_json w) (stdout w) (profiles w)).

(** [result['error'] = msg] and the other assignments to the result. *)
Definition set_error (result : conv_result) (msg : str) : conv_result :=
  mkResult (r_theme result) (r_source result) (r_reader result)
    (r_reader_slug result) (r_images result) (Some msg)
    (r_skipped result) (r_body_html result) (r_image_files result)
    (r_num_images result) (r_tmpdir result).

Definition set_skipped (result : conv_result) : conv_result :=
  mkResult (r_theme result) (r_source result) (r_reader result)
    (r_reader_slug result) (r_images result) (r_error result)
    true (r_body_html result) (r_image_files result)
    (r_num_images result) (r_tmpdir result).

Definition set_success (result : conv_result) (body_html : str)
    (image_files : list (tpath * str)) (images : list str)
    (num_images : nat) : conv_result :=
  mkResult (r_theme result) (r_source result) (r_reader result)
    (r_reader_slug result) images (r_error result)
    (r_skipped result) (Some body_html) (Some image_files)
    (Some num_images) (r_tmpdir result).

Definition set_tmpdir (result : conv_result) (tmpdir : str) : conv_result :=
  mkResult (r_theme result) (r_source result) (r_reader result)
    (r_reader_slug result) (r_images result) (r_error result)
    (r_skipped result) (r_body_html result) (r_image_files result)
    (r_num_images result) (Some tmpdir).

(** [f'{n}'] for an [int] *)
Definition fmt_int (n : Z) : str :=
  py (NilEmpty.string_of_int (Z.to_int n)).

Definition fmt_nat (n : nat) : str :=
  py (NilEmpty.string_of_uint (Nat.to_uint n)).

Section Runner.
Context {RT : PyRuntime}.
Variable E : Env.

(** Line 254: the HTML files of the output directory. *)
Definition html_outputs (outdir : list (str * file)) : list str :=
  filter (endswith (py ".html")) (keys outdir)
  ++ filter (endswith (py ".htm")) (keys outdir).

(** Lines 262-268: the image files next to [lo_html_path], sorted. *)
Definition companion_images (outdir : list (str * file))
    (lo_html_path : str) : list str :=
  let all_files := nodup str_eq_dec (keys outdir) in
  filter (fun f =>
            negb (if str_eq_dec f lo_html_path then true else false)
            && in_strs (str_lower (path_suffix f)) IMAGE_SUFFIXES)
         (sorted_str all_files).

(** The [try] block of [convert_one] from the return of the converter
    on: the result, or the exception that leaves the block. *)
Definition convert_body (result : conv_result) (tmpdir : str)
    (returncode : Z) (stderr : str) (outdir : list (str * file))
  : exn + conv_result :=
  if negb (returncode =? 0)%Z then
    inr (set_error result
           (py "LO exit code " ++ fmt_int returncode ++ py ": "
            ++ upto 200 stderr))
  else
    match html_outputs outdir with
    | [] => inr (set_error result (py "No HTML output produced"))
    | lo_html_path :: _ =>
        let image_files := companion_images outdir lo_html_path in
        match image_files with
        | [] => inr (set_skipped result)
        | _ :: _ =>
            let body_html :=
              extract_lo_body
                (match lookup str_eq_dec lo_html_path outdir with
                 | Some f => f_text f
                 | None => []
                 end) in
            let image_basenames := image_files in
            match clean_lo_html body_html image_basenames
                    (r_reader_slug result) with
            | inl e => inl e
            | inr (cleaned_html, img_map) =>
                inr (set_success result cleaned_html
                       (map (fun f =>
                               ((tmpdir, f),
                                match lookup str_eq_dec f img_map with
                                | Some n => n
                                | None => f
                                end)) image_files)
                       (values img_map)
                       (length image_files))
            end
        end
    end.

(** The result dict with which [convert_one] starts. *)
Definition initial_result (args : work_item) : conv_result :=
  mkResult (wk_theme args) (wk_source args) (wk_reader args)
    (name_stem (snd (wk_reader args))) [] None false None None None None.

(** The result at the end of the [try] statement, before [finally]. *)
Definition attempt (args : work_item) (tmpdir : str) : conv_result :=
  let result := initial_result args in
  match soffice E args with
  | LoNoProfile e => set_error result (exn_str e)
  | LoTimeout =>
      set_error result
        (py "Timeout after " ++ fmt_nat TIMEOUT_SECONDS ++ py "s")
  | LoRaise e => set_error result (exn_str e)
  | LoExit returncode stderr outdir =>
      match convert_body result tmpdir returncode stderr outdir with
      | inr result' => result'
      | inl e => set_error result (exn_str e)
      end
  end.

Definition convert_one (args : work_item) : M conv_result :=
  tmpdir <- make_tmpdir E (wk_worker_id args) ;;
  (* try: the profile directory is made, the converter runs and the
     result is filled in *)
  match soffice E args with
  | LoNoProfile _ => ret tt
  | LoExit _ _ outdir =>
      make_profile (wk_worker_id args) ;;; fill_tmpdir tmpdir outdir
  | _ => make_profile (wk_worker_id args)
  end ;;;
  let result := attempt args tmpdir in
  (* finally *)
  match get_image_files result with
  | _ :: _ => ret (set_tmpdir result tmpdir)
  | [] => rmtree tmpdir ;;; ret result
  end.
End Runner.

(* ------------------------------------------------------------------ *)
(** ** Mapping Builder *)

Record cli_args := mkArgs {
  arg_workers : Z;
  arg_theme : option str;
  arg_force : bool;
  arg_dry_run : bool
}.

Definition is_digit (c : char) : bool := ((48 <=? c) && (c <=? 57))%N.

(** The glob pattern [[0-9][0-9]-*] on a directory name. *)
Definition is_theme_dir (name : str) : bool :=
  match name with
  | a :: b :: c :: _ => is_digit a && is_digit b && (c =? 45)%N
  | _ => false
  end.

(** [<a\s+class=Qfile-link-btnQ\s+href=Q\.\./files/([^Q]+)Q] with
    [re.IGNORECASE] *)
Definition re_file_link : re :=
  Seq (LitI (py "<a"))
    (Seq (Plus Space)
       (Seq (LitI (py "class=" ++ dq :: py "file-link-btn" ++ [dq]))
          (Seq (Plus Space)
             (Seq (LitI (py "href=" ++ dq :: py "../files/"))
                (Seq (Group (Plus (NoneOf [dq]))) (LitI [dq])))))).

Definition pair_eq_dec : forall a b : str * str, {a = b} + {a <> b} :=
  rpath_eq_dec.

Section Mapping.
Context {RT : PyRuntime}.

(** The source file a reader page links to, percent-decoded. *)
Definition linked_source (content : str) : option str :=
  match re_search re_file_link content with
  | Some m => Some (unquote (match m_group1 m with
                             | Some g => g
                             | None => []
                             end))
  | None => None
  end.

(** The reader pages of one theme, as [sorted(read_dir.glob('*.html'))]
    gives them. *)
Definition theme_pages (w : World) (theme_dir : str)
  : list (rpath * file) :=
  sorted (fun pf => snd (fst pf)) str_ltb
    (filter (fun pf =>
               (if str_eq_dec (fst (fst pf)) theme_dir then true else false)
               && endswith (py ".html") (snd (fst pf)))
            (pages w)).

(** The inner loop of [build_mapping]. *)
Fixpoint map_pages (w : World) (theme_dir : str)
    (l : list (rpath * file)) (mapping : list ((str * str) * rpath))
  : list ((str * str) * rpath) :=
  match l with
  | [] => mapping
  | (reader_html, f) :: l' =>
      let mapping' :=
        match linked_source (f_text f) with
        | Some source_filename =>
            if sources w theme_dir source_filename
            then assign pair_eq_dec (theme_dir, source_filename)
                   reader_html mapping
            else mapping
        | None => mapping
        end in
      map_pages w theme_dir l' mapping'
  end.

Definition build_mapping (themes : option (list str)) (w : World)
  : list ((str * str) * rpath) :=
  let theme_dirs :=
    sorted_str (filter is_theme_dir
                  (nodup str_eq_dec (map (fun pf => fst (fst pf))
                                       (pages w)))) in
  let theme_dirs :=
    match themes with
    | Some (t :: ts) => filter (fun d => in_strs d (t :: ts)) theme_dirs
    | _ => theme_dirs
    end in
  fold_left (fun mapping theme_dir =>
               map_pages w theme_dir (theme_pages w theme_dir) mapping)
            theme_dirs [].

(** Lines 402-413: the pages without the marker, and [skipped_existing]. *)
Fixpoint drop_processed (w : World) (mapping : list ((str * str) * rpath))
  : list ((str * str) * rpath) * nat :=
  match mapping with
  | [] => ([], 0)
  | (key, reader_html) :: rest =>
      let (filtered, skipped_existing) := drop_processed w rest in
      let content :=
        match lookup rpath_eq_dec reader_html (pages w) with
        | Some f => f_text f
        | None => []
        end in
      if contains lo_marker content
      then (filtered, S skipped_existing)
      else ((key, reader_html) :: filtered, skipped_existing)
  end.

Definition CONVERTIBLE : list str :=
  [py ".doc"; py ".docx"; py ".rtf"; py ".odt"].

(** The test of lines 420-422 on a source file name. *)
Definition convertible (source_filename : str) : bool :=
  in_strs (str_lower (path_suffix source_filename)) CONVERTIBLE.

Definition ZeroDivisionError : exn :=
  Exception "ZeroDivisionError" (py "integer modulo by zero").

(** Lines 416-424, from index [i] on. *)
Fixpoint prepare_work (workers : Z) (total : nat) (i : nat)
    (items : list ((str * str) * rpath)) : exn + list work_item :=
  match items with
  | [] => inr []
  | ((theme_name, source_filename), reader_html) :: rest =>
      if negb (convertible source_filename) then
        prepare_work workers total (S i) rest
      else if (workers =? 0)%Z then inl ZeroDivisionError
      else
        match prepare_work workers total (S i) rest with
        | inl e => inl e
        | inr work =>
            inr (mkWork theme_name source_filename reader_html
                   (Z.of_nat i mod workers) (S i) total :: work)
        end
  end.
End Mapping.

(* ------------------------------------------------------------------ *)
(** ** Orchestrator, patch phase and Reporter *)

(** [str(reader_html)], without the prefix [ARCHIVE_ROOT/] that all
    reader pages share. *)
Definition reader_str (p : rpath) : str := fst p ++ py "/read/" ++ snd p.

(** What the conversion phase has counted and kept so far. *)
Record tally := mkTally {
  t_results : list conv_result;
  t_errors : nat;
  t_skipped : nat;
  t_with_images : nat
}.

(** The truth value of [result['error']]. *)
Definition error_truthy (r : conv_result) : bool :=
  match r_error r with
  | Some (_ :: _) => true
  | _ => false
  end.

(** Lines 446-457 *)
Definition classify (result : conv_result) (t : tally) : tally :=
  if error_truthy result then
    mkTally (t_results t) (S (t_errors t)) (t_skipped t) (t_with_images t)
  else if r_skipped result then
    mkTally (t_results t) (t_errors t) (S (t_skipped t)) (t_with_images t)
  else
    mkTally (t_results t ++ [result]) (t_errors t) (t_skipped t)
      (S (t_with_images t)).

Definition zero_row : report_row := mkRow 0 0 0 0.

(** Lines 480-483 on the row of one theme. *)
Definition bump_row (s : report_row) (result : conv_result)
    (before after : nat) : report_row :=
  mkRow (row_updated s + 1)
        (row_images s + get_num_images result)
        (row_before s + before)
        (row_after s + after).

(** Lines 505-512 *)
Definition add_rows (total s : report_row) : report_row :=
  mkRow (row_updated total + row_updated s)
        (row_images total + row_images s)
        (row_before total + row_before s)
        (row_after total + row_after s).

Definition ValueError : exn :=
  Exception "ValueError" (py "max_workers must be greater than 0").

(** [report_path.write_text(json.dumps(report, indent=2) + '\n')] *)
Definition write_report (r : report) : M unit := fun w =>
  Ok tt (mkWorld (pages w) (sources w) (tmpdirs w) (imgdirs w)
                 (Some r) (stdout w) (profiles w)).

Section Main.
Context {RT : PyRuntime}.
Variable E : Env.

(** Lines 442-457, the futures taken in the order they complete. *)
Fixpoint convert_all (completed : list work_item) (t : tally) : M tally :=
  match completed with
  | [] => ret t
  | w :: rest =>
      result <- convert_one E w ;;
      convert_all rest (classify result t)
  end.

(** Lines 473-488 *)
Fixpoint patch_all (dry_run : bool) (results : list conv_result)
    (theme_stats : list (str * report_row)) : M (list (str * report_row)) :=
  match results with
  | [] => ret theme_stats
  | result :: rest =>
      let theme := r_theme result in
      let theme_stats :=
        match lookup str_eq_dec theme theme_stats with
        | None => assign str_eq_dec theme zero_row theme_stats
        | Some _ => theme_stats
        end in
      ba <- update_reader_page (copy_error E) result dry_run ;;
      let theme_stats :=
        match lookup str_eq_dec theme theme_stats with
        | Some s =>
            assign str_eq_dec theme (bump_row s result (fst ba) (snd ba))
              theme_stats
        | None => theme_stats
        end in
      (* [if tmpdir:], the empty string counting as no directory *)
      match r_tmpdir result with
      | Some (c :: d) => rmtree (c :: d)
      | _ => ret tt
      end ;;;
      patch_all dry_run rest theme_stats
  end.

Definition by_reader (results : list conv_result) : list conv_result :=
  sorted (fun r => reader_str (r_reader r)) str_ltb results.

(** Lines 500-549 *)
Definition make_report (dry_run : bool)
    (theme_stats : list (str * report_row)) (t : tally) : report :=
  let totals :=
    fold_left (fun total theme =>
                 match lookup str_eq_dec theme theme_stats with
                 | Some s => add_rows total s
                 | None => total
                 end)
              (sorted_str (keys theme_stats)) zero_row in
  mkReport dry_run theme_stats totals (t_errors t) (t_skipped t)
    (map (fun r => mkFileRow (r_theme r) (r_source r) (r_reader_slug r)
                     (get_num_images r))
         (by_reader (t_results t))).

(** Phases 3 and 4: lines 463-553. *)
Definition patch_and_report (dry_run : bool) (t : tally) : M unit :=
  match t_results t with
  | [] => ret tt
  | _ :: _ =>
      theme_stats <- patch_all dry_run (by_reader (t_results t)) [] ;;
      write_report (make_report dry_run theme_stats t)
  end.

(** Lines 396-424: the work list of a run. *)
Definition work_list (args : cli_args) (w : World) : exn + list work_item :=
  let themes :=
    match arg_theme args with
    | Some (c :: t) => Some [c :: t]
    | _ => None
    end in
  let mapping := build_mapping themes w in
  let mapping :=
    if arg_force args then mapping else fst (drop_processed w mapping) in
  prepare_work (arg_workers args) (length mapping) 0
    (sorted fst pair_ltb mapping).

Definition main (args : cli_args) : M unit :=
  w <- get_world ;;
  match work_list args w with
  | inl e => raise e
  | inr work =>
      if (arg_workers args <=? 0)%Z then raise ValueError
      else
        t <- convert_all (as_completed E work) (mkTally [] 0 0 0) ;;
        patch_and_report (arg_dry_run args) t
  end.
End Main.

(* ------------------------------------------------------------------ *)
(** ** Reporter: sizes for the console

    [format_size] divides by 1024 in floating point.  A size below
    [2^53] is a float without error and so is each of its quotients by a
    power of 1024, so the value is kept here as the fraction [num / den];
    [f'{x:.1f}'] rounds the exact value of the float to the nearest tenth,
    a tie to the even one. *)

(** The value [num / den] in tenths, rounded half to even. *)
Definition round_tenths (num den : Z) : Z :=
  let x := (10 * Z.abs num)%Z in
  let q := (x / den)%Z in
  let r := (x mod den)%Z in
  if (2 * r <? den)%Z then q
  else if (den <? 2 * r)%Z then (q + 1)%Z
  else if Z.even q then q else (q + 1)%Z.

(** [f'{x:.1f}'] for [x = num / den] *)
Definition fmt_1f (num den : Z) : str :=
  let t := round_tenths num den in
  (if (num <? 0)%Z then py "-" else [])
  ++ fmt_int (t / 10) ++ py "." ++ fmt_int (t mod 10).

(** The loop of [format_size] over the units that are left. *)
Fixpoint format_units (units : list string) (num den : Z) : str :=
  match units with
  | [] => fmt_1f num den ++ py " TB"
  | unit :: rest =>
      if (Z.abs num <? 1024 * den)%Z
      then fmt_1f num den ++ py " " ++ py unit
      else format_units rest num (1024 * den)
  end.

(** Lines 370-376 *)
Definition format_size (nbytes : Z) : str :=
  format_units ["B"; "KB"; "MB"; "GB"]%string nbytes 1.

(* ------------------------------------------------------------------ *)
(** ** The rename map in the words of the specification *)

(** The new name of the [i]-th original: [img], the number on three
    digits, the original suffix or [.png]. *)
Definition img_name (i : nat) (orig_name : str) : str :=
  py "img" ++ fmt_03d i
  ++ match path_suffix orig_name with
     | [] => py ".png"
     | e => e
     end.

(** The names of a sorted list numbered from [i] on. *)
Fixpoint numbered (i : nat) (sorted_names : list str) : list (str * str) :=
  match sorted_names with
  | [] => []
  | n :: rest => (n, img_name i n) :: numbered (S i) rest
  end.

(** The matches that [sub_loop] replaces. *)
Fixpoint sub_matches (r : re) (fuel : nat) (s : str) (pos : nat)
  : list rmatched :=
  match fuel with
  | 0 => []
  | S fuel' =>
      match match_here r s pos with
      | Some m =>
          if length (m_rest m) <? length s then
            m :: sub_matches r fuel' (m_rest m) (pos + length (m_group0 m))
          else
            match s with
            | [] => []
            | _ :: s' => sub_matches r fuel' s' (S pos)
            end
      | None =>
          match s with
          | [] => []
          | _ :: s' => sub_matches r fuel' s' (S pos)
          end
      end
  end.

(** The [<img>] tags of a fragment, as [re_img] finds them. *)
Definition img_matches (html : str) : list rmatched :=
  sub_matches re_img (S (length html)) html 0.

(** The [src] value of the tag has no percent escape. *)
Definition plain_src (m : rmatched) : bool :=
  match re_search re_src_value
          (match m_group1 m with Some g => g | None => [] end) with
  | Some sm =>
      no_char percent (match m_group1 sm with Some g => g | None => [] end)
  | None => true
  end.

(* ------------------------------------------------------------------ *)
(** ** A small outside world

    A runtime and an environment that meet what [PyRuntime] and [Env] ask
    for; the examples run in them. *)

(** A directory name longer than every name of [live]. *)
Definition fresh_name (worker_id : Z) (live : list str) : str :=
  py "lo_conv_" ++ fmt_int worker_id ++ py "_"
  ++ repeat 120%N (S (list_max (map (@length char) live))).

Lemma fresh_name_fresh (worker_id : Z) (live : list str) :
  ~ In (fresh_name worker_id live) live.
Proof.
  intros H. apply (in_map (@length char)) in H.
  assert (Hmax : Forall (fun k => k <= list_max (map (@length char) live))
                        (map (@length char) live))
    by (apply list_max_le; lia).
  rewrite Forall_forall in Hmax. apply Hmax in H.
  unfold fresh_name in H. rewrite !length_app, repeat_length in H. lia.
Qed.

(** An environment in which the futures complete in the order of
    submission and no copy fails. *)
Definition calm_env (soffice : work_item -> lo_outcome) : Env :=
  mkEnv fresh_name fresh_name_fresh soffice (fun l => l)
        (fun l => Permutation_refl l) (fun _ _ _ => None).

Lemma plain_lower_ascii (s : str) :
  forallb is_ascii s = true -> map ascii_lower s = map ascii_lower s.
Proof. reflexivity. Qed.

Lemma plain_template (t : str) :
  no_char backslash t = true ->
  exists f : str -> str,
    (inr (fun _ : str => t) : exn + (str -> str)) = inr f /\
    forall m, f m = t.
Proof. intros _. exists (fun _ => t). split; reflexivity. Qed.

(** A runtime that lowers only the ASCII letters, decodes nothing, takes
    every template literally and reads a text as one run of data. *)
Definition plain_runtime : PyRuntime :=
  Build_PyRuntime (map ascii_lower) plain_lower_ascii
    (fun s => s) (fun s _ => eq_refl)
    (fun t => inr (fun _ => t)) plain_template
    (fun s => inr (match s with [] => [] | _ => [Data s] end)) eq_refl.

(* ------------------------------------------------------------------ *)
(** ** Notions and examples used in the statements *)

Unset Implicit Arguments.

(** [sub] occurs in [s] at index [i]. *)
Definition occurs_at (sub s : str) (i : nat) : Prop :=
  i <= length s /\ startswith sub (skipn i s) = true.

(** Two worlds with the same files (the standard output set aside). *)
Definition same_files (w w' : World) : Prop :=
  pages w' = pages w /\ sources w' = sources w /\
  tmpdirs w' = tmpdirs w /\ imgdirs w' = imgdirs w /\
  report_json w' = report_json w /\ profiles w' = profiles w.

(** The sizes that [f.stat().st_size] finds for the files of [l]. *)
Definition total_size (w : World) (l : list (tpath * str)) : nat :=
  list_sum (map (fun p => match tmp_file (fst p) w with
                          | Some x => f_size x
                          | None => 0
                          end) l).

Definition all_present (w : World) (l : list (tpath * str)) : Prop :=
  forall src name, In (src, name) l -> tmp_file src w <> None.

(** The file [name] of the image directory [d]. *)
Definition img_file (w : World) (d : rpath) (name : str) : option file :=
  match lookup rpath_eq_dec d (imgdirs w) with
  | Some files => lookup str_eq_dec name files
  | None => None
  end.

(** Everything but the image directories is as it was. *)
Definition only_images_changed (w w' : World) : Prop :=
  pages w' = pages w /\ sources w' = sources w /\
  tmpdirs w' = tmpdirs w /\ report_json w' = report_json w /\
  stdout w' = stdout w /\ profiles w' = profiles w.

Definition after_mkdir (d : rpath) (w : World) : World :=
  world_of (mkdir_img d w).

Definition after_write (p : rpath) (s : str) (w : World) : World :=
  world_of (write_page p s w).

Definition after_warn (x : warning) (p : rpath) (w : World) : World :=
  world_of (warn x p w).

(** The body of a result, as [result.get('body_html', '')] gives it. *)
Definition body_of (result : conv_result) : str :=
  match r_body_html result with Some b => b | None => [] end.

(** The ways a call of [update_reader_page] can end. *)
Inductive update_outcome (copy_error : tpath -> rpath -> str -> option exn)
    (result : conv_result) (dry_run : bool) (w : World)
  : res (nat * nat) -> Prop :=
| UpRaised e w' :
    only_images_changed w w' ->
    (dry_run = true -> w' = w) ->
    update_outcome copy_error result dry_run w (Raised e w')
| UpDry f :
    dry_run = true ->
    lookup rpath_eq_dec (r_reader result) (pages w) = Some f ->
    encodable (body_of result) = true ->
    all_present w (get_image_files result) ->
    update_outcome copy_error result dry_run w
      (Ok (f_size f,
           f_size f
           + utf8_len (body_of result)
           + total_size w (get_image_files result)) w)
| UpAbort f new_body x :
    dry_run = false ->
    lookup rpath_eq_dec (r_reader result) (pages w) = Some f ->
    f_strict f = true ->
    r_body_html result = Some new_body ->
    splice (f_text f) new_body = inl x ->
    update_outcome copy_error result dry_run w
      (Ok (f_size f, f_size f) (after_warn x (r_reader result) w))
| UpPatched f new_body new_content n w2 :
    dry_run = false ->
    lookup rpath_eq_dec (r_reader result) (pages w) = Some f ->
    f_strict f = true ->
    r_body_html result = Some new_body ->
    splice (f_text f) new_body = inr new_content ->
    encodable new_content = true ->
    copy_images copy_error (get_image_files result)
      (fst (r_reader result), r_reader_slug result) 0
      (after_mkdir (fst (r_reader result), r_reader_slug result) w)
    = Ok n w2 ->
    update_outcome copy_error result dry_run w
      (Ok (f_size f, utf8_len new_content + n)
          (after_write (r_reader result) new_content w2))
| UpWriteFailed f new_body new_content n w2 :
    dry_run = false ->
    lookup rpath_eq_dec (r_reader result) (pages w) = Some f ->
    f_strict f = true ->
    r_body_html result = Some new_body ->
    splice (f_text f) new_body = inr new_content ->
    encodable new_content = false ->
    copy_images copy_error (get_image_files result)
      (fst (r_reader result), r_reader_slug result) 0
      (after_mkdir (fst (r_reader result), r_reader_slug result) w)
    = Ok n w2 ->
    update_outcome copy_error result dry_run w
      (Raised UnicodeEncodeError
         (set_page (r_reader result) empty_file w2)).

(** The text put between the opening tag and the closing tag. *)
Definition inserted (new_body : str) : str :=
  newline :: lo_marker ++ newline :: new_body ++ [newline].

(** The fallback of lines 337-339 is taken. *)
Definition fallback_taken (page_content : str) (content_start : nat) : Prop :=
  anchored_close page_content content_start = None.

(** No closing tag lies wholly between [content_start] and [limit]. *)
Definition no_close_between (page_content : str) (content_start limit : nat)
  : Prop :=
  forall j, content_start <= j -> j + length close_div <= limit ->
            ~ occurs_at close_div page_content j.

(** A page whose download link comes before any closing tag. *)
Definition page_link_first : str :=
  open_tag ++ file_link_anchor ++ py ">x</a>" ++ close_div.

(** Lines 486-488 *)
Definition after_cleanup (result : conv_result) (w : World) : World :=
  match r_tmpdir result with
  | Some (c :: d) => world_of (rmtree (c :: d) w)
  | _ => w
  end.

(** Lines 474-483 on [theme_stats] *)
Definition stats_step (theme_stats : list (str * report_row))
    (result : conv_result) (ba : nat * nat) : list (str * report_row) :=
  let theme := r_theme result in
  let theme_stats :=
    match lookup str_eq_dec theme theme_stats with
    | None => assign str_eq_dec theme zero_row theme_stats
    | Some _ => theme_stats
    end in
  match lookup str_eq_dec theme theme_stats with
  | Some s =>
      assign str_eq_dec theme (bump_row s result (fst ba) (snd ba)) theme_stats
  | None => theme_stats
  end.

(** A one-page archive. *)
Definition demo_page : rpath := (py "01-letters", py "letter.html").

Definition demo_world : World :=
  mkWorld [(demo_page, text_file (open_tag ++ py "text" ++ close_div))]
          (fun _ _ => true) [] [] None [] [].

Definition is_error (r : conv_result) : Prop := r_error r <> None.
Definition is_skipped (r : conv_result) : Prop := r_skipped r = true.
Definition has_images (r : conv_result) : Prop := get_image_files r <> [].

(** Exactly one of error, skipped and success. *)
Definition one_outcome (r : conv_result) : Prop :=
  (is_error r /\ ~ is_skipped r /\ ~ has_images r) \/
  (~ is_error r /\ is_skipped r /\ ~ has_images r) \/
  (~ is_error r /\ ~ is_skipped r /\ has_images r).

(** The world with its temporary directories replaced. *)
Definition with_tmpdirs (w : World) (t : list (str * list (str * file)))
  : World :=
  mkWorld (pages w) (sources w) t (imgdirs w) (report_json w) (stdout w)
          (profiles w).

(** A file name that [glob('*.html')] or [glob('*.htm')] finds. *)
Definition is_html_name (name : str) : bool :=
  endswith (py ".html") name || endswith (py ".htm") name.

(** A file name with one of the image suffixes, in any letter case. *)
Definition is_image_name {RT : PyRuntime} (name : str) : bool :=
  in_strs (str_lower (path_suffix name)) IMAGE_SUFFIXES.

(** The world with the profile directory of a worker. *)
Definition with_profile (worker_id : Z) (w : World) : World :=
  world_of (make_profile worker_id w).

(** The world after the [os.makedirs] of [convert_one]. *)
Definition after_makedirs (E : Env) (args : work_item) (w : World) : World :=
  match soffice E args with
  | LoNoProfile _ => w
  | _ => with_profile (wk_worker_id args) w
  end.

(** The image directory of a result. *)
Definition img_dir_of (result : conv_result) : rpath :=
  (fst (r_reader result), r_reader_slug result).

(** The directories that the patch phase has removed by the time it is
    through with [done]. *)
Definition removed_by (done : list conv_result) (d : str) : Prop :=
  exists r, In r done /\ r_tmpdir r = Some d.

(** An image file of ten bytes: the signature of a PNG file and two
    more, and what the decoder makes of them. *)
Definition image_stub : file :=
  mkFile [137; 80; 78; 71; 13; 10; 26; 10; 0; 0]%N
         [65533; 80; 78; 71; 10; 26; 10; 0; 0]%N false.

(** A page without the container and a result with one image file. *)
Definition bare_world : World :=
  mkWorld [(demo_page, text_file (py "<html>no container</html>"))]
          (fun _ _ => true)
          [(py "/tmp/lo_conv_0_x", [(py "a.png", image_stub)])]
          [] None [] [].

Definition bare_result : conv_result :=
  mkResult (py "01-letters") (py "letter.docx") demo_page (py "letter")
    [py "img001.png"] None false (Some (py "<p>hello</p>"))
    (Some [((py "/tmp/lo_conv_0_x", py "a.png"), py "img001.png")])
    (Some 1) (Some (py "/tmp/lo_conv_0_x")).

Definition updated_of (theme_stats : list (str * report_row)) (theme : str)
  : nat :=
  match lookup str_eq_dec theme theme_stats with
  | Some s => row_updated s
  | None => 0
  end.

(** The results of one theme. *)
Definition count_theme (theme : str) (results : list conv_result) : nat :=
  length (filter (fun r => if str_eq_dec (r_theme r) theme then true
                           else false) results).

(** The mapping from which a run builds its work list. *)
Definition selected_mapping {RT : PyRuntime} (args : cli_args) (w : World)
  : list ((str * str) * rpath) :=
  let themes :=
    match arg_theme args with
    | Some (c :: t) => Some [c :: t]
    | _ => None
    end in
  let mapping := build_mapping themes w in
  if arg_force args then mapping else fst (drop_processed w mapping).

(** [a <= b] on [str] *)
Definition str_le (a b : str) : Prop := str_ltb b a = false.

(** The example of the specification: two images, listed out of order. *)
Definition letter_images : list str := [py "picture2.png"; py "picture1.jpg"].

Definition letter_fragment : str :=
  pyq ("<p><img src=`picture2.png` name=`Image2` align=`left` width=`100` "
       ++ "height=`80` border=`0`/><img src=`picture1.jpg` name=`Image1`/></p>").

(** The handler calls that [HTMLParser] makes on [letter_fragment]. *)
Definition letter_events : list html_event :=
  [StartTag (py "p") [];
   StartEndTag (py "img")
     [(py "src", Some (py "picture2.png")); (py "name", Some (py "Image2"));
      (py "align", Some (py "left")); (py "width", Some (py "100"));
      (py "height", Some (py "80")); (py "border", Some (py "0"))];
   StartEndTag (py "img")
     [(py "src", Some (py "picture1.jpg")); (py "name", Some (py "Image1"))];
   EndTag (py "p")].

(** What [clean_lo_html] makes of [letter_fragment]: the tags rebuilt by
    [TagStripper], with a blank before the closing slash, and rewritten. *)
Definition letter_cleaned : str :=
  pyq ("<p><img src=`img/letter/img002.png` align=`left` />"
       ++ "<img src=`img/letter/img001.jpg` /></p>").

(** A marked section with an unknown keyword: [HTMLParser.feed] raises
    an [AssertionError] on it. *)
Definition odd_section : str := py "<![foo]]>".

Definition odd_section_error : exn :=
  Exception "AssertionError"
    (py "unknown status keyword 'foo' in marked section").

(** A runtime like [plain_runtime] that knows the handler calls for
    [letter_fragment] and the exception for [odd_section]. *)
Definition letter_runtime : PyRuntime :=
  Build_PyRuntime (map ascii_lower) plain_lower_ascii
    (fun s => s) (fun s _ => eq_refl)
    (fun t => inr (fun _ => t)) plain_template
    (fun s => if str_eq_dec s letter_fragment then inr letter_events
              else if str_eq_dec s odd_section then inl odd_section_error
              else inr (match s with [] => [] | _ => [Data s] end))
    eq_refl.

(** An image tag whose first attribute is [width]. *)
Definition width_first : str := pyq "<img width=`10` src=`a.png`>".
Definition width_last : str := pyq "<img src=`a.png` width=`10`>".

Definition marked (f : file) : Prop := contains lo_marker (f_text f) = true.

(** What a step of a run may do to the reader pages: it writes none but
    those of [readers], and a page it writes is afterwards one that
    [allowed] admits. *)
Definition writes_only (allowed : file -> Prop) (readers : list rpath)
    (w w' : World) : Prop :=
  forall p,
    (~ In p readers ->
     lookup rpath_eq_dec p (pages w') = lookup rpath_eq_dec p (pages w)) /\
    (forall f, lookup rpath_eq_dec p (pages w) = Some f ->
       exists f', lookup rpath_eq_dec p (pages w') = Some f' /\
                  (f' = f \/ allowed f')).

(** A page with the marker, or one that a failed write has left empty. *)
Definition marked_or_empty (f : file) : Prop := marked f \/ f = empty_file.

(** The text that the filter of lines 402-413 reads from a page. *)
Definition page_text (w : World) (p : rpath) : str :=
  match lookup rpath_eq_dec p (pages w) with
  | Some f => f_text f
  | None => []
  end.

(** The reader pages of the work list of a run. *)
Definition work_readers {RT : PyRuntime} (args : cli_args) (w : World) : list rpath :=
  match work_list args w with
  | inr work => map wk_reader work
  | inl _ => []
  end.

(** Two pages whose sources both convert, and a converter that fails in
    the profile of worker 1. *)
Definition linked_page (source : string) : file :=
  text_file (open_tag ++ py "old" ++ close_div ++ [newline]
             ++ file_link_anchor ++ py " href=" ++ dq :: py "../files/"
             ++ py source ++ dq :: py ">Download</a>").

Definition two_page_world : World :=
  mkWorld [((py "01-letters", py "a.html"), linked_page "a.doc");
           ((py "01-letters", py "b.html"), linked_page "b.doc")]
          (fun _ _ => true) [] [] None [] [].

Definition worker_one_fails : Env :=
  calm_env (fun wk =>
              if (wk_worker_id wk =? 1)%Z then LoTimeout
              else LoExit 0 []
                     [(py "out.html", text_file []);
                      (py "out_html_1.png", image_stub)]).

Definition two_workers : cli_args := mkArgs 2 None false false.

(** A converter that fails with an exception without a message. *)
Definition silent_failure : Env :=
  calm_env (fun _ => LoRaise (Exception "Exception" [])).

(** A converter that writes the HTML file and no image. *)
Definition text_only : Env :=
  calm_env (fun _ => LoExit 0 [] [(py "out.html", text_file [])]).

(** The page of [bare_result] with its container, and the image file
    of the result in its temporary directory. *)
Definition photo_world : World :=
  mkWorld [(demo_page, linked_page "letter.docx")]
          (fun _ _ => true)
          [(py "/tmp/lo_conv_0_x", [(py "a.png", image_stub)])]
          [] None [] [].

(** The second work item of a run over [two_page_world]. *)
Definition second_item : work_item :=
  mkWork (py "01-letters") (py "b.doc") (py "01-letters", py "b.html") 1 2 2.

(** The page of [photo_world] after the patch with [<p>hello</p>]. *)
Definition patched_letter : str :=
  open_tag ++ inserted (py "<p>hello</p>")
  ++ from (length open_tag + 3) (f_text (linked_page "letter.docx")).

(** The page [f'] is the page [f] with nothing changed but bytes that
    lie behind an opening tag and before a closing tag. *)
Definition contained_patch (f f' : file) : Prop :=
  exists pre mid mid' suf,
    f_bytes f = (pre ++ utf8_encode open_tag) ++ mid
                ++ (utf8_encode close_div ++ suf) /\
    f_bytes f' = (pre ++ utf8_encode open_tag) ++ mid'
                 ++ (utf8_encode close_div ++ suf).

(** A reader page whose file name is not valid UTF-8: the byte [E9] of
    the name [caf<E9>.html] comes into Python as the surrogate [U+DCE9].
    The converter leaves one image next to its HTML output. *)
Definition latin1_slug : str := py "caf" ++ [56553%N].
Definition latin1_page : rpath := (py "01-letters", latin1_slug ++ py ".html").

Definition latin1_start : World :=
  mkWorld [(latin1_page, linked_page "letter.docx")]
          (fun _ _ => true) [] [] None [] [].

Definition latin1_item : work_item :=
  mkWork (py "01-letters") (py "letter.docx") latin1_page 0 1 1.

Definition one_image_output : list (str * file) :=
  [(py "out.html",
    text_file (pyq "<html><body><p><img src=`a.png`></p></body></html>"));
   (py "a.png", image_stub)].

Definition one_image : Env := calm_env (fun _ => LoExit 0 [] one_image_output).

(** What [convert_one] returns for [latin1_item], and the world then. *)
Definition latin1_result : conv_result :=
  mkResult (py "01-letters") (py "letter.docx") latin1_page latin1_slug
    [py "img001.png"] None false
    (Some (pyq "<p><img src=`img/" ++ latin1_slug ++ pyq "/img001.png`></p>"))
    (Some [((py "lo_conv_0_x", py "a.png"), py "img001.png")])
    (Some 1) (Some (py "lo_conv_0_x")).

Definition latin1_world : World :=
  mkWorld [(latin1_page, linked_page "letter.docx")]
          (fun _ _ => true)
          [(py "lo_conv_0_x", one_image_output)]
          [] None [] [0%Z].

(** A page with DOS line endings: the bytes on disk and the text that
    Python reads from them. *)
Definition dos_page : file :=
  mkFile (utf8_encode (py "<html>" ++ [carriage_return; newline]
                       ++ open_tag ++ py "old" ++ close_div))
         (py "<html>" ++ [newline] ++ open_tag ++ py "old" ++ close_div)
         true.

Definition dos_world : World :=
  mkWorld [(demo_page, dos_page)]
          (fun _ _ => true)
          [(py "/tmp/lo_conv_0_x", [(py "a.png", image_stub)])]
          [] None [] [].

(** The value of a text of decimal digits, read from the left. *)
Definition digits_value (s : str) : nat :=
  fold_left (fun acc c => 10 * acc + (N.to_nat c - 48)) s 0.

(** What [Path.suffix] gives when it is not empty: a dot and a
    non-empty rest with neither dot nor slash. *)
Definition suffix_like (e : str) : Prop :=
  exists rest, e = dot :: rest /\ rest <> [] /\
               no_char dot rest = true /\ no_char slash rest = true.

(** [m.group(1)], the empty text when the group did not take part. *)
Definition group1 (m : rmatched) : str :=
  match m_group1 m with Some g => g | None => [] end.

(** The file name that [rewrite_img] looks up for a tag, when the tag has
    a [src] attribute. *)
Definition src_basename {RT : PyRuntime} (m : rmatched) : option str :=
  match re_search re_src_value (group1 m) with
  | Some src_match => Some (basename (unquote (group1 src_match)))
  | None => None
  end.

(** The temporary directories that results still hold. *)
Definition live_dirs (results : list conv_result) : list str :=
  flat_map (fun r => match r_tmpdir r with Some d => [d] | None => [] end)
           results.

(** [shutil.rmtree] for each directory of a list in turn. *)
Definition remove_dirs (ds : list str) (t : list (str * list (str * file)))
  : list (str * list (str * file)) :=
  fold_left (fun acc d => remove_key str_eq_dec d acc) ds t.

(** The conversion of a work item ends in an error whose message is not
    empty (the test of line 446 finds it true), or is skipped for want of
    images. *)
Definition without_images {RT : PyRuntime} (E : Env) (wk : work_item) : Prop :=
  forall tmpdir,
    error_truthy (attempt E wk tmpdir) = true \/
    r_skipped (attempt E wk tmpdir) = true.

(** What every result of [convert_one] satisfies: the fields taken from
    the work item, and when there are image files, the rest. *)
Definition well_formed_result {RT : PyRuntime} (args : work_item)
    (result : conv_result) : Prop :=
  r_theme result = wk_theme args /\
  r_source result = wk_source args /\
  r_reader result = wk_reader args /\
  r_reader_slug result = name_stem (snd (wk_reader args)) /\
  (get_image_files result <> [] ->
   let originals := map (fun p => snd (fst p)) (get_image_files result) in
   r_error result = None /\ r_skipped result = false /\
   (exists body_html, r_body_html result = Some body_html) /\
   r_num_images result = Some (length (get_image_files result)) /\
   length (r_images result) = length (get_image_files result) /\
   NoDup originals /\
   NoDup (map snd (get_image_files result)) /\
   forall src new_name, In (src, new_name) (get_image_files result) ->
     in_strs (str_lower (path_suffix (snd src))) IMAGE_SUFFIXES = true /\
     lookup str_eq_dec (snd src) (build_img_map originals) = Some new_name).

(** [page] is a reader page of the theme [theme] that links to the
    existing source [src]. *)
Definition links_to {RT : PyRuntime} (w : World) (theme src : str)
    (page : rpath) : Prop :=
  fst page = theme /\ endswith (py ".html") (snd page) = true /\
  sources w theme src = true /\
  exists f, In (page, f) (pages w) /\ linked_source (f_text f) = Some src.

(** The themes that [build_mapping] goes through. *)
Definition selected_theme (themes : option (list str)) (theme : str) : Prop :=
  is_theme_dir theme = true /\
  match themes with
  | Some (t :: ts) => In theme (t :: ts)
  | _ => True
  end.

(** The image count of a theme in the statistics. *)
Definition images_of (theme_stats : list (str * report_row)) (theme : str)
  : nat :=
  match lookup str_eq_dec theme theme_stats with
  | Some s => row_images s
  | None => 0
  end.

(** The rows of [files] that belong to a theme. *)
Definition files_of (theme : str) (files : list report_file)
  : list report_file :=
  filter (fun r => if str_eq_dec (rf_theme r) theme then true else false)
         files.

(** The sum of a column of the theme table. *)
Definition column (proj : report_row -> nat)
    (theme_stats : list (str * report_row)) : nat :=
  list_sum (map proj (values theme_stats)).

(** What the report of a run says about its jobs. *)
Definition report_accounts (dry_run : bool) (jobs : nat) (rep : report)
  : Prop :=
  rep_dry_run rep = dry_run /\
  rep_errors rep + rep_skipped_no_images rep + length (rep_files rep) = jobs /\
  rep_files rep <> [] /\
  NoDup (keys (rep_themes rep)) /\
  (forall theme,
     In theme (keys (rep_themes rep)) <-> files_of theme (rep_files rep) <> []) /\
  (forall theme row,
     lookup str_eq_dec theme (rep_themes rep) = Some row ->
     row_updated row = length (files_of theme (rep_files rep)) /\
     row_images row
     = list_sum (map rf_num_images (files_of theme (rep_files rep)))) /\
  row_updated (rep_totals rep) = length (rep_files rep) /\
  row_images (rep_totals rep) = list_sum (map rf_num_images (rep_files rep)) /\
  row_updated (rep_totals rep) = column row_updated (rep_themes rep) /\
  row_images (rep_totals rep) = column row_images (rep_themes rep) /\
  row_before (rep_totals rep) = column row_before (rep_themes rep) /\
  row_after (rep_totals rep) = column row_after (rep_themes rep).

(** [s] starts with [p], letter case set aside as [re.IGNORECASE] does. *)
Fixpoint starts_ci (p s : str) : bool :=
  match p, s with
  | [], _ => true
  | x :: p', c :: s' => ci_eq x c && starts_ci p' s'
  | _ :: _, [] => false
  end.

(** No white space at either end. *)
Definition stripped (s : str) : Prop :=
  (forall c rest, s = c :: rest -> isspace c = false) /\
  (forall c rest, s = rest ++ [c] -> isspace c = false).

(** A world without reader pages. *)
Definition no_pages : World :=
  mkWorld [] (fun _ _ => true) [] [] None [] [].

(** A page that is not valid UTF-8. *)
Definition undecodable_world : World :=
  mkWorld [(demo_page, mkFile [255%N] [65533%N] false)] (fun _ _ => true)
          [] [] None [] [].

(** A copy that is refused. *)
Definition refused (src : tpath) (d : rpath) (name : str) : option exn :=
  Some (Exception "PermissionError" []).

(** Two pages of a theme that link to the same source. *)
Definition shared_source_world : World :=
  mkWorld [((py "01-letters", py "b.html"), linked_page "a.doc");
           ((py "01-letters", py "a.html"), linked_page "a.doc")]
          (fun _ _ => true) [] [] None [] [].

(** The first work item of a run over [two_page_world]. *)
Definition first_item : work_item :=
  mkWork (py "01-letters") (py "a.doc") (py "01-letters", py "a.html") 0 1 2.

(** A converter output with its body in capitals. *)
Definition lo_output : str :=
  pyq "<html><BODY lang=`en`> <p>x</p> </Body></html>".

(** The unit after [k] divisions. *)
Definition size_unit (k : nat) : str :=
  py (nth k ["B"; "KB"; "MB"; "GB"]%string "TB"%string).

(* ================================================================== *)
(** * Properties *)

(* ------------------------------------------------------------------ *)
(** ** Searching in a text *)

Lemma startswith_app (p s : str) :
  startswith p s = true <-> exists t, s = p ++ t.
Proof.
  revert s; induction p as [|x p IH]; intros s; simpl.
  - split; [intros _; now exists s | trivial].
  - destruct s as [|y s].
    + split; [discriminate | intros [t H]; discriminate].
    + rewrite andb_true_iff, N.eqb_eq, IH. split.
      * intros [-> [t ->]]. now exists t.
      * intros [t H]. injection H as -> ->. split; [reflexivity | now exists t].
Qed.

Lemma startswith_length (p s : str) :
  startswith p s = true -> length p <= length s.
Proof.
  intros H. apply startswith_app in H as [t ->].
  rewrite length_app. lia.
Qed.

Lemma occurs_at_bound (sub s : str) (i : nat) :
  occurs_at sub s i -> i + length sub <= length s.
Proof.
  intros [Hi H]. apply startswith_length in H.
  rewrite length_skipn in H. lia.
Qed.

Lemma occurs_at_split (sub s : str) (i : nat) :
  occurs_at sub s i ->
  s = firstn i s ++ sub ++ skipn (i + length sub) s.
Proof.
  intros [Hi H]. apply startswith_app in H as [t Ht].
  rewrite <- (firstn_skipn i s) at 1. f_equal.
  rewrite Nat.add_comm, <- skipn_skipn, Ht.
  now rewrite skipn_app, skipn_all, Nat.sub_diag.
Qed.

Lemma find_at_some (sub s : str) (pos i : nat) :
  find_at sub s pos = Some i ->
  pos <= i /\ occurs_at sub s (i - pos) /\
  forall j, j < i - pos -> ~ occurs_at sub s j.
Proof.
  revert pos; induction s as [|c s IH]; intros pos; simpl.
  - destruct (startswith sub []) eqn:E; [|discriminate].
    intros [= <-]. rewrite Nat.sub_diag.
    split; [lia|]. split; [split; simpl; auto|]. intros j Hj; lia.
  - destruct (startswith sub (c :: s)) eqn:E.
    + intros [= <-]. rewrite Nat.sub_diag.
      split; [lia|]. split; [split; simpl; auto; lia|]. intros j Hj; lia.
    + intros H. apply IH in H as (Hle & [Hb Ho] & Hmin).
      replace (i - pos) with (S (i - S pos)) by lia.
      split; [lia|]. split; [split; simpl; auto; lia|].
      intros [|j] Hj [Hjb Hjo]; simpl in Hjo.
      * congruence.
      * apply (Hmin j); [lia|]. split; [simpl in Hjb; lia | exact Hjo].
Qed.

Lemma find_at_none (sub s : str) (pos : nat) :
  find_at sub s pos = None -> forall j, ~ occurs_at sub s j.
Proof.
  revert pos; induction s as [|c s IH]; intros pos; simpl.
  - destruct (startswith sub []) eqn:E; [discriminate|].
    intros _ j [Hj Ho]. simpl in Hj. assert (j = 0) as -> by lia.
    simpl in Ho. congruence.
  - destruct (startswith sub (c :: s)) eqn:E; [discriminate|].
    intros H [|j] [Hj Ho]; simpl in *.
    + congruence.
    + apply (IH _ H j). split; [lia | exact Ho].
Qed.

Lemma occurs_at_skipn (sub s : str) (start j : nat) :
  start <= length s ->
  occurs_at sub (skipn start s) j <-> occurs_at sub s (start + j).
Proof.
  intros Hs. unfold occurs_at.
  rewrite length_skipn, skipn_skipn, (Nat.add_comm j start). intuition lia.
Qed.

(** [find] gives the first occurrence at or after [start]. *)
Lemma find_some (sub s : str) (start i : nat) :
  find sub s start = Some i ->
  start <= i /\ occurs_at sub s i /\
  forall j, start <= j -> j < i -> ~ occurs_at sub s j.
Proof.
  unfold find. destruct (start <=? length s) eqn:E; [|discriminate].
  apply Nat.leb_le in E. intros H.
  apply find_at_some in H as (Hle & Ho & Hmin).
  apply occurs_at_skipn in Ho; [|exact E].
  replace (start + (i - start)) with i in Ho by lia.
  split; [exact Hle|]. split; [exact Ho|].
  intros j Hj Hlt Hoj. apply (Hmin (j - start)); [lia|].
  apply occurs_at_skipn; [exact E|].
  now replace (start + (j - start)) with j by lia.
Qed.

Lemma find_none (sub s : str) (start : nat) :
  find sub s start = None ->
  forall j, start <= j -> ~ occurs_at sub s j.
Proof.
  unfold find. destruct (start <=? length s) eqn:E.
  - apply Nat.leb_le in E. intros H j Hj Hoj.
    apply (find_at_none _ _ _ H (j - start)).
    apply occurs_at_skipn; [exact E|].
    now replace (start + (j - start)) with j by lia.
  - apply Nat.leb_gt in E. intros _ j Hj [Hb _]. lia.
Qed.

Lemma rfind_at_none (sub s : str) (pos : nat) :
  rfind_at sub s pos = None -> forall j, ~ occurs_at sub s j.
Proof.
  revert pos; induction s as [|c s IH]; intros pos; simpl.
  - destruct sub; simpl; [discriminate|].
    intros _ j [Hb Ho]. simpl in Hb. assert (j = 0) as -> by lia.
    simpl in Ho. discriminate.
  - destruct (rfind_at sub s (S pos)) eqn:Er; [discriminate|].
    destruct (startswith sub (c :: s)) eqn:E; [discriminate|].
    intros _ [|j] [Hb Ho]; simpl in *.
    + congruence.
    + apply (IH _ Er j). split; [lia | exact Ho].
Qed.

Lemma rfind_at_some (sub s : str) (pos i : nat) :
  rfind_at sub s pos = Some i ->
  pos <= i /\ occurs_at sub s (i - pos) /\
  forall j, i - pos < j -> ~ occurs_at sub s j.
Proof.
  revert pos; induction s as [|c s IH]; intros pos; simpl.
  - destruct sub; simpl; [|discriminate].
    intros [= <-]. rewrite Nat.sub_diag.
    split; [lia|]. split; [split; simpl; auto|].
    intros j Hj [Hb _]. simpl in Hb. lia.
  - destruct (rfind_at sub s (S pos)) as [i'|] eqn:Er.
    + intros [= ->]. apply IH in Er as (Hle & [Hb Ho] & Hmax).
      replace (i - pos) with (S (i - S pos)) by lia.
      split; [lia|]. split; [split; simpl; auto; lia|].
      intros [|j] Hj [Hjb Hjo]; [lia|]. simpl in Hjb, Hjo.
      apply (Hmax j); [lia|]. split; [lia | exact Hjo].
    + destruct (startswith sub (c :: s)) eqn:E; [|discriminate].
      intros [= <-]. rewrite Nat.sub_diag.
      split; [lia|]. split; [split; simpl; auto; lia|].
      intros [|j] Hj [Hjb Hjo]; [lia|]. simpl in Hjb, Hjo.
      apply (rfind_at_none _ _ _ Er j). split; [lia | exact Hjo].
Qed.

Lemma startswith_firstn (sub t : str) (k : nat) :
  startswith sub (firstn k t) = true <->
  startswith sub t = true /\ length sub <= Nat.min k (length t).
Proof.
  split.
  - intros H. pose proof (startswith_length _ _ H) as Hl.
    rewrite length_firstn in Hl. split; [|exact Hl].
    apply startswith_app in H as [u Hu]. apply startswith_app.
    exists (u ++ skipn k t).
    rewrite <- (firstn_skipn k t) at 1. now rewrite Hu, app_assoc.
  - intros [H Hl]. apply startswith_app in H as [u ->].
    apply startswith_app. rewrite firstn_app.
    assert (length sub <= k) by lia.
    rewrite (firstn_all2 sub) by lia. eauto.
Qed.

Lemma occurs_at_firstn (sub s : str) (stop j : nat) :
  occurs_at sub (firstn stop s) j <->
  occurs_at sub s j /\ j + length sub <= stop.
Proof.
  unfold occurs_at. rewrite length_firstn, skipn_firstn_comm.
  rewrite startswith_firstn, length_skipn. split.
  - intros (Hj & Hs & Hl). split; [split; [lia | exact Hs] | lia].
  - intros ((Hj & Hs) & Hl). pose proof (startswith_length _ _ Hs) as Hb.
    rewrite length_skipn in Hb. split; [lia|]. split; [exact Hs | lia].
Qed.

(** [rfind] gives the last occurrence that lies inside [s[start:stop]]. *)
Lemma rfind_some (sub s : str) (start stop i : nat) :
  rfind sub s start stop = Some i ->
  start <= i /\ occurs_at sub s i /\ i + length sub <= stop /\
  forall j, i < j -> j + length sub <= stop -> ~ occurs_at sub s j.
Proof.
  unfold rfind.
  destruct (start <=? Nat.min stop (length s)) eqn:E; [|discriminate].
  apply Nat.leb_le in E. intros H.
  apply rfind_at_some in H as (Hle & Ho & Hmax).
  assert (Hs : start <= length (firstn stop s)) by (rewrite length_firstn; lia).
  apply occurs_at_skipn in Ho; [|exact Hs].
  replace (start + (i - start)) with i in Ho by lia.
  apply occurs_at_firstn in Ho as [Ho Hb].
  split; [exact Hle|]. split; [exact Ho|]. split; [exact Hb|].
  intros j Hj Hjb Hoj. apply (Hmax (j - start)); [lia|].
  apply occurs_at_skipn; [exact Hs|].
  replace (start + (j - start)) with j by lia.
  apply occurs_at_firstn. now split.
Qed.

Lemma rfind_none (sub s : str) (start stop : nat) :
  rfind sub s start stop = None ->
  forall j, start <= j -> j + length sub <= stop -> ~ occurs_at sub s j.
Proof.
  unfold rfind.
  destruct (start <=? Nat.min stop (length s)) eqn:E.
  - apply Nat.leb_le in E. intros H j Hj Hjb Hoj.
    assert (Hs : start <= length (firstn stop s))
      by (rewrite length_firstn; lia).
    apply (rfind_at_none _ _ _ H (j - start)).
    apply occurs_at_skipn; [exact Hs|].
    replace (start + (j - start)) with j by lia.
    apply occurs_at_firstn. now split.
  - apply Nat.leb_gt in E. intros _ j Hj Hjb Hoj.
    apply occurs_at_bound in Hoj. lia.
Qed.

(* ------------------------------------------------------------------ *)
(** ** The splice region *)

Lemma locate_close_some (page : str) (cs c : nat) :
  locate_close page cs = Some c ->
  cs <= c /\ occurs_at close_div page c.
Proof.
  unfold locate_close, anchored_close.
  destruct (find file_link_anchor page cs) as [fl|] eqn:Ef.
  - destruct (rfind close_div page cs fl) as [c'|] eqn:Er.
    + intros [= <-]. apply rfind_some in Er. tauto.
    + intros H. apply find_some in H. tauto.
  - intros H. apply find_some in H. tauto.
Qed.

(** The page and its patched version share everything before the end of
    the opening tag and everything from the closing tag on. *)
Lemma splice_inr (page new_body new_content : str) :
  splice page new_body = inr new_content ->
  exists open_idx close_idx,
    find open_tag page 0 = Some open_idx /\
    locate_close page (open_idx + length open_tag) = Some close_idx /\
    open_idx + length open_tag <= close_idx /\
    close_idx + length close_div <= length page /\
    upto (open_idx + length open_tag) page = upto open_idx page ++ open_tag /\
    page = upto (open_idx + length open_tag) page
           ++ skipn (open_idx + length open_tag) (firstn close_idx page)
           ++ from close_idx page /\
    new_content = upto (open_idx + length open_tag) page
                  ++ (newline :: lo_marker ++ newline :: new_body ++ [newline])
                  ++ from close_idx page.
Proof.
  unfold splice.
  destruct (find open_tag page 0) as [open_idx|] eqn:Eo; [|discriminate].
  destruct (locate_close page (open_idx + length open_tag))
    as [close_idx|] eqn:Ec; [|discriminate].
  intros [= <-]. exists open_idx, close_idx.
  apply find_some in Eo as (_ & Ho & _).
  pose proof (locate_close_some _ _ _ Ec) as [Hle Hc].
  pose proof (occurs_at_bound _ _ _ Hc) as Hcb.
  split; [reflexivity|]. split; [exact Ec|]. split; [exact Hle|].
  split; [exact Hcb|]. split; [|split; [|reflexivity]].
  - unfold upto. rewrite (occurs_at_split _ _ _ Ho) at 1.
    pose proof (occurs_at_bound _ _ _ Ho) as Hb.
    rewrite firstn_app, length_firstn, Nat.min_l by lia.
    replace (open_idx + length open_tag - open_idx) with (length open_tag) by lia.
    rewrite firstn_app, Nat.sub_diag, firstn_all, firstn_O, app_nil_r.
    rewrite firstn_firstn. f_equal. f_equal. lia.
  - unfold upto, from.
    rewrite <- (firstn_skipn close_idx page) at 1.
    rewrite app_assoc. f_equal.
    rewrite <- (firstn_skipn (open_idx + length open_tag)
                  (firstn close_idx page)) at 1.
    rewrite firstn_firstn, Nat.min_l by lia. reflexivity.
Qed.

Lemma utf8_encode_app (a b : str) :
  utf8_encode (a ++ b) = utf8_encode a ++ utf8_encode b.
Proof. unfold utf8_encode. apply flat_map_app. Qed.

(* ------------------------------------------------------------------ *)
(** ** Dictionaries *)

Section AssocFacts.
Context {K V : Type}.
Variable dec : forall a b : K, {a = b} + {a <> b}.

Lemma lookup_assign_same (k : K) (v : V) (d : list (K * V)) :
  lookup dec k (assign dec k v d) = Some v.
Proof.
  induction d as [|[k' v'] d IH]; simpl.
  - destruct (dec k k); congruence.
  - destruct (dec k k') as [->|Hne]; simpl.
    + destruct (dec k' k'); congruence.
    + destruct (dec k k'); congruence.
Qed.

Lemma lookup_assign_other (k k0 : K) (v : V) (d : list (K * V)) :
  k0 <> k -> lookup dec k0 (assign dec k v d) = lookup dec k0 d.
Proof.
  intros Hne. induction d as [|[k' v'] d IH]; simpl.
  - destruct (dec k0 k); congruence.
  - destruct (dec k k') as [->|Hk]; simpl.
    + destruct (dec k0 k'); congruence.
    + destruct (dec k0 k'); congruence.
Qed.

Lemma keys_assign_present (k : K) (v v0 : V) (d : list (K * V)) :
  lookup dec k d = Some v0 -> keys (assign dec k v d) = keys d.
Proof.
  induction d as [|[k' v'] d IH]; simpl; [discriminate|].
  destruct (dec k k') as [->|Hne]; simpl; [reflexivity|].
  intros H. f_equal. exact (IH H).
Qed.

Lemma lookup_app_last (k : K) (v : V) (d : list (K * V)) :
  lookup dec k d = None -> lookup dec k (d ++ [(k, v)]) = Some v.
Proof.
  induction d as [|[k' v'] d IH]; simpl.
  - destruct (dec k k); congruence.
  - destruct (dec k k'); [discriminate | exact IH].
Qed.

Lemma lookup_app_other (k k0 : K) (v : V) (d : list (K * V)) :
  k0 <> k -> lookup dec k0 (d ++ [(k, v)]) = lookup dec k0 d.
Proof.
  intros Hne. induction d as [|[k' v'] d IH]; simpl.
  - destruct (dec k0 k); congruence.
  - destruct (dec k0 k'); [reflexivity | exact IH].
Qed.

Lemma lookup_remove_other (k k0 : K) (d : list (K * V)) :
  k0 <> k -> lookup dec k0 (remove_key dec k d) = lookup dec k0 d.
Proof.
  intros Hne. induction d as [|[k' v'] d IH]; simpl; [reflexivity|].
  destruct (dec k k') as [->|Hk]; simpl.
  - destruct (dec k0 k'); congruence.
  - destruct (dec k0 k'); congruence.
Qed.

Lemma lookup_none_not_in (k : K) (d : list (K * V)) :
  lookup dec k d = None <-> ~ In k (keys d).
Proof.
  induction d as [|[k' v'] d IH]; simpl; [tauto|].
  destruct (dec k k') as [->|Hne].
  - split; [discriminate | tauto].
  - rewrite IH. split; [intros H [E|E]; congruence || tauto | tauto].
Qed.
End AssocFacts.

Lemma lookup_In {K V : Type} (dec : forall a b : K, {a = b} + {a <> b})
    (k : K) (v : V) (d : list (K * V)) :
  lookup dec k d = Some v -> In (k, v) d.
Proof.
  induction d as [|[k' v'] d IH]; simpl; [discriminate|].
  destruct (dec k k') as [->|Hne].
  - intros [= ->]. now left.
  - intros H. right. now apply IH.
Qed.

(* ------------------------------------------------------------------ *)
(** ** Sorting *)

Section SortingFacts.
Context {A B : Type}.
Variable key : A -> B.
Variable ltb : B -> B -> bool.

Lemma insert_sorted_perm (x : A) (l : list A) :
  Permutation (x :: l) (insert_sorted key ltb x l).
Proof.
  induction l as [|y l IH]; simpl; [apply Permutation_refl|].
  destruct (ltb (key x) (key y)); [apply Permutation_refl|].
  eapply perm_trans; [apply perm_swap|]. now apply perm_skip.
Qed.

Lemma fold_insert_perm (l acc : list A) :
  Permutation (l ++ acc)
    (fold_left (fun acc x => insert_sorted key ltb x acc) l acc).
Proof.
  revert acc; induction l as [|x l IH]; intros acc; simpl;
    [apply Permutation_refl|].
  eapply perm_trans; [|apply IH].
  eapply perm_trans; [apply Permutation_middle|].
  apply Permutation_app_head. apply insert_sorted_perm.
Qed.

Lemma sorted_perm (l : list A) : Permutation l (sorted key ltb l).
Proof.
  unfold sorted. pose proof (fold_insert_perm l []) as H.
  now rewrite app_nil_r in H.
Qed.

Lemma sorted_In (l : list A) (x : A) : In x (sorted key ltb l) <-> In x l.
Proof.
  split; apply Permutation_in;
    [apply Permutation_sym|]; apply sorted_perm.
Qed.
End SortingFacts.

(* ------------------------------------------------------------------ *)
(** ** The Page Patcher and the file system *)

Ltac monad_unfold :=
  unfold bind, ret, raise, get_world in *.

Lemma sum_sizes_world (l : list (tpath * str)) (w : World) :
  world_of (sum_sizes l w) = w.
Proof.
  revert w; induction l as [|[f n] l IH]; intros w; simpl; [reflexivity|].
  monad_unfold. unfold stat_tmp. destruct (tmp_file f w); [|reflexivity].
  specialize (IH w). destruct (sum_sizes l w); simpl in *; exact IH.
Qed.

Lemma sum_sizes_ok (l : list (tpath * str)) (w : World) :
  all_present w l -> sum_sizes l w = Ok (total_size w l) w.
Proof.
  induction l as [|[f n] l IH]; intros H; simpl; [reflexivity|].
  monad_unfold. unfold stat_tmp, total_size. simpl.
  destruct (tmp_file f w) eqn:Ef.
  - rewrite IH; [reflexivity|].
    intros s m Hin. apply (H s m). now right.
  - exfalso. apply (H f n); [now left | exact Ef].
Qed.

Lemma sum_sizes_ok_inv (l : list (tpath * str)) (w w' : World) (n : nat) :
  sum_sizes l w = Ok n w' -> n = total_size w l /\ w' = w.
Proof.
  revert n w'; induction l as [|[f m] l IH]; intros n w'; simpl.
  - monad_unfold. intros [= <- <-]. split; reflexivity.
  - monad_unfold. unfold stat_tmp, total_size. simpl.
    destruct (tmp_file f w) eqn:Ef; [|discriminate].
    destruct (sum_sizes l w) as [k w1|]; [|discriminate].
    intros [= <- <-]. destruct (IH _ _ eq_refl) as [-> ->].
    split; reflexivity.
Qed.

Lemma sum_sizes_ok_present (l : list (tpath * str)) (w w' : World) (n : nat) :
  sum_sizes l w = Ok n w' -> all_present w l.
Proof.
  revert n w'; induction l as [|[f m] l IH]; intros n w'; simpl.
  - intros _ src name [].
  - monad_unfold. unfold stat_tmp.
    destruct (tmp_file f w) eqn:Ef; [|discriminate].
    destruct (sum_sizes l w) as [k w1|] eqn:Es; [|discriminate].
    intros _ src name [[= <- <-]|Hin]; [congruence|].
    exact (IH _ _ eq_refl src name Hin).
Qed.

Lemma only_images_changed_refl (w : World) : only_images_changed w w.
Proof. repeat split. Qed.

Lemma only_images_changed_trans (w1 w2 w3 : World) :
  only_images_changed w1 w2 -> only_images_changed w2 w3 ->
  only_images_changed w1 w3.
Proof.
  unfold only_images_changed.
  intros (a & b & c & d & e & f) (a' & b' & c' & d' & e' & f').
  repeat split; congruence.
Qed.

Lemma tmp_file_frame (w w' : World) (f : tpath) :
  tmpdirs w' = tmpdirs w -> tmp_file f w' = tmp_file f w.
Proof. unfold tmp_file. now intros ->. Qed.

Section PatcherFacts.
Variable copy_error : tpath -> rpath -> str -> option exn.

Lemma copy2_frame (src : tpath) (d : rpath) (name : str) (w : World) :
  only_images_changed w (world_of (copy2 copy_error src d name w)).
Proof.
  unfold copy2. destruct (tmp_file src w); [|apply only_images_changed_refl].
  destruct (copy_error src d name); [apply only_images_changed_refl|].
  destruct (lookup rpath_eq_dec d (imgdirs w));
    [|apply only_images_changed_refl].
  repeat split.
Qed.

Lemma copy2_ok (src : tpath) (d : rpath) (name : str) (w w' : World)
    (n : nat) :
  copy2 copy_error src d name w = Ok n w' ->
  exists x,
    tmp_file src w = Some x /\ n = f_size x /\
    copy_error src d name = None /\
    img_file w' d name = Some x /\
    (forall name', name' <> name -> img_file w' d name' = img_file w d name') /\
    (forall d', d' <> d ->
       lookup rpath_eq_dec d' (imgdirs w') = lookup rpath_eq_dec d' (imgdirs w)).
Proof.
  unfold copy2. destruct (tmp_file src w) as [x|]; [|discriminate].
  destruct (copy_error src d name); [discriminate|].
  destruct (lookup rpath_eq_dec d (imgdirs w)) as [files|] eqn:El;
    [|discriminate].
  intros [= <- <-]. exists x. unfold img_file; simpl.
  rewrite lookup_assign_same, El.
  split; [reflexivity|]. split; [reflexivity|]. split; [reflexivity|].
  split; [apply lookup_assign_same|]. split.
  - intros name' Hne. now apply lookup_assign_other.
  - intros d' Hne. now apply lookup_assign_other.
Qed.

Lemma copy_images_frame (l : list (tpath * str)) (d : rpath) (total : nat)
    (w : World) :
  only_images_changed w (world_of (copy_images copy_error l d total w)).
Proof.
  revert total w; induction l as [|[src name] l IH]; intros total w; simpl.
  - apply only_images_changed_refl.
  - monad_unfold.
    pose proof (copy2_frame src d name w) as H.
    destruct (copy2 copy_error src d name w) as [n w1|e w1]; simpl in *.
    + eapply only_images_changed_trans; [exact H | apply IH].
    + exact H.
Qed.

Lemma copy_images_ok_inv (l : list (tpath * str)) (d : rpath)
    (total n : nat) (w w' : World) :
  copy_images copy_error l d total w = Ok n w' ->
  n = total + total_size w l /\
  (forall src name, In (src, name) l ->
     tmp_file src w <> None /\ copy_error src d name = None) /\
  (forall name, In name (map snd l) ->
     exists src x, In (src, name) l /\ tmp_file src w = Some x /\
                   img_file w' d name = Some x) /\
  (forall name, ~ In name (map snd l) ->
     img_file w' d name = img_file w d name) /\
  (forall d', d' <> d ->
     lookup rpath_eq_dec d' (imgdirs w') = lookup rpath_eq_dec d' (imgdirs w)).
Proof.
  revert total n w w'; induction l as [|[src name] l IH];
    intros total n w w'; simpl.
  - monad_unfold. intros [= <- <-]. unfold total_size; simpl.
    split; [lia|]. split; [tauto|]. split; [tauto|]. split; reflexivity.
  - monad_unfold.
    destruct (copy2 copy_error src d name w) as [k w1|e w1] eqn:Ec;
      [|discriminate].
    intros H. pose proof (copy2_frame src d name w) as Hf.
    rewrite Ec in Hf; simpl in Hf. destruct Hf as (_ & _ & Ht & _).
    apply copy2_ok in Ec as (x & Hx & -> & Hce & Hnew & Hold & Hdirs).
    apply IH in H as (-> & Hpres & Hin & Hout & Hd).
    assert (Hts : total_size w1 l = total_size w l).
    { unfold total_size. f_equal. apply map_ext. intros p.
      now rewrite (tmp_file_frame w w1). }
    split.
    { rewrite Hts. unfold total_size; simpl. rewrite Hx. lia. }
    split.
    { intros s m [[= <- <-]|Hm].
      - split; [congruence | exact Hce].
      - destruct (Hpres s m Hm) as [Hp Hc].
        rewrite (tmp_file_frame w w1) in Hp by exact Ht. now split. }
    split.
    { intros m Hm. destruct (in_dec str_eq_dec m (map snd l)) as [Hl|Hl].
      - destruct (Hin m Hl) as (s & y & Hs & Hy & Hm').
        exists s, y. rewrite (tmp_file_frame w w1) in Hy by exact Ht.
        split; [now right|]. now split.
      - destruct Hm as [<-|Hm]; [|contradiction].
        exists src, x. split; [now left|]. split; [exact Hx|].
        rewrite (Hout _ Hl). exact Hnew. }
    split.
    { intros m Hm. rewrite Hout by tauto. apply Hold. intros ->.
      apply Hm. now left. }
    intros d' Hd'. rewrite Hd by exact Hd'. now apply Hdirs.
Qed.

Lemma copy_images_progress (l : list (tpath * str)) (d : rpath)
    (total : nat) (w : World) :
  all_present w l ->
  (forall src name, In (src, name) l -> copy_error src d name = None) ->
  lookup rpath_eq_dec d (imgdirs w) <> None ->
  exists n w', copy_images copy_error l d total w = Ok n w'.
Proof.
  revert total w; induction l as [|[src name] l IH];
    intros total w Hp Hc Hd; simpl.
  - monad_unfold. eauto.
  - monad_unfold. unfold copy2 at 1.
    destruct (tmp_file src w) as [x|] eqn:Ex;
      [|exfalso; apply (Hp src name); [now left | exact Ex]].
    rewrite (Hc src name) by now left.
    destruct (lookup rpath_eq_dec d (imgdirs w)) as [files|] eqn:El;
      [|congruence].
    apply IH.
    + intros s m Hm. unfold tmp_file; simpl. apply (Hp s m). now right.
    + intros s m Hm. apply Hc. now right.
    + simpl. rewrite lookup_assign_same. discriminate.
Qed.
End PatcherFacts.

Lemma after_mkdir_frame (d : rpath) (w : World) :
  only_images_changed w (after_mkdir d w).
Proof.
  unfold after_mkdir, mkdir_img.
  destruct (lookup rpath_eq_dec d (imgdirs w)); repeat split.
Qed.

Lemma after_mkdir_dir (d : rpath) (w : World) :
  lookup rpath_eq_dec d (imgdirs (after_mkdir d w)) <> None.
Proof.
  unfold after_mkdir, mkdir_img.
  destruct (lookup rpath_eq_dec d (imgdirs w)) eqn:E; simpl.
  - congruence.
  - rewrite lookup_app_last by exact E. discriminate.
Qed.

Lemma write_page_ok (p : rpath) (s : str) (w : World) :
  encodable s = true ->
  write_page p s w = Ok tt (set_page p (text_file s) w).
Proof. unfold write_page. now intros ->. Qed.

Lemma write_page_raises (p : rpath) (s : str) (w : World) :
  encodable s = false ->
  write_page p s w = Raised UnicodeEncodeError (set_page p empty_file w).
Proof. unfold write_page. now intros ->. Qed.

Lemma after_write_ok (p : rpath) (s : str) (w : World) :
  encodable s = true -> after_write p s w = set_page p (text_file s) w.
Proof. intros H. unfold after_write. now rewrite write_page_ok. Qed.

Lemma f_size_text_file (s : str) : f_size (text_file s) = utf8_len s.
Proof. reflexivity. Qed.

Lemma update_reader_page_cases
    (copy_error : tpath -> rpath -> str -> option exn)
    (result : conv_result) (dry_run : bool) (w : World) :
  update_outcome copy_error result dry_run w
    (update_reader_page copy_error result dry_run w).
Proof.
  unfold update_reader_page. monad_unfold. unfold stat_page at 1.
  destruct (lookup rpath_eq_dec (r_reader result) (pages w)) as [f|] eqn:El.
  2:{ constructor; [apply only_images_changed_refl | reflexivity]. }
  destruct dry_run.
  - unfold encoded_len.
    change (match r_body_html result with Some b => b | None => [] end)
      with (body_of result).
    destruct (encodable (body_of result)) eqn:Een.
    2:{ constructor; [apply only_images_changed_refl | reflexivity]. }
    pose proof (sum_sizes_world (get_image_files result) w) as Hw.
    destruct (sum_sizes (get_image_files result) w) as [n w1|e w1] eqn:Es;
      simpl in Hw; subst w1.
    + pose proof (sum_sizes_ok_present _ _ _ _ Es) as Hp.
      apply sum_sizes_ok_inv in Es as [-> _].
      apply UpDry; [reflexivity | exact El | exact Een | exact Hp].
    + constructor; [apply only_images_changed_refl | reflexivity].
  - unfold read_page_strict. rewrite El.
    destruct (f_strict f) eqn:Ef.
    2:{ constructor; [apply only_images_changed_refl | discriminate]. }
    destruct (r_body_html result) as [new_body|] eqn:Eb.
    2:{ constructor; [apply only_images_changed_refl | discriminate]. }
    destruct (splice (f_text f) new_body) as [x|new_content] eqn:Esp.
    + unfold warn. eapply (UpAbort _ _ _ _ f new_body x); auto.
    + set (d := (fst (r_reader result), r_reader_slug result)).
      assert (Hmk : mkdir_img d w = Ok tt (after_mkdir d w)).
      { unfold after_mkdir, mkdir_img.
        destruct (lookup rpath_eq_dec d (imgdirs w)); reflexivity. }
      rewrite Hmk.
      pose proof (copy_images_frame copy_error (get_image_files result) d 0
                    (after_mkdir d w)) as Hfr.
      destruct (copy_images copy_error (get_image_files result) d 0
                  (after_mkdir d w)) as [n w2|e w2] eqn:Ec; simpl in Hfr.
      * destruct (encodable new_content) eqn:Een.
        -- rewrite write_page_ok by exact Een. unfold stat_page. simpl.
           rewrite lookup_assign_same. rewrite f_size_text_file.
           rewrite <- (after_write_ok (r_reader result) new_content w2 Een).
           eapply (UpPatched _ _ _ _ f new_body new_content n w2); auto.
        -- rewrite write_page_raises by exact Een.
           eapply (UpWriteFailed _ _ _ _ f new_body new_content n w2); auto.
      * constructor; [|discriminate].
        eapply only_images_changed_trans; [apply after_mkdir_frame | exact Hfr].
Qed.

Lemma set_page_pages (p : rpath) (f : file) (w : World) :
  lookup rpath_eq_dec p (pages (set_page p f w)) = Some f /\
  forall q, q <> p ->
    lookup rpath_eq_dec q (pages (set_page p f w))
    = lookup rpath_eq_dec q (pages w).
Proof.
  unfold set_page; simpl. split.
  - apply lookup_assign_same.
  - intros q Hq. now apply lookup_assign_other.
Qed.

Lemma set_page_frame (p : rpath) (f : file) (w : World) :
  sources (set_page p f w) = sources w /\
  tmpdirs (set_page p f w) = tmpdirs w /\
  imgdirs (set_page p f w) = imgdirs w /\
  report_json (set_page p f w) = report_json w /\
  stdout (set_page p f w) = stdout w /\
  profiles (set_page p f w) = profiles w.
Proof. repeat split. Qed.

Lemma after_write_frame (p : rpath) (s : str) (w : World) :
  sources (after_write p s w) = sources w /\
  tmpdirs (after_write p s w) = tmpdirs w /\
  imgdirs (after_write p s w) = imgdirs w /\
  report_json (after_write p s w) = report_json w /\
  stdout (after_write p s w) = stdout w /\
  profiles (after_write p s w) = profiles w.
Proof.
  unfold after_write, write_page. destruct (encodable s); apply set_page_frame.
Qed.

Lemma after_write_page (p : rpath) (s : str) (w : World) :
  lookup rpath_eq_dec p (pages (after_write p s w))
  = Some (if encodable s then text_file s else empty_file) /\
  forall q, q <> p ->
    lookup rpath_eq_dec q (pages (after_write p s w))
    = lookup rpath_eq_dec q (pages w).
Proof.
  unfold after_write, write_page.
  destruct (encodable s); apply set_page_pages.
Qed.

Lemma update_reader_page_real
    (copy_error : tpath -> rpath -> str -> option exn)
    (result : conv_result) (w : World) (f : file) (new_body : str) :
  lookup rpath_eq_dec (r_reader result) (pages w) = Some f ->
  f_strict f = true ->
  r_body_html result = Some new_body ->
  update_reader_page copy_error result false w =
  match splice (f_text f) new_body with
  | inl x => Ok (f_size f, f_size f) (after_warn x (r_reader result) w)
  | inr new_content =>
      let d := (fst (r_reader result), r_reader_slug result) in
      match copy_images copy_error (get_image_files result) d 0
              (after_mkdir d w) with
      | Ok n w2 =>
          if encodable new_content then
            Ok (f_size f, utf8_len new_content + n)
               (after_write (r_reader result) new_content w2)
          else
            Raised UnicodeEncodeError
              (after_write (r_reader result) new_content w2)
      | Raised e w2 => Raised e w2
      end
  end.
Proof.
  intros Hl Hs Hb. unfold update_reader_page. monad_unfold.
  unfold stat_page at 1. unfold read_page_strict.
  rewrite Hl. cbv beta iota. rewrite Hl. cbv beta iota.
  rewrite Hs, Hb. cbv beta iota.
  destruct (splice (f_text f) new_body) as [x|new_content]; [reflexivity|].
  cbv zeta.
  set (d := (fst (r_reader result), r_reader_slug result)).
  assert (Hmk : mkdir_img d w = Ok tt (after_mkdir d w)).
  { unfold after_mkdir, mkdir_img.
    destruct (lookup rpath_eq_dec d (imgdirs w)); reflexivity. }
  rewrite Hmk.
  destruct (copy_images copy_error (get_image_files result) d 0
              (after_mkdir d w)) as [n w2|e w2]; [|reflexivity].
  unfold after_write, write_page.
  destruct (encodable new_content); [|reflexivity].
  unfold stat_page; simpl.
  rewrite lookup_assign_same. reflexivity.
Qed.

Lemma latin1_result_converted :
  @convert_one plain_runtime one_image latin1_item latin1_start
  = Ok latin1_result latin1_world.
Proof. vm_compute. reflexivity. Qed.

Lemma startswith_split (p s : str) :
  startswith p s = true -> s = p ++ skipn (length p) s.
Proof.
  intros H. apply startswith_app in H as [t ->].
  now rewrite skipn_app, skipn_all, Nat.sub_diag.
Qed.

(** C1, as stated, fails: for the success result of a page whose file
    name is not valid UTF-8 the new content cannot be encoded, and the
    call leaves the page empty. *)
Lemma patch_not_contained :
  ~ (forall (copy_error : tpath -> rpath -> str -> option exn)
            (result : conv_result) (w : World) (f : file)
            (new_body new_content : str),
       lookup rpath_eq_dec (r_reader result) (pages w) = Some f ->
       f_strict f = true ->
       r_body_html result = Some new_body ->
       splice (f_text f) new_body = inr new_content ->
       all_present w (get_image_files result) ->
       (forall src name, In (src, name) (get_image_files result) ->
          copy_error src (img_dir_of result) name = None) ->
       exists f',
         lookup rpath_eq_dec (r_reader result)
           (pages (world_of (update_reader_page copy_error result false w)))
         = Some f' /\
         contained_patch f f').
Proof.
  intros H.
  destruct (splice (f_text (linked_page "letter.docx"))
              (body_of latin1_result)) as [x|new_content] eqn:Es;
    [vm_compute in Es; discriminate Es|].
  destruct (H (fun _ _ _ => None) latin1_result latin1_world
              (linked_page "letter.docx") (body_of latin1_result)
              new_content eq_refl eq_refl eq_refl Es)
    as (f' & Hl & pre & mid & mid' & suf & _ & Hb).
  - intros src name [[= <- <-]|[]]. vm_compute. discriminate.
  - reflexivity.
  - vm_compute in Hl. injection Hl as <-.
    apply (f_equal (@length N)) in Hb.
    rewrite !length_app in Hb.
    assert (Ho : length (utf8_encode open_tag) = 28) by reflexivity.
    cbn [f_bytes length] in Hb. lia.
Qed.

(** A page with DOS line endings is read with every line ending turned
    into a line feed and is written back so: the patch returns, and the
    bytes in front of the opening tag are no longer those of the page. *)
Lemma crlf_page_rewritten :
  exists ba w' f',
    update_reader_page (fun _ _ _ => None) bare_result false dos_world
    = Ok ba w' /\
    lookup rpath_eq_dec demo_page (pages w') = Some f' /\
    firstn 8 (f_bytes dos_page) <> firstn 8 (f_bytes f') /\
    ~ contained_patch dos_page f'.
Proof.
  eexists _, _, _. split; [vm_compute; reflexivity|].
  split; [vm_compute; reflexivity|]. split.
  - intros H. vm_compute in H. discriminate H.
  - intros (pre & mid & mid' & suf & Ha & Hb).
    assert (Ho : length (utf8_encode open_tag) = 28) by reflexivity.
    apply (f_equal (firstn 7)) in Ha, Hb.
    rewrite firstn_app in Ha, Hb.
    replace (7 - length (pre ++ utf8_encode open_tag)) with 0 in Ha, Hb
      by (rewrite length_app, Ho; lia).
    rewrite firstn_O, app_nil_r in Ha, Hb.
    rewrite <- Hb in Ha. vm_compute in Ha. discriminate Ha.
Qed.

(** C1, amended.  A non-dry-run call of [update_reader_page] on an
    existing, decodable page with a success result whose image files can be
    copied does not touch the page when the page has no splice region.
    Otherwise the new content is the text of the page with only the part
    between the end of the first opening tag and the located closing tag
    replaced, and no other page changes.  When the new content can be
    encoded the call returns and the page holds the bytes of the new
    content, which agree with the bytes of the old page before the end of
    the opening tag and from the closing tag on if the old page is stored
    as the encoding of its text (it has no carriage return); when the new
    content cannot be encoded the call raises and leaves the page empty. *)
Theorem update_reader_page_contained
    (copy_error : tpath -> rpath -> str -> option exn)
    (result : conv_result) (w : World) (f : file) (new_body : str) :
  lookup rpath_eq_dec (r_reader result) (pages w) = Some f ->
  f_strict f = true ->
  r_body_html result = Some new_body ->
  all_present w (get_image_files result) ->
  (forall src name, In (src, name) (get_image_files result) ->
     copy_error src (fst (r_reader result), r_reader_slug result) name = None) ->
  let page_content := f_text f in
  match splice page_content new_body with
  | inl x =>
      update_reader_page copy_error result false w
      = Ok (f_size f, f_size f) (after_warn x (r_reader result) w) /\
      pages (after_warn x (r_reader result) w) = pages w
  | inr new_content =>
      exists open_idx close_idx n w',
        (if encodable new_content then
           update_reader_page copy_error result false w
           = Ok (f_size f, utf8_len new_content + n) w' /\
           lookup rpath_eq_dec (r_reader result) (pages w')
           = Some (text_file new_content)
         else
           update_reader_page copy_error result false w
           = Raised UnicodeEncodeError w' /\
           lookup rpath_eq_dec (r_reader result) (pages w')
           = Some empty_file) /\
        (forall p, p <> r_reader result ->
           lookup rpath_eq_dec p (pages w') = lookup rpath_eq_dec p (pages w)) /\
        find open_tag page_content 0 = Some open_idx /\
        locate_close page_content (open_idx + length open_tag)
        = Some close_idx /\
        let content_start := open_idx + length open_tag in
        let prefix := upto content_start page_content in
        let replaced := skipn content_start (firstn close_idx page_content) in
        let suffix := from close_idx page_content in
        content_start <= close_idx /\
        close_idx + length close_div <= length page_content /\
        prefix = upto open_idx page_content ++ open_tag /\
        startswith close_div suffix = true /\
        page_content = prefix ++ replaced ++ suffix /\
        new_content = prefix ++ inserted new_body ++ suffix /\
        f_bytes (text_file new_content)
        = utf8_encode prefix ++ utf8_encode (inserted new_body)
          ++ utf8_encode suffix /\
        (f_bytes f = utf8_encode page_content ->
         f_bytes f
         = utf8_encode prefix ++ utf8_encode replaced ++ utf8_encode suffix /\
         contained_patch f (text_file new_content))
  end.
Proof.
  intros Hl Hs Hb Hp Hc page_content.
  rewrite (update_reader_page_real copy_error result w f new_body Hl Hs Hb).
  fold page_content.
  destruct (splice page_content new_body) as [x|new_content] eqn:Esp.
  - split; reflexivity.
  - set (d := (fst (r_reader result), r_reader_slug result)).
    destruct (copy_images_progress copy_error (get_image_files result) d 0
                (after_mkdir d w)) as (n & w2 & Hcp).
    { intros src name Hin.
      rewrite (tmp_file_frame w (after_mkdir d w)).
      - exact (Hp src name Hin).
      - apply after_mkdir_frame. }
    { exact Hc. }
    { apply after_mkdir_dir. }
    destruct (splice_inr _ _ _ Esp)
      as (open_idx & close_idx & Ho & Hcl & Hle & Hcb & Hpre & Hold & Hnew).
    exists open_idx, close_idx, n, (after_write (r_reader result) new_content w2).
    cbv zeta. fold d. rewrite Hcp.
    pose proof (copy_images_frame copy_error (get_image_files result) d 0
                  (after_mkdir d w)) as Hfr.
    rewrite Hcp in Hfr; simpl in Hfr.
    pose proof (only_images_changed_trans _ _ _ (after_mkdir_frame d w) Hfr)
      as (Hpg & _).
    destruct (after_write_page (r_reader result) new_content w2) as [Hw1 Hw2].
    split.
    { destruct (encodable new_content); split; (reflexivity || exact Hw1). }
    split; [intros p Hne; rewrite (Hw2 p Hne); now rewrite Hpg|].
    split; [exact Ho|]. split; [exact Hcl|].
    split; [exact Hle|]. split; [exact Hcb|]. split; [exact Hpre|].
    assert (Hsuf : startswith close_div (from close_idx page_content) = true).
    { apply locate_close_some in Hcl as [_ [_ Hoc]]. exact Hoc. }
    split; [exact Hsuf|].
    split; [exact Hold|]. split; [exact Hnew|].
    assert (Hnb : f_bytes (text_file new_content)
                  = utf8_encode (upto (open_idx + length open_tag) page_content)
                    ++ utf8_encode (inserted new_body)
                    ++ utf8_encode (from close_idx page_content)).
    { unfold text_file; cbn [f_bytes]. rewrite Hnew at 1. unfold inserted.
      now rewrite !utf8_encode_app. }
    split; [exact Hnb|].
    intros Hfb.
    assert (Hob : f_bytes f
                  = utf8_encode (upto (open_idx + length open_tag) page_content)
                    ++ utf8_encode (skipn (open_idx + length open_tag)
                                      (firstn close_idx page_content))
                    ++ utf8_encode (from close_idx page_content)).
    { rewrite Hfb. rewrite Hold at 1. now rewrite !utf8_encode_app. }
    split; [exact Hob|].
    exists (utf8_encode (upto open_idx page_content)),
           (utf8_encode (skipn (open_idx + length open_tag)
                           (firstn close_idx page_content))),
           (utf8_encode (inserted new_body)),
           (utf8_encode (skipn (length close_div)
                           (from close_idx page_content))).
    assert (H1 : utf8_encode (upto open_idx page_content)
                 ++ utf8_encode open_tag
                 = utf8_encode (upto (open_idx + length open_tag)
                                  page_content))
      by now rewrite <- utf8_encode_app, <- Hpre.
    assert (H2 : utf8_encode close_div
                 ++ utf8_encode (skipn (length close_div)
                                   (from close_idx page_content))
                 = utf8_encode (from close_idx page_content))
      by now rewrite <- utf8_encode_app, <- (startswith_split _ _ Hsuf).
    rewrite H1, H2. split; [exact Hob | exact Hnb].
Qed.

(* ------------------------------------------------------------------ *)
(** ** Where the closing tag is looked for *)

Lemma fallback_taken_iff (page : str) (cs : nat) :
  fallback_taken page cs <->
  find file_link_anchor page cs = None \/
  exists fl, find file_link_anchor page cs = Some fl /\
             no_close_between page cs fl.
Proof.
  unfold fallback_taken, anchored_close.
  destruct (find file_link_anchor page cs) as [fl|] eqn:Ef.
  - split.
    + intros Hr. right. exists fl. split; [reflexivity|].
      exact (rfind_none _ _ _ _ Hr).
    + intros [H|(fl' & [= <-] & Hn)]; [discriminate|].
      destruct (rfind close_div page cs fl) as [c|] eqn:Er; [|reflexivity].
      apply rfind_some in Er as (Hle & Ho & Hb & _).
      exfalso. exact (Hn c Hle Hb Ho).
  - split; [now left | reflexivity].
Qed.

(** C8, as stated, fails: the fallback to the first closing tag is also
    taken on a page whose download-link anchor is present. *)
Lemma fallback_with_anchor_present :
  ~ (forall page_content content_start,
       fallback_taken page_content content_start <->
       find file_link_anchor page_content content_start = None).
Proof.
  intros H.
  specialize (H page_link_first (length open_tag)).
  assert (Hf : fallback_taken page_link_first (length open_tag))
    by (vm_compute; reflexivity).
  apply H in Hf. vm_compute in Hf. discriminate.
Qed.

Lemma after_warn_same_files (x : warning) (p : rpath) (w : World) :
  same_files w (after_warn x p w) /\
  stdout (after_warn x p w) = stdout w ++ [(x, p)].
Proof. unfold after_warn, warn, same_files; simpl. repeat split. Qed.

(** C8, amended.  The patcher takes the first occurrence of the opening
    tag; the closing tag is the last [</div>] that lies wholly between the
    end of the opening tag and the first download-link anchor after it,
    and the first [</div>] after the opening tag when there is no such
    anchor or no closing tag before it; when the opening tag or every
    closing tag is missing the call prints its warning, returns the
    before-size twice and leaves every file as it was. *)
Theorem splice_region_located
    (copy_error : tpath -> rpath -> str -> option exn)
    (result : conv_result) (w : World) (f : file) (new_body : str) :
  lookup rpath_eq_dec (r_reader result) (pages w) = Some f ->
  f_strict f = true ->
  r_body_html result = Some new_body ->
  let page_content := f_text f in
  let aborted x :=
    update_reader_page copy_error result false w
    = Ok (f_size f, f_size f) (after_warn x (r_reader result) w) /\
    same_files w (after_warn x (r_reader result) w) /\
    stdout (after_warn x (r_reader result) w)
    = stdout w ++ [(x, r_reader result)] in
  match find open_tag page_content 0 with
  | None =>
      (forall j, ~ occurs_at open_tag page_content j) /\
      aborted WarnNoContainer
  | Some open_idx =>
      occurs_at open_tag page_content open_idx /\
      (forall j, j < open_idx -> ~ occurs_at open_tag page_content j) /\
      let content_start := open_idx + length open_tag in
      (fallback_taken page_content content_start <->
       find file_link_anchor page_content content_start = None \/
       exists fl, find file_link_anchor page_content content_start = Some fl /\
                  no_close_between page_content content_start fl) /\
      match locate_close page_content content_start with
      | None =>
          (forall j, content_start <= j ->
                     ~ occurs_at close_div page_content j) /\
          aborted WarnNoClose
      | Some close_idx =>
          content_start <= close_idx /\
          occurs_at close_div page_content close_idx /\
          ((fallback_taken page_content content_start /\
            forall j, content_start <= j -> j < close_idx ->
                      ~ occurs_at close_div page_content j)
           \/
           (exists fl,
              find file_link_anchor page_content content_start = Some fl /\
              close_idx + length close_div <= fl /\
              forall j, close_idx < j -> j + length close_div <= fl ->
                        ~ occurs_at close_div page_content j))
      end
  end.
Proof.
  intros Hl Hs Hb page_content aborted.
  pose proof (update_reader_page_real copy_error result w f new_body Hl Hs Hb)
    as Hup.
  fold page_content in Hup. unfold splice in Hup.
  destruct (find open_tag page_content 0) as [open_idx|] eqn:Eo.
  - apply find_some in Eo as (_ & Ho & Hmin).
    split; [exact Ho|].
    split; [intros j Hj; apply Hmin; lia|].
    cbv zeta. split; [apply fallback_taken_iff|].
    cbv zeta in Hup.
    destruct (locate_close page_content (open_idx + length open_tag))
      as [close_idx|] eqn:Ec.
    + pose proof (locate_close_some _ _ _ Ec) as [Hle Hoc].
      split; [exact Hle|]. split; [exact Hoc|].
      unfold locate_close in Ec. unfold fallback_taken.
      destruct (anchored_close page_content (open_idx + length open_tag))
        as [c|] eqn:Ea.
      * right. injection Ec as ->. unfold anchored_close in Ea.
        destruct (find file_link_anchor page_content
                    (open_idx + length open_tag)) as [fl|]; [|discriminate].
        exists fl. apply rfind_some in Ea as (_ & _ & Hb' & Hmax).
        split; [reflexivity|]. split; [exact Hb' | exact Hmax].
      * left. split; [reflexivity|].
        apply find_some in Ec as (_ & _ & Hfirst). exact Hfirst.
    + split.
      * unfold locate_close in Ec.
        destruct (anchored_close page_content (open_idx + length open_tag));
          [discriminate|].
        exact (find_none _ _ _ Ec).
      * unfold aborted. split; [exact Hup|]. apply after_warn_same_files.
  - split.
    + intros j. apply (find_none _ _ _ Eo). lia.
    + unfold aborted. split; [exact Hup|]. apply after_warn_same_files.
Qed.

(* ------------------------------------------------------------------ *)
(** ** The patch phase, one result at a time *)

Lemma patch_all_cons (E : Env) (dry_run : bool) (result : conv_result)
    (rest : list conv_result) (theme_stats : list (str * report_row))
    (w : World) :
  patch_all E dry_run (result :: rest) theme_stats w =
  match update_reader_page (copy_error E) result dry_run w with
  | Ok ba w1 =>
      patch_all E dry_run rest (stats_step theme_stats result ba)
        (after_cleanup result w1)
  | Raised e w1 => Raised e w1
  end.
Proof.
  simpl. monad_unfold.
  destruct (update_reader_page (copy_error E) result dry_run w) as [ba w1|e w1];
    [|reflexivity].
  unfold after_cleanup, stats_step.
  destruct (r_tmpdir result) as [[|c d]|]; reflexivity.
Qed.

Lemma after_cleanup_frame (result : conv_result) (w : World) :
  pages (after_cleanup result w) = pages w /\
  sources (after_cleanup result w) = sources w /\
  imgdirs (after_cleanup result w) = imgdirs w /\
  report_json (after_cleanup result w) = report_json w /\
  stdout (after_cleanup result w) = stdout w.
Proof.
  unfold after_cleanup. destruct (r_tmpdir result) as [[|c d]|]; simpl;
    repeat split.
Qed.

Lemma update_dry_world (copy_error : tpath -> rpath -> str -> option exn)
    (result : conv_result) (w : World) :
  world_of (update_reader_page copy_error result true w) = w.
Proof.
  pose proof (update_reader_page_cases copy_error result true w) as H.
  inversion H as [e w' _ Hd He | f _ _ _ _ He | | | ]; try discriminate;
    simpl.
  - now apply Hd.
  - reflexivity.
Qed.

(** In a dry run the patch phase leaves the reader pages, the image
    directories and the source files as they were. *)
Lemma patch_all_dry (E : Env) (results : list conv_result)
    (theme_stats : list (str * report_row)) (w : World) :
  let w' := world_of (patch_all E true results theme_stats w) in
  pages w' = pages w /\ sources w' = sources w /\
  imgdirs w' = imgdirs w /\ report_json w' = report_json w /\
  stdout w' = stdout w.
Proof.
  revert theme_stats w; induction results as [|r rest IH];
    intros theme_stats w; [simpl; repeat split|].
  cbv zeta. rewrite patch_all_cons.
  pose proof (update_dry_world (copy_error E) r w) as Hw.
  destruct (update_reader_page (copy_error E) r true w) as [ba w1|e w1];
    simpl in Hw; subst w1.
  - specialize (IH (stats_step theme_stats r ba) (after_cleanup r w)).
    cbv zeta in IH. destruct IH as (a & b & c & d & e).
    destruct (after_cleanup_frame r w) as (a' & b' & c' & d' & e').
    repeat split; congruence.
  - simpl. repeat split.
Qed.

(* ------------------------------------------------------------------ *)
(** ** The outcome of one conversion *)

Lemma one_outcome_error (r : conv_result) (msg : str) :
  r_skipped r = false -> r_image_files r = None ->
  one_outcome (set_error r msg).
Proof.
  intros Hs Hi. left. unfold is_error, is_skipped, has_images, get_image_files.
  simpl. rewrite Hs, Hi. repeat split; intuition congruence.
Qed.

Section RunnerFacts.
Context {RT : PyRuntime}.
Variable E : Env.

Lemma html_outputs_In (outdir : list (str * file)) (p : str) :
  In p (html_outputs outdir) <->
  In p (keys outdir) /\ is_html_name p = true.
Proof.
  unfold html_outputs, is_html_name.
  rewrite in_app_iff, !filter_In, orb_true_iff. tauto.
Qed.

Lemma companion_images_In (outdir : list (str * file)) (lo f : str) :
  In f (companion_images outdir lo) <->
  In f (keys outdir) /\ f <> lo /\ is_image_name f = true.
Proof.
  unfold companion_images, is_image_name, sorted_str.
  rewrite filter_In, sorted_In, nodup_In, andb_true_iff.
  destruct (str_eq_dec f lo) as [->|Hne]; simpl.
  - split; [intros (_ & H & _); discriminate | tauto].
  - tauto.
Qed.

Lemma convert_body_outcome (args : work_item) (tmpdir : str)
    (returncode : Z) (stderr : str) (outdir : list (str * file))
    (r : conv_result) :
  convert_body (initial_result args) tmpdir returncode stderr outdir = inr r ->
  one_outcome r /\
  forall src name, In (src, name) (get_image_files r) ->
    fst src = tmpdir /\ In (snd src) (keys outdir).
Proof.
  unfold convert_body.
  destruct (negb (returncode =? 0)%Z).
  { intros [= <-]. split; [now apply one_outcome_error|].
    intros src name []. }
  destruct (html_outputs outdir) as [|lo_html_path rest].
  { intros [= <-]. split; [now apply one_outcome_error|].
    intros src name []. }
  destruct (companion_images outdir lo_html_path) as [|i0 imgs] eqn:Ei.
  { intros [= <-]. split.
    - right; left. unfold is_error, is_skipped, has_images. simpl.
      repeat split; intuition congruence.
    - intros src name []. }
  cbv zeta.
  destruct (clean_lo_html _ _ _) as [e|[cleaned_html img_map]];
    [discriminate|].
  intros [= <-]. split.
  - right; right. unfold is_error, is_skipped, has_images, get_image_files.
    simpl. repeat split; intuition congruence.
  - unfold get_image_files, set_success. cbn [r_image_files].
    intros src name Hin.
    assert (Hf : exists f, src = (tmpdir, f) /\ In f (i0 :: imgs)).
    { destruct Hin as [[= <- _]|Hin].
      - exists i0. split; [reflexivity | now left].
      - apply in_map_iff in Hin as (f & [= <- _] & Hf).
        exists f. split; [reflexivity | now right]. }
    destruct Hf as (f & -> & Hf).
    split; [reflexivity|]. simpl.
    rewrite <- Ei in Hf. unfold companion_images in Hf.
    apply filter_In in Hf as [Hf _].
    apply sorted_In in Hf. now apply nodup_In in Hf.
Qed.

Lemma attempt_outcome (args : work_item) (tmpdir : str) :
  one_outcome (attempt E args tmpdir) /\
  forall src name, In (src, name) (get_image_files (attempt E args tmpdir)) ->
    exists returncode stderr outdir,
      soffice E args = LoExit returncode stderr outdir /\
      fst src = tmpdir /\ In (snd src) (keys outdir).
Proof.
  unfold attempt. destruct (soffice E args) as [e| |e|rc err out].
  - split; [now apply one_outcome_error | intros src name []].
  - split; [now apply one_outcome_error | intros src name []].
  - split; [now apply one_outcome_error | intros src name []].
  - destruct (convert_body (initial_result args) tmpdir rc err out)
      as [e|r] eqn:Eb.
    + split; [now apply one_outcome_error | intros src name []].
    + apply convert_body_outcome in Eb as [H1 H2]. split; [exact H1|].
      intros src name Hin. exists rc, err, out. split; [reflexivity|].
      exact (H2 src name Hin).
Qed.
End RunnerFacts.

Lemma remove_key_fresh {V : Type} (d : str) (v : V) (l : list (str * V)) :
  ~ In d (keys l) -> remove_key str_eq_dec d (l ++ [(d, v)]) = l.
Proof.
  induction l as [|[k x] l IH]; simpl; intros H.
  - destruct (str_eq_dec d d); congruence.
  - destruct (str_eq_dec d k) as [->|Hne]; [tauto|].
    f_equal. apply IH. tauto.
Qed.

Lemma assign_fresh {V : Type} (d : str) (v v0 : V) (l : list (str * V)) :
  ~ In d (keys l) ->
  assign str_eq_dec d v (l ++ [(d, v0)]) = l ++ [(d, v)].
Proof.
  induction l as [|[k x] l IH]; simpl; intros H.
  - destruct (str_eq_dec d d); congruence.
  - destruct (str_eq_dec d k) as [->|Hne]; [tauto|].
    f_equal. apply IH. tauto.
Qed.

Lemma with_tmpdirs_same (w : World) : with_tmpdirs w (tmpdirs w) = w.
Proof. now destruct w. Qed.

Lemma with_profile_frame (worker_id : Z) (w : World) :
  pages (with_profile worker_id w) = pages w /\
  sources (with_profile worker_id w) = sources w /\
  tmpdirs (with_profile worker_id w) = tmpdirs w /\
  imgdirs (with_profile worker_id w) = imgdirs w /\
  report_json (with_profile worker_id w) = report_json w /\
  stdout (with_profile worker_id w) = stdout w.
Proof. repeat split. Qed.

Lemma after_makedirs_profiles (E : Env) (args : work_item) (w : World) :
  incl (profiles w) (profiles (after_makedirs E args w)) /\
  forall id, In id (profiles (after_makedirs E args w)) ->
    In id (profiles w) \/ id = wk_worker_id args.
Proof.
  assert (H : incl (profiles w) (profiles (with_profile (wk_worker_id args) w))
              /\ forall id,
                   In id (profiles (with_profile (wk_worker_id args) w)) ->
                   In id (profiles w) \/ id = wk_worker_id args).
  { unfold with_profile, make_profile; simpl.
    destruct (in_dec Z.eq_dec (wk_worker_id args) (profiles w)).
    - split; [apply incl_refl | tauto].
    - split; [apply incl_appl, incl_refl|].
      intros id Hid. apply in_app_iff in Hid as [Hid|[<-|[]]]; tauto. }
  unfold after_makedirs. destruct (soffice E args); try exact H.
  split; [apply incl_refl | tauto].
Qed.

Lemma after_makedirs_frame (E : Env) (args : work_item) (w : World) :
  pages (after_makedirs E args w) = pages w /\
  sources (after_makedirs E args w) = sources w /\
  tmpdirs (after_makedirs E args w) = tmpdirs w /\
  imgdirs (after_makedirs E args w) = imgdirs w /\
  report_json (after_makedirs E args w) = report_json w /\
  stdout (after_makedirs E args w) = stdout w.
Proof.
  unfold after_makedirs. destruct (soffice E args); repeat split.
Qed.

Section ConvertOneFacts.
Context {RT : PyRuntime}.
Variable E : Env.

(** [convert_one] always returns: a result that keeps its directory when
    it has image files, and one whose directory is gone otherwise; the
    profile directory of the worker stays behind. *)
Lemma convert_one_runs (args : work_item) (w : World) :
  let tmpdir := mkdtemp E (wk_worker_id args) (keys (tmpdirs w)) in
  let result := attempt E args tmpdir in
  match get_image_files result with
  | [] => convert_one E args w = Ok result (after_makedirs E args w)
  | _ :: _ =>
      exists returncode stderr outdir,
        soffice E args = LoExit returncode stderr outdir /\
        convert_one E args w
        = Ok (set_tmpdir result tmpdir)
             (with_tmpdirs (with_profile (wk_worker_id args) w)
                (tmpdirs w ++ [(tmpdir, outdir)]))
  end.
Proof.
  intros tmpdir result.
  pose proof (mkdtemp_fresh E (wk_worker_id args) (keys (tmpdirs w)))
    as Hfresh. fold tmpdir in Hfresh.
  pose proof (attempt_outcome E args tmpdir) as [_ Hsrc]. fold result in Hsrc.
  unfold convert_one, make_tmpdir, after_makedirs. monad_unfold.
  fold tmpdir. fold result.
  destruct (get_image_files result) as [|[src name] imgs] eqn:Ei.
  - destruct (soffice E args) as [e| |e|rc err out];
      unfold rmtree, fill_tmpdir, with_profile, make_profile; simpl.
    + rewrite remove_key_fresh by exact Hfresh.
      f_equal. apply with_tmpdirs_same.
    + now rewrite remove_key_fresh by exact Hfresh.
    + now rewrite remove_key_fresh by exact Hfresh.
    + rewrite assign_fresh by exact Hfresh.
      now rewrite remove_key_fresh by exact Hfresh.
  - destruct (Hsrc src name (or_introl eq_refl))
      as (rc & err & out & Hso & _).
    exists rc, err, out. split; [exact Hso|].
    rewrite Hso. unfold fill_tmpdir, with_profile, make_profile; simpl.
    rewrite assign_fresh by exact Hfresh. reflexivity.
Qed.

(** C7.  [convert_one] always returns, and its result is exactly one of
    error, skipped and success: one and only one of "the error is set",
    "the skipped flag is true" and "image files are present" holds.  A
    failure to make the profile directory, a time-out and any other
    exception give an error; an exit code other than zero gives an error
    whose text ends with the first 200 characters at most of the
    diagnostic output.  After an exit code of zero, an output directory
    without an HTML file gives the error [No HTML output produced]; one
    with an HTML file and no file with an image suffix gives a skipped
    result, with no error and no image; and when there is an image file
    besides the HTML files but the HTML parser raises on the body, the
    result is an error with the text of that exception. *)
Theorem convert_one_outcome (args : work_item) (w : World) :
  exists result w',
    convert_one E args w = Ok result w' /\
    one_outcome result /\
    (forall e, soffice E args = LoNoProfile e ->
               r_error result = Some (exn_str e)) /\
    (soffice E args = LoTimeout ->
     r_error result
     = Some (py "Timeout after " ++ fmt_nat TIMEOUT_SECONDS ++ py "s")) /\
    (forall e, soffice E args = LoRaise e ->
               r_error result = Some (exn_str e)) /\
    (forall returncode stderr outdir,
       soffice E args = LoExit returncode stderr outdir ->
       (returncode <> 0%Z ->
        r_error result
        = Some (py "LO exit code " ++ fmt_int returncode ++ py ": "
                ++ upto 200 stderr) /\
        length (upto 200 stderr) <= 200 /\
        startswith (upto 200 stderr) stderr = true) /\
       (returncode = 0%Z ->
        ((forall name, In name (keys outdir) -> is_html_name name = false) ->
         r_error result = Some (py "No HTML output produced")) /\
        ((exists name, In name (keys outdir) /\ is_html_name name = true) ->
         (forall name, In name (keys outdir) -> is_image_name name = false) ->
         r_skipped result = true /\ r_error result = None /\
         get_image_files result = []) /\
        (forall e,
           (exists name, In name (keys outdir) /\ is_html_name name = true) ->
           (exists name, In name (keys outdir) /\ is_html_name name = false /\
                         is_image_name name = true) ->
           (forall name f, In (name, f) outdir -> is_html_name name = true ->
                           html_feed (extract_lo_body (f_text f)) = inl e) ->
           r_error result = Some (exn_str e)))).
Proof.
  pose proof (convert_one_runs args w) as Hrun. cbv zeta in Hrun.
  set (tmpdir := mkdtemp E (wk_worker_id args) (keys (tmpdirs w))) in *.
  pose proof (attempt_outcome E args tmpdir) as [Hone _].
  assert (Hres : exists result w',
             convert_one E args w = Ok result w' /\
             r_error result = r_error (attempt E args tmpdir) /\
             r_skipped result = r_skipped (attempt E args tmpdir) /\
             get_image_files result = get_image_files (attempt E args tmpdir)).
  { destruct (get_image_files (attempt E args tmpdir)) eqn:Ei.
    - exists (attempt E args tmpdir), (after_makedirs E args w).
      rewrite Ei. auto.
    - destruct Hrun as (rc & err & out & _ & Hrun).
      eexists _, _. split; [exact Hrun|].
      unfold get_image_files in *. simpl. rewrite Ei. auto. }
  destruct Hres as (result & w' & Hconv & He & Hs & Hi).
  exists result, w'. split; [exact Hconv|].
  split.
  { unfold one_outcome, is_error, is_skipped, has_images in *.
    rewrite He, Hs, Hi. exact Hone. }
  rewrite He, Hs, Hi. unfold attempt.
  split; [intros e ->; reflexivity|].
  split; [intros ->; reflexivity|].
  split; [intros e ->; reflexivity|].
  intros rc err out ->. unfold convert_body. split.
  - intros Hrc. apply Z.eqb_neq in Hrc. rewrite Hrc.
    change (negb false) with true. cbv iota.
    split; [reflexivity|]. split.
    + unfold upto. rewrite length_firstn. lia.
    + apply startswith_app. exists (skipn 200 err).
      unfold upto. now rewrite firstn_skipn.
  - intros ->. change (negb (0 =? 0)%Z) with false. cbv iota.
    split; [|split].
    + intros Hno.
      destruct (html_outputs out) as [|p rest] eqn:Eh; [reflexivity|].
      assert (Hp : In p (html_outputs out)) by (rewrite Eh; now left).
      apply html_outputs_In in Hp as [Hp Hh].
      rewrite (Hno p Hp) in Hh. discriminate.
    + intros (name & Hn & Hh) Hnone.
      destruct (html_outputs out) as [|p rest] eqn:Eh.
      { assert (Hp : In name (html_outputs out))
          by (apply html_outputs_In; now split).
        rewrite Eh in Hp. destruct Hp. }
      destruct (companion_images out p) as [|i0 imgs] eqn:Ec.
      { cbv zeta iota. auto. }
      assert (Hi0 : In i0 (companion_images out p)) by (rewrite Ec; now left).
      apply companion_images_In in Hi0 as (Hk & _ & Him).
      rewrite (Hnone i0 Hk) in Him. discriminate.
    + intros e (name & Hn & Hh) (img & Hin & Hnh & Him) Hfeed.
      destruct (html_outputs out) as [|p rest] eqn:Eh.
      { assert (Hp : In name (html_outputs out))
          by (apply html_outputs_In; now split).
        rewrite Eh in Hp. destruct Hp. }
      assert (Hp : In p (html_outputs out)) by (rewrite Eh; now left).
      apply html_outputs_In in Hp as [Hp Hph].
      destruct (companion_images out p) as [|i0 imgs] eqn:Ec.
      { assert (Hc : In img (companion_images out p)).
        { apply companion_images_In. split; [exact Hin|].
          split; [|exact Him]. intros ->. congruence. }
        rewrite Ec in Hc. destruct Hc. }
      cbv zeta iota.
      destruct (lookup str_eq_dec p out) as [f|] eqn:El.
      2:{ apply lookup_none_not_in in El. contradiction. }
      apply lookup_In in El.
      unfold clean_lo_html, strip_tags.
      rewrite (Hfeed p f El Hph). reflexivity.
Qed.
End ConvertOneFacts.

(* ------------------------------------------------------------------ *)
(** ** Temporary directories and image files *)

Lemma update_keeps_tmpdirs (copy_error : tpath -> rpath -> str -> option exn)
    (result : conv_result) (dry_run : bool) (w : World) :
  tmpdirs (world_of (update_reader_page copy_error result dry_run w))
  = tmpdirs w.
Proof.
  pose proof (update_reader_page_cases copy_error result dry_run w) as H.
  assert (Hcp : forall n w2,
             copy_images copy_error (get_image_files result)
               (fst (r_reader result), r_reader_slug result) 0
               (after_mkdir (fst (r_reader result), r_reader_slug result) w)
             = Ok n w2 -> tmpdirs w2 = tmpdirs w).
  { intros n w2 Hc.
    pose proof (copy_images_frame copy_error (get_image_files result)
                  (img_dir_of result) 0
                  (after_mkdir (img_dir_of result) w)) as Hfr.
    unfold img_dir_of in Hfr. rewrite Hc in Hfr. simpl in Hfr.
    destruct Hfr as (_ & _ & Ht & _). rewrite Ht.
    apply after_mkdir_frame. }
  inversion H as [e w' Hf _ He | f _ _ _ _ He | f b x _ _ _ _ _ He
                  | f b nc n w2 _ _ _ _ _ _ Hc He
                  | f b nc n w2 _ _ _ _ _ _ Hc He]; simpl.
  - destruct Hf as (_ & _ & Ht & _). exact Ht.
  - reflexivity.
  - reflexivity.
  - destruct (after_write_frame (r_reader result) nc w2) as (_ & Ht & _).
    rewrite Ht. exact (Hcp n w2 Hc).
  - exact (Hcp n w2 Hc).
Qed.

Lemma update_keeps_profiles (copy_error : tpath -> rpath -> str -> option exn)
    (result : conv_result) (dry_run : bool) (w : World) :
  profiles (world_of (update_reader_page copy_error result dry_run w))
  = profiles w.
Proof.
  pose proof (update_reader_page_cases copy_error result dry_run w) as H.
  assert (Hcp : forall n w2,
             copy_images copy_error (get_image_files result)
               (fst (r_reader result), r_reader_slug result) 0
               (after_mkdir (fst (r_reader result), r_reader_slug result) w)
             = Ok n w2 -> profiles w2 = profiles w).
  { intros n w2 Hc.
    pose proof (copy_images_frame copy_error (get_image_files result)
                  (img_dir_of result) 0
                  (after_mkdir (img_dir_of result) w)) as Hfr.
    unfold img_dir_of in Hfr. rewrite Hc in Hfr. simpl in Hfr.
    destruct Hfr as (_ & _ & _ & _ & _ & Ht). rewrite Ht.
    apply after_mkdir_frame. }
  inversion H as [e w' Hf _ He | f _ _ _ _ He | f b x _ _ _ _ _ He
                  | f b nc n w2 _ _ _ _ _ Hen Hc He
                  | f b nc n w2 _ _ _ _ _ _ Hc He]; simpl.
  - destruct Hf as (_ & _ & _ & _ & _ & Ht). exact Ht.
  - reflexivity.
  - reflexivity.
  - unfold after_write, write_page. rewrite Hen. simpl. exact (Hcp n w2 Hc).
  - exact (Hcp n w2 Hc).
Qed.

(** A patch that returns has either warned and changed no file, or copied
    every image file. *)
Lemma update_copies_all (copy_error : tpath -> rpath -> str -> option exn)
    (result : conv_result) (w w1 : World) (ba : nat * nat) :
  update_reader_page copy_error result false w = Ok ba w1 ->
  (exists x, w1 = after_warn x (r_reader result) w) \/
  (forall src name, In (src, name) (get_image_files result) ->
     exists src' x,
       In (src', name) (get_image_files result) /\
       tmp_file src' w = Some x /\
       img_file w1 (img_dir_of result) name = Some x).
Proof.
  intros Hu.
  pose proof (update_reader_page_cases copy_error result false w) as H.
  rewrite Hu in H.
  inversion H as [ | f Hd _ _ _ He | f b x _ _ _ _ _ He
                  | f b nc n w2 _ _ _ _ _ _ Hc He | ]; try discriminate.
  - left. now exists x.
  - right. intros src name Hin.
    apply copy_images_ok_inv in Hc as (_ & _ & Hcopied & _).
    destruct (Hcopied name) as (src' & y & Hin' & Hy & Himg).
    { apply in_map_iff. now exists (src, name). }
    exists src', y. split; [exact Hin'|]. split.
    + rewrite <- Hy. symmetry. apply tmp_file_frame. apply after_mkdir_frame.
    + unfold img_file in *.
      destruct (after_write_frame (r_reader result) nc w2) as (_ & _ & Hi & _).
      rewrite Hi. exact Himg.
Qed.

Lemma after_cleanup_tmpdirs (result : conv_result) (w : World) (d : str) :
  r_tmpdir result <> Some d ->
  lookup str_eq_dec d (tmpdirs (after_cleanup result w))
  = lookup str_eq_dec d (tmpdirs w).
Proof.
  unfold after_cleanup.
  destruct (r_tmpdir result) as [[|c t]|]; try reflexivity.
  intros Hne. simpl. apply lookup_remove_other. congruence.
Qed.

(** When the patch phase raises, it does so in the call for some result,
    and only the directories of the results before that one are gone. *)
Lemma patch_all_raised (E : Env) (dry_run : bool)
    (results : list conv_result) (theme_stats : list (str * report_row))
    (w w' : World) (e : exn) :
  patch_all E dry_run results theme_stats w = Raised e w' ->
  exists done result rest w1,
    results = done ++ result :: rest /\
    update_reader_page (copy_error E) result dry_run w1 = Raised e w' /\
    forall d, ~ removed_by done d ->
      lookup str_eq_dec d (tmpdirs w') = lookup str_eq_dec d (tmpdirs w).
Proof.
  revert theme_stats w; induction results as [|r rs IH]; intros theme_stats w.
  - discriminate.
  - rewrite patch_all_cons.
    pose proof (update_keeps_tmpdirs (copy_error E) r dry_run w) as Ht.
    destruct (update_reader_page (copy_error E) r dry_run w) as [ba w1|e1 w1]
      eqn:Eu; simpl in Ht.
    + intros H. apply IH in H as (done & result & rest & w2 & -> & Hu & Hd).
      exists (r :: done), result, rest, w2. split; [reflexivity|].
      split; [exact Hu|]. intros d Hnd.
      rewrite Hd.
      * rewrite after_cleanup_tmpdirs; [now rewrite Ht|].
        intros Hr. apply Hnd. exists r. split; [now left | exact Hr].
      * intros (r' & Hin & Hr). apply Hnd. exists r'. split; [now right|].
        exact Hr.
    + intros [= <- <-]. exists [], r, rs, w. split; [reflexivity|].
      split; [exact Eu|]. intros d _. now rewrite Ht.
Qed.

(** C5, as stated, fails: when the page has no container the patch phase
    removes the temporary directory although no image was copied. *)
Lemma tmpdir_removed_without_copy :
  ~ (forall (E : Env) (dry_run : bool) (results : list conv_result)
            (theme_stats theme_stats' : list (str * report_row))
            (w w' : World),
       patch_all E dry_run results theme_stats w = Ok theme_stats' w' ->
       forall r src name,
         In r results -> In (src, name) (get_image_files r) ->
         tmp_file src w' = None ->
         img_file w' (img_dir_of r) name <> None).
Proof.
  intros H.
  set (E := calm_env (fun _ => LoTimeout)).
  destruct (patch_all E false [bare_result] [] bare_world)
    as [st w'|e w'] eqn:Ep; [|vm_compute in Ep; discriminate].
  specialize (H E false [bare_result] [] st bare_world w' Ep bare_result
                (py "/tmp/lo_conv_0_x", py "a.png") (py "img001.png")).
  vm_compute in Ep. injection Ep as <- <-.
  apply H; [now left | now left | reflexivity | reflexivity].
Qed.

Section NoImageLoss.
Context {RT : PyRuntime}.
Variable E : Env.

(** C5, amended.  [convert_one] removes its temporary directory at once
    when the result has no image files and keeps it, with every image
    file of the result in it, when it has some.  In the patch phase the
    directory of a result is removed only after [update_reader_page] has
    returned for that result: the call itself never touches a temporary
    directory, a call that raises (a failed copy) ends the phase with
    every directory but those of the results already done still in place,
    and a non-dry-run call that returns without a warning has copied every
    (temporary path, renamed name) pair into the image directory of the
    page.  (A call that returns with a warning, and any dry-run call,
    copies nothing, and the directory is removed all the same.) *)
Theorem no_image_loss :
  (forall args w,
     let tmpdir := mkdtemp E (wk_worker_id args) (keys (tmpdirs w)) in
     exists result w',
       convert_one E args w = Ok result w' /\
       lookup str_eq_dec tmpdir (tmpdirs w) = None /\
       (get_image_files result = [] ->
        r_tmpdir result = None /\ tmpdirs w' = tmpdirs w) /\
       (get_image_files result <> [] ->
        r_tmpdir result = Some tmpdir /\
        forall src name, In (src, name) (get_image_files result) ->
          fst src = tmpdir /\ tmp_file src w' <> None)) /\
  (forall dry_run result rest theme_stats w,
     patch_all E dry_run (result :: rest) theme_stats w =
     match update_reader_page (copy_error E) result dry_run w with
     | Ok ba w1 =>
         patch_all E dry_run rest (stats_step theme_stats result ba)
           (after_cleanup result w1)
     | Raised e w1 => Raised e w1
     end) /\
  (forall result dry_run w,
     tmpdirs (world_of (update_reader_page (copy_error E) result dry_run w))
     = tmpdirs w) /\
  (forall dry_run results theme_stats w e w',
     patch_all E dry_run results theme_stats w = Raised e w' ->
     exists done result rest w1,
       results = done ++ result :: rest /\
       update_reader_page (copy_error E) result dry_run w1 = Raised e w' /\
       forall d, ~ removed_by done d ->
         lookup str_eq_dec d (tmpdirs w') = lookup str_eq_dec d (tmpdirs w)) /\
  (forall result w ba w1,
     update_reader_page (copy_error E) result false w = Ok ba w1 ->
     stdout w1 = stdout w ->
     forall src name, In (src, name) (get_image_files result) ->
       exists src' x,
         In (src', name) (get_image_files result) /\
         tmp_file src' w = Some x /\
         img_file w1 (img_dir_of result) name = Some x).
Proof.
  split; [|split; [|split; [|split]]].
  - intros args w tmpdir.
    pose proof (mkdtemp_fresh E (wk_worker_id args) (keys (tmpdirs w)))
      as Hfresh. fold tmpdir in Hfresh.
    apply (lookup_none_not_in str_eq_dec) in Hfresh.
    pose proof (convert_one_runs E args w) as Hrun. cbv zeta in Hrun.
    fold tmpdir in Hrun.
    pose proof (attempt_outcome E args tmpdir) as [_ Hsrc].
    destruct (get_image_files (attempt E args tmpdir)) as [|p imgs] eqn:Ei.
    + exists (attempt E args tmpdir), (after_makedirs E args w).
      split; [exact Hrun|].
      split; [exact Hfresh|]. split; [|congruence].
      intros _. split; [|apply after_makedirs_frame].
      unfold attempt. destruct (soffice E args) as [e| |e|rc err out];
        try reflexivity.
      unfold convert_body.
      destruct (negb (rc =? 0)%Z); [reflexivity|].
      destruct (html_outputs out); [reflexivity|].
      destruct (companion_images out s); [reflexivity|]. cbv zeta.
      destruct (clean_lo_html _ _ _) as [e|[c m]]; reflexivity.
    + destruct Hrun as (rc & err & out & Hso & Hrun).
      eexists _, _. split; [exact Hrun|]. split; [exact Hfresh|].
      assert (Hg : get_image_files (set_tmpdir (attempt E args tmpdir) tmpdir)
                   = p :: imgs) by exact Ei.
      rewrite Hg. split; [discriminate|]. intros _.
      split; [reflexivity|]. intros src name Hin.
      destruct (Hsrc src name Hin) as (rc' & err' & out' & Hso' & Hd & Hk).
      rewrite Hso in Hso'. injection Hso' as <- <- <-.
      split; [exact Hd|]. unfold tmp_file, with_tmpdirs; simpl. rewrite Hd.
      rewrite lookup_app_last by exact Hfresh.
      intros Hn. apply (lookup_none_not_in str_eq_dec) in Hn. contradiction.
  - intros. apply patch_all_cons.
  - intros. apply update_keeps_tmpdirs.
  - intros dry_run results theme_stats w e w'. apply patch_all_raised.
  - intros result w ba w1 Hu Hout.
    destruct (update_copies_all _ _ _ _ _ Hu) as [[x ->]|H]; [|exact H].
    exfalso. destruct (after_warn_same_files x (r_reader result) w)
      as [_ Hs]. rewrite Hs in Hout.
    apply (f_equal (@length _)) in Hout. rewrite length_app in Hout.
    simpl in Hout. lia.
Qed.
End NoImageLoss.

(* ------------------------------------------------------------------ *)
(** ** The counters of the report *)

Lemma updated_of_step (theme_stats : list (str * report_row))
    (result : conv_result) (ba : nat * nat) (theme : str) :
  updated_of (stats_step theme_stats result ba) theme
  = updated_of theme_stats theme
    + (if str_eq_dec (r_theme result) theme then 1 else 0).
Proof.
  unfold stats_step, updated_of.
  destruct (lookup str_eq_dec (r_theme result) theme_stats) as [s|] eqn:El.
  - rewrite El. destruct (str_eq_dec (r_theme result) theme) as [<-|Hne].
    + rewrite lookup_assign_same, El. reflexivity.
    + rewrite lookup_assign_other by congruence. lia.
  - rewrite lookup_assign_same.
    destruct (str_eq_dec (r_theme result) theme) as [<-|Hne].
    + rewrite lookup_assign_same, El. reflexivity.
    + rewrite !lookup_assign_other by congruence. lia.
Qed.

Lemma keys_step (theme_stats : list (str * report_row))
    (result : conv_result) (ba : nat * nat) :
  keys (stats_step theme_stats result ba)
  = if in_dec str_eq_dec (r_theme result) (keys theme_stats)
    then keys theme_stats
    else keys theme_stats ++ [r_theme result].
Proof.
  assert (Hnew : forall (d : list (str * report_row)) k v,
             ~ In k (keys d) -> assign str_eq_dec k v d = d ++ [(k, v)]).
  { induction d as [|[k' v'] d IH]; intros k v Hk; simpl; [reflexivity|].
    simpl in Hk. destruct (str_eq_dec k k') as [->|Hne]; [tauto|].
    f_equal. apply IH. tauto. }
  unfold stats_step.
  destruct (lookup str_eq_dec (r_theme result) theme_stats) as [s|] eqn:El.
  - rewrite El. rewrite (keys_assign_present _ _ _ s) by exact El.
    destruct (in_dec str_eq_dec (r_theme result) (keys theme_stats)) as [|Hn];
      [reflexivity|].
    apply (lookup_none_not_in str_eq_dec) in Hn. congruence.
  - rewrite lookup_assign_same.
    rewrite (keys_assign_present _ _ _ zero_row)
      by apply lookup_assign_same.
    apply (lookup_none_not_in str_eq_dec) in El.
    rewrite Hnew by exact El.
    destruct (in_dec str_eq_dec (r_theme result) (keys theme_stats));
      [contradiction|].
    unfold keys. now rewrite map_app.
Qed.

Lemma patch_all_counts (E : Env) (dry_run : bool)
    (results : list conv_result)
    (theme_stats theme_stats' : list (str * report_row)) (w w' : World) :
  patch_all E dry_run results theme_stats w = Ok theme_stats' w' ->
  (forall theme,
     updated_of theme_stats' theme
     = updated_of theme_stats theme + count_theme theme results) /\
  (NoDup (keys theme_stats) -> NoDup (keys theme_stats')) /\
  (forall theme, In theme (keys theme_stats') ->
     In theme (keys theme_stats) \/ 0 < count_theme theme results).
Proof.
  revert theme_stats w; induction results as [|r rs IH]; intros theme_stats w.
  - simpl. monad_unfold. intros [= <- <-]. unfold count_theme; simpl.
    split; [intros; lia|]. split; [tauto|]. tauto.
  - rewrite patch_all_cons.
    destruct (update_reader_page (copy_error E) r dry_run w) as [ba w1|e w1];
      [|discriminate].
    intros H. apply IH in H as (Hc & Hn & Hk).
    split; [|split].
    + intros theme. rewrite Hc, updated_of_step. unfold count_theme; simpl.
      destruct (str_eq_dec (r_theme r) theme); simpl; lia.
    + intros Hnd. apply Hn. rewrite keys_step.
      destruct (in_dec str_eq_dec (r_theme r) (keys theme_stats)) as [|Hni];
        [exact Hnd|].
      apply NoDup_app; [exact Hnd | repeat constructor; intros [] |].
      intros x Hx [<-|[]]. contradiction.
    + intros theme Hin. apply Hk in Hin as [Hin|Hin].
      * rewrite keys_step in Hin.
        destruct (in_dec str_eq_dec (r_theme r) (keys theme_stats));
          [now left|].
        apply in_app_iff in Hin as [Hin|[<-|[]]]; [now left|].
        right. unfold count_theme; simpl.
        destruct (str_eq_dec (r_theme r) (r_theme r)); [simpl; lia|congruence].
      * right. unfold count_theme in *; simpl.
        destruct (str_eq_dec (r_theme r) theme); simpl; lia.
Qed.

Lemma list_sum_perm (l l' : list nat) :
  Permutation l l' -> list_sum l = list_sum l'.
Proof. induction 1; simpl; lia. Qed.

Lemma totals_updated (theme_stats : list (str * report_row))
    (ks : list str) (init : report_row) :
  row_updated
    (fold_left (fun total theme =>
                  match lookup str_eq_dec theme theme_stats with
                  | Some s => add_rows total s
                  | None => total
                  end) ks init)
  = row_updated init + list_sum (map (updated_of theme_stats) ks).
Proof.
  revert init; induction ks as [|k ks IH]; intros init; simpl; [lia|].
  rewrite IH. unfold updated_of.
  destruct (lookup str_eq_dec k theme_stats); simpl; lia.
Qed.

Lemma count_theme_indicator (ks : list str) (t : str) :
  NoDup ks -> In t ks ->
  list_sum (map (fun k => if str_eq_dec t k then 1 else 0) ks) = 1.
Proof.
  induction ks as [|k ks IH]; intros Hnd Hin; [contradiction|].
  inversion Hnd as [|? ? Hk Hnd']; subst. simpl.
  destruct (str_eq_dec t k) as [->|Hne].
  - assert (Hz : list_sum (map (fun k0 => if str_eq_dec k k0 then 1 else 0) ks)
                 = 0).
    { clear IH Hnd Hnd' Hin. induction ks as [|a ks IHk]; [reflexivity|].
      simpl. destruct (str_eq_dec k a) as [->|]; [exfalso; apply Hk; now left|].
      apply IHk. intros H. apply Hk. now right. }
    lia.
  - destruct Hin as [->|Hin]; [congruence|]. now rewrite IH.
Qed.

Lemma count_theme_total (ks : list str) (results : list conv_result) :
  NoDup ks ->
  (forall r, In r results -> In (r_theme r) ks) ->
  list_sum (map (fun k => count_theme k results) ks) = length results.
Proof.
  intros Hnd. induction results as [|r rs IH]; intros Hin.
  - unfold count_theme; simpl. clear. induction ks; simpl; auto.
  - assert (Hsplit : list_sum (map (fun k => count_theme k (r :: rs)) ks)
                     = list_sum (map (fun k => if str_eq_dec (r_theme r) k
                                               then 1 else 0) ks)
                       + list_sum (map (fun k => count_theme k rs) ks)).
    { clear. induction ks as [|k ks IHk]; [reflexivity|]. simpl.
      rewrite IHk. unfold count_theme at 1. simpl.
      destruct (str_eq_dec (r_theme r) k); unfold count_theme; simpl; lia. }
    rewrite Hsplit, IH by (intros r' Hr'; apply Hin; now right).
    rewrite (count_theme_indicator ks (r_theme r) Hnd)
      by (apply Hin; now left).
    reflexivity.
Qed.

(** C10.  The per-theme [updated] counters and the total of the report
    count every success result that the patch phase has processed,
    whether the page was written or not: in the report of a run that
    reaches the report, the total is the number of success results and a
    theme's counter is the number of its success results.  The total can
    exceed the number of pages written: a run over one success result
    whose page has no container reports one update and leaves every page
    as it was. *)
Theorem updated_counts_every_result :
  (forall (E : Env) (dry_run : bool) (t : tally) (w w' : World),
     t_results t <> [] ->
     patch_and_report E dry_run t w = Ok tt w' ->
     exists rep,
       report_json w' = Some rep /\
       row_updated (rep_totals rep) = length (t_results t) /\
       forall theme,
         updated_of (rep_themes rep) theme
         = count_theme theme (t_results t)) /\
  (exists (E : Env) (t : tally) (w w' : World) (rep : report),
     patch_and_report E false t w = Ok tt w' /\
     report_json w' = Some rep /\
     row_updated (rep_totals rep) = 1 /\
     pages w' = pages w /\
     stdout w' = [(WarnNoContainer, demo_page)]).
Proof.
  split.
  - intros E dry_run t w w' Hne. unfold patch_and_report.
    destruct (t_results t) as [|r0 rs0] eqn:Et; [congruence|].
    monad_unfold.
    destruct (patch_all E dry_run (by_reader (r0 :: rs0)) [] w)
      as [st w1|e w1] eqn:Ep; [|discriminate].
    unfold write_report. intros [= <-]. simpl.
    eexists. split; [reflexivity|].
    apply patch_all_counts in Ep as (Hc & Hn & Hk).
    assert (Hperm : Permutation (r0 :: rs0) (by_reader (r0 :: rs0)))
      by apply sorted_perm.
    assert (Hcount : forall theme,
               count_theme theme (by_reader (r0 :: rs0))
               = count_theme theme (r0 :: rs0)).
    { intros theme. unfold count_theme. apply Permutation_length.
      apply Permutation_sym. clear -Hperm.
      induction Hperm; simpl;
        repeat match goal with
               | |- context [if ?c then _ else _] => destruct c
               end; eauto using Permutation. }
    split.
    + unfold make_report; simpl. rewrite totals_updated. simpl.
      rewrite (list_sum_perm _ (map (updated_of st) (keys st))).
      2:{ apply Permutation_map, Permutation_sym, sorted_perm. }
      rewrite (map_ext _ (fun k => count_theme k (r0 :: rs0))).
      2:{ intros k. rewrite Hc, Hcount. reflexivity. }
      apply count_theme_total.
      * apply Hn. constructor.
      * intros r Hr.
        assert (Hpos : 0 < updated_of st (r_theme r)).
        { rewrite Hc, Hcount. unfold updated_of, count_theme. simpl lookup.
          clear -Hr. induction (r0 :: rs0) as [|a l IH]; [contradiction|].
          simpl. destruct Hr as [->|Hr].
          - destruct (str_eq_dec (r_theme r) (r_theme r)); [simpl; lia|].
            congruence.
          - specialize (IH Hr).
            destruct (str_eq_dec (r_theme a) (r_theme r)); simpl; lia. }
        unfold updated_of in Hpos.
        destruct (lookup str_eq_dec (r_theme r) st) eqn:El; [|lia].
        destruct (in_dec str_eq_dec (r_theme r) (keys st)) as [|Hni];
          [assumption|].
        apply (lookup_none_not_in str_eq_dec) in Hni. congruence.
    + intros theme. unfold make_report; simpl.
      rewrite Hc, Hcount. reflexivity.
  - exists (calm_env (fun _ => LoTimeout)), (mkTally [bare_result] 0 0 1),
      bare_world.
    eexists _, _. vm_compute. repeat split.
Qed.

(* ------------------------------------------------------------------ *)
(** ** The convertible extensions *)

Lemma in_strs_In (x : str) (l : list str) : in_strs x l = true <-> In x l.
Proof.
  unfold in_strs. destruct (in_dec str_eq_dec x l); split; auto; discriminate.
Qed.

Section ConvertibleFacts.
Context {RT : PyRuntime}.

Lemma prepare_work_spec (workers : Z) (total i : nat)
    (items : list ((str * str) * rpath)) (work : list work_item) :
  prepare_work workers total i items = inr work ->
  forall theme src reader,
    (exists wk, In wk work /\ wk_theme wk = theme /\ wk_source wk = src /\
                wk_reader wk = reader) <->
    (In ((theme, src), reader) items /\ convertible src = true).
Proof.
  revert i work; induction items as [|[[t s] r] items IH]; intros i work; simpl.
  - intros [= <-] theme src reader. split; [intros (wk & [] & _) | tauto].
  - destruct (convertible s) eqn:Ec; simpl.
    + destruct (workers =? 0)%Z; [discriminate|].
      destruct (prepare_work workers total (S i) items) as [e|work'] eqn:Ep;
        [discriminate|].
      intros [= <-] theme src reader. specialize (IH _ _ Ep theme src reader).
      split.
      * intros (wk & [<-|Hin] & Ht & Hs & Hr); simpl in *.
        -- subst. split; [now left | exact Ec].
        -- destruct IH as [IH _].
           destruct IH as [H1 H2]; [now exists wk|]. split; [now right|exact H2].
      * intros [[[= <- <- <-]|Hin] Hc].
        -- eexists. split; [now left|]. simpl. auto.
        -- destruct IH as [_ IH]. destruct IH as (wk & Hw & Hrest); [now split|].
           exists wk. split; [now right | exact Hrest].
    + intros Hp theme src reader. specialize (IH _ _ Hp theme src reader).
      rewrite IH. split.
      * intros [Hin Hc]. split; [now right | exact Hc].
      * intros [[[= <- <- <-]|Hin] Hc]; [congruence|]. now split.
Qed.

Lemma prepare_work_runs (workers : Z) (total i : nat)
    (items : list ((str * str) * rpath)) :
  (workers <> 0%Z \/
   forall key reader, In (key, reader) items -> convertible (snd key) = false) ->
  exists work, prepare_work workers total i items = inr work.
Proof.
  revert i; induction items as [|[[t s] r] items IH]; intros i H; simpl.
  - eauto.
  - destruct (IH (S i)) as [work Hw].
    { destruct H as [H|H]; [now left|]. right. intros key reader Hin.
      apply (H key reader). now right. }
    rewrite Hw. destruct (convertible s) eqn:Ec; simpl; [|eauto].
    destruct H as [H|H].
    + apply Z.eqb_neq in H. rewrite H. eauto.
    + specialize (H (t, s) r (or_introl eq_refl)). simpl in H. congruence.
Qed.

Lemma work_list_spec (args : cli_args) (w : World) (work : list work_item) :
  work_list args w = inr work ->
  forall theme src reader,
    (exists wk, In wk work /\ wk_theme wk = theme /\
                wk_source wk = src /\ wk_reader wk = reader) <->
    (In ((theme, src), reader) (selected_mapping args w) /\
     convertible src = true).
Proof.
  intros Hw theme src reader.
  change (work_list args w)
    with (prepare_work (arg_workers args)
            (length (selected_mapping args w)) 0
            (sorted fst pair_ltb (selected_mapping args w))) in Hw.
  rewrite (prepare_work_spec _ _ _ _ _ Hw theme src reader).
  now rewrite sorted_In.
Qed.

(** C9.  A mapped source document gets a work item exactly when the
    lower-cased suffix of its file name is one of [.doc], [.docx],
    [.rtf], [.odt]; a document with another suffix is passed over without
    an error, so that a work list always comes out when the worker count
    is not zero; and a file whose suffix is [.pdf] is never in the work
    list, whatever the mapping holds. *)
Theorem convertible_sources_only (args : cli_args) (w : World) :
  (forall src,
     convertible src = true <->
     In (str_lower (path_suffix src))
        [py ".doc"; py ".docx"; py ".rtf"; py ".odt"]) /\
  (arg_workers args <> 0%Z -> exists work, work_list args w = inr work) /\
  ((forall key reader, In (key, reader) (selected_mapping args w) ->
                       convertible (snd key) = false) ->
   work_list args w = inr []) /\
  (forall work,
     work_list args w = inr work ->
     (forall theme src reader,
        (exists wk, In wk work /\ wk_theme wk = theme /\
                    wk_source wk = src /\ wk_reader wk = reader) <->
        (In ((theme, src), reader) (selected_mapping args w) /\
         convertible src = true)) /\
     (forall wk, In wk work ->
        str_lower (path_suffix (wk_source wk)) <> py ".pdf" /\
        path_suffix (wk_source wk) <> py ".pdf")).
Proof.
  assert (Hconv : forall src,
             convertible src = true <->
             In (str_lower (path_suffix src))
                [py ".doc"; py ".docx"; py ".rtf"; py ".odt"]).
  { intros src. unfold convertible. apply in_strs_In. }
  assert (Hwl : work_list args w
                = prepare_work (arg_workers args)
                    (length (selected_mapping args w)) 0
                    (sorted fst pair_ltb (selected_mapping args w)))
    by reflexivity.
  pose proof (work_list_spec args w) as Hspec.
  split; [exact Hconv|]. split; [|split; [|]].
  - intros Hne. rewrite Hwl. apply prepare_work_runs. now left.
  - intros Hnone.
    destruct (prepare_work_runs (arg_workers args)
                (length (selected_mapping args w)) 0
                (sorted fst pair_ltb (selected_mapping args w))) as [work Hw].
    { right. intros key reader Hin. apply sorted_In in Hin.
      exact (Hnone key reader Hin). }
    rewrite <- Hwl in Hw. rewrite Hw. f_equal.
    destruct work as [|wk work]; [reflexivity|]. exfalso.
    destruct (Hspec _ Hw (wk_theme wk) (wk_source wk) (wk_reader wk))
      as [H _].
    destruct H as [Hin Hc]; [exists wk; repeat split; now left|].
    specialize (Hnone _ _ Hin). simpl in Hnone. congruence.
  - intros work Hw. split; [exact (Hspec work Hw)|].
    intros wk Hin.
    destruct (Hspec _ Hw (wk_theme wk) (wk_source wk) (wk_reader wk))
      as [H _].
    destruct H as [_ Hc]; [exists wk; repeat split; exact Hin|].
    apply Hconv in Hc.
    assert (Hlow : str_lower (path_suffix (wk_source wk)) <> py ".pdf").
    { intros Hpdf. rewrite Hpdf in Hc. vm_compute in Hc.
      intuition discriminate. }
    split; [exact Hlow|]. intros Hpdf. apply Hlow. rewrite Hpdf.
    now rewrite (str_lower_ascii (py ".pdf") eq_refl).
Qed.
End ConvertibleFacts.

(* ------------------------------------------------------------------ *)
(** ** The order of file names *)

Lemma str_ltb_irrefl (a : str) : str_ltb a a = false.
Proof.
  induction a as [|x a IH]; simpl; [reflexivity|].
  now rewrite N.ltb_irrefl.
Qed.

Lemma str_ltb_antisym (a b : str) :
  str_ltb a b = false -> str_ltb b a = false -> a = b.
Proof.
  revert b; induction a as [|x a IH]; intros [|y b]; simpl; try discriminate.
  - reflexivity.
  - destruct (x <? y)%N eqn:E1; [discriminate|].
    destruct (y <? x)%N eqn:E2; [discriminate|].
    apply N.ltb_ge in E1, E2. intros H1 H2.
    assert (x = y) by lia. subst. f_equal. now apply IH.
Qed.

Lemma str_ltb_trans (a b c : str) :
  str_ltb a b = true -> str_ltb b c = true -> str_ltb a c = true.
Proof.
  revert b c; induction a as [|x a IH]; intros [|y b] [|z c]; simpl;
    try discriminate; try reflexivity.
  destruct (x <? y)%N eqn:E1.
  - apply N.ltb_lt in E1. intros _.
    destruct (y <? z)%N eqn:E2.
    + apply N.ltb_lt in E2. intros _.
      assert (H : (x <? z)%N = true) by (apply N.ltb_lt; lia). now rewrite H.
    + destruct (z <? y)%N eqn:E3; [discriminate|].
      apply N.ltb_ge in E2, E3. assert (y = z) by lia. subst. intros _.
      assert (H : (x <? z)%N = true) by (apply N.ltb_lt; lia). now rewrite H.
  - destruct (y <? x)%N eqn:E1'; [discriminate|].
    apply N.ltb_ge in E1, E1'. assert (x = y) by lia. subst y.
    intros Hab. destruct (x <? z)%N; [reflexivity|].
    destruct (z <? x)%N; [discriminate|]. now apply IH.
Qed.

Lemma str_ltb_asym (a b : str) : str_ltb a b = true -> str_ltb b a = false.
Proof.
  intros H. destruct (str_ltb b a) eqn:E; [|reflexivity].
  pose proof (str_ltb_trans _ _ _ H E) as Hc.
  now rewrite str_ltb_irrefl in Hc.
Qed.

Lemma str_le_trans (a b c : str) : str_le a b -> str_le b c -> str_le a c.
Proof.
  unfold str_le. intros Hab Hbc.
  destruct (str_ltb c a) eqn:E; [|reflexivity].
  destruct (str_ltb b c) eqn:E2.
  - pose proof (str_ltb_trans _ _ _ E2 E). congruence.
  - assert (b = c) by now apply str_ltb_antisym. subst. congruence.
Qed.

Lemma insert_sorted_str (x : str) (l : list str) :
  StronglySorted str_le l ->
  StronglySorted str_le (insert_sorted (fun z => z) str_ltb x l).
Proof.
  induction 1 as [|y l Hs IH Hall]; simpl.
  - repeat constructor.
  - destruct (str_ltb x y) eqn:E.
    + constructor; [now constructor|].
      assert (Hxy : str_le x y) by (apply str_ltb_asym; exact E).
      constructor; [exact Hxy|].
      rewrite Forall_forall in *. intros z Hz.
      eapply str_le_trans; [exact Hxy | now apply Hall].
    + constructor; [exact IH|].
      rewrite Forall_forall in *. intros z Hz.
      apply (Permutation_in _
               (Permutation_sym (insert_sorted_perm (fun z => z) str_ltb x l)))
        in Hz.
      destruct Hz as [<-|Hz]; [exact E | now apply Hall].
Qed.

Lemma sorted_str_sorted (l : list str) : StronglySorted str_le (sorted_str l).
Proof.
  unfold sorted_str, sorted.
  assert (H : forall acc, StronglySorted str_le acc ->
              StronglySorted str_le
                (fold_left (fun acc x => insert_sorted (fun z => z) str_ltb x acc)
                           l acc)).
  { induction l as [|x l IH]; intros acc Hacc; simpl; [exact Hacc|].
    apply IH. now apply insert_sorted_str. }
  apply H. constructor.
Qed.

Lemma sorted_unique (l1 l2 : list str) :
  StronglySorted str_le l1 -> StronglySorted str_le l2 ->
  Permutation l1 l2 -> l1 = l2.
Proof.
  intros H1; revert l2; induction H1 as [|x l1 Hs1 IH Hall1];
    intros l2 H2 Hp.
  - apply Permutation_nil in Hp. now subst.
  - destruct H2 as [|y l2 Hs2 Hall2].
    + apply Permutation_sym, Permutation_nil in Hp. discriminate.
    + assert (x = y).
      { rewrite Forall_forall in Hall1, Hall2.
        assert (Hx : In x (y :: l2))
          by (eapply Permutation_in; [exact Hp | now left]).
        assert (Hy : In y (x :: l1))
          by (eapply Permutation_in;
              [apply Permutation_sym; exact Hp | now left]).
        destruct Hx as [Hx|Hx]; [now symmetry|].
        destruct Hy as [Hy|Hy]; [exact Hy|].
        apply str_ltb_antisym.
        - exact (Hall2 x Hx).
        - exact (Hall1 y Hy). }
      subst y. f_equal. apply IH; [exact Hs2|].
      now apply Permutation_cons_inv in Hp.
Qed.

(** The sorted list depends on the elements only, not on their order. *)
Lemma sorted_str_perm (l l' : list str) :
  Permutation l l' -> sorted_str l = sorted_str l'.
Proof.
  intros Hp. apply sorted_unique; try apply sorted_str_sorted.
  eapply perm_trans; [apply Permutation_sym, sorted_perm|].
  eapply perm_trans; [exact Hp | apply sorted_perm].
Qed.

(* ------------------------------------------------------------------ *)
(** ** The rename map *)

Lemma assign_absent {K V : Type} (dec : forall a b : K, {a = b} + {a <> b})
    (k : K) (v : V) (d : list (K * V)) :
  ~ In k (keys d) -> assign dec k v d = d ++ [(k, v)].
Proof.
  induction d as [|[k' v'] d IH]; intros Hk; simpl; [reflexivity|].
  simpl in Hk. destruct (dec k k') as [->|Hne]; [tauto|].
  f_equal. apply IH. tauto.
Qed.

Lemma number_images_numbered (names : list str) (i : nat)
    (img_map : list (str * str)) :
  NoDup names ->
  (forall n, In n names -> ~ In n (keys img_map)) ->
  number_images i names img_map = img_map ++ numbered i names.
Proof.
  revert i img_map; induction names as [|n names IH]; intros i img_map Hnd Hk.
  - simpl. now rewrite app_nil_r.
  - inversion Hnd as [|? ? Hn Hnd']; subst. simpl.
    change (py "img" ++ fmt_03d i
            ++ match path_suffix n with [] => py ".png" | c :: e => c :: e end)
      with (img_name i n).
    rewrite assign_absent by (apply Hk; now left).
    rewrite IH; [now rewrite <- app_assoc | exact Hnd' |].
    intros m Hm Hin. unfold keys in Hin. rewrite map_app in Hin.
    apply in_app_iff in Hin as [Hin|[<-|[]]].
    + apply (Hk m); [now right | exact Hin].
    + contradiction.
Qed.

(* ------------------------------------------------------------------ *)
(** ** Rewriting the image tags in any runtime *)

Lemma sub_loop_ext (r : re) (repl repl' : rmatched -> exn + str)
    (fuel : nat) (s : str) (pos : nat) :
  (forall m, repl m = repl' m) ->
  sub_loop r repl fuel s pos = sub_loop r repl' fuel s pos.
Proof.
  intros H. revert s pos; induction fuel as [|fuel IH]; intros s pos; simpl;
    [reflexivity|].
  destruct (match_here r s pos) as [m|].
  - destruct (length (m_rest m) <? length s).
    + rewrite H, IH. reflexivity.
    + destruct s; [reflexivity|]. now rewrite IH.
  - destruct s; [reflexivity|]. now rewrite IH.
Qed.

Lemma sub_loop_agree (r : re) (repl repl' : rmatched -> exn + str)
    (fuel : nat) (s : str) (pos : nat) :
  Forall (fun m => repl m = repl' m) (sub_matches r fuel s pos) ->
  sub_loop r repl fuel s pos = sub_loop r repl' fuel s pos.
Proof.
  revert s pos; induction fuel as [|fuel IH]; intros s pos; simpl;
    [reflexivity|].
  destruct (match_here r s pos) as [m|].
  - destruct (length (m_rest m) <? length s).
    + intros H. inversion H as [|? ? Hm Hrest]; subst.
      rewrite Hm, (IH _ _ Hrest). reflexivity.
    + destruct s; [reflexivity|]. intros H. now rewrite IH.
  - destruct s; [reflexivity|]. intros H. now rewrite IH.
Qed.

Lemma no_char_app (c : char) (a b : str) :
  no_char c (a ++ b) = no_char c a && no_char c b.
Proof.
  unfold no_char. rewrite existsb_app. apply negb_orb.
Qed.

Section AnyRuntime.
Context {RT : PyRuntime}.

Lemma re_sub_template_plain (r : re) (t s : str) :
  no_char backslash t = true ->
  re_sub_template r t s = re_sub_with r (fun _ => inr t) s.
Proof.
  intros Ht. destruct (compile_template_plain t Ht) as (f & Hf & Hm).
  unfold re_sub_template. rewrite Hf. unfold re_sub_with.
  apply sub_loop_ext. intros m. now rewrite Hm.
Qed.

Lemma rewrite_img_plain (img_map : list (str * str)) (reader_slug : str)
    (m : rmatched) :
  no_char backslash reader_slug = true ->
  forallb (fun kv => no_char backslash (snd kv)) img_map = true ->
  plain_src m = true ->
  rewrite_img img_map reader_slug m
  = @rewrite_img plain_runtime img_map reader_slug m.
Proof.
  intros Hslug Hmap Hsrc. unfold rewrite_img, plain_src in *.
  destruct (re_search re_src_value
              (match m_group1 m with Some g => g | None => [] end))
    as [sm|]; [|reflexivity].
  rewrite (unquote_plain _ Hsrc).
  change (@unquote plain_runtime ?x) with x.
  destruct (lookup str_eq_dec _ img_map) as [renamed|] eqn:El; [|reflexivity].
  assert (Ht : no_char backslash
                 (py "src=" ++ dq :: (py "img/" ++ reader_slug ++ py "/"
                                      ++ renamed) ++ [dq]) = true).
  { apply lookup_In in El. rewrite forallb_forall in Hmap.
    specialize (Hmap _ El). simpl in Hmap.
    rewrite no_char_app.
    change (dq :: (py "img/" ++ reader_slug ++ py "/" ++ renamed) ++ [dq])
      with ([dq] ++ (py "img/" ++ reader_slug ++ py "/" ++ renamed) ++ [dq]).
    rewrite !no_char_app, Hslug, Hmap. reflexivity. }
  rewrite (re_sub_template_plain _ _ _ Ht). reflexivity.
Qed.

(** Where no [src] value has a percent escape and neither the slug nor a
    new name a backslash, every runtime rewrites the image tags as the
    plain one does. *)
Lemma rewrite_images_plain (img_map : list (str * str)) (reader_slug : str)
    (html : str) :
  no_char backslash reader_slug = true ->
  forallb (fun kv => no_char backslash (snd kv)) img_map = true ->
  forallb plain_src (img_matches html) = true ->
  rewrite_images img_map reader_slug html
  = @rewrite_images plain_runtime img_map reader_slug html.
Proof.
  intros Hslug Hmap Hsrc. unfold rewrite_images, re_sub_with.
  apply sub_loop_agree. apply Forall_forall. intros m Hm.
  rewrite forallb_forall in Hsrc.
  apply rewrite_img_plain; auto.
Qed.
End AnyRuntime.

(** The map that [clean_lo_html] returns is the rename map of the names
    it is given. *)
Lemma clean_lo_html_map {RT : PyRuntime} (body_html : str)
    (image_files : list str) (reader_slug cleaned : str)
    (img_map : list (str * str)) :
  clean_lo_html body_html image_files reader_slug = inr (cleaned, img_map) ->
  img_map = build_img_map image_files.
Proof.
  unfold clean_lo_html.
  destruct (strip_tags body_html [py "font"]) as [e|result]; [discriminate|].
  cbv zeta.
  destruct (rewrite_images _ _ _) as [e|out]; [discriminate|].
  now intros [= _ <-].
Qed.

(** C3.  The map that [clean_lo_html] returns is the list of the original
    names, sorted by code point, each with [img] and its rank on three
    digits followed by the suffix of the original, [.png] when it has
    none; what [clean_lo_html] returns is the same for every order in
    which the names are given.  For [picture2.png] and [picture1.jpg] it
    sends [picture1.jpg] to [img001.jpg] and [picture2.png] to
    [img002.png], and the image tags of the cleaned fragment point to
    [img/letter/img002.png] and [img/letter/img001.jpg]. *)
Theorem rename_map_deterministic :
  (forall (RT : PyRuntime) body_html image_files reader_slug cleaned img_map,
     @clean_lo_html RT body_html image_files reader_slug
     = inr (cleaned, img_map) ->
     img_map = build_img_map image_files /\
     (NoDup image_files ->
      img_map = numbered 1 (sorted_str image_files))) /\
  (forall image_files,
     StronglySorted str_le (sorted_str image_files) /\
     Permutation image_files (sorted_str image_files)) /\
  (forall i name,
     img_name i name
     = py "img" ++ fmt_03d i
       ++ (if str_eq_dec (path_suffix name) [] then py ".png"
           else path_suffix name)) /\
  (forall (RT : PyRuntime) body_html reader_slug image_files image_files',
     Permutation image_files image_files' ->
     @clean_lo_html RT body_html image_files reader_slug
     = @clean_lo_html RT body_html image_files' reader_slug) /\
  (forall RT : PyRuntime,
     @html_feed RT letter_fragment = inr letter_events ->
     @clean_lo_html RT letter_fragment letter_images (py "letter")
     = inr (letter_cleaned,
            [(py "picture1.jpg", py "img001.jpg");
             (py "picture2.png", py "img002.png")])).
Proof.
  split; [|split; [|split; [|split]]].
  - intros RT body_html image_files reader_slug cleaned img_map Hc.
    apply clean_lo_html_map in Hc. split; [exact Hc|].
    intros Hnd. rewrite Hc. unfold build_img_map.
    rewrite number_images_numbered; [reflexivity | | intros n _ []].
    eapply Permutation_NoDup; [apply sorted_perm | exact Hnd].
  - intros image_files. split; [apply sorted_str_sorted | apply sorted_perm].
  - intros i name. unfold img_name.
    destruct (path_suffix name); reflexivity.
  - intros RT body_html reader_slug image_files image_files' Hp.
    unfold clean_lo_html, build_img_map.
    now rewrite (sorted_str_perm _ _ Hp).
  - intros RT Hfeed.
    assert (Hstrip : strip_tags letter_fragment [py "font"]
                     = inr (pyq ("<p><img src=`picture2.png` name=`Image2` "
                                 ++ "align=`left` width=`100` height=`80` "
                                 ++ "border=`0` /><img src=`picture1.jpg` "
                                 ++ "name=`Image1` /></p>"))).
    { unfold strip_tags. rewrite Hfeed.
      cbn [letter_events map flat_map TagStripper_handle app].
      rewrite !str_lower_ascii by reflexivity.
      vm_compute. reflexivity. }
    unfold clean_lo_html. rewrite Hstrip. cbv zeta.
    match goal with
    | |- context [rewrite_images ?m ?slug ?h] =>
        let h' := eval vm_compute in h in
        let m' := eval vm_compute in m in
        change h with h'; change m with m'
    end.
    rewrite rewrite_images_plain by (vm_compute; reflexivity).
    vm_compute. reflexivity.
Qed.

(** C4: the code at the failing input.  In every runtime the tag
    [<img width=Q10Q src=Qa.pngQ>], whose file is in the rename map, gets
    its [src] rewritten and keeps its [width] attribute, because the
    pattern that strips the attribute asks for white space before it and
    the white space after [<img] is not part of the text it is run on;
    the same attribute behind [src] is stripped. *)
Theorem leading_attribute_not_stripped (RT : PyRuntime) :
  @rewrite_images RT (build_img_map [py "a.png"]) (py "letter") width_first
  = inr (pyq "<img width=`10` src=`img/letter/img001.png`>") /\
  @rewrite_images RT (build_img_map [py "a.png"]) (py "letter") width_last
  = inr (pyq "<img src=`img/letter/img001.png`>").
Proof.
  split; (rewrite rewrite_images_plain by (vm_compute; reflexivity));
    vm_compute; reflexivity.
Qed.

(* ------------------------------------------------------------------ *)
(** ** The marker and the pages a run writes *)

Lemma contains_middle (sub a b : str) : contains sub (a ++ sub ++ b) = true.
Proof.
  unfold contains. destruct (find sub (a ++ sub ++ b) 0) eqn:E; [reflexivity|].
  exfalso. apply (find_none _ _ _ E (length a)); [lia|].
  split.
  - rewrite length_app. lia.
  - rewrite skipn_app, skipn_all, Nat.sub_diag. simpl.
    apply startswith_app. now exists b.
Qed.

(** A patched page has the marker right behind the opening tag. *)
Lemma splice_marks (page new_body new_content : str) :
  splice page new_body = inr new_content ->
  exists open_idx,
    find open_tag page 0 = Some open_idx /\
    upto (open_idx + length open_tag) new_content
    = upto open_idx page ++ open_tag /\
    startswith (newline :: lo_marker ++ [newline])
      (from (open_idx + length open_tag) new_content) = true /\
    contains lo_marker new_content = true.
Proof.
  intros H. apply splice_inr in H
    as (open_idx & close_idx & Ho & _ & _ & _ & Hpre & _ & ->).
  exists open_idx. split; [exact Ho|].
  assert (Hlen : length (upto (open_idx + length open_tag) page)
                 = open_idx + length open_tag).
  { rewrite Hpre. apply find_some in Ho as (_ & [Hb _] & _).
    unfold upto. rewrite length_app, length_firstn. lia. }
  split; [|split].
  - unfold upto at 1. rewrite firstn_app, Hlen, Nat.sub_diag, firstn_O.
    rewrite app_nil_r, <- Hlen at 1. unfold upto.
    rewrite firstn_all. exact Hpre.
  - unfold from. rewrite skipn_app, Hlen, Nat.sub_diag. simpl skipn at 2.
    rewrite <- Hlen at 1. rewrite skipn_all. simpl app at 1.
    apply startswith_app.
    exists (new_body ++ [newline] ++ from close_idx page).
    simpl. rewrite <- !app_assoc. reflexivity.
  - match goal with
    | |- contains _ ?t = true =>
        replace t with ((upto (open_idx + length open_tag) page ++ [newline])
                        ++ lo_marker
                        ++ (newline :: new_body ++ [newline])
                        ++ from close_idx page)
    end.
    + apply contains_middle.
    + rewrite <- !app_assoc. reflexivity.
Qed.

Lemma universal_newlines_plain (m b : str) :
  no_char carriage_return m = true ->
  universal_newlines (m ++ b) = m ++ universal_newlines b.
Proof.
  induction m as [|c m IH]; intros H; [reflexivity|].
  unfold no_char in H. cbn [existsb] in H. apply negb_true_iff in H.
  apply orb_false_iff in H as [Hc Hm].
  change ((c :: m) ++ b) with (c :: (m ++ b)).
  cbn [universal_newlines].
  rewrite N.eqb_sym in Hc. rewrite Hc.
  rewrite IH; [reflexivity|]. unfold no_char. now rewrite Hm.
Qed.

(** Reading splits at a place where no line feed follows. *)
Lemma universal_newlines_app (a b : str) :
  hd 0%N b <> newline ->
  universal_newlines (a ++ b) = universal_newlines a ++ universal_newlines b.
Proof.
  intros Hb.
  assert (H : forall n a, length a <= n ->
              universal_newlines (a ++ b)
              = universal_newlines a ++ universal_newlines b).
  { clear a. induction n as [|n IH]; intros a Hn.
    - destruct a; [reflexivity | simpl in Hn; lia].
    - destruct a as [|c a]; [reflexivity|].
      destruct (c =? carriage_return)%N eqn:Ec.
      + destruct a as [|c' a].
        * cbn [app universal_newlines]. rewrite Ec.
          destruct b as [|c' b]; [reflexivity|].
          simpl in Hb. apply N.eqb_neq in Hb. rewrite Hb. reflexivity.
        * destruct (c' =? newline)%N eqn:Ec'.
          -- cbn [app universal_newlines]. rewrite Ec, Ec'.
             rewrite (IH a) by (simpl in Hn; lia). reflexivity.
          -- change ((c :: c' :: a) ++ b) with (c :: (c' :: a) ++ b).
             cbn [universal_newlines]. rewrite Ec.
             change ((c' :: a) ++ b) with (c' :: (a ++ b)).
             cbn iota. rewrite Ec'.
             change (c' :: (a ++ b)) with ((c' :: a) ++ b).
             rewrite (IH (c' :: a)) by (simpl in *; lia). reflexivity.
      + cbn [app universal_newlines]. rewrite Ec.
        rewrite (IH a) by (simpl in Hn; lia). reflexivity. }
  exact (H (length a) a (Nat.le_refl _)).
Qed.

(** The marker of a text is still there when the text is read back. *)
Lemma marker_read_back (s : str) :
  contains lo_marker s = true ->
  contains lo_marker (universal_newlines s) = true.
Proof.
  unfold contains at 1.
  destruct (find lo_marker s 0) as [i|] eqn:E; [|discriminate]. intros _.
  apply find_some in E as (_ & Ho & _).
  rewrite (occurs_at_split _ _ _ Ho).
  rewrite universal_newlines_app by (vm_compute; discriminate).
  rewrite universal_newlines_plain by (vm_compute; reflexivity).
  apply contains_middle.
Qed.

Lemma empty_file_unmarked : ~ marked empty_file.
Proof. unfold marked. vm_compute. discriminate. Qed.

Section WritesOnly.
Variable allowed : file -> Prop.

Lemma writes_only_same (readers : list rpath) (w w' : World) :
  pages w' = pages w -> writes_only allowed readers w w'.
Proof.
  intros H p. rewrite H. split; [reflexivity|]. intros f Hf. eauto.
Qed.

Lemma writes_only_trans (r1 r2 : list rpath) (w1 w2 w3 : World) :
  writes_only allowed r1 w1 w2 -> writes_only allowed r2 w2 w3 ->
  writes_only allowed (r1 ++ r2) w1 w3.
Proof.
  intros H1 H2 p. destruct (H1 p) as [H1a H1b], (H2 p) as [H2a H2b]. split.
  - intros Hn. rewrite H2a, H1a; [reflexivity | |];
      intros Hin; apply Hn, in_app_iff; tauto.
  - intros f Hf. destruct (H1b f Hf) as (f' & Hf' & Hm).
    destruct (H2b f' Hf') as (f'' & Hf'' & Hm').
    exists f''. split; [exact Hf''|].
    destruct Hm' as [->|Hm']; [exact Hm | now right].
Qed.

Lemma writes_only_weaken (r1 r2 : list rpath) (w w' : World) :
  (forall p, In p r1 -> In p r2) ->
  writes_only allowed r1 w w' -> writes_only allowed r2 w w'.
Proof.
  intros Hsub H p. destruct (H p) as [Ha Hb]. split; [|exact Hb].
  intros Hn. apply Ha. intros Hin. apply Hn, Hsub, Hin.
Qed.
End WritesOnly.

(** What a call of [update_reader_page] does to the pages: nothing, or it
    writes the page of the result, with the marker in it; or, when the
    new content cannot be encoded, it raises and leaves that page empty. *)
Lemma update_writes (copy_error : tpath -> rpath -> str -> option exn)
    (result : conv_result) (dry_run : bool) (w : World) :
  writes_only marked_or_empty [r_reader result] w
    (world_of (update_reader_page copy_error result dry_run w)) /\
  forall ba w1,
    update_reader_page copy_error result dry_run w = Ok ba w1 ->
    writes_only marked [r_reader result] w w1.
Proof.
  pose proof (update_reader_page_cases copy_error result dry_run w) as H.
  assert (Hcp : forall n w2,
             copy_images copy_error (get_image_files result)
               (fst (r_reader result), r_reader_slug result) 0
               (after_mkdir (fst (r_reader result), r_reader_slug result) w)
             = Ok n w2 -> pages w2 = pages w).
  { intros n w2 Hc.
    pose proof (copy_images_frame copy_error (get_image_files result)
                  (img_dir_of result) 0
                  (after_mkdir (img_dir_of result) w)) as Hfr.
    unfold img_dir_of in Hfr. rewrite Hc in Hfr. simpl in Hfr.
    exact (proj1 (only_images_changed_trans _ _ _
                    (after_mkdir_frame (img_dir_of result) w) Hfr)). }
  assert (Hset : forall (allowed : file -> Prop) f' w2,
             pages w2 = pages w -> allowed f' ->
             writes_only allowed [r_reader result] w
               (set_page (r_reader result) f' w2)).
  { intros allowed f' w2 Hp Ha p.
    destruct (set_page_pages (r_reader result) f' w2) as [Hw1 Hw2]. split.
    - intros Hn. rewrite Hw2, Hp; [reflexivity|].
      intros ->. apply Hn. now left.
    - intros f0 Hf0. destruct (rpath_eq_dec p (r_reader result)) as [->|Hne].
      + exists f'. split; [exact Hw1 | now right].
      + exists f0. split; [|now left]. now rewrite Hw2, Hp. }
  inversion H as [e w' Hf _ He | f _ _ _ _ He | f b x _ _ _ _ _ He
                  | f b nc n w2 _ Hl _ _ Hsp Hen Hc He
                  | f b nc n w2 _ Hl _ _ Hsp Hen Hc He]; simpl.
  - split; [apply writes_only_same; apply Hf | discriminate].
  - split; [now apply writes_only_same|].
    intros ba w1 [= _ <-]. now apply writes_only_same.
  - split; [now apply writes_only_same|].
    intros ba w1 [= _ <-]. now apply writes_only_same.
  - assert (Hm : marked (text_file nc)).
    { unfold marked, text_file; cbn [f_text]. apply marker_read_back.
      apply splice_marks in Hsp as (o & _ & _ & _ & Hm). exact Hm. }
    rewrite (after_write_ok _ _ _ Hen).
    split; [apply Hset; [exact (Hcp n w2 Hc) | now left]|].
    intros ba w1 [= _ <-]. apply Hset; [exact (Hcp n w2 Hc) | exact Hm].
  - split; [apply Hset; [exact (Hcp n w2 Hc) | now right] | discriminate].
Qed.

Lemma patch_all_writes (E : Env) (dry_run : bool)
    (results : list conv_result) (theme_stats : list (str * report_row))
    (w : World) :
  writes_only marked_or_empty (map r_reader results) w
    (world_of (patch_all E dry_run results theme_stats w)) /\
  forall st w1,
    patch_all E dry_run results theme_stats w = Ok st w1 ->
    writes_only marked (map r_reader results) w w1.
Proof.
  revert theme_stats w; induction results as [|r rs IH]; intros theme_stats w.
  - split; [now apply writes_only_same|].
    intros st w1 [= _ <-]. now apply writes_only_same.
  - rewrite patch_all_cons.
    destruct (update_writes (copy_error E) r dry_run w) as [Hu Hok].
    destruct (update_reader_page (copy_error E) r dry_run w) as [ba w1|e w1];
      simpl in Hu.
    + change (map r_reader (r :: rs)) with ([r_reader r] ++ map r_reader rs).
      destruct (IH (stats_step theme_stats r ba) (after_cleanup r w1))
        as [IH1 IH2].
      split.
      * eapply writes_only_trans; [exact Hu|].
        eapply writes_only_trans with (r1 := []); [|exact IH1].
        apply writes_only_same. apply after_cleanup_frame.
      * intros st w2 Hp.
        eapply writes_only_trans; [exact (Hok _ _ eq_refl)|].
        eapply writes_only_trans with (r1 := []); [|exact (IH2 _ _ Hp)].
        apply writes_only_same. apply after_cleanup_frame.
    + simpl. split; [|discriminate].
      eapply writes_only_weaken; [|exact Hu].
      intros p [<-|[]]. now left.
Qed.

Lemma drop_processed_spec (w : World) (mapping : list ((str * str) * rpath)) :
  (forall key reader,
     In (key, reader) (fst (drop_processed w mapping)) <->
     In (key, reader) mapping /\
     contains lo_marker (page_text w reader) = false) /\
  snd (drop_processed w mapping)
  = length (filter (fun kr => contains lo_marker (page_text w (snd kr)))
                   mapping) /\
  length (fst (drop_processed w mapping)) + snd (drop_processed w mapping)
  = length mapping.
Proof.
  induction mapping as [|[k r] mapping IH]; simpl.
  - split; [intros; tauto|]. split; reflexivity.
  - destruct (drop_processed w mapping) as [filtered skipped] eqn:Ed.
    simpl in IH. destruct IH as (Hin & Hs & Hl).
    fold (page_text w r).
    destruct (contains lo_marker (page_text w r)) eqn:Ec; simpl.
    + split; [|split; [congruence | lia]].
      intros key reader. rewrite Hin. split; [tauto|].
      intros [[[= <- <-]|H] Hc]; [congruence | tauto].
    + split; [|split; [exact Hs | lia]].
      intros key reader. rewrite Hin. split.
      * intros [[= <- <-]|H]; [split; [now left | exact Ec] | tauto].
      * intros [[H|H] Hc]; [now left | right; tauto].
Qed.

Section RunFacts.
Context {RT : PyRuntime}.
Variable E : Env.

Lemma attempt_reader (args : work_item) (tmpdir : str) :
  r_reader (attempt E args tmpdir) = wk_reader args.
Proof.
  unfold attempt. destruct (soffice E args) as [e| |e|rc err out];
    try reflexivity.
  unfold convert_body.
  destruct (negb (rc =? 0)%Z); [reflexivity|].
  destruct (html_outputs out); [reflexivity|].
  destruct (companion_images out s); [reflexivity|]. cbv zeta.
  destruct (clean_lo_html _ _ _) as [e|[c m]]; reflexivity.
Qed.

Lemma convert_one_frame (args : work_item) (w : World) :
  exists result w',
    convert_one E args w = Ok result w' /\
    r_reader result = wk_reader args /\
    pages w' = pages w /\ sources w' = sources w /\
    imgdirs w' = imgdirs w /\ report_json w' = report_json w /\
    stdout w' = stdout w.
Proof.
  pose proof (convert_one_runs E args w) as H. cbv zeta in H.
  destruct (get_image_files _) eqn:Ei.
  - eexists _, _. split; [exact H|]. rewrite attempt_reader.
    destruct (after_makedirs_frame E args w) as (a & b & _ & c & d & e).
    auto 10.
  - destruct H as (rc & err & out & _ & H).
    eexists _, _. split; [exact H|]. simpl. rewrite attempt_reader. auto 10.
Qed.

Lemma classify_results (result : conv_result) (t : tally) (r : conv_result) :
  In r (t_results (classify result t)) -> In r (t_results t) \/ r = result.
Proof.
  unfold classify. destruct (error_truthy result); [simpl; tauto|].
  destruct (r_skipped result); [simpl; tauto|]. simpl.
  rewrite in_app_iff. simpl. intuition.
Qed.

Lemma convert_all_frame (completed : list work_item) (t : tally) (w : World) :
  exists t' w',
    convert_all E completed t w = Ok t' w' /\
    pages w' = pages w /\ sources w' = sources w /\
    imgdirs w' = imgdirs w /\ report_json w' = report_json w /\
    stdout w' = stdout w /\
    forall r, In r (t_results t') ->
      In r (t_results t) \/ In (r_reader r) (map wk_reader completed).
Proof.
  revert t w; induction completed as [|a rest IH]; intros t w; simpl.
  - exists t, w. monad_unfold. auto 10.
  - monad_unfold.
    destruct (convert_one_frame a w)
      as (result & w1 & Hc & Hr & Hp & Hs & Hi & Hj & Ho).
    rewrite Hc.
    destruct (IH (classify result t) w1)
      as (t' & w' & Hc' & Hp' & Hs' & Hi' & Hj' & Ho' & Hin).
    exists t', w'. split; [exact Hc'|].
    repeat (split; [congruence|]).
    intros r Hr'. apply Hin in Hr' as [Hr'|Hr']; [|tauto].
    apply classify_results in Hr' as [Hr'| ->]; [tauto|].
    right. left. now symmetry.
Qed.

(** A run writes no reader page outside its work list; a page it writes
    carries the marker afterwards, unless the write fails and ends the
    run, which leaves the page empty. *)
Lemma main_writes (args : cli_args) (w : World) :
  writes_only marked_or_empty (work_readers args w) w
    (world_of (main E args w)) /\
  forall w', main E args w = Ok tt w' ->
             writes_only marked (work_readers args w) w w'.
Proof.
  unfold main, work_readers. monad_unfold.
  destruct (work_list args w) as [e|work];
    [split; [now apply writes_only_same | discriminate]|].
  destruct (arg_workers args <=? 0)%Z;
    [split; [now apply writes_only_same | discriminate]|].
  destruct (convert_all_frame (as_completed E work) (mkTally [] 0 0 0) w)
    as (t & w1 & Hc & Hp & _ & _ & _ & _ & Hin).
  rewrite Hc. unfold patch_and_report.
  destruct (t_results t) as [|r0 rs0] eqn:Et.
  { split; [now apply writes_only_same|].
    intros w' [= <-]. now apply writes_only_same. }
  monad_unfold.
  destruct (patch_all_writes E (arg_dry_run args)
              (by_reader (r0 :: rs0)) [] w1) as [Hw Hwok].
  assert (Hsub : forall p, In p (map r_reader (by_reader (r0 :: rs0))) ->
                           In p (map wk_reader work)).
  { intros p Hp'. apply in_map_iff in Hp' as (r & <- & Hr).
    apply sorted_In in Hr.
    apply Hin in Hr as [[]|Hr].
    apply in_map_iff in Hr as (a & <- & Ha). apply in_map.
    eapply Permutation_in; [apply Permutation_sym, as_completed_perm|].
    exact Ha. }
  assert (Hfrom : forall allowed w2,
             writes_only allowed (map r_reader (by_reader (r0 :: rs0))) w1 w2 ->
             writes_only allowed (map wk_reader work) w w2).
  { intros allowed w2 H.
    apply (writes_only_weaken _ _ _ _ _ Hsub) in H.
    intros p. destruct (H p) as [Ha Hb]. rewrite Hp in Ha, Hb. now split. }
  destruct (patch_all E (arg_dry_run args) (by_reader (r0 :: rs0)) [] w1)
    as [st w2|e w2]; simpl in *.
  - split; [exact (Hfrom _ _ Hw)|].
    intros w' [= <-]. exact (Hfrom _ _ (Hwok _ _ eq_refl)).
  - split; [exact (Hfrom _ _ Hw) | discriminate].
Qed.

(** Without [--force] no page of the work list carries the marker. *)
Lemma work_readers_unmarked (args : cli_args) (w : World) (p : rpath) :
  arg_force args = false ->
  In p (work_readers args w) ->
  contains lo_marker (page_text w p) = false.
Proof.
  intros Hf Hin. unfold work_readers in Hin.
  destruct (work_list args w) as [e|work] eqn:Ew; [contradiction|].
  apply in_map_iff in Hin as (wk & <- & Hwk).
  destruct (work_list_spec args w work Ew
              (wk_theme wk) (wk_source wk) (wk_reader wk)) as [H _].
  destruct H as [Hsel _]; [exists wk; auto|].
  unfold selected_mapping in Hsel. cbv zeta in Hsel. rewrite Hf in Hsel.
  apply (drop_processed_spec w) in Hsel. tauto.
Qed.
End RunFacts.

Section Idempotency.
Context {RT : PyRuntime}.

(** C2, amended.  A non-dry-run patch puts the marker right behind the
    opening tag of the container; a run without [--force] drops from its
    mapping exactly the pages whose text contains the marker and counts
    them; so such a run never writes a page that carries the marker.  A
    page that a run has changed carries the marker afterwards, unless a
    write failed and ended the run with an exception, which leaves the
    page empty; so a page that one run has patched is left as it is, byte
    for byte, by any later run without [--force].  When every mapped page
    carries the marker the run changes nothing at all.  (A page that a run
    left unpatched is tried again by the next.) *)
Theorem marked_pages_left_alone :
  (forall page new_body new_content,
     splice page new_body = inr new_content ->
     exists open_idx,
       find open_tag page 0 = Some open_idx /\
       upto (open_idx + length open_tag) new_content
       = upto open_idx page ++ open_tag /\
       startswith (newline :: lo_marker ++ [newline])
         (from (open_idx + length open_tag) new_content) = true /\
       contains lo_marker new_content = true /\
       marked (text_file new_content)) /\
  (forall w mapping,
     (forall key reader,
        In (key, reader) (fst (drop_processed w mapping)) <->
        In (key, reader) mapping /\
        contains lo_marker (page_text w reader) = false) /\
     snd (drop_processed w mapping)
     = length (filter (fun kr => contains lo_marker (page_text w (snd kr)))
                      mapping)) /\
  (forall E args w p,
     arg_force args = false ->
     contains lo_marker (page_text w p) = true ->
     ~ In p (work_readers args w) /\
     lookup rpath_eq_dec p (pages (world_of (main E args w)))
     = lookup rpath_eq_dec p (pages w)) /\
  (forall E args w p f,
     lookup rpath_eq_dec p (pages w) = Some f ->
     exists f',
       lookup rpath_eq_dec p (pages (world_of (main E args w))) = Some f' /\
       (f' = f \/ marked f' \/
        (f' = empty_file /\ exists e w', main E args w = Raised e w'))) /\
  (forall E1 E2 args1 args2 w0 p f0 f1,
     arg_force args2 = false ->
     let w1 := world_of (main E1 args1 w0) in
     let w2 := world_of (main E2 args2 w1) in
     lookup rpath_eq_dec p (pages w0) = Some f0 ->
     lookup rpath_eq_dec p (pages w1) = Some f1 ->
     f1 <> f0 ->
     (marked f1 /\ lookup rpath_eq_dec p (pages w2) = Some f1) \/
     (f1 = empty_file /\ exists e w', main E1 args1 w0 = Raised e w')) /\
  (forall E args w,
     arg_force args = false ->
     (forall key reader,
        In (key, reader)
           (build_mapping (match arg_theme args with
                           | Some (c :: t) => Some [c :: t]
                           | _ => None
                           end) w) ->
        contains lo_marker (page_text w reader) = true) ->
     main E args w = Ok tt w \/
     exists e, main E args w = Raised e w).
Proof.
  assert (Hkeep : forall E args w p,
             arg_force args = false ->
             contains lo_marker (page_text w p) = true ->
             ~ In p (work_readers args w) /\
             lookup rpath_eq_dec p (pages (world_of (main E args w)))
             = lookup rpath_eq_dec p (pages w)).
  { intros E args w p Hf Hm.
    assert (Hn : ~ In p (work_readers args w)).
    { intros Hin. apply (work_readers_unmarked args w p Hf) in Hin.
      congruence. }
    split; [exact Hn|].
    destruct (proj1 (main_writes E args w) p) as [H _]. exact (H Hn). }
  assert (Hmark : forall E args w p f,
             lookup rpath_eq_dec p (pages w) = Some f ->
             exists f',
               lookup rpath_eq_dec p (pages (world_of (main E args w)))
               = Some f' /\
               (f' = f \/ marked f' \/
                (f' = empty_file /\
                 exists e w', main E args w = Raised e w'))).
  { intros E args w p f Hl.
    destruct (main_writes E args w) as [Hall Hok].
    destruct (main E args w) as [[] w'|e w'] eqn:Em; simpl in *.
    - destruct (Hok w' eq_refl p) as [_ H].
      destruct (H f Hl) as (f' & Hf' & Hm).
      exists f'. split; [exact Hf' | tauto].
    - destruct (Hall p) as [_ H].
      destruct (H f Hl) as (f' & Hf' & [Hm|[Hm|Hm]]).
      + exists f'. tauto.
      + exists f'. tauto.
      + exists f'. split; [exact Hf'|]. right. right.
        split; [exact Hm|]. now exists e, w'. }
  split.
  { intros page new_body new_content Hsp.
    destruct (splice_marks _ _ _ Hsp) as (o & H1 & H2 & H3 & H4).
    exists o. repeat (split; [assumption|]).
    unfold marked, text_file; cbn [f_text]. now apply marker_read_back. }
  split; [|split; [exact Hkeep|]].
  { intros w mapping. destruct (drop_processed_spec w mapping) as (H1 & H2 & _).
    now split. }
  split; [exact Hmark|]. split.
  - intros E1 E2 args1 args2 w0 p f0 f1 Hf w1 w2 H0 H1 Hne.
    destruct (Hmark E1 args1 w0 p f0 H0) as (f' & Hf' & Hm).
    fold w1 in Hf'. rewrite H1 in Hf'. injection Hf' as <-.
    destruct Hm as [->|[Hm|Hm]]; [congruence| |now right].
    left. split; [exact Hm|].
    destruct (Hkeep E2 args2 w1 p Hf) as [_ Hk].
    + unfold page_text. rewrite H1. exact Hm.
    + unfold w2. rewrite Hk. exact H1.
  - intros E args w Hf Hall.
    assert (Hsel : selected_mapping args w = []).
    { unfold selected_mapping. cbv zeta. rewrite Hf.
      set (m := build_mapping _ w) in *.
      destruct (drop_processed_spec w m) as (Hspec & _).
      destruct (fst (drop_processed w m)) as [|[k r] rest]; [reflexivity|].
      exfalso. destruct (Hspec k r) as [H _].
      destruct H as [Hin Hc]; [now left|].
      rewrite (Hall k r Hin) in Hc. discriminate. }
    assert (Hwl : work_list args w = inr []).
    { change (work_list args w)
        with (prepare_work (arg_workers args)
                (length (selected_mapping args w)) 0
                (sorted fst pair_ltb (selected_mapping args w))).
      rewrite Hsel. reflexivity. }
    unfold main. monad_unfold. rewrite Hwl.
    destruct (arg_workers args <=? 0)%Z; [right; now eexists|].
    assert (Hnil : as_completed E [] = []).
    { apply Permutation_nil. apply as_completed_perm. }
    rewrite Hnil. left. reflexivity.
Qed.
End Idempotency.

(** C2, as stated, fails: the second of two runs with the same arguments
    in the same environment patches a page, one whose conversion failed in
    the first run and is tried again. *)
Lemma second_run_patches_a_page :
  ~ (forall (RT : PyRuntime) (E : Env) (args : cli_args) (w0 w1 w2 : World),
       arg_force args = false ->
       main E args w0 = Ok tt w1 ->
       main E args w1 = Ok tt w2 ->
       pages w2 = pages w1).
Proof.
  intros H.
  set (w1 := world_of (@main plain_runtime worker_one_fails two_workers
                         two_page_world)).
  set (w2 := world_of (@main plain_runtime worker_one_fails two_workers w1)).
  specialize (H plain_runtime worker_one_fails two_workers
                two_page_world w1 w2 eq_refl).
  assert (H1 : @main plain_runtime worker_one_fails two_workers two_page_world
               = Ok tt w1) by (vm_compute; reflexivity).
  assert (H2 : @main plain_runtime worker_one_fails two_workers w1 = Ok tt w2)
    by (vm_compute; reflexivity).
  specialize (H H1 H2).
  apply (f_equal (fun ps => contains lo_marker
                   (match lookup rpath_eq_dec (py "01-letters", py "b.html") ps
                    with
                    | Some f => f_text f
                    | None => []
                    end))) in H.
  vm_compute in H. discriminate H.
Qed.

(* ================================================================== *)
(** * Further properties *)

(* ------------------------------------------------------------------ *)
(** ** Occurrences, once more *)

(** [find] and [rfind] are determined by what they return. *)
Lemma find_intro (sub s : str) (start i : nat) :
  start <= i -> occurs_at sub s i ->
  (forall j, start <= j -> j < i -> ~ occurs_at sub s j) ->
  find sub s start = Some i.
Proof.
  intros Hle Ho Hmin. destruct (find sub s start) as [i'|] eqn:E.
  - apply find_some in E as (Hle' & Ho' & Hmin').
    f_equal. destruct (Nat.lt_trichotomy i' i) as [H|[H|H]]; [|exact H|].
    + exfalso. exact (Hmin i' Hle' H Ho').
    + exfalso. exact (Hmin' i Hle H Ho).
  - exfalso. exact (find_none _ _ _ E i Hle Ho).
Qed.

Lemma rfind_intro (sub s : str) (start stop i : nat) :
  start <= i -> occurs_at sub s i -> i + length sub <= stop ->
  (forall j, i < j -> j + length sub <= stop -> ~ occurs_at sub s j) ->
  rfind sub s start stop = Some i.
Proof.
  intros Hle Ho Hb Hmax. destruct (rfind sub s start stop) as [i'|] eqn:E.
  - apply rfind_some in E as (Hle' & Ho' & Hb' & Hmax').
    f_equal. destruct (Nat.lt_trichotomy i' i) as [H|[H|H]]; [|exact H|].
    + exfalso. exact (Hmax' i H Hb Ho).
    + exfalso. exact (Hmax i' H Hb' Ho').
  - exfalso. exact (rfind_none _ _ _ _ E i Hle Hb Ho).
Qed.

Lemma firstn_length_app (a b : str) : firstn (length a) (a ++ b) = a.
Proof. now rewrite firstn_app, Nat.sub_diag, firstn_O, app_nil_r, firstn_all. Qed.

Lemma skipn_length_app (a b : str) : skipn (length a) (a ++ b) = b.
Proof. now rewrite skipn_app, skipn_all, Nat.sub_diag. Qed.

Lemma occurs_at_app_l (sub a b : str) (j : nat) :
  j + length sub <= length a ->
  (occurs_at sub (a ++ b) j <-> occurs_at sub a j).
Proof.
  intros Hb.
  pose proof (occurs_at_firstn sub (a ++ b) (length a) j) as H.
  rewrite firstn_length_app in H. tauto.
Qed.

Lemma occurs_at_app_r (sub a b : str) (j : nat) :
  occurs_at sub (a ++ b) (length a + j) <-> occurs_at sub b j.
Proof.
  pose proof (occurs_at_skipn sub (a ++ b) (length a) j) as H.
  rewrite skipn_length_app in H. symmetry. apply H.
  rewrite length_app. lia.
Qed.

Lemma occurs_at_head (sub t : str) : occurs_at sub (sub ++ t) 0.
Proof.
  split; [lia|]. simpl. apply startswith_app. now exists t.
Qed.

(** An occurrence of [sub] that covers index [p] has the character of
    [s] at [p] among its own. *)
Lemma occurs_at_nth (sub s : str) (j k : nat) :
  occurs_at sub s j -> k < length sub ->
  nth_error s (j + k) = nth_error sub k.
Proof.
  intros Ho Hk. pose proof (occurs_at_bound _ _ _ Ho) as Hb.
  rewrite (occurs_at_split _ _ _ Ho).
  rewrite nth_error_app2 by (rewrite length_firstn; lia).
  rewrite length_firstn, Nat.min_l by lia.
  replace (j + k - j) with k by lia.
  now rewrite nth_error_app1.
Qed.

Lemma no_char_In (c : char) (s : str) :
  no_char c s = true <-> ~ In c s.
Proof.
  unfold no_char. rewrite negb_true_iff. split.
  - intros H Hin. assert (existsb (N.eqb c) s = true); [|congruence].
    apply existsb_exists. exists c. split; [exact Hin | apply N.eqb_refl].
  - intros H. destruct (existsb (N.eqb c) s) eqn:E; [|reflexivity].
    apply existsb_exists in E as (x & Hin & Hx). apply N.eqb_eq in Hx.
    subst x. contradiction.
Qed.

Lemma occurs_at_avoids (sub s : str) (j p : nat) (c : char) :
  occurs_at sub s j -> nth_error s p = Some c -> no_char c sub = true ->
  p < j \/ j + length sub <= p.
Proof.
  intros Ho Hp Hc.
  destruct (Nat.lt_ge_cases p j) as [H|H]; [now left|].
  destruct (Nat.lt_ge_cases p (j + length sub)) as [H'|H']; [|now right].
  exfalso. apply no_char_In in Hc. apply Hc.
  pose proof (occurs_at_nth sub s j (p - j) Ho ltac:(lia)) as Hn.
  replace (j + (p - j)) with p in Hn by lia.
  rewrite Hp in Hn. symmetry in Hn. now apply nth_error_In in Hn.
Qed.

(* ------------------------------------------------------------------ *)
(** ** The new names of the images *)

Lemma digits_of_uint (d : Decimal.uint) :
  forallb is_digit (py (NilEmpty.string_of_uint d)) = true.
Proof. induction d; simpl; auto. Qed.

Lemma fmt_03d_digits (i : nat) : forallb is_digit (fmt_03d i) = true.
Proof.
  unfold fmt_03d. rewrite forallb_app, digits_of_uint, andb_true_r.
  induction (3 - _); simpl; auto.
Qed.

Lemma digits_value_of_uint (d : Decimal.uint) (acc : nat) :
  fold_left (fun a c => 10 * a + (N.to_nat c - 48))
    (py (NilEmpty.string_of_uint d)) acc
  = Nat.of_uint_acc d acc.
Proof.
  revert acc; induction d; intros acc; simpl; [reflexivity| ..];
    rewrite Nat.tail_mul_spec;
    change (py (NilEmpty.string_of_uint d))
      with (map N_of_ascii (list_ascii_of_string (NilEmpty.string_of_uint d)))
      in IHd;
    rewrite IHd; f_equal; lia.
Qed.

Lemma digits_value_fmt_03d (i : nat) : digits_value (fmt_03d i) = i.
Proof.
  unfold digits_value, fmt_03d. rewrite fold_left_app.
  assert (Hz : forall k,
             fold_left (fun a c => 10 * a + (N.to_nat c - 48))
               (repeat 48%N k) 0 = 0).
  { induction k; simpl; auto. }
  rewrite Hz, digits_value_of_uint.
  apply (DecimalNat.Unsigned.of_to i).
Qed.

Lemma fmt_03d_inj (i j : nat) : fmt_03d i = fmt_03d j -> i = j.
Proof.
  intros H. apply (f_equal digits_value) in H.
  now rewrite !digits_value_fmt_03d in H.
Qed.

Lemma digits_split (l1 l2 r1 r2 : str) (x y : char) :
  forallb is_digit l1 = true -> forallb is_digit l2 = true ->
  is_digit x = false -> is_digit y = false ->
  l1 ++ x :: r1 = l2 ++ y :: r2 -> l1 = l2.
Proof.
  revert l2; induction l1 as [|a l1 IH]; intros [|b l2]; simpl;
    intros H1 H2 Hx Hy E.
  - reflexivity.
  - injection E as -> _. apply andb_true_iff in H2 as [H2 _]. congruence.
  - injection E as -> _. apply andb_true_iff in H1 as [H1 _]. congruence.
  - injection E as -> E. apply andb_true_iff in H1 as [_ H1].
    apply andb_true_iff in H2 as [_ H2]. f_equal. eauto.
Qed.

(* ------------------------------------------------------------------ *)
(** ** Names and suffixes *)

Lemma no_char_app_iff (c : char) (a b : str) :
  no_char c (a ++ b) = true <-> no_char c a = true /\ no_char c b = true.
Proof.
  rewrite !no_char_In, in_app_iff. tauto.
Qed.

Lemma no_char_cons (c x : char) (s : str) :
  no_char c (x :: s) = true <-> c <> x /\ no_char c s = true.
Proof.
  rewrite !no_char_In. simpl. intuition congruence.
Qed.

Lemma no_char_skipn (c : char) (s : str) (i : nat) :
  no_char c s = true -> no_char c (skipn i s) = true.
Proof.
  rewrite !no_char_In. intros H Hin. apply H.
  rewrite <- (firstn_skipn i s). apply in_or_app. now right.
Qed.

(** The parts of a split hold none of the separator and only characters
    of the text. *)
Lemma split_on_parts (c : char) (s part : str) :
  In part (split_on c s) ->
  no_char c part = true /\ (forall x, In x part -> In x s).
Proof.
  revert part; induction s as [|x s IH]; intros part; simpl.
  - intros [<-|[]]. split; [reflexivity | intros x []].
  - destruct (split_on c s) as [|p ps] eqn:E.
    + intros [<-|[]]. split; [reflexivity | intros y []].
    + destruct (x =? c)%N eqn:Ex.
      * intros [<-|Hin].
        -- split; [reflexivity | intros y []].
        -- destruct (IH _ Hin) as [H1 H2]. split; [exact H1|].
           intros y Hy. right. now apply H2.
      * apply N.eqb_neq in Ex. intros [<-|Hin].
        -- destruct (IH p (or_introl eq_refl)) as [H1 H2]. split.
           ++ apply no_char_cons. split; [congruence | exact H1].
           ++ intros y [<-|Hy]; [now left | right; now apply H2].
        -- destruct (IH _ (or_intror Hin)) as [H1 H2]. split; [exact H1|].
           intros y Hy. right. now apply H2.
Qed.

Lemma split_on_plain (c : char) (s : str) :
  no_char c s = true -> split_on c s = [s].
Proof.
  induction s as [|x s IH]; simpl; [reflexivity|].
  intros H. apply no_char_cons in H as [Hx Hs]. rewrite (IH Hs).
  destruct (x =? c)%N eqn:E; [|reflexivity].
  apply N.eqb_eq in E. congruence.
Qed.

Lemma last_In_or_default {A} (l : list A) (d : A) :
  last l d = d \/ In (last l d) l.
Proof.
  induction l as [|x [|y l] IH]; simpl; auto.
  destruct IH as [IH|IH]; [left; exact IH | right; right; exact IH].
Qed.

Lemma path_name_chars (p : str) :
  no_char slash (path_name p) = true /\
  (forall x, In x (path_name p) -> In x p).
Proof.
  unfold path_name.
  destruct (last_In_or_default
              (filter (fun part =>
                         negb (if str_eq_dec part [] then true
                               else if str_eq_dec part [dot] then true
                                    else false))
                      (split_on slash p)) []) as [H|H].
  - rewrite H. split; [reflexivity | intros x []].
  - apply filter_In in H as [H _]. now apply split_on_parts.
Qed.

Lemma path_name_plain (s : str) :
  no_char slash s = true -> s <> [] -> s <> [dot] -> path_name s = s.
Proof.
  intros Hs Hn Hd. unfold path_name. rewrite (split_on_plain _ _ Hs). simpl.
  destruct (str_eq_dec s []); [contradiction|].
  destruct (str_eq_dec s [dot]); [contradiction|]. reflexivity.
Qed.

Lemma occurs_at_single (c : char) (s : str) (j : nat) :
  occurs_at [c] s j <-> nth_error s j = Some c.
Proof.
  split.
  - intros H. pose proof (occurs_at_nth [c] s j 0 H ltac:(simpl; lia)) as Hn.
    now rewrite Nat.add_0_r in Hn.
  - intros H. destruct (nth_error_split _ _ H) as (a & b & -> & <-).
    rewrite <- (Nat.add_0_r (length a)). apply occurs_at_app_r.
    apply (occurs_at_head [c] b).
Qed.

(** [name_suffix] is empty or a suffix proper: the text from the last dot
    on, when that dot is neither the first nor the last character. *)
Lemma name_suffix_shape (name : str) :
  name_suffix name = [] \/
  exists stem rest,
    name = stem ++ dot :: rest /\ name_suffix name = dot :: rest /\
    stem <> [] /\ rest <> [] /\ no_char dot rest = true.
Proof.
  unfold name_suffix, last_dot.
  destruct (rfind [dot] name 0 (length name)) as [i|] eqn:E; [|now left].
  destruct ((0 <? i) && (S i <? length name)) eqn:Eb; [|now left].
  right. apply andb_true_iff in Eb as [H0 H1].
  apply Nat.ltb_lt in H0, H1.
  apply rfind_some in E as (_ & Ho & _ & Hmax).
  pose proof (occurs_at_split _ _ _ Ho) as Hs. simpl in Hs.
  exists (firstn i name), (skipn (i + 1) name).
  split; [exact Hs|]. split; [|split; [|split]].
  - unfold from. rewrite Hs at 1.
    assert (Hl : length (firstn i name) = i) by (rewrite length_firstn; lia).
    rewrite <- Hl at 1. now rewrite skipn_length_app.
  - intros Hf. apply (f_equal (@length char)) in Hf.
    rewrite length_firstn in Hf. simpl in Hf. lia.
  - intros Hf. apply (f_equal (@length char)) in Hf.
    rewrite length_skipn in Hf. simpl in Hf. lia.
  - apply no_char_In. intros Hin. apply In_nth_error in Hin as [k Hk].
    apply (Hmax (i + 1 + k)); [lia | |].
    + simpl. assert (k < length (skipn (i + 1) name)).
      { apply nth_error_Some. congruence. }
      rewrite length_skipn in H. lia.
    + apply occurs_at_single. rewrite <- Hk.
      rewrite nth_error_skipn. reflexivity.
Qed.

Lemma path_suffix_shape (p : str) :
  path_suffix p = [] \/
  (suffix_like (path_suffix p) /\ forall x, In x (path_suffix p) -> In x p).
Proof.
  unfold path_suffix.
  destruct (name_suffix_shape (path_name p))
    as [H|(stem & rest & Hn & Hs & _ & Hr & Hd)]; [now left|].
  right. destruct (path_name_chars p) as [Hsl Hin]. split.
  - exists rest. split; [exact Hs|]. split; [exact Hr|]. split; [exact Hd|].
    rewrite Hn in Hsl. apply no_char_app_iff in Hsl as [_ Hsl].
    now apply no_char_cons in Hsl.
  - intros x Hx. apply Hin. rewrite Hn, <- Hs. apply in_or_app. now right.
Qed.

Lemma png_suffix_like : suffix_like (py ".png").
Proof. exists (py "png"). repeat split; discriminate. Qed.

(** The extension that line 126 gives a new name. *)
Lemma ext_suffix_like (orig_name : str) :
  suffix_like (match path_suffix orig_name with
               | [] => py ".png"
               | e => e
               end).
Proof.
  destruct (path_suffix_shape orig_name) as [H|[H _]].
  - rewrite H. apply png_suffix_like.
  - destruct (path_suffix orig_name); [apply png_suffix_like | exact H].
Qed.

(** A new name is its own file name, and its suffix is its extension. *)
Lemma new_name_parts (d e : str) :
  forallb is_digit d = true -> suffix_like e ->
  let n := py "img" ++ d ++ e in
  no_char slash n = true /\ path_name n = n /\
  name_suffix n = e /\ name_stem n = py "img" ++ d.
Proof.
  intros Hd (rest & -> & Hr & Hdot & Hsl) n.
  assert (Hdig : forall c, is_digit c = true -> c <> slash /\ c <> dot).
  { intros c Hc. split; intros ->; discriminate. }
  assert (Hds : no_char slash d = true /\ no_char dot d = true).
  { rewrite !no_char_In. rewrite forallb_forall in Hd.
    split; intros Hin; apply Hd in Hin; apply Hdig in Hin; tauto. }
  destruct Hds as [Hds Hdd].
  assert (Hn : no_char slash n = true).
  { unfold n. apply no_char_app_iff. split; [reflexivity|].
    apply no_char_app_iff. split; [exact Hds|].
    apply no_char_cons. split; [discriminate | exact Hsl]. }
  assert (Hp : path_name n = n).
  { apply path_name_plain; [exact Hn | discriminate | discriminate]. }
  assert (Hld : last_dot n = Some (length (py "img" ++ d))).
  { unfold last_dot. apply rfind_intro.
    - lia.
    - unfold n. rewrite app_assoc.
      rewrite <- (Nat.add_0_r (length (py "img" ++ d))).
      apply occurs_at_app_r. apply (occurs_at_head [dot] rest).
    - unfold n. rewrite app_assoc, !length_app. simpl. lia.
    - intros j Hj Hb Ho. apply occurs_at_single in Ho.
      unfold n in Ho. rewrite app_assoc in Ho.
      rewrite nth_error_app2 in Ho by lia.
      destruct (j - length (py "img" ++ d)) as [|k] eqn:Ek; [lia|].
      simpl in Ho. apply nth_error_In in Ho.
      apply no_char_In in Hdot. contradiction. }
  assert (Hrl : 0 < length rest) by (destruct rest; [congruence | simpl; lia]).
  assert (Hc : (0 <? length (py "img" ++ d))
               && (S (length (py "img" ++ d)) <? length n) = true).
  { apply andb_true_iff. split; apply Nat.ltb_lt.
    - rewrite length_app. simpl. lia.
    - unfold n. rewrite app_assoc, (length_app (py "img" ++ d)). simpl. lia. }
  split; [exact Hn|]. split; [exact Hp|]. split.
  - unfold name_suffix. rewrite Hld, Hc. unfold from, n.
    rewrite app_assoc. apply skipn_length_app.
  - unfold name_stem. rewrite Hld, Hc. unfold upto, n.
    rewrite app_assoc. apply firstn_length_app.
Qed.

Lemma img_name_parts (i : nat) (orig : str) :
  no_char slash (img_name i orig) = true /\
  path_name (img_name i orig) = img_name i orig /\
  name_suffix (img_name i orig)
  = (if str_eq_dec (path_suffix orig) [] then py ".png"
     else path_suffix orig) /\
  name_stem (img_name i orig) = py "img" ++ fmt_03d i.
Proof.
  pose proof (ext_suffix_like orig) as Hs. unfold img_name.
  destruct (path_suffix orig) as [|c l]; cbv iota in *.
  - destruct (str_eq_dec [] []); [|congruence].
    apply (new_name_parts _ _ (fmt_03d_digits i) Hs).
  - destruct (str_eq_dec (c :: l) []); [discriminate|].
    apply (new_name_parts _ _ (fmt_03d_digits i) Hs).
Qed.

Lemma img_name_inj (i j : nat) (n m : str) :
  img_name i n = img_name j m -> i = j.
Proof.
  unfold img_name. intros H. apply app_inv_head in H.
  pose proof (ext_suffix_like n) as (r1 & E1 & _).
  pose proof (ext_suffix_like m) as (r2 & E2 & _).
  destruct (path_suffix n); destruct (path_suffix m); cbv iota in *;
    rewrite E1 in H; try rewrite E2 in H;
    (apply digits_split in H; try apply fmt_03d_digits; try reflexivity);
    now apply fmt_03d_inj.
Qed.

(* ------------------------------------------------------------------ *)
(** ** The rename map, key by key *)

Section AssignFacts.
Context {K V : Type}.
Variable dec : forall a b : K, {a = b} + {a <> b}.

Lemma assign_In (k k' : K) (v v' : V) (d : list (K * V)) :
  In (k', v') (assign dec k v d) -> (k', v') = (k, v) \/ In (k', v') d.
Proof.
  induction d as [|[k0 v0] d IH]; simpl.
  - intros [H|[]]. now left.
  - destruct (dec k k0).
    + intros [H|H]; [now left | right; now right].
    + intros [H|H]; [right; now left|].
      destruct (IH H); [now left | right; now right].
Qed.

Lemma assign_values_NoDup (k : K) (v : V) (d : list (K * V)) :
  NoDup (values d) -> ~ In v (values d) -> NoDup (values (assign dec k v d)).
Proof.
  induction d as [|[k0 v0] d IH]; simpl; intros Hn Hv.
  - constructor; [intros [] | constructor].
  - inversion Hn as [|? ? Hv0 Hd]; subst. destruct (dec k k0); simpl.
    + constructor; [tauto | exact Hd].
    + constructor; [|apply IH; tauto].
      intros Hin. unfold values in Hin. apply in_map_iff in Hin as ([k1 v1] & E & Hin).
      simpl in E. subst v1. apply assign_In in Hin as [[= -> ->]|Hin]; [tauto|].
      apply Hv0. unfold values. apply in_map_iff. now exists (k1, v0).
Qed.

Lemma assign_keys_NoDup (k : K) (v : V) (d : list (K * V)) :
  NoDup (keys d) -> NoDup (keys (assign dec k v d)).
Proof.
  induction d as [|[k0 v0] d IH]; simpl; intros Hn.
  - constructor; [intros [] | constructor].
  - inversion Hn as [|? ? Hk0 Hd]; subst. destruct (dec k k0); simpl.
    + subst. now constructor.
    + constructor; [|now apply IH].
      intros Hin. unfold keys in Hin. apply in_map_iff in Hin as ([k1 v1] & E & Hin).
      simpl in E. subst k1. apply assign_In in Hin as [[= -> ->]|Hin]; [tauto|].
      apply Hk0. unfold keys. apply in_map_iff. now exists (k0, v1).
Qed.

Lemma lookup_some_In (k : K) (d : list (K * V)) :
  In k (keys d) <-> exists v, lookup dec k d = Some v.
Proof.
  induction d as [|[k0 v0] d IH]; simpl.
  - split; [intros [] | intros [v H]; discriminate].
  - destruct (dec k k0) as [->|Hne].
    + split; [eauto | now left].
    + rewrite <- IH. split; [intros [H|H]; [congruence | exact H] | now right].
Qed.

(** With distinct values, [lookup] is one to one. *)
Lemma lookup_inj (k1 k2 : K) (v : V) (d : list (K * V)) :
  NoDup (values d) ->
  lookup dec k1 d = Some v -> lookup dec k2 d = Some v -> k1 = k2.
Proof.
  induction d as [|[k0 v0] d IH]; simpl; [discriminate|].
  intros Hn. inversion Hn as [|? ? Hv0 Hd]; subst.
  assert (Hnot : forall k, lookup dec k d = Some v0 -> False).
  { intros k Hk. apply lookup_In in Hk. apply Hv0.
    unfold values. apply in_map_iff. now exists (k, v0). }
  destruct (dec k1 k0), (dec k2 k0); intros H1 H2.
  - congruence.
  - injection H1 as <-. exfalso. eauto.
  - injection H2 as <-. exfalso. eauto.
  - now apply IH.
Qed.
End AssignFacts.

Lemma number_images_inv (l : list str) (i : nat) (m : list (str * str)) :
  NoDup (values m) -> NoDup (keys m) ->
  (forall k v, In (k, v) m -> exists j, j < i /\ v = img_name j k) ->
  let m' := number_images i l m in
  NoDup (values m') /\ NoDup (keys m') /\
  (forall k v, In (k, v) m' ->
     exists j, j < i + length l /\ v = img_name j k /\
               (In (k, v) m \/ (i <= j /\ In k l))) /\
  (forall k, In k (keys m') <-> In k l \/ In k (keys m)).
Proof.
  revert i m; induction l as [|n l IH]; intros i m Hv Hk Hm; simpl.
  - split; [exact Hv|]. split; [exact Hk|]. split; [|tauto].
    intros k v Hin. destruct (Hm k v Hin) as (j & Hj & E).
    exists j. split; [lia|]. split; [exact E | now left].
  - change (py "img" ++ fmt_03d i
            ++ match path_suffix n with [] => py ".png" | e => e end)
      with (img_name i n).
    destruct (IH (S i) (assign str_eq_dec n (img_name i n) m))
      as (H1 & H2 & H3 & H4).
    + apply assign_values_NoDup; [exact Hv|].
      intros Hin. unfold values in Hin.
      apply in_map_iff in Hin as ([k v] & E & Hin). simpl in E. subst v.
      destruct (Hm _ _ Hin) as (j & Hj & E). apply img_name_inj in E. lia.
    + now apply assign_keys_NoDup.
    + intros k v Hin. apply assign_In in Hin as [[= -> ->]|Hin].
      * exists i. split; [lia | reflexivity].
      * destruct (Hm _ _ Hin) as (j & Hj & E). exists j. split; [lia | exact E].
    + split; [exact H1|]. split; [exact H2|]. split.
      * intros k v Hin. destruct (H3 k v Hin) as (j & Hj & E & Hor).
        exists j. split; [lia|]. split; [exact E|].
        destruct Hor as [Hor|[Hij Hl]]; [|right; split; [lia | now right]].
        apply assign_In in Hor as [[= -> ->]|Hor]; [|now left].
        right. apply img_name_inj in E. split; [lia | now left].
      * intros k. rewrite H4.
        rewrite !(lookup_some_In str_eq_dec).
        destruct (str_eq_dec k n) as [->|Hne].
        -- rewrite lookup_assign_same. split; [intros _; left; now left|eauto].
        -- rewrite lookup_assign_other by congruence.
           split; [intros [H|H]; [left; now right | now right]|].
           intros [[H|H]|H]; [congruence | now left | now right].
Qed.

Lemma build_img_map_inv (image_files : list str) :
  let m := build_img_map image_files in
  NoDup (values m) /\ NoDup (keys m) /\
  (forall k v, In (k, v) m ->
     exists j, 1 <= j <= length image_files /\ v = img_name j k) /\
  (forall k, In k (keys m) <-> In k image_files).
Proof.
  unfold build_img_map.
  destruct (number_images_inv (sorted_str image_files) 1 [])
    as (H1 & H2 & H3 & H4);
    [apply NoDup_nil | apply NoDup_nil | intros k v [] |].
  assert (Hp : Permutation image_files (sorted_str image_files))
    by apply sorted_perm.
  split; [exact H1|]. split; [exact H2|]. split.
  - intros k v Hin. destruct (H3 k v Hin) as (j & Hj & E & [[]|[Hij _]]).
    exists j. split; [|exact E].
    rewrite <- (Permutation_length Hp) in Hj. lia.
  - intros k. rewrite H4. simpl. split.
    + intros [H|[]]. eapply Permutation_in; [symmetry; exact Hp | exact H].
    + intros H. left. eapply Permutation_in; [exact Hp | exact H].
Qed.

Lemma build_img_map_keys (image_files : list str) :
  let img_map := build_img_map image_files in
  NoDup (keys img_map) /\
  NoDup (values img_map) /\
  (forall name, In name image_files <->
                exists new_name, lookup str_eq_dec name img_map = Some new_name) /\
  (forall a b new_name,
     lookup str_eq_dec a img_map = Some new_name ->
     lookup str_eq_dec b img_map = Some new_name -> a = b).
Proof.
  destruct (build_img_map_inv image_files) as (Hv & Hk & _ & Hin).
  cbv zeta in *. split; [exact Hk|]. split; [exact Hv|]. split.
  - intros name. rewrite <- Hin. apply lookup_some_In.
  - intros a b v Ha Hb. exact (lookup_inj str_eq_dec a b v _ Hv Ha Hb).
Qed.

(** X2.  A new name is a plain file name (no slash in it, so the copy
    stays in the image directory of the page) made of [img], a number
    between 1 and the number of images, and a suffix: [Path.suffix] of the
    new name is that of the original, as it is written there, and [.png]
    when the original has none. *)
Theorem new_name_keeps_suffix (image_files : list str) (orig new_name : str) :
  lookup str_eq_dec orig (build_img_map image_files) = Some new_name ->
  no_char slash new_name = true /\
  path_name new_name = new_name /\
  path_suffix new_name
  = (if str_eq_dec (path_suffix orig) [] then py ".png"
     else path_suffix orig) /\
  exists i, 1 <= i <= length image_files /\
            name_stem new_name = py "img" ++ fmt_03d i.
Proof.
  intros Hl. apply lookup_In in Hl.
  destruct (build_img_map_inv image_files) as (_ & _ & H & _).
  destruct (H _ _ Hl) as (i & Hi & ->).
  destruct (img_name_parts i orig) as (H1 & H2 & H3 & H4).
  split; [exact H1|]. split; [exact H2|]. split.
  - unfold path_suffix at 1. now rewrite H2.
  - exists i. split; [exact Hi | exact H4].
Qed.

(* ------------------------------------------------------------------ *)
(** ** What a match takes from the text *)

Lemma rmatch_sound (r : re) :
  forall s g k x,
    rmatch r s g k = Some x ->
    exists s' g' pre, k s' g' = Some x /\ s = pre ++ s'.
Proof.
  induction r as [|p|a IHa b IHb|a IHa b IHb|a IHa|a IHa|a IHa];
    intros s g k x; simpl.
  - intros H. exists s, g, []. now split.
  - destruct s as [|c s]; [discriminate|].
    destruct (p c); [|discriminate].
    intros H. exists s, g, [c]. now split.
  - intros H. apply IHa in H as (s1 & g1 & p1 & H & ->).
    apply IHb in H as (s2 & g2 & p2 & H & ->).
    exists s2, g2, (p1 ++ p2). split; [exact H | now rewrite app_assoc].
  - destruct (rmatch a s g k) eqn:E.
    + intros [= <-]. now apply IHa in E.
    + apply IHb.
  - generalize (length s) at 1. intros fuel. revert s g.
    induction fuel as [|fuel IH]; intros s g.
    + intros H. exists s, g, []. now split.
    + destruct (rmatch a s g _) eqn:E.
      * intros [= <-]. apply IHa in E as (s1 & g1 & p1 & E & ->).
        destruct (length s1 <? length (p1 ++ s1)); [|discriminate].
        apply IH in E as (s2 & g2 & p2 & E & ->).
        exists s2, g2, (p1 ++ p2). split; [exact E | now rewrite app_assoc].
      * intros H. exists s, g, []. now split.
  - generalize (length s) at 1. intros fuel. revert s g.
    induction fuel as [|fuel IH]; intros s g.
    + intros H. exists s, g, []. now split.
    + destruct (k s g) eqn:Ek.
      * intros [= <-]. exists s, g, []. now split.
      * intros E. apply IHa in E as (s1 & g1 & p1 & E & ->).
        destruct (length s1 <? length (p1 ++ s1)); [|discriminate].
        apply IH in E as (s2 & g2 & p2 & E & ->).
        exists s2, g2, (p1 ++ p2). split; [exact E | now rewrite app_assoc].
  - intros H. apply IHa in H as (s1 & g1 & p1 & H & ->).
    eexists _, _, p1. split; [exact H | reflexivity].
Qed.

(** A match splits the text into what it took and the rest. *)
Lemma match_here_split (r : re) (s : str) (pos : nat) (m : rmatched) :
  match_here r s pos = Some m -> s = m_group0 m ++ m_rest m.
Proof.
  unfold match_here.
  destruct (rmatch r s None _) as [[s' g]|] eqn:E; [|discriminate].
  intros [= <-]. simpl.
  apply rmatch_sound in E as (s1 & g1 & p1 & [= -> ->] & ->).
  rewrite length_app, Nat.add_sub. now rewrite firstn_length_app.
Qed.

(** Replacing every match by itself gives the text back. *)
Lemma sub_loop_same (r : re) (repl : rmatched -> exn + str) (fuel : nat) :
  forall s pos,
    (forall m, In m (sub_matches r fuel s pos) -> repl m = inr (m_group0 m)) ->
    sub_loop r repl fuel s pos = inr s.
Proof.
  induction fuel as [|fuel IH]; intros s pos H; simpl in *; [reflexivity|].
  destruct (match_here r s pos) as [m|] eqn:E.
  - destruct (length (m_rest m) <? length s).
    + rewrite (H m) by now left.
      rewrite IH by (intros m' Hm'; apply H; now right).
      now rewrite <- (match_here_split _ _ _ _ E).
    + destruct s as [|c s]; [reflexivity|]. now rewrite IH.
  - destruct s as [|c s]; [reflexivity|]. now rewrite IH.
Qed.

(** A replacement that never raises makes [re.sub] never raise. *)
Lemma sub_loop_total (r : re) (repl : rmatched -> exn + str) (fuel : nat) :
  forall s pos,
    (forall m, In m (sub_matches r fuel s pos) -> exists t, repl m = inr t) ->
    exists out, sub_loop r repl fuel s pos = inr out.
Proof.
  induction fuel as [|fuel IH]; intros s pos H; simpl in *; [eauto|].
  destruct (match_here r s pos) as [m|] eqn:E.
  - destruct (length (m_rest m) <? length s).
    + destruct (H m) as [t ->]; [now left|].
      destruct (IH (m_rest m) (pos + length (m_group0 m))) as [out ->];
        [intros m' Hm'; apply H; now right | eauto].
    + destruct s as [|c s]; [eauto|].
      destruct (IH s (S pos) H) as [out ->]. eauto.
  - destruct s as [|c s]; [eauto|].
    destruct (IH s (S pos) H) as [out ->]. eauto.
Qed.

Section RewriteFacts.
Context {RT : PyRuntime}.

Lemma rewrite_img_foreign (img_map : list (str * str)) (slug : str)
    (m : rmatched) :
  (forall name, src_basename m = Some name ->
                lookup str_eq_dec name img_map = None) ->
  rewrite_img img_map slug m = inr (m_group0 m).
Proof.
  unfold rewrite_img, src_basename, group1. intros H.
  destruct (re_search re_src_value _) as [sm|]; [|reflexivity].
  now rewrite (H _ eq_refl).
Qed.

Lemma rewrite_img_total (img_map : list (str * str)) (slug : str)
    (m : rmatched) :
  no_char backslash slug = true ->
  (forall k v, In (k, v) img_map -> no_char backslash v = true) ->
  exists t, rewrite_img img_map slug m = inr t.
Proof.
  intros Hs Hm. unfold rewrite_img.
  destruct (re_search re_src_value _) as [sm|]; [|eauto].
  destruct (lookup str_eq_dec _ img_map) as [renamed|] eqn:El; [|eauto].
  apply lookup_In in El. apply Hm in El.
  unfold re_sub_template.
  destruct (compile_template_plain
              (py "src=" ++ dq :: (py "img/" ++ slug ++ py "/" ++ renamed)
               ++ [dq])) as (f & -> & _).
  { apply no_char_app_iff. split; [reflexivity|].
    apply no_char_cons. split; [discriminate|].
    rewrite !no_char_app_iff. repeat split; assumption. }
  unfold re_sub_with.
  destruct (sub_loop_total re_src (fun m0 => inr (f (m_group0 m0)))
              (S (length (re_delete re_presentational
                            match m_group1 m with Some g => g | None => [] end)))
              (re_delete re_presentational
                 match m_group1 m with Some g => g | None => [] end) 0)
    as [out ->]; eauto.
Qed.

(** X3.  An image tag whose file is not in the rename map stays as it is,
    character for character: when no tag of the fragment names a file of
    the map, rewriting gives the fragment back, and so does rewriting
    with the empty map. *)
Theorem foreign_images_untouched (img_map : list (str * str))
    (reader_slug html : str) :
  ((forall m name, In m (img_matches html) -> src_basename m = Some name ->
                   lookup str_eq_dec name img_map = None) ->
   rewrite_images img_map reader_slug html = inr html) /\
  rewrite_images [] reader_slug html = inr html.
Proof.
  assert (H : forall img_map,
             (forall m name, In m (img_matches html) ->
                src_basename m = Some name ->
                lookup str_eq_dec name img_map = None) ->
             rewrite_images img_map reader_slug html = inr html).
  { intros im Him. unfold rewrite_images, re_sub_with.
    apply sub_loop_same. intros m Hin. apply rewrite_img_foreign.
    intros name. now apply Him. }
  split; [apply H|]. apply H. reflexivity.
Qed.

(** X4.  When the HTML parser raises on the body, [clean_lo_html] raises
    the same exception.  When the parser returns and neither the slug nor
    an image name holds a backslash, [clean_lo_html] returns, and the map
    it returns is the rename map of the image names. *)
Theorem clean_lo_html_returns (body_html : str) (image_files : list str)
    (reader_slug : str) :
  (forall e, html_feed body_html = inl e ->
     clean_lo_html body_html image_files reader_slug = inl e) /\
  (forall events, html_feed body_html = inr events ->
     no_char backslash reader_slug = true ->
     (forall name, In name image_files -> no_char backslash name = true) ->
     exists cleaned,
       clean_lo_html body_html image_files reader_slug
       = inr (cleaned, build_img_map image_files)).
Proof.
  split.
  { intros e He. unfold clean_lo_html, strip_tags. now rewrite He. }
  intros events He Hs Hn.
  unfold clean_lo_html, strip_tags, rewrite_images, re_sub_with.
  rewrite He. cbv zeta.
  match goal with
  | |- context [sub_loop ?r ?f ?n ?s ?p] =>
      destruct (sub_loop_total r f n s p) as [out ->]; [|eauto]
  end.
  intros m _. apply rewrite_img_total; [exact Hs|].
  intros k v Hin.
  destruct (build_img_map_inv image_files) as (_ & _ & Hv & Hk).
  destruct (Hv _ _ Hin) as (j & _ & ->).
  assert (Hki : In k image_files).
  { apply Hk. unfold keys. apply in_map_iff. now exists (k, img_name j k). }
  unfold img_name. apply no_char_app_iff. split; [reflexivity|].
  apply no_char_app_iff. split.
  - apply no_char_In. intros Hin'.
    pose proof (fmt_03d_digits j) as Hd. rewrite forallb_forall in Hd.
    apply Hd in Hin'. discriminate.
  - destruct (path_suffix_shape k) as [E|[_ Hc]].
    + rewrite E. reflexivity.
    + destruct (path_suffix k) eqn:E; [reflexivity|].
      apply no_char_In. intros Hin'. apply Hc in Hin'.
      specialize (Hn k Hki). apply no_char_In in Hn. contradiction.
Qed.

(** X1.  Whatever the list of image names (in any order, with repeats or
    not), the rename map that [clean_lo_html] returns has exactly the
    names of the list as keys, each once, and no two of them get the same
    new name. *)
Theorem new_names_distinct (body_html : str) (image_files : list str)
    (reader_slug cleaned : str) (img_map : list (str * str)) :
  clean_lo_html body_html image_files reader_slug = inr (cleaned, img_map) ->
  NoDup (keys img_map) /\
  NoDup (values img_map) /\
  (forall name, In name image_files <->
                exists new_name, lookup str_eq_dec name img_map = Some new_name) /\
  (forall a b new_name,
     lookup str_eq_dec a img_map = Some new_name ->
     lookup str_eq_dec b img_map = Some new_name -> a = b).
Proof.
  intros Hc. apply clean_lo_html_map in Hc. subst img_map.
  exact (build_img_map_keys image_files).
Qed.
End RewriteFacts.

(* ------------------------------------------------------------------ *)
(** ** Patching a patched page *)

Lemma contains_false (sub s : str) (j : nat) :
  contains sub s = false -> ~ occurs_at sub s j.
Proof.
  unfold contains. destruct (find sub s 0) eqn:E; [discriminate|].
  intros _. apply (find_none _ _ _ E). lia.
Qed.

(** An occurrence that lies inside the middle part of a text. *)
Lemma occurs_at_middle (sub x m y : str) (j : nat) :
  occurs_at sub (x ++ m ++ y) j ->
  length x <= j -> j + length sub <= length x + length m ->
  occurs_at sub m (j - length x).
Proof.
  intros Ho Hx Hm.
  replace j with (length x + (j - length x)) in Ho by lia.
  apply occurs_at_app_r in Ho. apply occurs_at_app_l in Ho; [exact Ho | lia].
Qed.

Ltac app_norm :=
  unfold inserted;
  repeat (rewrite <- app_assoc || rewrite <- app_comm_cons);
  reflexivity.

Lemma nth_error_mid (a r : str) (c : char) :
  nth_error (a ++ c :: r) (length a) = Some c.
Proof. rewrite nth_error_app2 by lia. now rewrite Nat.sub_diag. Qed.

Lemma length_inserted (b : str) :
  length (inserted b) = length lo_marker + length b + 3.
Proof.
  unfold inserted.
  change (newline :: lo_marker ++ newline :: b ++ [newline])
    with ([newline] ++ lo_marker ++ [newline] ++ b ++ [newline]).
  rewrite !length_app. simpl (length [newline]). lia.
Qed.

(** In a patched page, an occurrence at or behind the end of the opening
    tag of a text that holds no line break and occurs neither in the
    marker nor in the fragment lies in what follows the fragment. *)
Lemma occurs_after_insert (sub P b T : str) (j : nat) :
  sub <> [] -> no_char newline sub = true ->
  contains sub lo_marker = false -> contains sub b = false ->
  occurs_at sub (P ++ inserted b ++ T) j -> length P <= j ->
  length P + length (inserted b) <= j /\
  occurs_at sub T (j - (length P + length (inserted b))).
Proof.
  intros Hne Hnl Hm Hb Ho Hj.
  assert (Hl : 0 < length sub) by (destruct sub; [congruence | simpl; lia]).
  pose proof (length_inserted b) as Hli.
  assert (H0 : length P < j \/ j + length sub <= length P).
  { apply (occurs_at_avoids _ _ _ _ newline Ho); [|exact Hnl].
    apply (nth_error_mid P). }
  assert (H1 : length P + S (length lo_marker) < j \/ j + length sub <= length P + S (length lo_marker)).
  { apply (occurs_at_avoids _ _ _ _ newline Ho); [|exact Hnl].
    replace (P ++ inserted b ++ T)
      with ((P ++ [newline] ++ lo_marker) ++ newline :: (b ++ [newline] ++ T))
      by app_norm.
    replace (length P + S (length lo_marker)) with (length (P ++ [newline] ++ lo_marker))
      by (rewrite !length_app; cbn [length]; lia).
    apply nth_error_mid. }
  assert (H2 : length P + S (length lo_marker) + S (length b) < j \/
               j + length sub <= length P + S (length lo_marker) + S (length b)).
  { apply (occurs_at_avoids _ _ _ _ newline Ho); [|exact Hnl].
    replace (P ++ inserted b ++ T)
      with ((P ++ [newline] ++ lo_marker ++ [newline] ++ b) ++ newline :: T)
      by app_norm.
    replace (length P + S (length lo_marker) + S (length b))
      with (length (P ++ [newline] ++ lo_marker ++ [newline] ++ b))
      by (rewrite !length_app; cbn [length]; lia).
    apply nth_error_mid. }
  assert (Hin : inserted b
                = [newline] ++ lo_marker ++ [newline] ++ b ++ [newline])
    by reflexivity.
  destruct H1 as [H1|H1].
  - destruct H2 as [H2|H2].
    + split; [lia|].
      replace j with (length (P ++ inserted b)
                      + (j - (length P + length (inserted b)))) in Ho
        by (rewrite length_app; lia).
      rewrite app_assoc in Ho. now apply occurs_at_app_r in Ho.
    + exfalso. apply (contains_false _ _ (j - (length P + S (S (length lo_marker)))) Hb).
      rewrite Hin in Ho.
      replace (P ++ ([newline] ++ lo_marker ++ [newline] ++ b ++ [newline])
               ++ T)
        with ((P ++ [newline] ++ lo_marker ++ [newline])
              ++ b ++ ([newline] ++ T)) in Ho
        by app_norm.
      replace (length P + S (S (length lo_marker)))
        with (length (P ++ [newline] ++ lo_marker ++ [newline]))
        by (rewrite !length_app; cbn [length]; lia).
      apply (occurs_at_middle _ _ _ _ _ Ho);
        rewrite !length_app; cbn [length]; lia.
  - exfalso. apply (contains_false _ _ (j - (length P + 1)) Hm).
    rewrite Hin in Ho.
    replace (P ++ ([newline] ++ lo_marker ++ [newline] ++ b ++ [newline])
             ++ T)
      with ((P ++ [newline])
            ++ lo_marker ++ ([newline] ++ b ++ [newline] ++ T)) in Ho
      by app_norm.
    replace (length P + 1) with (length (P ++ [newline]))
      by (rewrite length_app; simpl; lia).
    apply (occurs_at_middle _ _ _ _ _ Ho);
      rewrite !length_app; cbn [length]; lia.
Qed.

Lemma occurs_behind_insert (sub P I T : str) (k : nat) :
  occurs_at sub T k <-> occurs_at sub (P ++ I ++ T) (length P + length I + k).
Proof.
  rewrite app_assoc, <- length_app. symmetry. apply occurs_at_app_r.
Qed.

Lemma occurs_behind (sub P I T : str) (n k : nat) :
  length P = n ->
  (occurs_at sub T k <-> occurs_at sub (P ++ I ++ T) (n + length I + k)).
Proof. intros <-. apply occurs_behind_insert. Qed.

(** What [splice_inr] gives, with the lengths. *)
Lemma splice_parts (page new_body new_content : str) :
  splice page new_body = inr new_content ->
  exists open_idx close_idx,
    let cs := open_idx + length open_tag in
    let P := upto cs page in
    let T := from close_idx page in
    find open_tag page 0 = Some open_idx /\
    locate_close page cs = Some close_idx /\
    cs <= close_idx /\ close_idx <= length page /\
    length P = cs /\
    P = upto open_idx page ++ open_tag /\
    length (upto open_idx page) = open_idx /\
    occurs_at close_div T 0 /\
    new_content = P ++ inserted new_body ++ T.
Proof.
  intros H. apply splice_inr in H
    as (oi & ci & Hf & Hl & Hle & Hb & Hp & _ & Hn).
  exists oi, ci. cbv zeta.
  pose proof (locate_close_some _ _ _ Hl) as [_ Hc].
  assert (Hci : ci <= length page) by lia.
  split; [exact Hf|]. split; [exact Hl|]. split; [exact Hle|].
  split; [exact Hci|]. split; [|split; [exact Hp|split; [|split]]].
  - unfold upto. rewrite length_firstn. lia.
  - unfold upto. rewrite length_firstn. lia.
  - unfold from. apply occurs_at_skipn; [exact Hci|].
    now rewrite Nat.add_0_r.
  - exact Hn.
Qed.

Lemma open_tag_stays_first (page b new_content : str) (open_idx : nat) :
  splice page b = inr new_content ->
  find open_tag page 0 = Some open_idx ->
  find open_tag new_content 0 = Some open_idx.
Proof.
  intros Hs Hf.
  destruct (splice_parts _ _ _ Hs)
    as (oi & ci & Hf' & _ & _ & _ & HP & HPo & Hlo & _ & ->).
  cbv zeta in *. rewrite Hf in Hf'. injection Hf' as <-.
  apply find_some in Hf as (_ & _ & Hmin).
  apply find_intro; [lia | |].
  - assert (E : occurs_at open_tag
                  (upto open_idx page ++ open_tag ++ inserted b ++ from ci page)
                  (length (upto open_idx page) + 0))
      by apply occurs_at_app_r, occurs_at_head.
    rewrite Hlo, Nat.add_0_r in E. rewrite HPo, <- !app_assoc. exact E.
  - intros j _ Hj Ho. apply (Hmin j); [lia | exact Hj|].
    apply occurs_at_app_l in Ho; [|rewrite HP; lia].
    unfold upto in Ho. apply occurs_at_firstn in Ho. tauto.
Qed.

(** When the closing tag of the patched page is found right behind the
    fragment, a second patch replaces the fragment and nothing else. *)
Lemma splice_again (page b1 b2 new1 : str) (open_idx : nat) :
  splice page b1 = inr new1 ->
  find open_tag page 0 = Some open_idx ->
  locate_close new1 (open_idx + length open_tag)
  = Some (open_idx + length open_tag + length (inserted b1)) ->
  splice new1 b2 = splice page b2.
Proof.
  intros Hs Hf Hl.
  pose proof (open_tag_stays_first _ _ _ _ Hs Hf) as Hf1.
  destruct (splice_parts _ _ _ Hs)
    as (oi & ci & Hf' & Hlc & _ & _ & HP & _ & _ & _ & Hn).
  cbv zeta in *. rewrite Hf in Hf'. injection Hf' as <-.
  unfold splice. rewrite Hf1, Hf, Hl, Hlc. f_equal. subst new1.
  unfold upto, from. rewrite <- HP at 1. rewrite firstn_length_app.
  f_equal. f_equal. rewrite <- HP at 1. rewrite <- length_app, app_assoc.
  apply skipn_length_app.
Qed.

Lemma anchor_plain :
  file_link_anchor <> [] /\ no_char newline file_link_anchor = true /\
  contains file_link_anchor lo_marker = false.
Proof. repeat split; discriminate || reflexivity. Qed.

Lemma close_div_plain :
  close_div <> [] /\ no_char newline close_div = true /\
  contains close_div lo_marker = false.
Proof. repeat split; discriminate || reflexivity. Qed.

(** X5.  A patched page can be patched again: the second patch finds the
    opening tag where the first found it and a closing tag behind it, so
    it ends in no warning, whatever the two fragments are, and it leaves
    everything up to the end of the opening tag as it was. *)
Theorem patched_page_patchable (page b1 b2 new1 : str) :
  splice page b1 = inr new1 ->
  exists new2 open_idx,
    splice new1 b2 = inr new2 /\
    find open_tag page 0 = Some open_idx /\
    find open_tag new1 0 = Some open_idx /\
    upto (open_idx + length open_tag) new2
    = upto (open_idx + length open_tag) page /\
    startswith (inserted b2) (from (open_idx + length open_tag) new2) = true.
Proof.
  intros Hs.
  destruct (splice_parts _ _ _ Hs)
    as (oi & ci & Hf & _ & _ & _ & HP & _ & _ & Hc & Hn).
  cbv zeta in *.
  pose proof (open_tag_stays_first _ _ _ _ Hs Hf) as Hf1.
  pose proof (fun sub k =>
                occurs_behind sub _ (inserted b1) (from ci page) _ k HP) as HB.
  assert (Hl : exists c, locate_close new1 (oi + length open_tag) = Some c).
  { unfold locate_close.
    destruct (anchored_close new1 (oi + length open_tag)); [eauto|].
    destruct (find close_div new1 (oi + length open_tag)) eqn:E; [eauto|].
    exfalso.
    apply (find_none _ _ _ E (oi + length open_tag + length (inserted b1) + 0));
      [lia|].
    rewrite Hn. now apply HB. }
  destruct Hl as [c Hl].
  assert (Hs2 : splice new1 b2
                = inr (upto (oi + length open_tag) new1 ++ inserted b2
                       ++ from c new1)).
  { unfold splice. now rewrite Hf1, Hl. }
  assert (Hup : upto (oi + length open_tag) new1
                = upto (oi + length open_tag) page).
  { rewrite Hn. unfold upto. rewrite <- HP at 1. apply firstn_length_app. }
  eexists _, oi. split; [exact Hs2|]. split; [exact Hf|].
  split; [exact Hf1|]. rewrite Hup. split.
  - unfold upto. rewrite <- HP at 1. apply firstn_length_app.
  - unfold from. rewrite <- HP at 1. rewrite skipn_length_app.
    apply startswith_app. eauto.
Qed.

(** X6.  Patching again replaces the earlier fragment.  When the first
    fragment holds no download-link anchor and the closing tag was found
    before the anchor (or there is no anchor behind the container and the
    first fragment holds no closing tag either), the page patched with
    [b1] and then with [b2] is the page patched with [b2]; so a forced run
    that converts to the same fragment writes the same page. *)
Theorem repatch_replaces_fragment (page b1 b2 new1 : str) (open_idx : nat) :
  splice page b1 = inr new1 ->
  find open_tag page 0 = Some open_idx ->
  contains file_link_anchor b1 = false ->
  (~ fallback_taken page (open_idx + length open_tag) \/
   (find file_link_anchor page (open_idx + length open_tag) = None /\
    contains close_div b1 = false)) ->
  splice new1 b2 = splice page b2 /\ splice new1 b1 = inr new1.
Proof.
  intros Hs Hf Ha Hcase.
  assert (Hl : locate_close new1 (open_idx + length open_tag)
               = Some (open_idx + length open_tag + length (inserted b1))).
  { destruct (splice_parts _ _ _ Hs)
      as (oi & ci & Hf' & Hlc & Hle & Hci & HP & _ & _ & Hc & Hn).
    cbv zeta in *. rewrite Hf in Hf'. injection Hf' as <-.
    set (cs := open_idx + length open_tag) in *.
    set (P := upto cs page) in *. set (T := from ci page) in *.
    pose proof (fun sub k => occurs_behind sub P (inserted b1) T _ k HP) as HB.
    destruct anchor_plain as (Ha1 & Ha2 & Ha3).
    destruct close_div_plain as (Hc1 & Hc2 & Hc3).
    assert (HS : forall sub k, occurs_at sub T k <-> occurs_at sub page (ci + k)).
    { intros sub k. unfold T, from. now apply occurs_at_skipn. }
    unfold locate_close, anchored_close in *.
    destruct Hcase as [Hcase|[Hnone Hcb]].
    - unfold fallback_taken, anchored_close in Hcase.
      destruct (find file_link_anchor page cs) as [fl|] eqn:Efl;
        [|congruence].
      destruct (rfind close_div page cs fl) as [ci'|] eqn:Er; [|congruence].
      injection Hlc as ->.
      apply find_some in Efl as (Hfl1 & Hfl2 & Hfl3).
      apply rfind_some in Er as (Hr1 & Hr2 & Hr3 & Hr4).
      assert (Efl' : find file_link_anchor new1 cs
                     = Some (cs + length (inserted b1) + (fl - ci))).
      { apply find_intro; [lia | |].
        - rewrite Hn. apply HB.
          apply HS. now replace (ci + (fl - ci)) with fl by lia.
        - intros j Hj1 Hj2 Ho. rewrite Hn in Ho.
          apply occurs_after_insert in Ho as [Hge Ho];
            [| assumption.. | rewrite HP; exact Hj1].
          rewrite HP in Hge, Ho. apply HS in Ho.
          apply (fun H1 H2 => Hfl3 _ H1 H2 Ho); lia. }
      rewrite Efl'.
      erewrite rfind_intro; [reflexivity | lia | | lia |].
      + rewrite Hn. rewrite <- (Nat.add_0_r (cs + _)).
        now apply HB.
      + intros j Hj1 Hj2 Ho. rewrite Hn in Ho.
        replace j with (cs + length (inserted b1)
                        + (j - (cs + length (inserted b1)))) in Ho by lia.
        apply HB in Ho. apply HS in Ho.
        apply (fun H1 H2 => Hr4 _ H1 H2 Ho); lia.
    - rewrite Hnone in Hlc.
      apply find_some in Hlc as (Hc4 & Hc5 & Hc6).
      assert (Efl' : find file_link_anchor new1 cs = None).
      { destruct (find file_link_anchor new1 cs) as [j|] eqn:E;
          [|reflexivity].
        exfalso. apply find_some in E as (Hj1 & Ho & _). rewrite Hn in Ho.
        apply occurs_after_insert in Ho as [Hge Ho];
          [| assumption.. | rewrite HP; exact Hj1].
        apply HS in Ho. apply (fun H1 => find_none _ _ _ Hnone _ H1 Ho). lia. }
      rewrite Efl'. apply find_intro; [lia | |].
      + rewrite Hn. rewrite <- (Nat.add_0_r (cs + _)).
        now apply HB.
      + intros j Hj1 Hj2 Ho. rewrite Hn in Ho.
        apply occurs_after_insert in Ho as [Hge Ho];
          [| assumption.. | rewrite HP; exact Hj1].
        rewrite HP in Hge. lia. }
  split.
  - exact (splice_again _ _ _ _ _ Hs Hf Hl).
  - rewrite (splice_again _ _ b1 _ _ Hs Hf Hl). exact Hs.
Qed.

(* ------------------------------------------------------------------ *)
(** ** How a patch fails, and what it leaves alone *)

Lemma sum_sizes_raised (l : list (tpath * str)) (w w' : World) (e : exn) :
  sum_sizes l w = Raised e w' -> e = FileNotFoundError /\ w' = w.
Proof.
  revert e w'; induction l as [|[f m] l IH]; intros e w'; simpl.
  - discriminate.
  - monad_unfold. unfold stat_tmp.
    destruct (tmp_file f w); [|intros [= <- <-]; now split].
    destruct (sum_sizes l w) as [k w1|e1 w1] eqn:Es; [discriminate|].
    intros [= <- <-]. exact (IH _ _ eq_refl).
Qed.

Section EarlyExits.
Variable copy_error : tpath -> rpath -> str -> option exn.
Variables (result : conv_result) (w : World).

Lemma update_no_page (dry_run : bool) :
  lookup rpath_eq_dec (r_reader result) (pages w) = None ->
  update_reader_page copy_error result dry_run w = Raised FileNotFoundError w.
Proof.
  intros Hl. unfold update_reader_page. monad_unfold.
  unfold stat_page. now rewrite Hl.
Qed.

Lemma update_not_strict (f : file) :
  lookup rpath_eq_dec (r_reader result) (pages w) = Some f ->
  f_strict f = false ->
  update_reader_page copy_error result false w = Raised UnicodeDecodeError w.
Proof.
  intros Hl Hs. unfold update_reader_page. monad_unfold.
  unfold stat_page, read_page_strict. rewrite Hl. cbv beta iota.
  rewrite Hl. cbv beta iota. now rewrite Hs.
Qed.

Lemma update_no_body (f : file) :
  lookup rpath_eq_dec (r_reader result) (pages w) = Some f ->
  f_strict f = true -> r_body_html result = None ->
  update_reader_page copy_error result false w
  = Raised (KeyError "body_html") w.
Proof.
  intros Hl Hs Hb. unfold update_reader_page. monad_unfold.
  unfold stat_page, read_page_strict. rewrite Hl. cbv beta iota.
  rewrite Hl. cbv beta iota. rewrite Hs. cbv beta iota. now rewrite Hb.
Qed.

(** The worlds in which a call can end. *)
Lemma update_world (dry_run : bool) :
  let w' := world_of (update_reader_page copy_error result dry_run w) in
  let d := img_dir_of result in
  let w2 := world_of (copy_images copy_error (get_image_files result) d 0
                        (after_mkdir d w)) in
  w' = w \/ (exists x, w' = after_warn x (r_reader result) w) \/
  w' = w2 \/ (exists new_content, w' = after_write (r_reader result)
                                         new_content w2).
Proof.
  cbv zeta.
  destruct (lookup rpath_eq_dec (r_reader result) (pages w)) as [f|] eqn:El;
    [|left; now rewrite update_no_page].
  destruct dry_run; [left; apply update_dry_world|].
  destruct (f_strict f) eqn:Es;
    [|left; now rewrite (update_not_strict f)].
  destruct (r_body_html result) as [new_body|] eqn:Eb;
    [|left; now rewrite (update_no_body f)].
  rewrite (update_reader_page_real copy_error result w f new_body El Es Eb).
  destruct (splice (f_text f) new_body) as [x|new_content].
  - right; left. now exists x.
  - cbv zeta. fold (img_dir_of result).
    destruct (copy_images copy_error (get_image_files result)
                (img_dir_of result) 0 (after_mkdir (img_dir_of result) w))
      as [n w2|e w2]; simpl.
    + right; right; right. exists new_content.
      now destruct (encodable new_content).
    + right; right; left. reflexivity.
Qed.
End EarlyExits.

(** X7.  The errors of [update_reader_page].  A missing page raises
    [FileNotFoundError] in both modes; without [dry_run] a page that is
    not valid UTF-8 raises [UnicodeDecodeError], and a result without
    fragment raises [KeyError] even on a page that could not be patched
    anyway; with [dry_run] the page is not read, a fragment that cannot be
    encoded raises [UnicodeEncodeError], and a missing image file raises
    [FileNotFoundError] when the fragment can be encoded (the fragment is
    encoded first).  In each case the world is as it was. *)
Theorem update_reader_page_errors
    (copy_error : tpath -> rpath -> str -> option exn)
    (result : conv_result) (w : World) :
  (lookup rpath_eq_dec (r_reader result) (pages w) = None ->
   forall dry_run,
     update_reader_page copy_error result dry_run w
     = Raised FileNotFoundError w) /\
  (forall f,
     lookup rpath_eq_dec (r_reader result) (pages w) = Some f ->
     (f_strict f = false ->
      update_reader_page copy_error result false w
      = Raised UnicodeDecodeError w) /\
     (f_strict f = true -> r_body_html result = None ->
      update_reader_page copy_error result false w
      = Raised (KeyError "body_html") w) /\
     (encodable (body_of result) = false ->
      update_reader_page copy_error result true w
      = Raised UnicodeEncodeError w) /\
     (~ all_present w (get_image_files result) ->
      update_reader_page copy_error result true w
      = Raised (if encodable (body_of result) then FileNotFoundError
                else UnicodeEncodeError) w)).
Proof.
  split; [intros Hl dry_run; now apply update_no_page|].
  intros f Hl. split; [now apply update_not_strict|].
  split; [now apply update_no_body|].
  assert (Hdry : update_reader_page copy_error result true w
                 = if encodable (body_of result) then
                     match sum_sizes (get_image_files result) w with
                     | Ok n w1 =>
                         Ok (f_size f,
                             f_size f + utf8_len (body_of result) + n) w1
                     | Raised e w1 => Raised e w1
                     end
                   else Raised UnicodeEncodeError w).
  { unfold update_reader_page. monad_unfold.
    unfold stat_page, encoded_len. rewrite Hl. cbv beta iota.
    fold (body_of result). now destruct (encodable (body_of result)). }
  rewrite Hdry. split; [now intros ->|].
  intros Hp. destruct (encodable (body_of result)); [|reflexivity].
  destruct (sum_sizes (get_image_files result) w) as [n w1|e w1] eqn:Es.
  - exfalso. apply Hp. exact (sum_sizes_ok_present _ _ _ _ Es).
  - apply sum_sizes_raised in Es as [-> ->]. reflexivity.
Qed.

Lemma img_file_after_mkdir (d d' : rpath) (name : str) (w : World) :
  img_file (after_mkdir d w) d' name = img_file w d' name.
Proof.
  unfold after_mkdir, mkdir_img, img_file.
  destruct (lookup rpath_eq_dec d (imgdirs w)) eqn:E; [reflexivity|]. simpl.
  destruct (rpath_eq_dec d' d) as [->|Hne].
  - rewrite lookup_app_last by exact E. now rewrite E.
  - now rewrite lookup_app_other by exact Hne.
Qed.

Section CopyFacts.
Variable copy_error : tpath -> rpath -> str -> option exn.

Lemma copy2_keeps (src : tpath) (d : rpath) (name : str) (w : World) :
  let w' := world_of (copy2 copy_error src d name w) in
  (forall d' name', img_file w d' name' <> None ->
                    img_file w' d' name' <> None) /\
  (forall d' name', d' <> d \/ name' <> name ->
                    img_file w' d' name' = img_file w d' name').
Proof.
  cbv zeta.
  destruct (copy2 copy_error src d name w) as [n w1|e w1] eqn:Ec.
  - apply copy2_ok in Ec as (x & _ & _ & _ & Hnew & Hold & Hd). simpl.
    assert (Hsame : forall d' name', d' <> d \/ name' <> name ->
                      img_file w1 d' name' = img_file w d' name').
    { intros d' name' Hne. destruct (rpath_eq_dec d' d) as [->|Hdd].
      - apply Hold. tauto.
      - unfold img_file. now rewrite Hd. }
    split; [|exact Hsame].
    intros d' name' Hin. destruct (rpath_eq_dec d' d) as [->|Hdd].
    + destruct (str_eq_dec name' name) as [->|Hnn]; [congruence|].
      rewrite Hsame; tauto.
    + rewrite Hsame; tauto.
  - unfold copy2 in Ec.
    destruct (tmp_file src w); [|injection Ec as _ <-; simpl; tauto].
    destruct (copy_error src d name); [injection Ec as _ <-; simpl; tauto|].
    destruct (lookup rpath_eq_dec d (imgdirs w)); [discriminate|].
    injection Ec as _ <-. simpl. tauto.
Qed.

Lemma copy_images_keeps (l : list (tpath * str)) (d : rpath) (total : nat)
    (w : World) :
  let w' := world_of (copy_images copy_error l d total w) in
  (forall d' name', img_file w d' name' <> None ->
                    img_file w' d' name' <> None) /\
  (forall d' name', d' <> d \/ ~ In name' (map snd l) ->
                    img_file w' d' name' = img_file w d' name').
Proof.
  revert total w; induction l as [|[src name] l IH]; intros total w;
    cbv zeta; simpl.
  - tauto.
  - monad_unfold. pose proof (copy2_keeps src d name w) as [H1 H2].
    cbv zeta in *.
    destruct (copy2 copy_error src d name w) as [n w1|e w1]; simpl in *.
    + destruct (IH (total + n) w1) as [H3 H4]. split.
      * intros d' name' Hin. apply H3, H1, Hin.
      * intros d' name' Hne. rewrite H4 by tauto. apply H2.
        destruct Hne as [Hne|Hne]; [now left | right].
        intros ->. apply Hne. now left.
    + split; [exact H1|]. intros d' name' Hne. apply H2.
      destruct Hne as [Hne|Hne]; [now left | right].
      intros ->. apply Hne. now left.
Qed.
End CopyFacts.

(** X8.  A call that raises has put no new content in a reader page.  The
    page is written last, after every copy, so a call that raises before
    leaves every page as it was; the write itself raises
    [UnicodeEncodeError] when the new content cannot be encoded, and then
    the page of the result is left empty, every other page as it was.
    Sources, temporary directories, the report, the console and the profile
    directories are as before, and in dry-run mode nothing differs. *)
Theorem failed_patch_writes_no_page
    (copy_error : tpath -> rpath -> str -> option exn)
    (result : conv_result) (dry_run : bool) (w w' : World) (e : exn) :
  update_reader_page copy_error result dry_run w = Raised e w' ->
  sources w' = sources w /\ tmpdirs w' = tmpdirs w /\
  report_json w' = report_json w /\ stdout w' = stdout w /\
  profiles w' = profiles w /\
  (dry_run = true -> w' = w) /\
  (pages w' = pages w \/
   (e = UnicodeEncodeError /\ dry_run = false /\
    exists f new_body new_content,
      lookup rpath_eq_dec (r_reader result) (pages w) = Some f /\
      f_strict f = true /\
      r_body_html result = Some new_body /\
      splice (f_text f) new_body = inr new_content /\
      encodable new_content = false /\
      pages w'
      = assign rpath_eq_dec (r_reader result) empty_file (pages w))) /\
  (forall p f', lookup rpath_eq_dec p (pages w') = Some f' ->
     lookup rpath_eq_dec p (pages w) = Some f' \/ f' = empty_file).
Proof.
  intros Hu.
  pose proof (update_reader_page_cases copy_error result dry_run w) as H.
  rewrite Hu in H.
  inversion H as [e' w1 Hf Hd | | |
                  | f new_body new_content n w2 Hdr Hl Hs Hb Hsp Hen Hc];
    subst.
  - destruct Hf as (H1 & H2 & H3 & H4 & H5 & H6).
    repeat (split; [assumption|]). split; [now left|].
    intros p f' Hp. left. now rewrite <- H1.
  - pose proof (copy_images_frame copy_error (get_image_files result)
                  (fst (r_reader result), r_reader_slug result) 0
                  (after_mkdir (fst (r_reader result),
                                r_reader_slug result) w)) as Hfr.
    rewrite Hc in Hfr. simpl in Hfr.
    pose proof (after_mkdir_frame
                  (fst (r_reader result), r_reader_slug result) w) as Hmk.
    destruct (only_images_changed_trans _ _ _ Hmk Hfr)
      as (H1 & H2 & H3 & H4 & H5 & H6).
    unfold set_page; simpl. rewrite H1.
    repeat (split; [assumption|]). split; [discriminate|].
    split.
    + right. split; [reflexivity|]. split; [reflexivity|].
      exists f, new_body, new_content. auto 10.
    + intros p f' Hp.
      destruct (rpath_eq_dec p (r_reader result)) as [->|Hne].
      * rewrite lookup_assign_same in Hp. right. congruence.
      * rewrite lookup_assign_other in Hp by exact Hne. now left.
Qed.

(** X9.  [update_reader_page] never removes an image: whatever the mode
    and however the call ends, a file that was in an image directory is
    still there, and it is the same file unless it is in the image
    directory of the page under one of the new names of the result. *)
Theorem images_only_added
    (copy_error : tpath -> rpath -> str -> option exn)
    (result : conv_result) (dry_run : bool) (w : World) :
  let w' := world_of (update_reader_page copy_error result dry_run w) in
  forall d name,
    (img_file w d name <> None -> img_file w' d name <> None) /\
    (d <> img_dir_of result \/
     ~ In name (map snd (get_image_files result)) ->
     img_file w' d name = img_file w d name).
Proof.
  cbv zeta. intros d name.
  pose proof (copy_images_keeps copy_error (get_image_files result)
                (img_dir_of result) 0
                (after_mkdir (img_dir_of result) w)) as [H1 H2].
  cbv zeta in *.
  specialize (H1 d name). specialize (H2 d name).
  rewrite img_file_after_mkdir in H1, H2.
  destruct (update_world copy_error result w dry_run)
    as [E|[[x E]|[E|[nc E]]]]; cbv zeta in E; rewrite E.
  - tauto.
  - unfold after_warn, warn, img_file; simpl. tauto.
  - tauto.
  - unfold after_write, write_page. unfold img_file in *.
    destruct (encodable nc); simpl; tauto.
Qed.

Lemma names_unique (l : list (tpath * str)) (s s' : tpath) (name : str) :
  NoDup (map snd l) -> In (s, name) l -> In (s', name) l -> s = s'.
Proof.
  induction l as [|[a n] l IH]; simpl; [tauto|].
  intros Hn. inversion Hn as [|? ? Hnot Hl]; subst.
  assert (Hx : forall t, In (t, n) l -> False).
  { intros t Ht. apply Hnot. apply in_map_iff. now exists (t, n). }
  intros [E1|H1] [E2|H2].
  - congruence.
  - injection E1 as -> ->. exfalso. eauto.
  - injection E2 as -> ->. exfalso. eauto.
  - now apply IH.
Qed.

(** X10.  When the new names of a result are distinct, a patch that
    returns without a warning has put every image file of the result into
    the image directory of the page under its new name, as the very file
    the converter left; the size it returns is the size of the new page
    plus the sizes of these files. *)
Theorem images_copied_faithfully
    (copy_error : tpath -> rpath -> str -> option exn)
    (result : conv_result) (w w1 : World) (ba : nat * nat) :
  update_reader_page copy_error result false w = Ok ba w1 ->
  stdout w1 = stdout w ->
  NoDup (map snd (get_image_files result)) ->
  (forall src name, In (src, name) (get_image_files result) ->
     tmp_file src w <> None /\
     img_file w1 (img_dir_of result) name = tmp_file src w) /\
  exists f new_body new_content,
    lookup rpath_eq_dec (r_reader result) (pages w) = Some f /\
    r_body_html result = Some new_body /\
    splice (f_text f) new_body = inr new_content /\
    lookup rpath_eq_dec (r_reader result) (pages w1)
    = Some (text_file new_content) /\
    ba = (f_size f,
          utf8_len new_content + total_size w (get_image_files result)).
Proof.
  intros Hu Hout Hnd.
  pose proof (update_reader_page_cases copy_error result false w) as H.
  rewrite Hu in H.
  inversion H as [ | f Hd _ _ _ He | f b x _ Hl Hs Hb Hsp He
                  | f b nc n w2 _ Hl Hs Hb Hsp Hen Hc He | ];
    try discriminate.
  - exfalso. subst w1. unfold after_warn, warn in Hout. simpl in Hout.
    apply (f_equal (@length _)) in Hout. rewrite length_app in Hout.
    simpl in Hout. lia.
  - subst. unfold img_dir_of in *.
    set (d := (fst (r_reader result), r_reader_slug result)) in *.
    pose proof (after_mkdir_frame d w) as (_ & _ & Ht & _).
    apply copy_images_ok_inv in Hc as (Hn & Hpres & Hcopied & _).
    assert (Hts : total_size (after_mkdir d w) (get_image_files result)
                  = total_size w (get_image_files result)).
    { unfold total_size. f_equal. apply map_ext. intros p.
      now rewrite (tmp_file_frame w (after_mkdir d w)). }
    split.
    + intros src name Hin.
      destruct (Hpres src name Hin) as [Hp _].
      rewrite (tmp_file_frame w _ src Ht) in Hp. split; [exact Hp|].
      destruct (Hcopied name) as (src' & y & Hin' & Hy & Himg).
      { apply in_map_iff. now exists (src, name). }
      rewrite (names_unique _ _ _ _ Hnd Hin Hin').
      rewrite (tmp_file_frame w _ src' Ht) in Hy. rewrite Hy.
      unfold after_write, write_page, img_file in *. rewrite Hen.
      simpl. exact Himg.
    + exists f, b, nc. split; [exact Hl|]. split; [exact Hb|].
      split; [exact Hsp|]. split.
      * pose proof (after_write_page (r_reader result) nc w2) as Hw.
        now rewrite Hen in Hw.
      * rewrite Hn, Hts. reflexivity.
Qed.

(* ------------------------------------------------------------------ *)
(** ** The work list *)

Section WorkFacts.
Context {RT : PyRuntime}.

Lemma prepare_work_numbers (workers : Z) (total i : nat)
    (items : list ((str * str) * rpath)) (work : list work_item) :
  prepare_work workers total i items = inr work ->
  Forall (fun wk =>
            i < wk_index wk <= i + length items /\
            wk_total wk = total /\
            wk_worker_id wk = (Z.of_nat (wk_index wk - 1) mod workers)%Z /\
            nth_error items (wk_index wk - 1 - i)
            = Some ((wk_theme wk, wk_source wk), wk_reader wk)) work /\
  StronglySorted (fun a b => wk_index a < wk_index b) work.
Proof.
  revert i work; induction items as [|[[t s] r] items IH]; intros i work; simpl.
  - intros [= <-]. split; constructor.
  - destruct (convertible s) eqn:Ec; simpl.
    + destruct (workers =? 0)%Z; [discriminate|].
      destruct (prepare_work workers total (S i) items) as [e|work'] eqn:Ep;
        [discriminate|].
      intros [= <-]. destruct (IH _ _ Ep) as [H1 H2]. split.
      * constructor.
        -- simpl. rewrite Nat.sub_0_r, Nat.sub_diag. simpl.
           repeat split; lia.
        -- eapply Forall_impl; [|exact H1]. simpl.
           intros wk (Hi & Ht & Hw & Hn). split; [lia|].
           split; [exact Ht|]. split; [exact Hw|].
           replace (wk_index wk - 1 - i) with (S (wk_index wk - 1 - S i))
             by lia. exact Hn.
      * constructor; [exact H2|].
        eapply Forall_impl; [|exact H1]. simpl. intros wk (Hi & _). lia.
    + intros Hp. destruct (IH _ _ Hp) as [H1 H2]. split; [|exact H2].
      eapply Forall_impl; [|exact H1]. simpl.
      intros wk (Hi & Ht & Hw & Hn). split; [lia|].
      split; [exact Ht|]. split; [exact Hw|].
      replace (wk_index wk - 1 - i) with (S (wk_index wk - 1 - S i)) by lia.
      exact Hn.
Qed.

(** X11.  The work items of a run with a positive worker count: the
    worker of an item is a number from 0 up to the count, namely the
    remainder of the item's place in the sorted mapping; the index the
    item carries is that place counted from 1, documents that are not
    converted included, so it is at most the total, which is the size of
    the mapping; and the items come in the order of their indices. *)
Theorem work_items_numbered (args : cli_args) (w : World)
    (work : list work_item) :
  work_list args w = inr work ->
  (0 < arg_workers args)%Z ->
  (forall wk, In wk work ->
     (0 <= wk_worker_id wk < arg_workers args)%Z /\
     wk_worker_id wk
     = (Z.of_nat (wk_index wk - 1) mod arg_workers args)%Z /\
     1 <= wk_index wk <= wk_total wk /\
     wk_total wk = length (selected_mapping args w) /\
     nth_error (sorted fst pair_ltb (selected_mapping args w))
       (wk_index wk - 1)
     = Some ((wk_theme wk, wk_source wk), wk_reader wk)) /\
  StronglySorted (fun a b => wk_index a < wk_index b) work.
Proof.
  intros Hw Hpos.
  change (work_list args w)
    with (prepare_work (arg_workers args)
            (length (selected_mapping args w)) 0
            (sorted fst pair_ltb (selected_mapping args w))) in Hw.
  apply prepare_work_numbers in Hw as [H1 H2]. split; [|exact H2].
  rewrite Forall_forall in H1. intros wk Hin.
  destruct (H1 wk Hin) as (Hi & Ht & Hid & Hn).
  assert (Hlen : length (sorted fst pair_ltb (selected_mapping args w))
                 = length (selected_mapping args w)).
  { symmetry. apply Permutation_length, sorted_perm. }
  rewrite Hlen in Hi. rewrite Nat.sub_0_r in Hn.
  split; [rewrite Hid; apply Z.mod_pos_bound; exact Hpos|].
  split; [exact Hid|]. split; [lia|]. split; [exact Ht | exact Hn].
Qed.
End WorkFacts.

(* ------------------------------------------------------------------ *)
(** ** The conversion phase *)

Section PhaseFacts.
Context {RT : PyRuntime}.
Variable E : Env.

Lemma attempt_tmpdir (args : work_item) (tmpdir : str) :
  r_tmpdir (attempt E args tmpdir) = None.
Proof.
  unfold attempt. destruct (soffice E args) as [e| |e|rc err out];
    try reflexivity.
  unfold convert_body.
  destruct (negb (rc =? 0)%Z); [reflexivity|].
  destruct (html_outputs out); [reflexivity|].
  destruct (companion_images out s); [reflexivity|]. cbv zeta.
  destruct (clean_lo_html _ _ _) as [e|[c m]]; reflexivity.
Qed.

(** The two ways [convert_one] ends: without image files, its directory
    gone; or with image files, the new directory kept in the result and
    added to the live ones.  Either way the profile directory of the worker
    is there afterwards, unless making it failed, and the archive is as
    before. *)
Lemma convert_one_dirs (args : work_item) (w : World) :
  exists result w',
    convert_one E args w = Ok result w' /\
    one_outcome result /\
    (pages w' = pages w /\ sources w' = sources w /\
     imgdirs w' = imgdirs w /\ report_json w' = report_json w /\
     stdout w' = stdout w /\
     profiles w' = profiles (after_makedirs E args w)) /\
    ((get_image_files result = [] /\ r_tmpdir result = None /\
      tmpdirs w' = tmpdirs w) \/
     (get_image_files result <> [] /\
      error_truthy result = false /\ r_skipped result = false /\
      exists out,
        let d := mkdtemp E (wk_worker_id args) (keys (tmpdirs w)) in
        r_tmpdir result = Some d /\
        tmpdirs w' = tmpdirs w ++ [(d, out)])).
Proof.
  pose proof (convert_one_runs E args w) as H. cbv zeta in H.
  pose proof (attempt_outcome E args
                (mkdtemp E (wk_worker_id args) (keys (tmpdirs w)))) as [Ho _].
  destruct (get_image_files (attempt E args _)) as [|p l] eqn:Ei.
  - eexists _, _. split; [exact H|]. split; [exact Ho|].
    destruct (after_makedirs_frame E args w) as (a & b & c & d & e & f).
    split; [auto 10|]. left.
    split; [exact Ei|]. split; [apply attempt_tmpdir | exact c].
  - destruct H as (rc & err & out & Hso & H).
    eexists _, _. split; [exact H|]. split; [exact Ho|].
    split; [unfold after_makedirs; rewrite Hso; simpl; auto 10|]. right.
    assert (Hi : get_image_files
                   (set_tmpdir (attempt E args
                      (mkdtemp E (wk_worker_id args) (keys (tmpdirs w))))
                      (mkdtemp E (wk_worker_id args) (keys (tmpdirs w))))
                 = p :: l) by exact Ei.
    rewrite Hi. split; [discriminate|].
    unfold one_outcome, is_error, is_skipped, has_images in Ho.
    rewrite Ei in Ho.
    assert (He : r_error (attempt E args
                   (mkdtemp E (wk_worker_id args) (keys (tmpdirs w)))) = None
                 /\ r_skipped (attempt E args
                      (mkdtemp E (wk_worker_id args) (keys (tmpdirs w))))
                    = false).
    { destruct (r_error (attempt E args _)), (r_skipped (attempt E args _));
        split; try reflexivity; exfalso;
        destruct Ho as [(_ & _ & Hn)|[(_ & _ & Hn)|(Hn1 & Hn2 & _)]];
        try (apply Hn; discriminate); try (apply Hn1; discriminate);
        try (apply Hn2; reflexivity). }
    destruct He as [He Hs].
    split; [unfold error_truthy; simpl; now rewrite He|].
    split; [exact Hs|]. exists out. cbv zeta. split; reflexivity.
Qed.

Lemma live_dirs_app (a b : list conv_result) :
  live_dirs (a ++ b) = live_dirs a ++ live_dirs b.
Proof. unfold live_dirs. apply flat_map_app. Qed.

(** The conversion phase always returns; it counts every job once, keeps
    the results that are neither errors nor skipped, leaves the archive
    alone, and the directories it adds are those the kept results hold. *)
Lemma convert_all_dirs (completed : list work_item) (t : tally) (w : World) :
  exists t' w' X,
    convert_all E completed t w = Ok t' w' /\
    tmpdirs w' = tmpdirs w ++ X /\
    live_dirs (t_results t') = live_dirs (t_results t) ++ keys X /\
    NoDup (keys X) /\
    (forall d, In d (keys X) -> ~ In d (keys (tmpdirs w))) /\
    (forall d, In d (keys X) -> exists id live, d = mkdtemp E id live) /\
    t_errors t' + t_skipped t' + t_with_images t'
    = t_errors t + t_skipped t + t_with_images t + length completed /\
    length (t_results t') + t_with_images t
    = length (t_results t) + t_with_images t' /\
    (forall r, In r (t_results t') ->
       In r (t_results t) \/
       (error_truthy r = false /\ r_skipped r = false /\ one_outcome r)) /\
    pages w' = pages w /\ sources w' = sources w /\
    imgdirs w' = imgdirs w /\ report_json w' = report_json w /\
    stdout w' = stdout w /\
    incl (profiles w) (profiles w') /\
    (forall id, In id (profiles w') ->
       In id (profiles w) \/ In id (map wk_worker_id completed)).
Proof.
  revert t w; induction completed as [|a rest IH]; intros t w; simpl.
  - exists t, w, []. monad_unfold. rewrite !app_nil_r.
    repeat split; try constructor; try tauto; try lia;
      try apply incl_refl; intros d [].
  - monad_unfold.
    destruct (convert_one_dirs a w)
      as (result & w1 & Hc & Hone & (Fp & Fs & Fi & Fr & Fo & Fpr) & Hcase).
    rewrite Hc.
    destruct (IH (classify result t) w1)
      as (t' & w' & X & Hc' & Ht & Hl & Hn & Hf & Hm & Hcnt & Hlen & Hin
          & Hp & Hs & Hi & Hr & Ho & Hpi & Hpo).
    rewrite Fp in Hp. rewrite Fs in Hs. rewrite Fi in Hi.
    rewrite Fr in Hr. rewrite Fo in Ho.
    assert (Hprof : incl (profiles w) (profiles w') /\
                    (forall id, In id (profiles w') ->
                       In id (profiles w) \/
                       wk_worker_id a = id \/
                       In id (map wk_worker_id rest))).
    { pose proof (after_makedirs_profiles E a w) as [Q1 Q2].
      rewrite <- Fpr in Q1, Q2. split.
      - intros id Hid. apply Hpi, Q1, Hid.
      - intros id Hid. destruct (Hpo id Hid) as [Hid'|Hid']; [|tauto].
        destruct (Q2 id Hid'); [tauto | right; left; congruence]. }
    assert (Hcl : t_errors (classify result t) + t_skipped (classify result t)
                  + t_with_images (classify result t)
                  = t_errors t + t_skipped t + t_with_images t + 1 /\
                  length (t_results (classify result t)) + t_with_images t
                  = length (t_results t) + t_with_images (classify result t) /\
                  (forall r, In r (t_results (classify result t)) ->
                     In r (t_results t) \/
                     (error_truthy r = false /\ r_skipped r = false /\
                      one_outcome r))).
    { unfold classify. destruct (error_truthy result) eqn:Ee; simpl.
      - split; [lia|]. split; [lia | tauto].
      - destruct (r_skipped result) eqn:Es; simpl.
        + split; [lia|]. split; [lia | tauto].
        + rewrite length_app. simpl. split; [lia|]. split; [lia|].
          intros r Hr'. apply in_app_iff in Hr' as [Hr'|[<-|[]]]; tauto. }
    destruct Hcl as (Hcl1 & Hcl2 & Hcl3).
    destruct Hcase as [(Hi0 & Ht0 & Hw1)|(Hi0 & He0 & Hs0 & out & Ht0 & Hw1)];
      rewrite Hw1 in Ht, Hf.
    + exists t', w', X. split; [exact Hc'|]. split; [exact Ht|]. split.
      { rewrite Hl. f_equal. unfold classify.
        destruct (error_truthy result); [reflexivity|].
        destruct (r_skipped result); [reflexivity|]. simpl.
        rewrite live_dirs_app. simpl. rewrite Ht0. simpl.
        now rewrite app_nil_r. }
      split; [exact Hn|]. split; [exact Hf|]. split; [exact Hm|].
      split; [lia|]. split; [lia|]. split.
      { intros r Hr'. apply Hin in Hr' as [Hr'|Hr']; [|tauto].
        now apply Hcl3. }
      auto 10.
    + cbv zeta in *. set (d := mkdtemp E (wk_worker_id a) (keys (tmpdirs w))) in *.
      pose proof (mkdtemp_fresh E (wk_worker_id a) (keys (tmpdirs w)))
        as Hfresh. fold d in Hfresh.
      exists t', w', ((d, out) :: X). split; [exact Hc'|]. split.
      { rewrite Ht, <- app_assoc. reflexivity. }
      split.
      { rewrite Hl. unfold classify. rewrite He0, Hs0. simpl.
        rewrite live_dirs_app. simpl. rewrite Ht0. simpl.
        now rewrite <- app_assoc. }
      split.
      { simpl. constructor; [|exact Hn]. intros Hd. apply (Hf d Hd).
        unfold keys. rewrite map_app. apply in_or_app. right. now left. }
      split.
      { intros d' [<-|Hd'] Hk; [contradiction|].
        apply (Hf d' Hd'). unfold keys. rewrite map_app.
        apply in_or_app. now left. }
      split.
      { intros d' [<-|Hd']; [eexists _, _; reflexivity | now apply Hm]. }
      split; [lia|]. split; [lia|]. split.
      { intros r Hr'. apply Hin in Hr' as [Hr'|Hr']; [|tauto].
        now apply Hcl3. }
      auto 10.
Qed.

(** X12.  The conversion phase never fails and never touches the
    archive: whatever the converter does, [convert_all] returns; every job
    is counted once, as an error, as skipped or as one with images; the
    results kept for the patch phase are as many as the jobs counted as
    ones with images.  A kept result is not skipped and the test of line
    446 found its error false: either it has no error and has image files,
    or its error is the empty text, the message of an exception that had
    none, and it has no image file.  No page, source, image directory or
    report has changed. *)
Theorem every_job_counted (completed : list work_item) (w : World) :
  exists t w',
    convert_all E completed (mkTally [] 0 0 0) w = Ok t w' /\
    t_errors t + t_skipped t + t_with_images t = length completed /\
    length (t_results t) = t_with_images t /\
    (forall r, In r (t_results t) ->
       error_truthy r = false /\ r_skipped r = false /\
       ((r_error r = None /\ get_image_files r <> []) \/
        (r_error r = Some [] /\ get_image_files r = []))) /\
    pages w' = pages w /\ sources w' = sources w /\
    imgdirs w' = imgdirs w /\ report_json w' = report_json w /\
    stdout w' = stdout w.
Proof.
  destruct (convert_all_dirs completed (mkTally [] 0 0 0) w)
    as (t & w' & X & Hc & _ & _ & _ & _ & _ & Hcnt & Hlen & Hin
        & Hp & Hs & Hi & Hr & Ho & _).
  simpl in *. exists t, w'. split; [exact Hc|]. split; [lia|].
  split; [lia|]. split; [|auto 10].
  intros r Hin'. destruct (Hin r Hin') as [[]|(He & Hsk & Hone)].
  split; [exact He|]. split; [exact Hsk|].
  unfold one_outcome, is_error, is_skipped, has_images in Hone.
  unfold error_truthy in He.
  destruct (r_error r) as [[|c msg]|] eqn:Er; try discriminate.
  - right. split; [reflexivity|].
    destruct (get_image_files r) as [|x l]; [reflexivity|]. exfalso.
    destruct Hone as [(_ & _ & Hn)|[(Hn & _)|(Hn & _)]];
      apply Hn; discriminate.
  - left. split; [reflexivity|].
    destruct Hone as [(Hn & _)|[(_ & Hn & _)|(_ & _ & Hn)]];
      [now exfalso; apply Hn | congruence | exact Hn].
Qed.
End PhaseFacts.

(** A conversion that fails with an exception without a message is kept
    for the patch phase and counted as one with images; the patch phase
    then finds no fragment in it. *)
Lemma kept_with_empty_error :
  (exists t w' r,
     @convert_all plain_runtime silent_failure [second_item]
       (mkTally [] 0 0 0) two_page_world = Ok t w' /\
     t_results t = [r] /\ t_with_images t = 1 /\
     r_error r = Some [] /\ get_image_files r = []) /\
  exists w',
    @main plain_runtime silent_failure two_workers two_page_world
    = Raised (KeyError "body_html") w'.
Proof.
  split.
  - eexists _, _, _. split; [vm_compute; reflexivity|].
    split; [vm_compute; reflexivity|]. repeat split.
  - eexists. vm_compute. reflexivity.
Qed.

(* ------------------------------------------------------------------ *)
(** ** Whole runs *)

Lemma remove_key_filter (d : str) (t : list (str * list (str * file))) :
  remove_key str_eq_dec d t
  = filter (fun kv => negb (if str_eq_dec d (fst kv) then true else false)) t.
Proof.
  induction t as [|[k v] t IH]; simpl; [reflexivity|].
  destruct (str_eq_dec d k); simpl; now rewrite IH.
Qed.

Lemma remove_dirs_filter (ds : list str) (t : list (str * list (str * file))) :
  remove_dirs ds t = filter (fun kv => negb (in_strs (fst kv) ds)) t.
Proof.
  unfold remove_dirs. revert t; induction ds as [|d ds IH]; intros t; simpl.
  - induction t as [|kv t IHt]; simpl; [reflexivity|]. now rewrite <- IHt.
  - rewrite IH, remove_key_filter.
    induction t as [|[k v] t IHt]; simpl; [reflexivity|].
    unfold in_strs at 2. simpl.
    destruct (str_eq_dec d k) as [->|Hne]; simpl.
    + destruct (in_dec str_eq_dec k (k :: ds)) as [|Hn];
        [exact IHt | exfalso; apply Hn; now left].
    + unfold in_strs at 1.
      destruct (in_dec str_eq_dec k ds) as [Hi|Hi];
        destruct (in_dec str_eq_dec k (d :: ds)) as [Hj|Hj]; simpl.
      * exact IHt.
      * exfalso. apply Hj. now right.
      * destruct Hj as [Hj|Hj]; [congruence | contradiction].
      * now rewrite IHt.
Qed.

(** Removing the directories that were added gives the old ones back. *)
Lemma remove_dirs_added (ds : list str)
    (base X : list (str * list (str * file))) :
  (forall d, In d ds <-> In d (keys X)) ->
  (forall d, In d (keys X) -> ~ In d (keys base)) ->
  remove_dirs ds (base ++ X) = base.
Proof.
  intros Hds Hf. rewrite remove_dirs_filter, filter_app.
  assert (H1 : filter (fun kv => negb (in_strs (fst kv) ds)) base = base).
  { clear -Hds Hf. induction base as [|[k v] base IH]; simpl; [reflexivity|].
    unfold in_strs at 1. simpl.
    destruct (in_dec str_eq_dec k ds) as [Hi|Hi]; simpl.
    - exfalso. apply Hds in Hi. apply (Hf k Hi). now left.
    - f_equal. apply IH. intros d Hd Hb. apply (Hf d Hd). now right. }
  assert (H2 : filter (fun kv => negb (in_strs (fst kv) ds)) X = []).
  { clear -Hds. assert (H : forall kv, In kv X -> In (fst kv) ds).
    { intros kv Hkv. apply Hds. now apply in_map. }
    clear Hds. induction X as [|[k v] X IH]; simpl; [reflexivity|].
    unfold in_strs at 1. simpl.
    destruct (in_dec str_eq_dec k ds) as [Hi|Hi]; simpl.
    - apply IH. intros kv Hkv. apply H. now right.
    - exfalso. apply Hi. apply (H (k, v)). now left. }
  now rewrite H1, H2, app_nil_r.
Qed.

Lemma patch_all_tmpdirs (E : Env) (dry_run : bool)
    (results : list conv_result)
    (theme_stats theme_stats' : list (str * report_row)) (w w' : World) :
  patch_all E dry_run results theme_stats w = Ok theme_stats' w' ->
  (forall r, In r results -> r_tmpdir r <> Some []) ->
  tmpdirs w' = remove_dirs (live_dirs results) (tmpdirs w).
Proof.
  revert theme_stats w; induction results as [|r rs IH]; intros theme_stats w.
  - simpl. monad_unfold. now intros [= <- <-] _.
  - rewrite patch_all_cons.
    pose proof (update_keeps_tmpdirs (copy_error E) r dry_run w) as Hk.
    destruct (update_reader_page (copy_error E) r dry_run w) as [ba w1|e w1];
      [|discriminate].
    simpl in Hk. intros H Hne.
    apply IH in H; [|intros r' Hr'; apply Hne; now right].
    rewrite H. unfold live_dirs at 2. simpl. unfold after_cleanup.
    specialize (Hne r (or_introl eq_refl)).
    destruct (r_tmpdir r) as [[|c d]|]; simpl.
    + exfalso. now apply Hne.
    + now rewrite Hk.
    + now rewrite Hk.
Qed.

Lemma patch_all_profiles (E : Env) (dry_run : bool)
    (results : list conv_result)
    (theme_stats theme_stats' : list (str * report_row)) (w w' : World) :
  patch_all E dry_run results theme_stats w = Ok theme_stats' w' ->
  profiles w' = profiles w.
Proof.
  revert theme_stats w; induction results as [|r rs IH]; intros theme_stats w.
  - simpl. monad_unfold. now intros [= <- <-].
  - rewrite patch_all_cons.
    pose proof (update_keeps_profiles (copy_error E) r dry_run w) as Hk.
    destruct (update_reader_page (copy_error E) r dry_run w) as [ba w1|e w1];
      [|discriminate].
    simpl in Hk. intros H. apply IH in H. rewrite H.
    unfold after_cleanup. destruct (r_tmpdir r) as [[|c d]|]; simpl; exact Hk.
Qed.

(* ------------------------------------------------------------------ *)
(** ** Dry runs *)

Section DryRun.
Context {RT : PyRuntime}.
Variable E : Env.

Lemma patch_and_report_dry (t : tally) (w : World) :
  let w' := world_of (patch_and_report E true t w) in
  pages w' = pages w /\ sources w' = sources w /\
  imgdirs w' = imgdirs w /\ stdout w' = stdout w.
Proof.
  cbv zeta. unfold patch_and_report.
  destruct (t_results t) as [|r rs] eqn:Et.
  - simpl. repeat split.
  - monad_unfold.
    pose proof (patch_all_dry E (by_reader (r :: rs)) [] w) as Hp.
    cbv zeta in Hp.
    destruct (patch_all E true (by_reader (r :: rs)) [] w) as [st w1|e w1];
      simpl in *; tauto.
Qed.

Lemma main_dry (args : cli_args) (w : World) :
  arg_dry_run args = true ->
  let w' := world_of (main E args w) in
  pages w' = pages w /\ sources w' = sources w /\
  imgdirs w' = imgdirs w /\ stdout w' = stdout w.
Proof.
  intros Hd. cbv zeta. unfold main. monad_unfold.
  destruct (work_list args w) as [e|work]; [simpl; repeat split|].
  destruct (arg_workers args <=? 0)%Z; [simpl; repeat split|].
  destruct (convert_all_frame E (as_completed E work) (mkTally [] 0 0 0) w)
    as (t & w1 & Hc & Hp & Hs & Hi & _ & Ho & _).
  rewrite Hc, Hd.
  destruct (patch_and_report_dry t w1) as (a & b & c & d).
  repeat split; congruence.
Qed.

(** C6, as stated, fails: a dry run that has a result to report writes
    the report file.  Here a run over two pages with two workers, the
    converter timing out for the second, ends with a report where there
    was none. *)
Lemma dry_run_writes_report :
  ~ (forall (RT : PyRuntime) (E : Env) (args : cli_args) (w : World),
       arg_dry_run args = true ->
       same_files w (world_of (main E args w))).
Proof.
  intros H.
  specialize (H plain_runtime worker_one_fails (mkArgs 2 None false true)
                two_page_world eq_refl).
  destruct H as (_ & _ & _ & _ & Hr & _).
  vm_compute in Hr. discriminate Hr.
Qed.

(** C6, amended.  In dry-run mode [update_reader_page] leaves the world
    as it was whether it returns or raises.  It returns exactly when the
    page exists, the cleaned fragment can be encoded as UTF-8 and the image
    files exist, and then with the pair of the page size and that size plus
    the UTF-8 length of the cleaned fragment plus the sizes of the image
    files.  A dry run, of the patch and report phases or of the whole
    pipeline, leaves every reader page, image directory and source file as
    it was.  It is not without effect: when there is a result to report,
    the dry run of the patch and report phases that returns has removed
    the temporary directories of the results and has written the report,
    marked as one of a dry run. *)
Theorem dry_run_estimates_only
    (result : conv_result) (t : tally) (args : cli_args) (w : World) :
  world_of (update_reader_page (copy_error E) result true w) = w /\
  (forall f,
     lookup rpath_eq_dec (r_reader result) (pages w) = Some f ->
     encodable (body_of result) = true ->
     all_present w (get_image_files result) ->
     update_reader_page (copy_error E) result true w
     = Ok (f_size f,
           f_size f + utf8_len (body_of result)
           + total_size w (get_image_files result)) w) /\
  (forall ba w',
     update_reader_page (copy_error E) result true w = Ok ba w' ->
     exists f,
       lookup rpath_eq_dec (r_reader result) (pages w) = Some f /\
       encodable (body_of result) = true /\
       all_present w (get_image_files result)) /\
  (let w' := world_of (patch_and_report E true t w) in
   pages w' = pages w /\ imgdirs w' = imgdirs w /\ sources w' = sources w) /\
  (arg_dry_run args = true ->
   let w' := world_of (main E args w) in
   pages w' = pages w /\ imgdirs w' = imgdirs w /\ sources w' = sources w) /\
  (t_results t = [] -> patch_and_report E true t w = Ok tt w) /\
  (forall w',
     t_results t <> [] ->
     patch_and_report E true t w = Ok tt w' ->
     (exists theme_stats rep,
        rep = make_report true theme_stats t /\
        rep_dry_run rep = true /\
        report_json w' = Some rep) /\
     ((forall r, In r (t_results t) -> r_tmpdir r <> Some []) ->
      tmpdirs w'
      = remove_dirs (live_dirs (by_reader (t_results t))) (tmpdirs w))).
Proof.
  split; [apply update_dry_world|]. split; [|split; [|split; [|split]]].
  - intros f Hl He Hp. unfold update_reader_page. monad_unfold.
    unfold stat_page, encoded_len. rewrite Hl. cbv beta iota.
    fold (body_of result). rewrite He.
    now rewrite (sum_sizes_ok _ _ Hp).
  - intros ba w' Hu.
    pose proof (update_reader_page_cases (copy_error E) result true w) as H.
    rewrite Hu in H.
    inversion H as [ | f _ Hl He Hp | | | ]; try discriminate.
    exists f. auto.
  - destruct (patch_and_report_dry t w) as (a & b & c & d). cbv zeta. auto.
  - intros Hd. destruct (main_dry args w Hd) as (a & b & c & d).
    cbv zeta. auto.
  - split.
    + intros Ht. unfold patch_and_report. now rewrite Ht.
    + intros w' Hne. unfold patch_and_report.
      destruct (t_results t) as [|r rs] eqn:Et; [now destruct Hne|].
      monad_unfold.
      destruct (patch_all E true (by_reader (r :: rs)) [] w)
        as [st w1|e w1] eqn:Ep; [|discriminate].
      unfold write_report. intros [= <-]. simpl. split.
      * exists st, (make_report true st t). auto.
      * intros Hr. apply (patch_all_tmpdirs _ _ _ _ _ _ _ Ep).
        intros r' Hin. apply Hr. unfold by_reader in Hin.
        now apply sorted_In in Hin.
Qed.
End DryRun.

Section WholeRuns.
Context {RT : PyRuntime}.
Variable E : Env.

(** X13.  A worker count that is not positive aborts the run before
    anything is converted or written: a negative count, and a count of
    zero when no mapped source is convertible, raise the [ValueError] of
    the thread pool; a count of zero with a convertible source raises
    [ZeroDivisionError] while the work list is built. *)
Theorem nonpositive_workers_raise (args : cli_args) (w : World) :
  (arg_workers args <= 0)%Z ->
  exists e,
    main E args w = Raised e w /\
    (e = ValueError \/ e = ZeroDivisionError) /\
    (e = ZeroDivisionError <->
     arg_workers args = 0%Z /\
     exists key reader, In (key, reader) (selected_mapping args w) /\
                        convertible (snd key) = true).
Proof.
  intros Hle. unfold main. monad_unfold.
  change (work_list args w)
    with (prepare_work (arg_workers args)
            (length (selected_mapping args w)) 0
            (sorted fst pair_ltb (selected_mapping args w))).
  assert (Hperm : forall x, In x (sorted fst pair_ltb (selected_mapping args w))
                            <-> In x (selected_mapping args w)).
  { intros x. apply sorted_In. }
  revert Hperm. generalize (sorted fst pair_ltb (selected_mapping args w)).
  generalize (length (selected_mapping args w)). intros total items Hperm.
  assert (Hprep : forall i,
             (prepare_work (arg_workers args) total i items
              = inl ZeroDivisionError /\
              arg_workers args = 0%Z /\
              exists key reader, In (key, reader) items /\
                                 convertible (snd key) = true) \/
             ((exists work, prepare_work (arg_workers args) total i items
                            = inr work) /\
              (arg_workers args = 0%Z ->
               forall key reader, In (key, reader) items ->
                                  convertible (snd key) = false))).
  { clear Hperm. induction items as [|[[t s] r] items IH]; intros i; simpl.
    - right. split; [eauto | intros _ key reader []].
    - destruct (convertible s) eqn:Ec; simpl.
      + destruct (arg_workers args =? 0)%Z eqn:Ez.
        * left. apply Z.eqb_eq in Ez. split; [reflexivity|].
          split; [exact Ez|]. exists (t, s), r. split; [now left | exact Ec].
        * apply Z.eqb_neq in Ez.
          destruct (IH (S i)) as [(_ & Hz & _)|[[work Hw] _]];
            [exfalso; exact (Ez Hz)|].
          right. rewrite Hw. split; [eauto | intros Hz; contradiction].
      + destruct (IH (S i)) as [(Hp & Hz & key & reader & Hin & Hc)
                               |[Hw Hall]].
        * left. split; [exact Hp|]. split; [exact Hz|].
          exists key, reader. split; [now right | exact Hc].
        * right. split; [exact Hw|]. intros Hz key reader [[= <- <-]|Hin].
          -- exact Ec.
          -- exact (Hall Hz _ _ Hin). }
  destruct (Hprep 0) as [(Hp & Hz & key & reader & Hin & Hc)|[[work Hw] Hall]].
  - rewrite Hp. exists ZeroDivisionError. split; [reflexivity|].
    split; [now right|]. split; [|reflexivity].
    intros _. split; [exact Hz|]. exists key, reader.
    split; [now apply Hperm | exact Hc].
  - rewrite Hw. apply Z.leb_le in Hle. rewrite Hle.
    exists ValueError. split; [reflexivity|]. split; [now left|].
    split; [discriminate|].
    intros (Hz & key & reader & Hin & Hc). exfalso.
    apply Hperm in Hin. rewrite (Hall Hz key reader Hin) in Hc. discriminate.
Qed.

Lemma convert_all_without_images (completed : list work_item) (t : tally)
    (w : World) :
  (forall wk, In wk completed -> without_images E wk) ->
  exists t' w',
    convert_all E completed t w = Ok t' w' /\ t_results t' = t_results t /\
    pages w' = pages w /\ sources w' = sources w /\
    tmpdirs w' = tmpdirs w /\ imgdirs w' = imgdirs w /\
    report_json w' = report_json w /\ stdout w' = stdout w /\
    incl (profiles w) (profiles w') /\
    (forall id, In id (profiles w') ->
       In id (profiles w) \/ In id (map wk_worker_id completed)).
Proof.
  revert t w; induction completed as [|a rest IH]; intros t w Hall; simpl.
  - monad_unfold. exists t, w. repeat split; try apply incl_refl. tauto.
  - monad_unfold.
    pose proof (convert_one_runs E a w) as H. cbv zeta in H.
    set (d := mkdtemp E (wk_worker_id a) (keys (tmpdirs w))) in *.
    pose proof (attempt_outcome E a d) as [Ho _].
    specialize (Hall a (or_introl eq_refl)) as Hw. specialize (Hw d).
    assert (Hi : get_image_files (attempt E a d) = []).
    { destruct (get_image_files (attempt E a d)) eqn:Ei; [reflexivity|].
      exfalso. unfold one_outcome, is_error, is_skipped, has_images in Ho.
      rewrite Ei in Ho. unfold error_truthy in Hw.
      destruct Ho as [(_ & _ & Hn)|[(_ & _ & Hn)|(Hn1 & Hn2 & _)]];
        try (apply Hn; discriminate).
      destruct Hw as [Hw|Hw]; [|contradiction].
      destruct (r_error (attempt E a d)); [|discriminate].
      apply Hn1. discriminate. }
    rewrite Hi in H. rewrite H.
    destruct (IH (classify (attempt E a d) t) (after_makedirs E a w))
      as (t' & w' & Hc & Hr & Hp & Hs & Ht & Him & Hrep & Hout & Hpi & Hpo).
    { intros wk Hin. apply Hall. now right. }
    destruct (after_makedirs_frame E a w) as (F1 & F2 & F3 & F4 & F5 & F6).
    destruct (after_makedirs_profiles E a w) as [Q1 Q2].
    exists t', w'. split; [exact Hc|]. split.
    { rewrite Hr. unfold classify.
      destruct Hw as [Hw|Hw]; rewrite Hw; [reflexivity|].
      destruct (error_truthy (attempt E a d)); reflexivity. }
    split; [congruence|]. split; [congruence|]. split; [congruence|].
    split; [congruence|]. split; [congruence|]. split; [congruence|].
    split.
    + intros id Hid. apply Hpi, Q1, Hid.
    + intros id Hid. destruct (Hpo id Hid) as [Hid'|Hid']; [|tauto].
      destruct (Q2 id Hid'); [tauto | right; left; congruence].
Qed.

(** X14.  A run in which every conversion ends in an error with a message
    that is not empty, or is skipped, changes nothing in the archive: it
    returns, and pages, sources, image directories, the report (an older
    one stays in place), the console and the temporary directories are as
    they were.  What it leaves behind are the profile directories of its
    workers: those that were there are still there, and a new one belongs
    to a worker of the run. *)
Theorem run_without_images_changes_nothing (args : cli_args) (w : World)
    (work : list work_item) :
  work_list args w = inr work ->
  (0 < arg_workers args)%Z ->
  (forall wk, In wk work -> without_images E wk) ->
  exists w',
    main E args w = Ok tt w' /\
    pages w' = pages w /\ sources w' = sources w /\
    tmpdirs w' = tmpdirs w /\ imgdirs w' = imgdirs w /\
    report_json w' = report_json w /\ stdout w' = stdout w /\
    incl (profiles w) (profiles w') /\
    (forall id, In id (profiles w') ->
       In id (profiles w) \/
       exists wk, In wk work /\ wk_worker_id wk = id).
Proof.
  intros Hw Hpos Hall. unfold main. monad_unfold. rewrite Hw.
  destruct (arg_workers args <=? 0)%Z eqn:El;
    [apply Z.leb_le in El; lia|].
  destruct (convert_all_without_images (as_completed E work)
              (mkTally [] 0 0 0) w)
    as (t & w' & Hc & Hr & Hp & Hs & Ht & Him & Hrep & Hout & Hpi & Hpo).
  { intros wk Hin. apply Hall.
    eapply Permutation_in; [apply Permutation_sym, as_completed_perm|].
    exact Hin. }
  rewrite Hc. unfold patch_and_report. rewrite Hr. simpl.
  exists w'. split; [reflexivity|]. do 6 (split; [assumption|]).
  split; [exact Hpi|].
  intros id Hid. destruct (Hpo id Hid) as [Hid'|Hid']; [now left | right].
  apply in_map_iff in Hid' as (wk & Hwk & Hin). exists wk.
  split; [|exact Hwk].
  eapply Permutation_in; [apply Permutation_sym, as_completed_perm|].
  exact Hin.
Qed.

(** X15.  A run that returns leaves behind no directory that [mkdtemp]
    made: the temporary directories are the same after the run as before
    it.  (The names that [mkdtemp] gives are not empty.)  The profile
    directories that [convert_one] makes are another matter: none is
    removed, and a new one belongs to a worker of the run. *)
Theorem no_temporary_directory_left (args : cli_args) (w w' : World) :
  (forall id live, mkdtemp E id live <> []) ->
  main E args w = Ok tt w' ->
  tmpdirs w' = tmpdirs w /\
  incl (profiles w) (profiles w') /\
  (forall id, In id (profiles w') ->
     In id (profiles w) \/
     exists work wk, work_list args w = inr work /\ In wk work /\
                     wk_worker_id wk = id).
Proof.
  intros Hne. unfold main. monad_unfold.
  destruct (work_list args w) as [e|work]; [discriminate|].
  destruct (arg_workers args <=? 0)%Z; [discriminate|].
  destruct (convert_all_dirs E (as_completed E work) (mkTally [] 0 0 0) w)
    as (t & w1 & X & Hc & Ht & Hl & Hn & Hf & Hm & _ & _ & _ & _ & _ & _ & _
        & _ & Hpi & Hpo).
  rewrite Hc. simpl in Hl. unfold patch_and_report.
  assert (Hprof : forall w2, profiles w2 = profiles w1 ->
            incl (profiles w) (profiles w2) /\
            (forall id, In id (profiles w2) ->
               In id (profiles w) \/
               exists work0 wk, inr work = @inr exn _ work0 /\ In wk work0 /\
                                wk_worker_id wk = id)).
  { intros w2 Hw2. rewrite Hw2. split; [exact Hpi|].
    intros id Hid. destruct (Hpo id Hid) as [Hid'|Hid']; [now left | right].
    apply in_map_iff in Hid' as (wk & Hwk & Hin). exists work, wk.
    split; [reflexivity|]. split; [|exact Hwk].
    eapply Permutation_in; [apply Permutation_sym, as_completed_perm|].
    exact Hin. }
  destruct (t_results t) as [|r0 rs0] eqn:Er.
  - intros [= <-]. split; [|now apply Hprof]. rewrite Ht. simpl in Hl.
    destruct X; [now rewrite app_nil_r | discriminate].
  - monad_unfold.
    destruct (patch_all E (arg_dry_run args) (by_reader (r0 :: rs0)) [] w1)
      as [st w2|e w2] eqn:Ep; [|discriminate].
    unfold write_report. intros [= <-]. simpl.
    split; [|apply (Hprof (mkWorld (pages w2) (sources w2) (tmpdirs w2)
                             (imgdirs w2) (report_json w2) (stdout w2)
                             (profiles w2)));
             simpl; exact (patch_all_profiles _ _ _ _ _ _ _ Ep)].
    assert (Hin : forall r, In r (by_reader (r0 :: rs0)) <-> In r (r0 :: rs0)).
    { intros r. apply sorted_In. }
    assert (Hlive : forall rs d,
               In d (live_dirs rs) <-> exists r, In r rs /\ r_tmpdir r = Some d).
    { intros rs d. unfold live_dirs. rewrite in_flat_map. split.
      - intros (r & Hr & Hd). exists r. split; [exact Hr|].
        destruct (r_tmpdir r); [destruct Hd as [->|[]]; reflexivity | destruct Hd].
      - intros (r & Hr & Hd). exists r. split; [exact Hr|].
        rewrite Hd. now left. }
    apply patch_all_tmpdirs in Ep.
    + rewrite Ep, Ht. apply remove_dirs_added; [|exact Hf].
      intros d. rewrite <- Hl, !Hlive. split.
      * intros (r & Hr & Hd). exists r. split; [now apply Hin | exact Hd].
      * intros (r & Hr & Hd). exists r. split; [now apply Hin | exact Hd].
    + intros r Hr He. apply Hin in Hr.
      assert (Hd : In [] (keys X)).
      { rewrite <- Hl. apply Hlive. now exists r. }
      destruct (Hm _ Hd) as (id & live & Hid). symmetry in Hid.
      exact (Hne _ _ Hid).
Qed.
End WholeRuns.

(* ------------------------------------------------------------------ *)
(** ** The result of a conversion *)

Section ResultFacts.
Context {RT : PyRuntime}.
Variable E : Env.

Lemma companion_images_spec (outdir : list (str * file)) (lo : str) :
  NoDup (companion_images outdir lo) /\
  forall f, In f (companion_images outdir lo) ->
    in_strs (str_lower (path_suffix f)) IMAGE_SUFFIXES = true /\ f <> lo /\
    In f (keys outdir).
Proof.
  unfold companion_images. split.
  - apply NoDup_filter.
    eapply Permutation_NoDup; [apply sorted_perm | apply NoDup_nodup].
  - intros f Hf. apply filter_In in Hf as [Hf Hc].
    apply andb_true_iff in Hc as [H1 H2].
    split; [exact H2|]. split.
    + intros ->. destruct (str_eq_dec lo lo); [discriminate | congruence].
    + apply sorted_In in Hf. now apply nodup_In in Hf.
Qed.

Lemma NoDup_map_on {A B : Type} (g : A -> B) (l : list A) :
  NoDup l ->
  (forall a b, In a l -> In b l -> g a = g b -> a = b) ->
  NoDup (map g l).
Proof.
  induction l as [|f l IH]; simpl; intros Hnd Hinj; [constructor|].
  inversion Hnd as [|? ? Hf Hl]; subst. constructor.
  - intros Hi. apply in_map_iff in Hi as (x & Ex & Hx).
    apply Hinj in Ex; [|now right | now left]. subst x. contradiction.
  - apply IH; [exact Hl|]. intros a b Ha Hb. apply Hinj; now right.
Qed.

Lemma map_lookup_names (image_files : list str) :
  NoDup image_files ->
  let img_map := build_img_map image_files in
  let new_name f :=
    match lookup str_eq_dec f img_map with Some n => n | None => f end in
  NoDup (map new_name image_files) /\
  length (values img_map) = length image_files /\
  forall f, In f image_files ->
    lookup str_eq_dec f img_map = Some (new_name f).
Proof.
  intros Hnd. cbv zeta.
  destruct (build_img_map_inv image_files) as (Hv & Hk & _ & Hin).
  cbv zeta in *.
  assert (Hsome : forall f, In f image_files ->
            exists n, lookup str_eq_dec f (build_img_map image_files) = Some n).
  { intros f Hf. apply (lookup_some_In str_eq_dec). now apply Hin. }
  split; [|split].
  - apply NoDup_map_on; [exact Hnd|].
    intros a b Ha Hb. destruct (Hsome a Ha) as [na Ea].
    destruct (Hsome b Hb) as [nb Eb]. rewrite Ea, Eb. intros <-.
    exact (lookup_inj str_eq_dec a b na _ Hv Ea Eb).
  - unfold values. rewrite length_map, <- (length_map fst).
    apply Permutation_length, NoDup_Permutation; [exact Hk | exact Hnd|].
    exact Hin.
  - intros f Hf. destruct (Hsome f Hf) as [n En]. now rewrite En.
Qed.

Lemma attempt_well_formed (args : work_item) (tmpdir : str) :
  well_formed_result args (attempt E args tmpdir).
Proof.
  unfold well_formed_result, attempt.
  assert (Herr : forall msg,
             let r := set_error (initial_result args) msg in
             r_theme r = wk_theme args /\ r_source r = wk_source args /\
             r_reader r = wk_reader args /\
             r_reader_slug r = name_stem (snd (wk_reader args)) /\
             (get_image_files r <> [] -> False)).
  { intros msg. cbv zeta. repeat split. intros H. now apply H. }
  assert (Hweak : forall r (P : Prop),
             r_theme r = wk_theme args /\ r_source r = wk_source args /\
             r_reader r = wk_reader args /\
             r_reader_slug r = name_stem (snd (wk_reader args)) /\
             (get_image_files r <> [] -> False) ->
             r_theme r = wk_theme args /\ r_source r = wk_source args /\
             r_reader r = wk_reader args /\
             r_reader_slug r = name_stem (snd (wk_reader args)) /\
             (get_image_files r <> [] -> P)).
  { intros r P (a & b & c & d & e). repeat split; auto. intros H.
    destruct (e H). }
  destruct (soffice E args) as [e| |e|rc err out];
    [apply Hweak, Herr | apply Hweak, Herr | apply Hweak, Herr |].
  unfold convert_body.
  destruct (negb (rc =? 0)%Z); [apply Hweak, Herr|].
  destruct (html_outputs out) as [|lo rest]; [apply Hweak, Herr|].
  destruct (companion_images_spec out lo) as [Hnd Hsuf].
  destruct (companion_images out lo) as [|i0 imgs] eqn:Ei.
  { apply Hweak. repeat split. intros H. now apply H. }
  cbv zeta.
  destruct (clean_lo_html _ (i0 :: imgs) _) as [e|[cleaned img_map]] eqn:Ec;
    [apply Hweak, Herr|].
  assert (Hm : img_map = build_img_map (i0 :: imgs))
    by exact (clean_lo_html_map _ _ _ _ _ Ec).
  subst img_map.
  destruct (map_lookup_names (i0 :: imgs) Hnd) as (H2 & H3 & H4).
  cbv zeta in *.
  unfold get_image_files, set_success. cbn [r_image_files r_theme r_source
    r_reader r_reader_slug r_error r_skipped r_body_html r_num_images
    r_images initial_result].
  do 4 (split; [reflexivity|]).
  intros _. rewrite !map_map, !length_map. cbn [fst snd]. rewrite map_id.
  split; [reflexivity|]. split; [reflexivity|]. split; [eauto|].
  split; [reflexivity|]. split; [exact H3|].
  split; [exact Hnd|]. split; [exact H2|].
  intros src name Hin. apply in_map_iff in Hin as (f & [= <- <-] & Hf).
  cbn [fst snd]. split; [apply Hsuf, Hf | now apply H4].
Qed.

(** X16.  What [convert_one] hands to the patch phase.  Every result
    carries the theme, source, page and slug of its work item.  A result
    with image files has no error and is not skipped, has a fragment, and
    its image count is the number of its image files; these are distinct
    files with an image suffix, each paired with the name the rename map
    gives it, and no two of them are paired with the same new name. *)
Theorem convert_one_result_well_formed (args : work_item) (w w' : World)
    (result : conv_result) :
  convert_one E args w = Ok result w' ->
  well_formed_result args result.
Proof.
  intros Hc. pose proof (convert_one_runs E args w) as H. cbv zeta in H.
  pose proof (attempt_well_formed args
                (mkdtemp E (wk_worker_id args) (keys (tmpdirs w)))) as Hwf.
  destruct (get_image_files (attempt E args _)).
  - rewrite H in Hc. now injection Hc as <- _.
  - destruct H as (rc & err & out & _ & H). rewrite H in Hc.
    injection Hc as <- _. exact Hwf.
Qed.
End ResultFacts.

(* ------------------------------------------------------------------ *)
(** ** The mapping *)

Section MappingFacts.
Context {RT : PyRuntime}.
Variable w : World.

Lemma theme_pages_In (theme : str) (page : rpath) (f : file) :
  In (page, f) (theme_pages w theme) <->
  In (page, f) (pages w) /\ fst page = theme /\
  endswith (py ".html") (snd page) = true.
Proof.
  unfold theme_pages. rewrite sorted_In, filter_In. simpl.
  destruct (str_eq_dec (fst page) theme); simpl; intuition congruence.
Qed.

Lemma map_pages_sound (theme : str) (l : list (rpath * file))
    (mapping : list ((str * str) * rpath)) (key : str * str) (page : rpath) :
  In (key, page) (map_pages w theme l mapping) ->
  In (key, page) mapping \/
  (fst key = theme /\ sources w theme (snd key) = true /\
   exists f, In (page, f) l /\ linked_source (f_text f) = Some (snd key)).
Proof.
  revert mapping; induction l as [|[p f] l IH]; intros mapping; simpl;
    [tauto|].
  intros H. apply IH in H as [H|(H1 & H2 & f' & H3 & H4)].
  - destruct (linked_source (f_text f)) as [src|] eqn:El; [|now left].
    destruct (sources w theme src) eqn:Es; [|now left].
    apply assign_In in H as [[= -> ->]|H]; [|now left].
    right. simpl. split; [reflexivity|]. split; [exact Es|].
    exists f. split; [now left | exact El].
  - right. split; [exact H1|]. split; [exact H2|].
    exists f'. split; [now right | exact H4].
Qed.

Lemma map_pages_keys (theme : str) (l : list (rpath * file))
    (mapping : list ((str * str) * rpath)) :
  (NoDup (keys mapping) -> NoDup (keys (map_pages w theme l mapping))) /\
  (forall k, In k (keys mapping) ->
             In k (keys (map_pages w theme l mapping))) /\
  (forall p f src, In (p, f) l -> linked_source (f_text f) = Some src ->
                   sources w theme src = true ->
                   In (theme, src) (keys (map_pages w theme l mapping))).
Proof.
  revert mapping; induction l as [|[p f] l IH]; intros mapping; simpl.
  - split; [tauto|]. split; [tauto|]. intros p f src [].
  - set (mapping' := match linked_source (f_text f) with
                     | Some src =>
                         if sources w theme src
                         then assign pair_eq_dec (theme, src) p mapping
                         else mapping
                     | None => mapping
                     end).
    destruct (IH mapping') as (H1 & H2 & H3).
    assert (Hmono : forall k, In k (keys mapping) -> In k (keys mapping')).
    { intros k Hk. unfold mapping'.
      destruct (linked_source (f_text f)) as [src|]; [|exact Hk].
      destruct (sources w theme src); [|exact Hk].
      apply (lookup_some_In pair_eq_dec) in Hk as [v Hv].
      apply (lookup_some_In pair_eq_dec).
      destruct (pair_eq_dec k (theme, src)) as [->|Hne].
      - rewrite lookup_assign_same. eauto.
      - rewrite lookup_assign_other by congruence. eauto. }
    split; [|split].
    + intros Hn. apply H1. unfold mapping'.
      destruct (linked_source (f_text f)) as [src|]; [|exact Hn].
      destruct (sources w theme src); [|exact Hn].
      now apply assign_keys_NoDup.
    + intros k Hk. apply H2, Hmono, Hk.
    + intros p' f' src [[= <- <-]|Hin] Hl Hs.
      * apply H2. unfold mapping'. rewrite Hl, Hs.
        apply (lookup_some_In pair_eq_dec). rewrite lookup_assign_same. eauto.
      * exact (H3 p' f' src Hin Hl Hs).
Qed.

Lemma fold_pages_sound (dirs : list str)
    (mapping : list ((str * str) * rpath)) (key : str * str) (page : rpath) :
  In (key, page)
     (fold_left (fun m d => map_pages w d (theme_pages w d) m) dirs mapping) ->
  In (key, page) mapping \/
  (In (fst key) dirs /\ links_to w (fst key) (snd key) page).
Proof.
  revert mapping; induction dirs as [|d dirs IH]; intros mapping; simpl;
    [tauto|].
  intros H. apply IH in H as [H|[H1 H2]]; [|right; split; [now right|exact H2]].
  apply map_pages_sound in H as [H|(H1 & H2 & f & H3 & H4)]; [now left|].
  right. split; [now left|]. apply theme_pages_In in H3 as (Ha & Hb & Hc).
  unfold links_to. rewrite H1. split; [exact Hb|]. split; [exact Hc|].
  split; [exact H2|]. exists f. now split.
Qed.

Lemma fold_pages_keys (dirs : list str)
    (mapping : list ((str * str) * rpath)) :
  let m' := fold_left (fun m d => map_pages w d (theme_pages w d) m)
              dirs mapping in
  (NoDup (keys mapping) -> NoDup (keys m')) /\
  (forall k, In k (keys mapping) -> In k (keys m')) /\
  (forall theme src page, In theme dirs -> links_to w theme src page ->
                          In (theme, src) (keys m')).
Proof.
  revert mapping; induction dirs as [|d dirs IH]; intros mapping; cbv zeta;
    simpl.
  - split; [tauto|]. split; [tauto|]. intros theme src page [].
  - destruct (IH (map_pages w d (theme_pages w d) mapping)) as (H1 & H2 & H3).
    destruct (map_pages_keys d (theme_pages w d) mapping) as (K1 & K2 & K3).
    cbv zeta in *. split; [auto|]. split; [auto|].
    intros theme src page [<-|Hin] Hl; [|exact (H3 theme src page Hin Hl)].
    apply H2. destruct Hl as (Ha & Hb & Hc & f & Hd & He).
    apply (K3 page f src); [|exact He | exact Hc].
    apply theme_pages_In. auto.
Qed.

Lemma theme_dirs_In (themes : option (list str)) (theme : str) :
  let theme_dirs :=
    sorted_str (filter is_theme_dir
                  (nodup str_eq_dec (map (fun pf : rpath * file => fst (fst pf))
                                       (pages w)))) in
  let theme_dirs :=
    match themes with
    | Some (t :: ts) => filter (fun d => in_strs d (t :: ts)) theme_dirs
    | _ => theme_dirs
    end in
  In theme theme_dirs <->
  selected_theme themes theme /\
  exists page f, In (page, f) (pages w) /\ fst page = theme.
Proof.
  cbv zeta. unfold selected_theme.
  assert (H : In theme
                (sorted_str (filter is_theme_dir
                   (nodup str_eq_dec
                      (map (fun pf : rpath * file => fst (fst pf)) (pages w)))))
              <-> is_theme_dir theme = true /\
                  exists page f, In (page, f) (pages w) /\ fst page = theme).
  { unfold sorted_str. rewrite sorted_In, filter_In, nodup_In, in_map_iff.
    split.
    - intros [([p f] & Hp & Hin) Ht]. split; [exact Ht|]. now exists p, f.
    - intros [Ht (p & f & Hin & Hp)]. split; [|exact Ht]. now exists (p, f). }
  destruct themes as [[|t ts]|]; try (rewrite H; tauto).
  rewrite filter_In, H, in_strs_In. tauto.
Qed.

(** X17.  The mapping is sound and complete.  Each of its entries maps a
    theme and a source to a page of that theme, named [*.html], which
    links to that source, the source being a file of the theme; the theme
    is a directory named [NN-...] and one of the themes asked for; no key
    occurs twice.  And every source that a page of a selected theme links
    to, and that is there, has an entry. *)
Theorem build_mapping_sound_complete (themes : option (list str)) :
  NoDup (keys (build_mapping themes w)) /\
  (forall theme src page,
     In ((theme, src), page) (build_mapping themes w) ->
     selected_theme themes theme /\ links_to w theme src page) /\
  (forall theme src page,
     selected_theme themes theme -> links_to w theme src page ->
     exists page',
       lookup pair_eq_dec (theme, src) (build_mapping themes w) = Some page' /\
       links_to w theme src page').
Proof.
  pose proof (theme_dirs_In themes) as Hdirs. cbv zeta in Hdirs.
  unfold build_mapping. cbv zeta.
  match goal with
  | |- context [fold_left _ ?ds []] => set (dirs := ds) in *
  end.
  destruct (fold_pages_keys dirs []) as (K1 & _ & K3). cbv zeta in *.
  assert (Hsound : forall theme src page,
             In ((theme, src), page)
                (fold_left (fun m d => map_pages w d (theme_pages w d) m)
                   dirs []) ->
             selected_theme themes theme /\ links_to w theme src page).
  { intros theme src page Hin.
    apply fold_pages_sound in Hin as [[]|[H1 H2]]. simpl in *.
    split; [|exact H2]. apply Hdirs in H1. tauto. }
  split; [apply K1; constructor|]. split; [exact Hsound|].
  intros theme src page Hsel Hl.
  assert (Hin : In theme dirs).
  { apply Hdirs. split; [exact Hsel|].
    destruct Hl as (Ha & _ & _ & f & Hf & _). now exists page, f. }
  pose proof (K3 theme src page Hin Hl) as Hk.
  apply (lookup_some_In pair_eq_dec) in Hk as [page' Hp].
  exists page'. split; [exact Hp|].
  apply lookup_In in Hp. now apply Hsound in Hp.
Qed.
End MappingFacts.

Section SortedByKey.
Context {A : Type}.
Variable key : A -> str.

Lemma insert_sorted_key (x : A) (l : list A) :
  StronglySorted (fun a b => str_le (key a) (key b)) l ->
  StronglySorted (fun a b => str_le (key a) (key b))
    (insert_sorted key str_ltb x l).
Proof.
  induction 1 as [|y l Hs IH Hall]; simpl.
  - repeat constructor.
  - destruct (str_ltb (key x) (key y)) eqn:E.
    + constructor; [now constructor|].
      assert (Hxy : str_le (key x) (key y)) by (apply str_ltb_asym; exact E).
      constructor; [exact Hxy|].
      rewrite Forall_forall in *. intros z Hz.
      eapply str_le_trans; [exact Hxy | now apply Hall].
    + constructor; [exact IH|].
      rewrite Forall_forall in *. intros z Hz.
      apply (Permutation_in _
               (Permutation_sym (insert_sorted_perm key str_ltb x l))) in Hz.
      destruct Hz as [<-|Hz]; [exact E | now apply Hall].
Qed.

(** [sorted(l, key=key)] is in the order of the keys. *)
Lemma sorted_by_key (l : list A) :
  StronglySorted (fun a b => str_le (key a) (key b)) (sorted key str_ltb l).
Proof.
  unfold sorted.
  assert (H : forall acc,
              StronglySorted (fun a b => str_le (key a) (key b)) acc ->
              StronglySorted (fun a b => str_le (key a) (key b))
                (fold_left (fun acc x => insert_sorted key str_ltb x acc)
                           l acc)).
  { induction l as [|x l IH]; intros acc Hacc; simpl; [exact Hacc|].
    apply IH. now apply insert_sorted_key. }
  apply H. constructor.
Qed.

End SortedByKey.

Lemma sorted_before {A : Type} (R : A -> A -> Prop) (l1 l2 : list A) (x y : A) :
  StronglySorted R (l1 ++ x :: l2) -> In y l1 -> R y x.
Proof.
  induction l1 as [|a l1 IH]; simpl; [tauto|].
  intros Hs. inversion Hs as [|? ? Hs' Hall]; subst.
  intros [<-|Hy]; [|now apply IH].
  rewrite Forall_forall in Hall. apply Hall. apply in_or_app. right. now left.
Qed.

Section LastPageWins.
Context {RT : PyRuntime}.
Variable w : World.

Lemma map_pages_other (theme : str) (l : list (rpath * file))
    (mapping : list ((str * str) * rpath)) (key : str * str) :
  fst key <> theme ->
  lookup pair_eq_dec key (map_pages w theme l mapping)
  = lookup pair_eq_dec key mapping.
Proof.
  intros Hne. revert mapping; induction l as [|[p f] l IH]; intros mapping;
    simpl; [reflexivity|].
  rewrite IH. destruct (linked_source (f_text f)) as [src|]; [|reflexivity].
  destruct (sources w theme src); [|reflexivity].
  apply lookup_assign_other. intros ->. now apply Hne.
Qed.

(** The entry of a source after the pages of its theme: that of the last
    page of the list that links to it. *)
Lemma map_pages_last (theme src : str) (l : list (rpath * file))
    (mapping : list ((str * str) * rpath)) (page : rpath) :
  lookup pair_eq_dec (theme, src) (map_pages w theme l mapping) = Some page ->
  (lookup pair_eq_dec (theme, src) mapping = Some page /\
   forall p' f', In (p', f') l -> linked_source (f_text f') = Some src ->
                 sources w theme src = true -> False) \/
  exists l1 f l2,
    l = l1 ++ (page, f) :: l2 /\
    forall p' f', In (p', f') l2 -> linked_source (f_text f') = Some src ->
                  sources w theme src = true -> False.
Proof.
  revert mapping; induction l as [|[p f] l IH]; intros mapping; simpl.
  { intros H. left. split; [exact H | intros p' f' []]. }
  intros H. apply IH in H as [[H Hnone]|(l1 & f0 & l2 & -> & Hl2)].
  - destruct (linked_source (f_text f)) as [src'|] eqn:El.
    + destruct (sources w theme src') eqn:Es.
      * destruct (str_eq_dec src' src) as [->|Hne].
        -- rewrite lookup_assign_same in H. injection H as <-.
           right. exists [], f, l. split; [reflexivity | exact Hnone].
        -- rewrite lookup_assign_other in H by congruence.
           left. split; [exact H|].
           intros p' f' [[= <- <-]|Hin] Hl Hs; [congruence|].
           exact (Hnone p' f' Hin Hl Hs).
      * left. split; [exact H|].
        intros p' f' [[= <- <-]|Hin] Hl Hs; [congruence|].
        exact (Hnone p' f' Hin Hl Hs).
    + left. split; [exact H|].
      intros p' f' [[= <- <-]|Hin] Hl Hs; [congruence|].
      exact (Hnone p' f' Hin Hl Hs).
  - right. exists ((p, f) :: l1), f0, l2. split; [reflexivity | exact Hl2].
Qed.

Lemma fold_lookup_out (dirs : list str) (theme src : str)
    (mapping : list ((str * str) * rpath)) :
  ~ In theme dirs ->
  lookup pair_eq_dec (theme, src)
    (fold_left (fun m d => map_pages w d (theme_pages w d) m) dirs mapping)
  = lookup pair_eq_dec (theme, src) mapping.
Proof.
  revert mapping; induction dirs as [|d dirs IH]; intros mapping Hn; simpl;
    [reflexivity|].
  rewrite IH by (intros H; apply Hn; now right).
  apply map_pages_other. simpl. intros ->. apply Hn. now left.
Qed.

Lemma fold_lookup_in (dirs : list str) (theme src : str)
    (mapping : list ((str * str) * rpath)) :
  NoDup dirs -> In theme dirs ->
  exists m',
    lookup pair_eq_dec (theme, src) m'
    = lookup pair_eq_dec (theme, src) mapping /\
    lookup pair_eq_dec (theme, src)
      (fold_left (fun m d => map_pages w d (theme_pages w d) m) dirs mapping)
    = lookup pair_eq_dec (theme, src)
        (map_pages w theme (theme_pages w theme) m').
Proof.
  revert mapping; induction dirs as [|d dirs IH]; intros mapping Hnd Hin;
    [destruct Hin|].
  inversion Hnd as [|? ? Hd Hnd']; subst. simpl.
  destruct (str_eq_dec d theme) as [->|Hne].
  - exists mapping. split; [reflexivity|]. now apply fold_lookup_out.
  - destruct Hin as [Hin|Hin]; [contradiction|].
    destruct (IH (map_pages w d (theme_pages w d) mapping) Hnd' Hin)
      as (m' & H1 & H2).
    exists m'. split; [|exact H2]. rewrite H1.
    apply map_pages_other. simpl. congruence.
Qed.

(** X18.  When several pages of a theme link to the same source, the
    mapping keeps the one whose file name comes last in the order of the
    code points: the page mapped to a source is not before any page of
    the theme that links to that source. *)
Theorem last_page_wins (themes : option (list str)) (theme src : str)
    (page : rpath) :
  lookup pair_eq_dec (theme, src) (build_mapping themes w) = Some page ->
  forall page', links_to w theme src page' -> str_le (snd page') (snd page).
Proof.
  unfold build_mapping. cbv zeta.
  match goal with
  | |- context [fold_left _ ?ds []] => set (dirs := ds)
  end.
  assert (Hnd : NoDup dirs).
  { assert (H0 : NoDup (sorted_str (filter is_theme_dir
                   (nodup str_eq_dec
                      (map (fun pf : rpath * file => fst (fst pf))
                           (pages w)))))).
    { eapply Permutation_NoDup; [apply sorted_perm|].
      apply NoDup_filter, NoDup_nodup. }
    unfold dirs. destruct themes as [[|t ts]|]; try exact H0.
    now apply NoDup_filter. }
  intros Hl page' (Ha & Hb & Hc & f' & Hd & He).
  destruct (in_dec str_eq_dec theme dirs) as [Hin|Hout].
  2:{ rewrite fold_lookup_out in Hl by exact Hout. discriminate. }
  destruct (fold_lookup_in dirs theme src [] Hnd Hin) as (m' & H1 & H2).
  rewrite H2 in Hl.
  assert (Hp' : In (page', f') (theme_pages w theme))
    by (apply theme_pages_In; auto).
  apply map_pages_last in Hl as [[Hl _]|(l1 & f & l2 & El & Hl2)].
  - rewrite H1 in Hl. discriminate.
  - pose proof (sorted_by_key (fun pf : rpath * file => snd (fst pf))
                  (filter (fun pf : rpath * file =>
                     (if str_eq_dec (fst (fst pf)) theme then true else false)
                     && endswith (py ".html") (snd (fst pf))) (pages w)))
      as Hs.
    change (sorted _ str_ltb _) with (theme_pages w theme) in Hs.
    rewrite El in Hs, Hp'.
    apply in_app_iff in Hp' as [Hp'|[Hp'|Hp']].
    + exact (sorted_before _ _ _ _ _ Hs Hp').
    + injection Hp' as <- _. apply str_ltb_irrefl.
    + exfalso. exact (Hl2 page' f' Hp' He Hc).
Qed.
End LastPageWins.

(* ------------------------------------------------------------------ *)
(** ** The report *)

Lemma images_of_step (theme_stats : list (str * report_row))
    (result : conv_result) (ba : nat * nat) (theme : str) :
  images_of (stats_step theme_stats result ba) theme
  = images_of theme_stats theme
    + (if str_eq_dec (r_theme result) theme then get_num_images result else 0).
Proof.
  unfold stats_step, images_of.
  destruct (lookup str_eq_dec (r_theme result) theme_stats) as [s|] eqn:El.
  - rewrite El. destruct (str_eq_dec (r_theme result) theme) as [<-|Hne].
    + rewrite lookup_assign_same, El. reflexivity.
    + rewrite lookup_assign_other by congruence. lia.
  - rewrite lookup_assign_same.
    destruct (str_eq_dec (r_theme result) theme) as [<-|Hne].
    + rewrite lookup_assign_same, El. reflexivity.
    + rewrite !lookup_assign_other by congruence. lia.
Qed.

(** The results of a theme. *)
Lemma patch_all_images (E : Env) (dry_run : bool)
    (results : list conv_result)
    (theme_stats theme_stats' : list (str * report_row)) (w w' : World) :
  patch_all E dry_run results theme_stats w = Ok theme_stats' w' ->
  forall theme,
    images_of theme_stats' theme
    = images_of theme_stats theme
      + list_sum (map get_num_images
                    (filter (fun r => if str_eq_dec (r_theme r) theme
                                      then true else false) results)).
Proof.
  revert theme_stats w; induction results as [|r rs IH]; intros theme_stats w.
  - simpl. monad_unfold. intros [= <- <-] theme. simpl. lia.
  - rewrite patch_all_cons.
    destruct (update_reader_page (copy_error E) r dry_run w) as [ba w1|e w1];
      [|discriminate].
    intros H theme. rewrite (IH _ _ H), images_of_step. simpl.
    destruct (str_eq_dec (r_theme r) theme); simpl; lia.
Qed.

Lemma list_sum_cons (a : nat) (l : list nat) :
  list_sum (a :: l) = a + list_sum l.
Proof. reflexivity. Qed.

(** Summing theme by theme is summing over all, when each theme is
    counted once. *)
Lemma theme_sum_total {A : Type} (theme_of : A -> str) (g : A -> nat)
    (ks : list str) (l : list A) :
  NoDup ks -> (forall x, In x l -> In (theme_of x) ks) ->
  list_sum (map (fun k =>
                   list_sum (map g (filter (fun x =>
                      if str_eq_dec (theme_of x) k then true else false) l)))
                ks)
  = list_sum (map g l).
Proof.
  intros Hnd. induction l as [|x l IH]; intros Hin.
  - simpl. clear. induction ks; simpl; auto.
  - assert (Hsplit : forall ks',
              list_sum (map (fun k =>
                   list_sum (map g (filter (fun x0 =>
                      if str_eq_dec (theme_of x0) k then true else false)
                      (x :: l)))) ks')
              = list_sum (map (fun k => if str_eq_dec (theme_of x) k
                                        then g x else 0) ks')
                + list_sum (map (fun k =>
                     list_sum (map g (filter (fun x0 =>
                        if str_eq_dec (theme_of x0) k then true else false)
                        l))) ks')).
    { induction ks' as [|k ks' IHk]; [reflexivity|].
      rewrite !map_cons, !list_sum_cons, IHk. simpl.
      destruct (str_eq_dec (theme_of x) k); simpl; lia. }
    rewrite Hsplit, IH by (intros y Hy; apply Hin; now right). simpl.
    f_equal. specialize (Hin x (or_introl eq_refl)).
    clear -Hnd Hin. induction ks as [|k ks IH]; [contradiction|].
    inversion Hnd as [|? ? Hk Hnd']; subst. simpl.
    destruct (str_eq_dec (theme_of x) k) as [Heq|Hne].
    + subst k. assert (Hz : list_sum (map (fun k0 => if str_eq_dec (theme_of x) k0
                                            then g x else 0) ks) = 0).
      { clear -Hk. induction ks as [|a ks IHk]; [reflexivity|]. simpl.
        destruct (str_eq_dec (theme_of x) a) as [<-|];
          [exfalso; apply Hk; now left|].
        apply IHk. intros H. apply Hk. now right. }
      lia.
    + destruct Hin as [->|Hin]; [congruence|]. now rewrite IH.
Qed.

Lemma totals_column (proj : report_row -> nat)
    (theme_stats : list (str * report_row)) :
  (forall a b, proj (add_rows a b) = proj a + proj b) ->
  proj zero_row = 0 ->
  NoDup (keys theme_stats) ->
  proj (fold_left (fun total theme =>
                     match lookup str_eq_dec theme theme_stats with
                     | Some s => add_rows total s
                     | None => total
                     end)
                  (sorted_str (keys theme_stats)) zero_row)
  = column proj theme_stats.
Proof.
  intros Hadd Hzero Hnd.
  assert (Hfold : forall ks init,
            proj (fold_left (fun total theme =>
                     match lookup str_eq_dec theme theme_stats with
                     | Some s => add_rows total s
                     | None => total
                     end) ks init)
            = proj init
              + list_sum (map (fun k =>
                   match lookup str_eq_dec k theme_stats with
                   | Some s => proj s
                   | None => 0
                   end) ks)).
  { induction ks as [|k ks IH]; intros init; simpl; [lia|].
    rewrite IH. destruct (lookup str_eq_dec k theme_stats); [rewrite Hadd|];
      lia. }
  rewrite Hfold, Hzero. simpl.
  rewrite (list_sum_perm _ (map (fun k =>
              match lookup str_eq_dec k theme_stats with
              | Some s => proj s
              | None => 0
              end) (keys theme_stats))).
  2:{ apply Permutation_map, Permutation_sym, sorted_perm. }
  unfold column, values, keys. rewrite !map_map. f_equal.
  clear Hfold. induction theme_stats as [|[k v] d IH]; [reflexivity|].
  simpl in *. inversion Hnd as [|? ? Hk Hd]; subst.
  destruct (str_eq_dec k k); [|congruence]. f_equal.
  rewrite <- IH by exact Hd. apply map_ext_in. intros [k' v'] Hin. simpl.
  destruct (str_eq_dec k' k) as [->|]; [|reflexivity].
  exfalso. apply Hk. apply in_map_iff. now exists (k, v').
Qed.

Lemma column_by_keys (proj : report_row -> nat)
    (theme_stats : list (str * report_row)) :
  NoDup (keys theme_stats) ->
  column proj theme_stats
  = list_sum (map (fun k => match lookup str_eq_dec k theme_stats with
                            | Some s => proj s
                            | None => 0
                            end) (keys theme_stats)).
Proof.
  intros Hnd. unfold column, values, keys. rewrite !map_map. f_equal.
  induction theme_stats as [|[k v] d IH]; [reflexivity|].
  simpl in *. inversion Hnd as [|? ? Hk Hd]; subst.
  destruct (str_eq_dec k k); [|congruence]. f_equal.
  rewrite IH by exact Hd. apply map_ext_in. intros [k' v'] Hin. simpl.
  destruct (str_eq_dec k' k) as [->|]; [|reflexivity].
  exfalso. apply Hk. apply in_map_iff. now exists (k, v').
Qed.

Lemma files_of_rows (theme : str) (results : list conv_result) :
  files_of theme
    (map (fun r => mkFileRow (r_theme r) (r_source r) (r_reader_slug r)
                     (get_num_images r)) results)
  = map (fun r => mkFileRow (r_theme r) (r_source r) (r_reader_slug r)
                    (get_num_images r))
      (filter (fun r => if str_eq_dec (r_theme r) theme then true else false)
              results).
Proof.
  unfold files_of. induction results as [|r rs IH]; [reflexivity|]. simpl.
  destruct (str_eq_dec (r_theme r) theme); simpl; now rewrite IH.
Qed.

Lemma length_as_sum {A : Type} (l : list A) :
  length l = list_sum (map (fun _ => 1) l).
Proof. induction l; simpl; auto. Qed.

Section ReportFacts.
Context {RT : PyRuntime}.
Variable E : Env.

Lemma patch_and_report_accounts (dry_run : bool) (t : tally) (w w' : World)
    (jobs : nat) :
  t_results t <> [] ->
  t_errors t + t_skipped t + length (t_results t) = jobs ->
  patch_and_report E dry_run t w = Ok tt w' ->
  exists rep, report_json w' = Some rep /\ report_accounts dry_run jobs rep.
Proof.
  intros Hne Hjobs. unfold patch_and_report.
  destruct (t_results t) as [|r0 rs0] eqn:Et; [congruence|]. monad_unfold.
  set (rs := by_reader (r0 :: rs0)).
  destruct (patch_all E dry_run rs [] w) as [st w1|e w1] eqn:Ep;
    [|discriminate].
  unfold write_report. intros [= <-]. simpl.
  eexists. split; [reflexivity|].
  pose proof (patch_all_counts _ _ _ _ _ _ _ Ep) as (Hc & Hn & Hk).
  pose proof (patch_all_images _ _ _ _ _ _ _ Ep) as Hi.
  specialize (Hn (NoDup_nil _)).
  assert (Hlen : length rs = length (r0 :: rs0)).
  { symmetry. apply Permutation_length, sorted_perm. }
  assert (Hkeys : forall theme,
             In theme (keys st) <-> 0 < count_theme theme rs).
  { intros theme. split.
    - intros H. apply Hk in H as [[]|H]. exact H.
    - intros H. specialize (Hc theme). unfold updated_of in Hc.
      simpl lookup in Hc.
      destruct (lookup str_eq_dec theme st) eqn:El; [|lia].
      apply (lookup_some_In str_eq_dec). eauto. }
  assert (Hall : forall r, In r rs -> In (r_theme r) (keys st)).
  { intros r Hr. apply Hkeys. unfold count_theme.
    clear -Hr. induction rs as [|a l IH]; [contradiction|]. simpl.
    destruct Hr as [->|Hr].
    - destruct (str_eq_dec (r_theme r) (r_theme r)); [simpl; lia|congruence].
    - specialize (IH Hr).
      destruct (str_eq_dec (r_theme a) (r_theme r)); simpl; lia. }
  assert (Hsum : forall (proj : report_row -> nat) (g : conv_result -> nat),
             (forall theme,
                match lookup str_eq_dec theme st with
                | Some s => proj s
                | None => 0
                end
                = list_sum (map g (filter (fun r =>
                     if str_eq_dec (r_theme r) theme then true else false)
                     rs))) ->
             column proj st = list_sum (map g rs)).
  { intros proj g Hpg. rewrite column_by_keys by exact Hn.
    rewrite (map_ext _ _ Hpg).
    now apply (theme_sum_total r_theme g). }
  assert (Hupd : forall theme,
             match lookup str_eq_dec theme st with
             | Some s => row_updated s
             | None => 0
             end
             = list_sum (map (fun _ => 1) (filter (fun r =>
                  if str_eq_dec (r_theme r) theme then true else false) rs))).
  { intros theme. rewrite <- length_as_sum. specialize (Hc theme).
    unfold updated_of in Hc. simpl lookup in Hc. exact Hc. }
  assert (Himg : forall theme,
             match lookup str_eq_dec theme st with
             | Some s => row_images s
             | None => 0
             end
             = list_sum (map get_num_images (filter (fun r =>
                  if str_eq_dec (r_theme r) theme then true else false) rs))).
  { intros theme. specialize (Hi theme). unfold images_of in Hi.
    simpl lookup in Hi. exact Hi. }
  assert (Ht : forall proj,
             (forall a b, proj (add_rows a b) = proj a + proj b) ->
             proj zero_row = 0 ->
             proj (rep_totals (make_report dry_run st t)) = column proj st).
  { intros proj Ha Hz. unfold make_report. simpl.
    now apply totals_column. }
  assert (Hfiles : rep_files (make_report dry_run st t)
                   = map (fun r => mkFileRow (r_theme r) (r_source r)
                                     (r_reader_slug r) (get_num_images r)) rs).
  { unfold make_report. cbn [rep_files]. now rewrite Et. }
  unfold report_accounts. rewrite !Hfiles.
  change (rep_themes (make_report dry_run st t)) with st.
  change (rep_dry_run (make_report dry_run st t)) with dry_run.
  change (rep_errors (make_report dry_run st t)) with (t_errors t).
  change (rep_skipped_no_images (make_report dry_run st t))
    with (t_skipped t).
  split; [reflexivity|]. split.
  { rewrite length_map, Hlen. exact Hjobs. }
  split.
  { intros H. apply (f_equal (@length _)) in H.
    rewrite length_map, Hlen in H. discriminate. }
  split; [exact Hn|]. split.
  { intros theme. rewrite Hkeys, files_of_rows. unfold count_theme.
    destruct (filter _ rs); simpl; split; intros H; try lia; congruence. }
  split.
  { intros theme row Hl. rewrite files_of_rows, length_map, map_map. simpl.
    specialize (Hupd theme). specialize (Himg theme). rewrite Hl in Hupd, Himg.
    rewrite <- length_as_sum in Hupd. now split. }
  rewrite !Ht by (reflexivity || (intros a b; reflexivity)).
  rewrite length_map, map_map. simpl.
  split; [rewrite (Hsum _ _ Hupd); symmetry; apply length_as_sum|].
  split; [exact (Hsum _ _ Himg)|].
  repeat split.
Qed.

(** X19.  The report of a run accounts for every job.  A run that
    returns has either found no result with images, and then written no
    report, page or image; or written a report in which the errors, the
    jobs without images and the rows of [files] add up to the number of
    jobs, the theme table has one row for each theme that has a row in
    [files], each with the number of these rows and the sum of their
    image counts, and the totals are the sums of the columns of the theme
    table. *)
Theorem report_accounts_for_every_job (args : cli_args) (w w' : World)
    (work : list work_item) :
  work_list args w = inr work ->
  main E args w = Ok tt w' ->
  (report_json w' = report_json w /\ pages w' = pages w /\
   imgdirs w' = imgdirs w) \/
  exists rep,
    report_json w' = Some rep /\
    report_accounts (arg_dry_run args) (length work) rep.
Proof.
  intros Hw. unfold main. monad_unfold. rewrite Hw.
  destruct (arg_workers args <=? 0)%Z; [discriminate|].
  destruct (convert_all_dirs E (as_completed E work) (mkTally [] 0 0 0) w)
    as (t & w1 & X & Hc & _ & _ & _ & _ & _ & Hcnt & Hlen & _
        & Hp & _ & Hi & Hr & _).
  rewrite Hc. simpl in Hcnt, Hlen.
  assert (Hjobs : t_errors t + t_skipped t + length (t_results t)
                  = length work).
  { rewrite (Permutation_length (as_completed_perm E work)). lia. }
  destruct (t_results t) as [|r0 rs0] eqn:Et.
  - unfold patch_and_report. rewrite Et. intros [= <-]. left. auto.
  - intros H. right.
    apply (patch_and_report_accounts (arg_dry_run args) t w1 w' (length work));
      [congruence | now rewrite Et | exact H].
Qed.
End ReportFacts.

(* ------------------------------------------------------------------ *)
(** ** The body of the converter's output *)

Lemma rmatch_LitI (p s : str) (g : capture)
    (k : str -> capture -> option (str * capture)) :
  rmatch (LitI p) s g k
  = if starts_ci p s then k (skipn (length p) s) g else None.
Proof.
  revert s; induction p as [|x p IH]; intros s; simpl; [reflexivity|].
  destruct s as [|c s]; [reflexivity|].
  destruct (ci_eq x c); simpl; [apply IH | reflexivity].
Qed.

(** A lazy star over single characters stops at the first place where
    what follows matches. *)
Lemma lazy_first (a : re)
    (Ha : forall s g k,
        rmatch a s g k = match s with c :: s' => k s' g | [] => None end)
    (k : str -> capture -> option (str * capture)) (s : str) (g : capture)
    (x : str * capture) :
  rmatch (LazyStar a) s g k = Some x ->
  exists n, n <= length s /\ k (skipn n s) g = Some x /\
            forall j, j < n -> k (skipn j s) g = None.
Proof.
  simpl. generalize (length s) at 1. intros fuel. revert s.
  induction fuel as [|fuel IH]; intros s.
  - intros H. exists 0. split; [lia|]. split; [exact H | intros j Hj; lia].
  - destruct (k s g) eqn:Ek.
    + intros [= <-]. exists 0. split; [lia|]. split; [exact Ek|].
      intros j Hj; lia.
    + rewrite Ha. destruct s as [|c s]; [discriminate|].
      assert (Hlt : (length s <? length (c :: s)) = true)
        by (apply Nat.ltb_lt; simpl; lia).
      rewrite Hlt. intros H. apply IH in H as (n & Hn & Hk & Hmin).
      exists (S n). split; [simpl; lia|]. split; [exact Hk|].
      intros [|j] Hj; [exact Ek|]. apply Hmin. lia.
Qed.

Lemma search_at_split (r : re) (s : str) (pos : nat) (m : rmatched) :
  search_at r s pos = Some m ->
  exists p0 s0, s = p0 ++ s0 /\ match_here r s0 (pos + length p0) = Some m.
Proof.
  revert pos; induction s as [|c s IH]; intros pos; simpl.
  - destruct (match_here r [] pos) eqn:E; [|discriminate].
    intros [= <-]. exists [], []. split; [reflexivity|].
    now rewrite Nat.add_0_r.
  - destruct (match_here r (c :: s) pos) eqn:E.
    + intros [= <-]. exists [], (c :: s). split; [reflexivity|].
      now rewrite Nat.add_0_r.
    + intros H. apply IH in H as (p0 & s0 & -> & H).
      exists (c :: p0), s0. split; [reflexivity|].
      simpl. now rewrite Nat.add_succ_r.
Qed.

Lemma starts_ci_app (p s t : str) :
  starts_ci p s = true -> starts_ci p (s ++ t) = true.
Proof.
  revert s; induction p as [|x p IH]; intros [|c s]; simpl; try discriminate;
    try reflexivity.
  intros H. apply andb_true_iff in H as [H1 H2].
  now rewrite H1, IH.
Qed.

(** [lstrip] takes white space off the front, and nothing else. *)
Lemma lstrip_spec (s : str) :
  exists a, s = a ++ lstrip s /\
            forall c rest, lstrip s = c :: rest -> isspace c = false.
Proof.
  induction s as [|c s (a & Ha & Hs)]; simpl.
  - exists []. split; [reflexivity | discriminate].
  - destruct (isspace c) eqn:E.
    + exists (c :: a). split; [simpl; now f_equal | exact Hs].
    + exists []. split; [reflexivity|]. now intros c' rest [= <- _].
Qed.

Lemma strip_spec (s : str) :
  (exists a b, s = a ++ strip s ++ b) /\ stripped (strip s).
Proof.
  unfold strip.
  destruct (lstrip_spec s) as (a & Ha & Hfront).
  destruct (lstrip_spec (rev (lstrip s))) as (b & Hb & Hback).
  set (t := lstrip (rev (lstrip s))) in *.
  assert (Hl : lstrip s = rev t ++ rev b).
  { rewrite <- rev_app_distr, <- Hb. now rewrite rev_involutive. }
  split.
  - exists a, (rev b). now rewrite <- Hl.
  - split.
    + intros c rest E. destruct (rev t) as [|c' r'] eqn:Er; [discriminate|].
      injection E as -> ->. apply (Hfront c (rest ++ rev b)).
      rewrite Hl. reflexivity.
    + intros c rest E. apply (Hback c (rev rest)).
      rewrite <- (rev_involutive t), E, rev_app_distr. reflexivity.
Qed.

Section BodyFacts.
Context {RT : PyRuntime}.

(** What a match of the body pattern has taken: the group is a piece of
    the text in which no closing tag starts. *)
Lemma re_body_group (s : str) (pos : nat) (m : rmatched) :
  match_here re_body s pos = Some m ->
  exists pre raw post,
    s = pre ++ raw ++ post /\ m_group1 m = Some raw /\
    forall j, j < length raw ->
      starts_ci (py "</body>") (skipn j (raw ++ post)) = false.
Proof.
  unfold match_here.
  destruct (rmatch re_body s None _) as [[s' g]|] eqn:E; [|discriminate].
  intros [= <-]. cbn [m_group1]. unfold re_body in E.
  change (rmatch (Seq ?a ?b) ?s ?g ?k)
    with (rmatch a s g (fun s1 g1 => rmatch b s1 g1 k)) in E.
  apply rmatch_sound in E as (s1 & g1 & p1 & E & ->).
  change (rmatch (Seq ?a ?b) ?s ?g ?k)
    with (rmatch a s g (fun s1 g1 => rmatch b s1 g1 k)) in E.
  apply rmatch_sound in E as (s2 & g2 & p2 & E & ->).
  change (rmatch (Seq ?a ?b) ?s ?g ?k)
    with (rmatch a s g (fun s1 g1 => rmatch b s1 g1 k)) in E.
  apply rmatch_sound in E as (s3 & g3 & p3 & E & ->).
  change (rmatch (Seq ?a ?b) ?s ?g ?k)
    with (rmatch a s g (fun s1 g1 => rmatch b s1 g1 k)) in E.
  change (rmatch (Group ?a) ?s ?g ?k)
    with (rmatch a s g
            (fun s' _ => k s' (Some (firstn (length s - length s') s)))) in E.
  apply (lazy_first Any (fun _ _ _ => eq_refl)) in E as (n & Hn & Hk & Hmin).
  rewrite rmatch_LitI in Hk.
  destruct (starts_ci (py "</body>") (skipn n s3)) eqn:Ec; [|discriminate].
  injection Hk as <- <-.
  rewrite length_skipn.
  replace (length s3 - (length s3 - n)) with n by lia.
  exists (p1 ++ p2 ++ p3), (firstn n s3), (skipn n s3).
  split; [now rewrite firstn_skipn, <- !app_assoc|]. split; [reflexivity|].
  intros j Hj. rewrite firstn_skipn. rewrite length_firstn in Hj.
  specialize (Hmin j ltac:(lia)). rewrite rmatch_LitI in Hmin.
  destruct (starts_ci (py "</body>") (skipn j s3)); [discriminate|reflexivity].
Qed.

(** X20.  [extract_lo_body] returns a piece of the text it is given.
    When the text has a body element, the piece is what lies between the
    opening tag and the first closing tag behind it, in whatever letter
    case the tags are written, without the white space at its ends: no
    closing tag starts inside it, and it neither begins nor ends with
    white space. *)
Theorem extract_lo_body_piece (content : str) :
  (exists a b, content = a ++ extract_lo_body content ++ b) /\
  (re_search re_body content <> None ->
   stripped (extract_lo_body content) /\
   forall j, j < length (extract_lo_body content) ->
     starts_ci (py "</body>") (skipn j (extract_lo_body content)) = false).
Proof.
  unfold extract_lo_body, re_search.
  destruct (search_at re_body content 0) as [m|] eqn:E.
  2:{ split; [exists [], []; now rewrite app_nil_r | congruence]. }
  apply search_at_split in E as (p0 & s0 & -> & E).
  apply re_body_group in E as (pre & raw & post & -> & -> & Hno).
  destruct (strip_spec raw) as [(a & b & Hraw) Hst].
  split.
  - exists (p0 ++ pre ++ a), (b ++ post).
    rewrite Hraw at 1. now rewrite <- !app_assoc.
  - intros _. split; [exact Hst|].
    intros j Hj.
    destruct (starts_ci (py "</body>") (skipn j (strip raw))) eqn:Ec;
      [|reflexivity].
    exfalso.
    assert (Hlen : length a + j < length raw).
    { rewrite Hraw at 1. rewrite !length_app. lia. }
    specialize (Hno (length a + j) Hlen).
    rewrite Hraw in Hno at 1. rewrite <- !app_assoc in Hno.
    replace (length a + j) with (j + length a) in Hno by lia.
    rewrite <- skipn_skipn, skipn_length_app in Hno.
    rewrite skipn_app in Hno.
    rewrite (starts_ci_app _ _ _ Ec) in Hno. discriminate.
Qed.
End BodyFacts.

(* ------------------------------------------------------------------ *)
(** ** Sizes for the console *)

Lemma round_tenths_near (num den : Z) :
  (0 < den)%Z ->
  (0 <= round_tenths num den)%Z /\
  (2 * Z.abs (10 * Z.abs num - round_tenths num den * den) <= den)%Z.
Proof.
  intros Hd. unfold round_tenths. cbv zeta.
  pose proof (Z.div_mod (10 * Z.abs num) den ltac:(lia)) as Hdm.
  pose proof (Z.mod_pos_bound (10 * Z.abs num) den Hd) as Hr.
  assert (Hq : (0 <= 10 * Z.abs num / den)%Z)
    by (apply Z.div_pos; lia).
  set (q := (10 * Z.abs num / den)%Z) in *.
  set (r := ((10 * Z.abs num) mod den)%Z) in *.
  destruct (2 * r <? den)%Z eqn:E1.
  - apply Z.ltb_lt in E1. split; [lia|]. nia.
  - apply Z.ltb_ge in E1. destruct (den <? 2 * r)%Z eqn:E2.
    + apply Z.ltb_lt in E2. split; [lia|]. nia.
    + apply Z.ltb_ge in E2. destruct (Z.even q); split; try lia; nia.
Qed.

(** X21.  [format_size] prints a size below [2^53] bytes in the first of
    the units B, KB, MB, GB in which its value is below 1024, and in TB
    when there is none: the number printed has one decimal and is the
    value in that unit to the nearest tenth, with a minus sign for a
    negative size.  A size from 0 to 1023 is printed as it is, with [.0 B]
    behind it. *)
Theorem format_size_rounds (nbytes : Z) :
  (Z.abs nbytes < 2 ^ 53)%Z ->
  (exists (k : nat) (t : Z),
     k <= 4 /\
     format_size nbytes
     = (if (nbytes <? 0)%Z then py "-" else [])
       ++ fmt_int (t / 10) ++ py "." ++ fmt_int (t mod 10)
       ++ py " " ++ size_unit k /\
     (0 <= t)%Z /\
     (2 * Z.abs (10 * Z.abs nbytes - t * 1024 ^ Z.of_nat k)
      <= 1024 ^ Z.of_nat k)%Z /\
     (0 < k -> (1024 ^ Z.of_nat k <= Z.abs nbytes)%Z) /\
     (k < 4 -> (Z.abs nbytes < 1024 ^ Z.of_nat (S k))%Z)) /\
  ((0 <= nbytes < 1024)%Z ->
   format_size nbytes = fmt_int nbytes ++ py ".0 B").
Proof.
  intros _. split.
  - assert (Hgen : forall k units den,
               k <= 4 -> den = (1024 ^ Z.of_nat k)%Z ->
               units = skipn k ["B"; "KB"; "MB"; "GB"]%string ->
               (0 < k -> (den <= Z.abs nbytes)%Z) ->
               exists (k' : nat) (t : Z),
                 k' <= 4 /\
                 format_units units nbytes den
                 = (if (nbytes <? 0)%Z then py "-" else [])
                   ++ fmt_int (t / 10) ++ py "." ++ fmt_int (t mod 10)
                   ++ py " " ++ size_unit k' /\
                 (0 <= t)%Z /\
                 (2 * Z.abs (10 * Z.abs nbytes - t * 1024 ^ Z.of_nat k')
                  <= 1024 ^ Z.of_nat k')%Z /\
                 (0 < k' -> (1024 ^ Z.of_nat k' <= Z.abs nbytes)%Z) /\
                 (k' < 4 -> (Z.abs nbytes < 1024 ^ Z.of_nat (S k'))%Z)).
    { intros k. remember (4 - k) as m eqn:Em. revert k Em.
      induction m as [|m IH]; intros k Em units den Hk Hden Hunits Hlow.
      - assert (k = 4) by lia. subst k. subst units.
        cbn [skipn format_units].
        destruct (round_tenths_near nbytes den) as [Ht Hn]; [subst; lia|].
        exists 4, (round_tenths nbytes den).
        split; [lia|]. split.
        { unfold fmt_1f. cbv zeta. now rewrite <- !app_assoc. }
        split; [exact Ht|]. split; [now rewrite <- Hden|].
        split; [intros _; rewrite <- Hden; apply Hlow; lia | lia].
      - assert (Hu : exists unit rest,
                  units = unit :: rest /\
                  rest = skipn (S k) ["B"; "KB"; "MB"; "GB"]%string /\
                  py unit = size_unit k).
        { subst units. assert (Hk4 : k < 4) by lia.
          destruct k as [|[|[|[|k]]]]; try lia; eexists _, _;
            repeat split. }
        destruct Hu as (unit & rest & -> & Hrest & Hunit).
        cbn [format_units].
        assert (Hpow : (1024 ^ Z.of_nat (S k) = 1024 * den)%Z).
        { rewrite Nat2Z.inj_succ, Z.pow_succ_r by lia. now rewrite Hden. }
        destruct (Z.abs nbytes <? 1024 * den)%Z eqn:E.
        + apply Z.ltb_lt in E.
          destruct (round_tenths_near nbytes den) as [Ht Hn]; [subst; lia|].
          exists k, (round_tenths nbytes den).
          split; [lia|]. split.
          { unfold fmt_1f. cbv zeta. rewrite Hunit.
            now rewrite <- !app_assoc. }
          split; [exact Ht|]. split; [now rewrite <- Hden|].
          split; [intros H; rewrite <- Hden; now apply Hlow|].
          intros _. now rewrite Hpow.
        + apply Z.ltb_ge in E.
          apply (IH (S k)); [lia | lia | | exact Hrest | intros _; exact E].
          rewrite Hpow. now rewrite Hden. }
    apply (Hgen 0); try reflexivity; lia.
  - intros Hn. unfold format_size. cbn [format_units].
    assert (E : (Z.abs nbytes <? 1024 * 1)%Z = true)
      by (apply Z.ltb_lt; lia).
    rewrite E. unfold fmt_1f. cbv zeta.
    assert (Ht : round_tenths nbytes 1 = (nbytes * 10)%Z).
    { unfold round_tenths. cbv zeta.
      rewrite Z.div_1_r, Z.mod_1_r. change (2 * 0 <? 1)%Z with true.
      cbv iota. rewrite Z.abs_eq by lia. apply Z.mul_comm. }
    assert (Hneg : (nbytes <? 0)%Z = false) by (apply Z.ltb_ge; lia).
    rewrite Ht, Hneg, Z.div_mul, Z.mod_mul by lia.
    cbn [app]. now rewrite <- app_assoc.
Qed.

Lemma fresh_name_not_empty (worker_id : Z) (live : list str) :
  fresh_name worker_id live <> [].
Proof.
  unfold fresh_name. discriminate.
Qed.


(* ------------------------------------------------------------------ *)
(** ** The theorems at work on the examples *)

Lemma bare_result_present :
  all_present photo_world (get_image_files bare_result).
Proof.
  intros src name [[= <- <-]|[]]. vm_compute. discriminate.
Qed.

Lemma update_reader_page_contained_witness :
  lookup rpath_eq_dec (r_reader bare_result) (pages photo_world)
  = Some (linked_page "letter.docx") /\
  f_strict (linked_page "letter.docx") = true /\
  r_body_html bare_result = Some (py "<p>hello</p>") /\
  f_bytes (linked_page "letter.docx")
  = utf8_encode (f_text (linked_page "letter.docx")) /\
  exists n w',
    update_reader_page (fun _ _ _ => None) bare_result false photo_world
    = Ok (f_size (linked_page "letter.docx"), utf8_len patched_letter + n) w' /\
    lookup rpath_eq_dec demo_page (pages w') = Some (text_file patched_letter) /\
    contained_patch (linked_page "letter.docx") (text_file patched_letter).
Proof.
  assert (Hby : f_bytes (linked_page "letter.docx")
                = utf8_encode (f_text (linked_page "letter.docx")))
    by (vm_compute; reflexivity).
  split; [reflexivity|]. split; [reflexivity|]. split; [reflexivity|].
  split; [exact Hby|].
  pose proof (update_reader_page_contained (fun _ _ _ => None) bare_result
                photo_world (linked_page "letter.docx") (py "<p>hello</p>")
                eq_refl eq_refl eq_refl bare_result_present
                (fun _ _ _ => eq_refl)) as H.
  cbv zeta in H.
  destruct (splice (f_text (linked_page "letter.docx")) (py "<p>hello</p>"))
    as [x|new_content] eqn:Es; [vm_compute in Es; discriminate Es|].
  destruct H as (open_idx & close_idx & n & w' & Hu & _ & _ & _ & _ & _ & _
                 & _ & _ & _ & _ & Hcont).
  assert (Hn : new_content = patched_letter).
  { vm_compute in Es. injection Es as <-. vm_compute. reflexivity. }
  subst new_content.
  assert (He : encodable patched_letter = true) by (vm_compute; reflexivity).
  rewrite He in Hu. destruct Hu as [Hu Hpage].
  exists n, w'. split; [exact Hu|]. split; [exact Hpage|].
  exact (proj2 (Hcont Hby)).
Defined.

Lemma splice_region_located_witness :
  lookup rpath_eq_dec (r_reader bare_result) (pages photo_world)
  = Some (linked_page "letter.docx") /\
  f_strict (linked_page "letter.docx") = true /\
  r_body_html bare_result = Some (py "<p>hello</p>") /\
  locate_close (f_text (linked_page "letter.docx")) (length open_tag)
  = Some (length open_tag + 3) /\
  ~ fallback_taken (f_text (linked_page "letter.docx")) (length open_tag).
Proof.
  split; [reflexivity|]. split; [reflexivity|]. split; [reflexivity|].
  pose proof (splice_region_located (fun _ _ _ => None) bare_result
                photo_world (linked_page "letter.docx") (py "<p>hello</p>")
                eq_refl eq_refl eq_refl) as H.
  cbv zeta in H.
  destruct (find open_tag (f_text (linked_page "letter.docx")) 0)
    as [open_idx|] eqn:Eo; [|vm_compute in Eo; discriminate Eo].
  assert (open_idx = 0) as ->
    by (vm_compute in Eo; injection Eo as <-; reflexivity).
  destruct H as (_ & _ & Hfb & _).
  change (0 + length open_tag) with 28 in Hfb.
  change (length open_tag) with 28.
  split; [vm_compute; reflexivity|].
  intros Hf. apply Hfb in Hf as [Hf|(fl & Hf & Hno)].
  - vm_compute in Hf. discriminate Hf.
  - vm_compute in Hf. injection Hf as <-.
    apply (Hno 31); [lia | vm_compute; lia |].
    split; vm_compute; [lia | reflexivity].
Defined.

Lemma dry_run_estimates_only_witness :
  lookup rpath_eq_dec (r_reader bare_result) (pages photo_world)
  = Some (linked_page "letter.docx") /\
  all_present photo_world (get_image_files bare_result) /\
  update_reader_page (copy_error (calm_env (fun _ => LoTimeout)))
    bare_result true photo_world
  = Ok (f_size (linked_page "letter.docx"),
        f_size (linked_page "letter.docx") + utf8_len (py "<p>hello</p>") + 10)
       photo_world.
Proof.
  split; [reflexivity|]. split; [exact bare_result_present|].
  exact (proj1 (proj2 (@dry_run_estimates_only plain_runtime
                         (calm_env (fun _ => LoTimeout))
                         bare_result (mkTally [] 0 0 0) two_workers
                         photo_world))
           (linked_page "letter.docx") eq_refl eq_refl bare_result_present).
Defined.

Lemma no_image_loss_witness :
  exists ba w1,
    update_reader_page (copy_error (calm_env (fun _ => LoTimeout)))
      bare_result false photo_world = Ok ba w1 /\
    stdout w1 = stdout photo_world /\
    img_file w1 (img_dir_of bare_result) (py "img001.png")
    = Some image_stub.
Proof.
  eexists _, _. split; [vm_compute; reflexivity|]. split; [reflexivity|].
  destruct (proj2 (proj2 (proj2 (proj2
              (@no_image_loss plain_runtime (calm_env (fun _ => LoTimeout))))))
              bare_result photo_world _ _ eq_refl eq_refl
              (py "/tmp/lo_conv_0_x", py "a.png") (py "img001.png")
              (or_introl eq_refl))
    as (src' & x & Hin & Hx & Himg).
  destruct Hin as [[= <-]|[]]. vm_compute in Hx. injection Hx as <-.
  exact Himg.
Defined.

Lemma convert_one_outcome_witness :
  soffice worker_one_fails second_item = LoTimeout /\
  (exists result w',
     @convert_one plain_runtime worker_one_fails second_item two_page_world
     = Ok result w' /\
     one_outcome result /\
     r_error result = Some (py "Timeout after 60s")) /\
  soffice text_only second_item
  = LoExit 0 [] [(py "out.html", text_file [])] /\
  (exists result w',
     @convert_one plain_runtime text_only second_item two_page_world
     = Ok result w' /\
     one_outcome result /\
     r_skipped result = true /\ r_error result = None /\
     get_image_files result = []).
Proof.
  split; [reflexivity|]. split.
  - destruct (@convert_one_outcome plain_runtime worker_one_fails second_item
                two_page_world) as (result & w' & Hc & Hone & _ & Ht & _).
    exists result, w'. split; [exact Hc|]. split; [exact Hone|].
    exact (Ht eq_refl).
  - split; [reflexivity|].
    destruct (@convert_one_outcome plain_runtime text_only second_item
                two_page_world)
      as (result & w' & Hc & Hone & _ & _ & _ & Hexit).
    exists result, w'. split; [exact Hc|]. split; [exact Hone|].
    destruct (Hexit 0%Z [] [(py "out.html", text_file [])] eq_refl)
      as [_ Hzero].
    destruct (Hzero eq_refl) as (_ & Hskip & _).
    apply Hskip.
    + exists (py "out.html"). split; [now left | reflexivity].
    + intros name [<-|[]]. reflexivity.
Defined.

Lemma convertible_sources_only_witness :
  arg_workers two_workers <> 0%Z /\
  exists work,
    @work_list plain_runtime two_workers two_page_world = inr work /\
    forall wk, In wk work -> path_suffix (wk_source wk) <> py ".pdf".
Proof.
  split; [discriminate|].
  destruct (@convertible_sources_only plain_runtime two_workers two_page_world)
    as (_ & Hrun & _ & Hspec).
  destruct (Hrun ltac:(discriminate)) as [work Hw].
  exists work. split; [exact Hw|].
  intros wk Hin. exact (proj2 (proj2 (Hspec work Hw) wk Hin)).
Defined.

Lemma updated_counts_every_result_witness :
  t_results (mkTally [bare_result] 0 0 1) <> [] /\
  exists w' rep,
    patch_and_report (calm_env (fun _ => LoTimeout)) false
      (mkTally [bare_result] 0 0 1) bare_world = Ok tt w' /\
    report_json w' = Some rep /\
    row_updated (rep_totals rep) = 1 /\
    pages w' = pages bare_world.
Proof.
  split; [discriminate|].
  set (E := calm_env (fun _ => LoTimeout)).
  set (t := mkTally [bare_result] 0 0 1).
  assert (Hrun : patch_and_report E false t bare_world
                 = Ok tt (world_of (patch_and_report E false t bare_world)))
    by (vm_compute; reflexivity).
  assert (Hne : t_results t <> []) by discriminate.
  destruct (proj1 updated_counts_every_result E false t bare_world _ Hne Hrun)
    as (rep & Hr & Hu & _).
  exists (world_of (patch_and_report E false t bare_world)), rep.
  split; [exact Hrun|]. split; [exact Hr|]. split; [exact Hu|].
  vm_compute. reflexivity.
Defined.

Lemma rename_map_deterministic_witness :
  @html_feed letter_runtime letter_fragment = inr letter_events /\
  NoDup letter_images /\
  Permutation letter_images (rev letter_images) /\
  @clean_lo_html letter_runtime letter_fragment letter_images (py "letter")
  = inr (letter_cleaned,
         [(py "picture1.jpg", py "img001.jpg");
          (py "picture2.png", py "img002.png")]) /\
  @clean_lo_html letter_runtime letter_fragment (rev letter_images)
    (py "letter")
  = @clean_lo_html letter_runtime letter_fragment letter_images (py "letter")
  /\
  [(py "picture1.jpg", py "img001.jpg"); (py "picture2.png", py "img002.png")]
  = numbered 1 (sorted_str letter_images).
Proof.
  assert (Hfeed : @html_feed letter_runtime letter_fragment
                  = inr letter_events) by reflexivity.
  assert (Hnd : NoDup letter_images).
  { constructor; [intros [H|[]]; vm_compute in H; discriminate H|].
    constructor; [intros []|constructor]. }
  assert (Hp : Permutation letter_images (rev letter_images))
    by apply perm_swap.
  destruct rename_map_deterministic as (Hmap & _ & _ & Hperm & Hletter).
  pose proof (Hletter letter_runtime Hfeed) as Hc.
  split; [exact Hfeed|]. split; [exact Hnd|]. split; [exact Hp|].
  split; [exact Hc|]. split.
  - symmetry. exact (Hperm letter_runtime _ _ _ _ Hp).
  - exact (proj2 (Hmap letter_runtime _ _ _ _ _ Hc) Hnd).
Defined.

Lemma marked_pages_left_alone_witness :
  let w1 := world_of (@main plain_runtime worker_one_fails two_workers
                        two_page_world) in
  let w2 := world_of (@main plain_runtime worker_one_fails two_workers w1) in
  arg_force two_workers = false /\
  lookup rpath_eq_dec (py "01-letters", py "a.html") (pages two_page_world)
  = Some (linked_page "a.doc") /\
  exists f1,
    lookup rpath_eq_dec (py "01-letters", py "a.html") (pages w1) = Some f1 /\
    f1 <> linked_page "a.doc" /\
    marked f1 /\
    lookup rpath_eq_dec (py "01-letters", py "a.html") (pages w2) = Some f1.
Proof.
  intros w1 w2. split; [reflexivity|]. split; [reflexivity|].
  destruct (lookup rpath_eq_dec (py "01-letters", py "a.html") (pages w1))
    as [f1|] eqn:E1; [|vm_compute in E1; discriminate E1].
  exists f1. split; [reflexivity|].
  assert (Hne : f1 <> linked_page "a.doc").
  { intros ->. vm_compute in E1. discriminate E1. }
  split; [exact Hne|].
  destruct (proj1 (proj2 (proj2 (proj2 (proj2
              (@marked_pages_left_alone plain_runtime)))))
              worker_one_fails worker_one_fails two_workers two_workers
              two_page_world (py "01-letters", py "a.html")
              (linked_page "a.doc") f1 eq_refl eq_refl E1 Hne)
    as [[Hm H]|[Hf _]].
  - split; [exact Hm | exact H].
  - exfalso. subst f1. vm_compute in E1. discriminate E1.
Defined.

Lemma new_name_keeps_suffix_witness :
  lookup str_eq_dec (py "picture1.jpg") (build_img_map letter_images)
  = Some (py "img001.jpg") /\
  path_suffix (py "img001.jpg") = py ".jpg".
Proof.
  assert (H : lookup str_eq_dec (py "picture1.jpg") (build_img_map letter_images)
              = Some (py "img001.jpg")) by (vm_compute; reflexivity).
  split; [exact H|].
  destruct (new_name_keeps_suffix letter_images _ _ H) as (_ & _ & E & _).
  exact E.
Defined.

Lemma foreign_images_untouched_witness :
  @rewrite_images plain_runtime (build_img_map [py "a.png"]) (py "letter")
    (pyq "<p><img src=`b.png`></p>")
  = inr (pyq "<p><img src=`b.png`></p>").
Proof.
  apply (@foreign_images_untouched plain_runtime).
  intros m name [<-|[]]. vm_compute. intros [= <-]. reflexivity.
Defined.

Lemma clean_lo_html_returns_witness :
  @html_feed letter_runtime letter_fragment = inr letter_events /\
  (exists cleaned,
     @clean_lo_html letter_runtime letter_fragment letter_images (py "letter")
     = inr (cleaned, build_img_map letter_images)) /\
  @html_feed letter_runtime odd_section = inl odd_section_error /\
  @clean_lo_html letter_runtime odd_section letter_images (py "letter")
  = inl odd_section_error.
Proof.
  split; [reflexivity|]. split; [|split; [reflexivity|]].
  - apply (proj2 (@clean_lo_html_returns letter_runtime letter_fragment
                    letter_images (py "letter")) letter_events).
    + reflexivity.
    + reflexivity.
    + intros name [<-|[<-|[]]]; reflexivity.
  - apply (proj1 (@clean_lo_html_returns letter_runtime odd_section
                    letter_images (py "letter"))).
    reflexivity.
Defined.

Lemma format_size_rounds_witness :
  format_size 1536 = py "1.5 KB" /\ format_size 512 = py "512.0 B".
Proof.
  split; [vm_compute; reflexivity|].
  destruct (format_size_rounds 512) as [_ H]; [vm_compute; reflexivity|].
  rewrite H by lia. vm_compute. reflexivity.
Defined.

Lemma new_names_distinct_witness :
  let img_map := [(py "picture1.jpg", py "img001.jpg");
                  (py "picture2.png", py "img002.png")] in
  @clean_lo_html letter_runtime letter_fragment letter_images (py "letter")
  = inr (letter_cleaned, img_map) /\
  NoDup (keys img_map) /\ NoDup (values img_map) /\
  forall b, lookup str_eq_dec b img_map = Some (py "img002.png") ->
            py "picture2.png" = b.
Proof.
  intros img_map.
  assert (Hc : @clean_lo_html letter_runtime letter_fragment letter_images
                 (py "letter") = inr (letter_cleaned, img_map))
    by (vm_compute; reflexivity).
  destruct (@new_names_distinct letter_runtime _ _ _ _ _ Hc)
    as (Hk & Hv & _ & Hinj).
  split; [exact Hc|]. split; [exact Hk|]. split; [exact Hv|].
  intros b Hb.
  exact (Hinj (py "picture2.png") b (py "img002.png") eq_refl Hb).
Defined.

Lemma patched_page_patchable_witness :
  splice (f_text (linked_page "letter.docx")) (py "<p>hello</p>")
  = inr patched_letter /\
  exists new2,
    splice patched_letter (py "<p>bye</p>") = inr new2 /\
    find open_tag patched_letter 0 = Some 0.
Proof.
  assert (H : splice (f_text (linked_page "letter.docx")) (py "<p>hello</p>")
              = inr patched_letter) by (vm_compute; reflexivity).
  split; [exact H|].
  destruct (patched_page_patchable _ _ (py "<p>bye</p>") _ H)
    as (new2 & open_idx & H2 & Ho & Ho' & _).
  exists new2. split; [exact H2|].
  vm_compute in Ho. injection Ho as <-. exact Ho'.
Defined.

Lemma repatch_replaces_fragment_witness :
  splice (f_text (linked_page "letter.docx")) (py "<p>hello</p>")
  = inr patched_letter /\
  splice patched_letter (py "<p>bye</p>")
  = splice (f_text (linked_page "letter.docx")) (py "<p>bye</p>") /\
  splice patched_letter (py "<p>hello</p>") = inr patched_letter.
Proof.
  assert (H : splice (f_text (linked_page "letter.docx")) (py "<p>hello</p>")
              = inr patched_letter) by (vm_compute; reflexivity).
  split; [exact H|].
  apply (repatch_replaces_fragment _ _ (py "<p>bye</p>") _ 0 H).
  - vm_compute. reflexivity.
  - vm_compute. reflexivity.
  - left. unfold fallback_taken. vm_compute. discriminate.
Defined.

Lemma update_reader_page_errors_witness :
  lookup rpath_eq_dec (r_reader bare_result) (pages no_pages) = None /\
  update_reader_page refused bare_result true no_pages
  = Raised FileNotFoundError no_pages /\
  update_reader_page refused bare_result false undecodable_world
  = Raised UnicodeDecodeError undecodable_world /\
  encodable (body_of latin1_result) = false /\
  update_reader_page refused latin1_result true latin1_world
  = Raised UnicodeEncodeError latin1_world /\
  ~ all_present demo_world (get_image_files bare_result) /\
  update_reader_page refused bare_result true demo_world
  = Raised FileNotFoundError demo_world.
Proof.
  assert (Hn : ~ all_present demo_world (get_image_files bare_result)).
  { intros H. apply (H (py "/tmp/lo_conv_0_x", py "a.png") (py "img001.png"));
      [now left | reflexivity]. }
  split; [reflexivity|]. split; [|split; [|split; [reflexivity|split]]].
  - exact (proj1 (update_reader_page_errors refused bare_result no_pages)
             eq_refl true).
  - exact (proj1 (proj2 (update_reader_page_errors refused bare_result
                           undecodable_world)
                    (mkFile [255%N] [65533%N] false) eq_refl) eq_refl).
  - exact (proj1 (proj2 (proj2
             (proj2 (update_reader_page_errors refused latin1_result
                       latin1_world)
                (linked_page "letter.docx") eq_refl))) eq_refl).
  - split; [exact Hn|].
    exact (proj2 (proj2 (proj2
             (proj2 (update_reader_page_errors refused bare_result
                       demo_world)
                (text_file (open_tag ++ py "text" ++ close_div)) eq_refl)))
             Hn).
Defined.

Lemma failed_patch_writes_no_page_witness :
  (exists e w',
     update_reader_page refused bare_result false photo_world = Raised e w' /\
     imgdirs w' <> imgdirs photo_world /\
     pages w' = pages photo_world) /\
  (exists w',
     update_reader_page (fun _ _ _ => None) latin1_result false latin1_world
     = Raised UnicodeEncodeError w' /\
     lookup rpath_eq_dec latin1_page (pages w') = Some empty_file /\
     tmpdirs w' = tmpdirs latin1_world).
Proof.
  split.
  - assert (H : update_reader_page refused bare_result false photo_world
                = Raised (Exception "PermissionError" [])
                    (world_of (update_reader_page refused bare_result false
                                 photo_world)))
      by (vm_compute; reflexivity).
    eexists _, _. split; [exact H|]. split.
    + vm_compute. discriminate.
    + destruct (failed_patch_writes_no_page _ _ _ _ _ _ H)
        as (_ & _ & _ & _ & _ & _ & [Hp|[He _]] & _);
        [exact Hp | discriminate He].
  - assert (H : update_reader_page (fun _ _ _ => None) latin1_result false
                  latin1_world
                = Raised UnicodeEncodeError
                    (world_of (update_reader_page (fun _ _ _ => None)
                                 latin1_result false latin1_world)))
      by (vm_compute; reflexivity).
    eexists. split; [exact H|]. split; [vm_compute; reflexivity|].
    exact (proj1 (proj2 (failed_patch_writes_no_page _ _ _ _ _ _ H))).
Defined.

Lemma images_only_added_witness :
  ~ In (py "other.png") (map snd (get_image_files bare_result)) /\
  img_file (world_of (update_reader_page (fun _ _ _ => None) bare_result
                        false photo_world))
    (img_dir_of bare_result) (py "other.png")
  = img_file photo_world (img_dir_of bare_result) (py "other.png").
Proof.
  assert (H : ~ In (py "other.png") (map snd (get_image_files bare_result))).
  { intros [H|[]]. vm_compute in H. discriminate H. }
  split; [exact H|].
  exact (proj2 (images_only_added (fun _ _ _ => None) bare_result false
                  photo_world (img_dir_of bare_result) (py "other.png"))
           (or_intror H)).
Defined.

Lemma images_copied_faithfully_witness :
  NoDup (map snd (get_image_files bare_result)) /\
  exists ba w1,
    update_reader_page (fun _ _ _ => None) bare_result false photo_world
    = Ok ba w1 /\
    img_file w1 (img_dir_of bare_result) (py "img001.png")
    = tmp_file (py "/tmp/lo_conv_0_x", py "a.png") photo_world /\
    snd ba = utf8_len patched_letter + 10.
Proof.
  assert (Hnd : NoDup (map snd (get_image_files bare_result))).
  { constructor; [intros []|constructor]. }
  split; [exact Hnd|].
  assert (H : update_reader_page (fun _ _ _ => None) bare_result false
                photo_world
              = Ok (fst (match update_reader_page (fun _ _ _ => None)
                                 bare_result false photo_world with
                         | Ok ba _ => ba
                         | Raised _ _ => (0, 0)
                         end),
                    snd (match update_reader_page (fun _ _ _ => None)
                                 bare_result false photo_world with
                         | Ok ba _ => ba
                         | Raised _ _ => (0, 0)
                         end))
                   (world_of (update_reader_page (fun _ _ _ => None)
                                bare_result false photo_world)))
    by (vm_compute; reflexivity).
  destruct (images_copied_faithfully _ _ _ _ _ H eq_refl Hnd)
    as (Himg & f & new_body & new_content & Hf & Hb & Hs & _ & Hba).
  eexists _, _. split; [exact H|]. split.
  - exact (proj2 (Himg _ _ (or_introl eq_refl))).
  - rewrite Hba. cbn [snd].
    vm_compute in Hf. injection Hf as <-.
    vm_compute in Hb. injection Hb as <-.
    vm_compute in Hs. injection Hs as <-.
    vm_compute. reflexivity.
Defined.

Lemma work_items_numbered_witness :
  exists work,
    @work_list plain_runtime two_workers two_page_world = inr work /\
    (forall wk, In wk work -> (0 <= wk_worker_id wk < 2)%Z) /\
    StronglySorted (fun a b => wk_index a < wk_index b) work.
Proof.
  destruct (@work_list plain_runtime two_workers two_page_world)
    as [e|work] eqn:Ew; [vm_compute in Ew; discriminate Ew|].
  destruct (@work_items_numbered plain_runtime two_workers two_page_world
              work Ew ltac:(reflexivity)) as [Hall Hs].
  exists work. split; [reflexivity|]. split; [|exact Hs].
  intros wk Hin. exact (proj1 (Hall wk Hin)).
Defined.

Lemma nonpositive_workers_raise_witness :
  exists e,
    @main plain_runtime worker_one_fails (mkArgs 0 None false false)
      two_page_world
    = Raised e two_page_world /\
    (e = ValueError \/ e = ZeroDivisionError).
Proof.
  destruct (@nonpositive_workers_raise plain_runtime worker_one_fails
              (mkArgs 0 None false false) two_page_world
              ltac:(vm_compute; discriminate)) as (e & He & Hor & _).
  exists e. split; [exact He | exact Hor].
Defined.

Lemma run_without_images_changes_nothing_witness :
  exists w',
    @main plain_runtime (calm_env (fun _ => LoTimeout)) two_workers
      two_page_world
    = Ok tt w' /\
    pages w' = pages two_page_world /\
    tmpdirs w' = tmpdirs two_page_world /\
    imgdirs w' = imgdirs two_page_world /\
    report_json w' = report_json two_page_world.
Proof.
  destruct (@work_list plain_runtime two_workers two_page_world)
    as [e|work] eqn:Ew; [vm_compute in Ew; discriminate Ew|].
  destruct (@run_without_images_changes_nothing plain_runtime
              (calm_env (fun _ => LoTimeout)) two_workers two_page_world
              work Ew)
    as (w' & Hm & Hp & _ & Ht & Hi & Hr & _).
  - reflexivity.
  - intros wk _ tmpdir. left. reflexivity.
  - exists w'. auto.
Defined.

Lemma no_temporary_directory_left_witness :
  exists w',
    @main plain_runtime worker_one_fails two_workers two_page_world
    = Ok tt w' /\
    tmpdirs w' = tmpdirs two_page_world.
Proof.
  assert (H : @main plain_runtime worker_one_fails two_workers two_page_world
              = Ok tt (world_of (@main plain_runtime worker_one_fails
                                   two_workers two_page_world)))
    by (vm_compute; reflexivity).
  eexists. split; [exact H|].
  exact (proj1 (@no_temporary_directory_left plain_runtime worker_one_fails
                  two_workers two_page_world _ fresh_name_not_empty H)).
Defined.

Lemma convert_one_result_well_formed_witness :
  exists result w',
    @convert_one plain_runtime worker_one_fails first_item two_page_world
    = Ok result w' /\
    get_image_files result <> [] /\
    r_error result = None /\
    NoDup (map snd (get_image_files result)).
Proof.
  destruct (@convert_one plain_runtime worker_one_fails first_item
              two_page_world) as [result w'|e w'] eqn:Ec;
    [|vm_compute in Ec; discriminate Ec].
  pose proof (@convert_one_result_well_formed plain_runtime worker_one_fails
                first_item two_page_world w' result Ec) as (_ & _ & _ & _ & H).
  assert (Hne : get_image_files result <> []).
  { vm_compute in Ec. injection Ec as <- _. vm_compute. discriminate. }
  destruct (H Hne) as (He & _ & _ & _ & _ & _ & Hnd & _).
  exists result, w'. split; [reflexivity|]. split; [exact Hne|].
  split; [exact He | exact Hnd].
Defined.

Lemma build_mapping_sound_complete_witness :
  In ((py "01-letters", py "a.doc"), (py "01-letters", py "a.html"))
     (@build_mapping plain_runtime None two_page_world) /\
  @links_to plain_runtime two_page_world (py "01-letters") (py "a.doc")
    (py "01-letters", py "a.html").
Proof.
  assert (H : In ((py "01-letters", py "a.doc"), (py "01-letters", py "a.html"))
                (@build_mapping plain_runtime None two_page_world))
    by (vm_compute; left; reflexivity).
  split; [exact H|].
  exact (proj2 (proj1 (proj2 (@build_mapping_sound_complete plain_runtime
                                two_page_world None)) _ _ _ H)).
Defined.

Lemma last_page_wins_witness :
  lookup pair_eq_dec (py "01-letters", py "a.doc")
    (@build_mapping plain_runtime None shared_source_world)
  = Some (py "01-letters", py "b.html") /\
  str_le (py "a.html") (py "b.html").
Proof.
  assert (H : lookup pair_eq_dec (py "01-letters", py "a.doc")
                (@build_mapping plain_runtime None shared_source_world)
              = Some (py "01-letters", py "b.html"))
    by (vm_compute; reflexivity).
  split; [exact H|].
  apply (@last_page_wins plain_runtime shared_source_world None _ _ _ H
           (py "01-letters", py "a.html")).
  split; [reflexivity|]. split; [reflexivity|]. split; [reflexivity|].
  exists (linked_page "a.doc"). split; [right; left; reflexivity|].
  vm_compute. reflexivity.
Defined.

Lemma report_accounts_for_every_job_witness :
  exists w' rep,
    @main plain_runtime worker_one_fails two_workers two_page_world
    = Ok tt w' /\
    report_json w' = Some rep /\
    report_accounts false 2 rep.
Proof.
  assert (H : @main plain_runtime worker_one_fails two_workers two_page_world
              = Ok tt (world_of (@main plain_runtime worker_one_fails
                                   two_workers two_page_world)))
    by (vm_compute; reflexivity).
  assert (Hw : exists work,
             @work_list plain_runtime two_workers two_page_world = inr work /\
             length work = 2).
  { eexists. split; vm_compute; reflexivity. }
  destruct Hw as (work & Hw & Hlen).
  destruct (@report_accounts_for_every_job plain_runtime worker_one_fails
              two_workers two_page_world _ work Hw H)
    as [(_ & Hp & _)|(rep & Hr & Ha)].
  - exfalso. vm_compute in Hp. discriminate Hp.
  - eexists _, rep. split; [exact H|]. split; [exact Hr|].
    rewrite Hlen in Ha. exact Ha.
Defined.

Lemma extract_lo_body_piece_witness :
  re_search re_body lo_output <> None /\
  extract_lo_body lo_output = py "<p>x</p>" /\
  stripped (extract_lo_body lo_output).
Proof.
  assert (H : re_search re_body lo_output <> None)
    by (vm_compute; discriminate).
  split; [exact H|]. split; [vm_compute; reflexivity|].
  exact (proj1 (proj2 (extract_lo_body_piece lo_output) H)).
Defined.
